(* ===== verification/_CoqProject ===== *)
-Q . S2P
Prelude.v
GoStrings.v
Base64.v
GoTime.v
Float64.v
Latency.v
Json.v
ApiError.v
OndcAuth.v
Dispatcher.v
Notifier.v
RateLimiter.v
Redis.v
Registry.v
RunLog.v
MemoryStore.v
Aliasing.v
RedisRunLog.v
Payloads.v
SelectBatch.v
Coordinator.v
SessionTypes.v
Pacing.v
Throttle.v
StateStore.v
SessionRedis.v
Mongo.v
Finalize.v
LatencyQueue.v
Manager.v
Callbacks.v
Config.v
Routes.v
SessionApi.v
RunReports.v
Seller.v
HeaderLog.v
Discovery.v
Preorder.v
Report.v
ExportMetrics.v
Workbook.v
Flush.v
RunFiles.v
Artefacts.v
Server.v
Lifecycle.v
Restart.v
