(* ===== verification/Prelude.v ===== *)
(** * Verification of the ONDC seller load tester

    The program plays a buyer application (BAP) against a seller (BPP): a
    session discovers the seller's catalog, and a run sends selects, inits and
    confirms derived from it at a given rate and measures when and how the
    seller calls back.  This library is a shallow embedding of the Go code
    under [src/internal] and [src/cmd] with the theorems that say what it
    does.  File names below are relative to [src/internal].

    ** The parts, from the bottom up

    - [GoStrings], [Base64], [GoTime], [Float64], [Json]: what the program
      uses of Go's standard library (strings and integers as text, base64,
      RFC 3339 times, binary64 arithmetic, decoded JSON trees).  Bytes on the
      wire are a type [B] with class [Bytes]; encoding and decoding JSON is the
      class [JsonCodec] with its round-trip law.
    - [Latency] ([domain/latency]): events, summaries, percentiles.
      [ApiError] ([shared/apierror]): errors as values, the error handler.
    - [OndcAuth] ([shared/ondcauth]), [Seller] ([ports/seller],
      [shared/crypto]), [Registry] ([ports/registry]): signed headers, the
      client that sends them, the cached lookup of keys that verifies them.
      The hash and the signature scheme are the class [Crypto].  [HeaderLog]:
      what is logged of a request and of a throttle.
    - [Dispatcher], [Notifier] ([domain/pipeline/dispatcher.go],
      [callback_notifier.go]), [RateLimiter] ([domain/session]), [Pacing]
      ([handlers/testing/routes.go]), [LatencyQueue]
      ([handlers/callbacks/routes.go]): the concurrent pieces, each a state and
      a function that performs one atomic action of the thread a scheduler
      picks; a schedule is a list of choices ([run_sched] below), and theorems
      hold for every schedule.  [Throttle]: the passes of [Pacing] answered by
      the limiter of [RateLimiter].
    - [Redis] ([shared/redis]) over a server given by class [RedisServer];
      [RunLog] with [MemoryStore] and [RedisRunLog] ([shared/runlog]): the
      interface of the run log, the abstract log it promises and two
      implementations that refine it ([RunLogRefines]).  [Aliasing]: the
      in-memory log with the buffers of requests it keeps references to.
    - [SessionTypes], [StateStore], [SessionRedis] ([domain/session],
      [ports/session/redis_store.go]): the records, the interface as a type of
      calls with an abstract store, and the Redis store that refines it
      ([StateStoreRefines]).  [Mongo] ([ports/session/mongo_store.go]): the
      persistent store over collections ([MongoServer]).  [Manager]
      ([domain/session/manager.go]): every method as a program ([prog]) of
      calls to both stores.
    - [Payloads], [SelectBatch], [Coordinator] ([domain/pipeline]): the
      requests that are derived, prepared and sent.
    - [Callbacks] ([handlers/callbacks]), [SessionApi], [RunReports],
      [Discovery], [Finalize], [Preorder] ([handlers/testing/routes.go],
      [domain/pipeline/search.go]), [Config] ([config/config.go]): the HTTP
      handlers.  Their state is the [world] of [Callbacks]: the session state,
      the persistent store, the run log, the queue of latency events, the
      notified callbacks and the cache of keys.  Handlers are functions of the
      world; what waits while the rest of the process acts takes the requests
      that arrive meanwhile as an argument ([Discovery]) or is a step relation
      interleaved with them ([Preorder]).
    - [Server] ([config/di/container.go]): the components wired from the
      configuration, and all requests, callbacks and goroutines of runs as one
      step relation.  [Routes]: the routes the [Register] functions make, and
      which handler a path reaches.  [Lifecycle] ([cmd/server/main.go],
      [BuildContainer], [Close], opening and closing of [shared/redis] and
      [shared/mongo]): the process from its start to its end, as the trace of
      what it asks of the outside.  [Restart]: the server after the process was
      stopped and started again.
    - [Report] ([domain/pipeline/report.go]), [ExportMetrics] and [Workbook]
      ([cmd/export_run_metrics]): the two offline reports; the spreadsheet
      library is the class [Excel].
    - [Flush], [RunFiles]: what a run leaves behind, followed through the
      components: the run log, [flushRun], and the documents of the database
      or the files and the report read back from them.  [Artefacts]: the
      files that are only written ([WriteRunReport], [saveSelectPool]).

    ** What the theorems show

    - Concurrency: the dispatch of a batch ends, never exceeds its limit and
      gives one result per request under every interleaving, and without
      throttle and cancellation is the sequential loop; a waiting run is
      always woken and never over-counts; no latency event is lost or written
      twice; every loop that calls a paced throttle keeps the rate in every
      window, however many loops share it ([Pacing]; together they can exceed
      it), and so does a token bucket, up to the skew of the clocks of its
      callers ([RateLimiter]); a throttle whose clock comes to be two seconds
      after the latest reading the limiter has had, and that is alone in the
      last second, is granted ([Throttle]);
      the goroutine of a run ends, sends its stages in order and leaves its
      session idle ([Preorder]); on the whole server, a busy session always
      has a goroutine that frees it, and without stop requests no session has
      two runs under way unless two of its starts overlap, in which case it
      can ([Server]).
    - The process: it listens exactly when both stores answered, its shutdown
      is in order, and which connections an unsuccessful one leaves open
      ([Lifecycle]); a run that is under way when it stops leaves its session
      busy ([Restart]).  Routing does not depend on the order of registration
      ([Routes]).
    - Refinement: the two run logs are interchangeable; the Redis session
      store is a map within the lifetime of its entries; what a method of the
      manager does on the abstract store it does on any such store
      ([Manager.run_transfer]).
    - Accounting: the counters, outcomes, run log and notifications of a run
      agree after any callbacks; a finalized run has one event per transaction
      and its summaries count them; percentiles are order statistics; what is
      saved of a run; the file report agrees with the database's percentiles.
      A run flushed to the database is there document by document ([Flush]); the
      report of a run flushed to files counts what its log had recorded
      ([RunFiles]); the exported workbook holds the rows of the requested runs
      and nothing else ([Workbook]).
    - Sessions: which are kept, and what every request of the API is answered
      ([SessionApi]); that creating one replaces the previous one, on every
      store ([Manager]); when a run may start and what a refused start leaves
      behind ([Preorder]).
    - Security: a header is parsed back and verifies for exactly its lifetime;
      which callbacks pass verification; cached keys are the registry's; what
      is sent is signed, and its log reveals no more of the key than the first
      characters of a signature; a catalog comes only from an accepted answer
      to the session's own search, and is saved when it comes in time and the
      request's context lasts ([Discovery]).
    - Payloads: batches have the size and the transactions asked for, orders
      are consistent with the catalog, enriched inits and confirms are
      complete.

    Some theorems state defects precisely (a [Notify] racing [Reset], a flush
    to the wrong directory, a coordinator and a throttle shared by sessions, two
    starts of one session that both run, a stop that does not stop, a
    discovery that stays pending, an expired session that returns, a session
    lost to a restart, a limiter whose script is gone).

    ** Conventions and bounds

    Integers are [Z]; where Go's [int64] can wrap, [wrap64] is written out.
    Times are nanoseconds since the Unix epoch in UTC, also in the database,
    where a date in fact keeps milliseconds.  Where fuel is used it
    is a measure that is proved sufficient (the fuel of a dispatch is eight
    steps per request and three more, [Dispatcher.fuel]; digits of a number
    are bounded by 20); termination theorems bound the number of steps.
    Maps that are iterated take the order as an argument with the hypothesis
    that it is a permutation.  Stores behave as documented and do not fail
    spontaneously: the error of a call is one its contract gives.  Each HTTP
    handler runs atomically with respect to the others, except the waits
    named above and the start of a run, which is two steps of the server
    ([start_checks] and [start_commit] of [Preorder]): anything may come
    between the check that no run is active and the writes that record one.
    The races inside of a component are those of its own model.  The context
    of a request, which ends when the server shuts down, can end at any moment
    of a discovery, the handler that waits for long; the other handlers are
    taken to be over before it.
    A panic, which nothing recovers, is an [outcome] and ends the process.
    In the steps of a run a call of its throttle returns; [Throttle] says when
    it does, and that it does not once the limiter's script is lost.
    A JSON field of a struct is found by its name without regard to case, the
    last one wins; a file is read through [readFile], paths are joined without
    being cleaned.  The text of an error leaves out the values it formats
    where nothing reads them.  Byte slices are values: the body of a request
    is taken as copied when it is recorded, which is so when every request has
    a buffer of its own; [Aliasing] has what happens when Fiber reuses one.
    Memory is unbounded.

    ** Not modelled

    What [Fiber], the Redis and the Mongo drivers and the spreadsheet library
    do inside: decoding of requests, CORS, pooling and time limits of
    connections, panes and column widths, and the limits of a sheet in rows and
    of a cell in characters.  Also the creation of the
    directory of runs at start, failing writes of the files of a run, the text of the
    documentation page, and log lines other than those of [HeaderLog].  The
    remaining lines of the program are imports, interfaces, request types and
    constructors whose fields are arguments of the definitions.  Random
    choices and fresh identifiers are the classes [Rand] and [Env]. *)
From stdpp Require Export prelude gmap strings sorting.
From Stdlib Require Export ZArith Lia.

(** ** Notations and results

    A fallible Go function returns [(T, error)].  The callers in this
    repository always inspect [err] first, so a pair is modelled by a
    [result]: the value when [err == nil], the error otherwise.  Where the
    code uses the value although [err != nil] the model returns a pair. *)
Declare Scope go_scope.
Delimit Scope go_scope with go.

Inductive result (E A : Type) : Type :=
  | Ok (a : A)
  | Err (e : E).
Arguments Ok {E A} a.
Arguments Err {E A} e.

(** A call that may panic.  A panic is not recovered anywhere in the program:
    it ends the process. *)
Inductive outcome (A : Type) : Type := Done (a : A) | Panic.
Arguments Done {A} a.
Arguments Panic {A}.

Definition is_ok {E A} (r : result E A) : bool :=
  match r with Ok _ => true | Err _ => false end.

Lemma is_ok_Ok {E A} (r : result E A) : is_ok r = true → ∃ a, r = Ok a.
Proof. destruct r as [a|]; [by exists a|done]. Qed.

Definition done_ok {E A} (o : outcome (result E A)) : bool :=
  match o with Done r => is_ok r | Panic => false end.

Lemma done_ok_Done {E A} (o : outcome (result E A)) : done_ok o = true → ∃ a, o = Done (Ok a).
Proof. destruct o as [[a|]|]; [by exists a|done..]. Qed.

Definition res_bind {E A B} (r : result E A) (k : A → result E B) : result E B :=
  match r with Ok a => k a | Err e => Err e end.

Definition res_opt {E A} (r : result E A) : option A :=
  match r with Ok a => Some a | Err _ => None end.

Notation "'try' x <- r ;; k" := (res_bind r (fun x => k))
  (at level 100, x pattern, r at next level, right associativity) : go_scope.

#[export] Instance result_eq_dec {E A} `{EqDecision E, EqDecision A} :
  EqDecision (result E A).
Proof. solve_decision. Defined.

(** ** Machine integers: Go [int] and [int64] on a 64-bit platform *)
Section Int64.
Local Open Scope Z_scope.

(** Two's complement wrap-around to 64 bits. *)
Definition wrap64 (z : Z) : Z := (z + 2 ^ 63) `mod` 2 ^ 64 - 2 ^ 63.

Definition in_int64 (z : Z) : Prop := - 2 ^ 63 ≤ z < 2 ^ 63.

Lemma wrap64_range z : in_int64 (wrap64 z).
Proof.
  unfold in_int64, wrap64.
  pose proof (Z.mod_pos_bound (z + 2 ^ 63) (2 ^ 64) eq_refl). lia.
Qed.

Lemma wrap64_id z : in_int64 z → wrap64 z = z.
Proof. unfold in_int64, wrap64. intros. rewrite Z.mod_small; lia. Qed.

Lemma wrap64_idem z : wrap64 (wrap64 z) = wrap64 z.
Proof. apply wrap64_id, wrap64_range. Qed.

Lemma wrap64_add_l a b : wrap64 (wrap64 a + b) = wrap64 (a + b).
Proof.
  unfold wrap64.
  replace ((a + 2 ^ 63) `mod` 2 ^ 64 - 2 ^ 63 + b + 2 ^ 63)
    with ((a + 2 ^ 63) `mod` 2 ^ 64 + b) by lia.
  rewrite Zplus_mod_idemp_l. do 2 f_equal. lia.
Qed.

(** The quotient characterised by its bounds. *)
Lemma div_floor a b q : 0 < b → q * b ≤ a < (q + 1) * b → a / b = q.
Proof. intros Hb Hq. symmetry. apply Z.div_unique_pos with (a - q * b); lia. Qed.
End Int64.

Create HintDb go discriminated.
#[export] Hint Resolve wrap64_range : go.
#[export] Hint Rewrite wrap64_idem wrap64_add_l : go.

(** ** Tactics of the development *)

(** Destructs every existential and conjunction of the context. *)
Ltac split_hyps :=
  repeat match goal with
  | H : ∃ _, _ |- _ => destruct H
  | H : _ ∧ _ |- _ => destruct H
  end.

(** Case analysis on the conditionals of the goal, then the obvious. *)
Ltac case_goal :=
  repeat (case_match; try case_decide); simplify_eq/=; try done.

(** Turns the boolean tests of the code in the context into propositions. *)
Ltac bool_hyps :=
  repeat match goal with
  | H : _ && _ = true |- _ => apply andb_true_iff in H as [??]
  | H : _ || _ = false |- _ => apply orb_false_iff in H as [??]
  | H : negb _ = true |- _ => apply negb_true_iff in H
  | H : negb _ = false |- _ => apply negb_false_iff in H
  | H : (_ =? _)%Z = true |- _ => apply Z.eqb_eq in H
  | H : (_ =? _)%Z = false |- _ => apply Z.eqb_neq in H
  | H : (_ <=? _)%Z = true |- _ => apply Z.leb_le in H
  | H : (_ <=? _)%Z = false |- _ => apply Z.leb_gt in H
  | H : (_ <? _)%Z = true |- _ => apply Z.ltb_lt in H
  | H : (_ <? _)%Z = false |- _ => apply Z.ltb_ge in H
  | H : (_ =? _)%string = true |- _ => apply String.eqb_eq in H
  | H : (_ =? _)%string = false |- _ => apply String.eqb_neq in H
  | H : bool_decide _ = true |- _ => apply bool_decide_eq_true in H
  | H : bool_decide _ = false |- _ => apply bool_decide_eq_false in H
  end.

(** ** Lists shared by the components *)
Section Lists.
Context {A : Type}.
Implicit Types (l : list A) (p : A → bool).

(** Number of elements satisfying a boolean test: the counting loops of
    the code ([countSuccess], [countErrors], ...). *)
Fixpoint countb p l : nat :=
  match l with
  | [] => 0
  | x :: l' => (if p x then 1 else 0) + countb p l'
  end.

Lemma countb_app p l1 l2 : countb p (l1 ++ l2) = countb p l1 + countb p l2.
Proof. induction l1 as [|x l1 IH]; simpl; [done|]. rewrite IH. lia. Qed.

Lemma countb_compl p l : countb p l + countb (λ x, negb (p x)) l = length l.
Proof. induction l as [|x l IH]; simpl; [done|]. destruct (p x); simpl; lia. Qed.

Lemma countb_le p l : countb p l ≤ length l.
Proof. pose proof (countb_compl p l). lia. Qed.

Lemma countb_perm p l1 l2 : l1 ≡ₚ l2 → countb p l1 = countb p l2.
Proof. induction 1; simpl; lia. Qed.

Lemma countb_insert p l i x y :
  l !! i = Some x →
  countb p (<[i:=y]> l) + (if p x then 1 else 0)
    = countb p l + (if p y then 1 else 0).
Proof.
  revert i. induction l as [|z l IH]; intros [|i] H; simplify_eq/=; [lia|].
  specialize (IH _ H). lia.
Qed.

Lemma countb_pos p l : 0 < countb p l → ∃ i x, l !! i = Some x ∧ p x = true.
Proof.
  induction l as [|x l IH]; simpl; [lia|]. destruct (p x) eqn:Hx; simpl; intros.
  - by exists 0, x.
  - destruct IH as (i & y & ? & ?); [lia|]. by exists (S i), y.
Qed.

Lemma countb_zero p l i x : countb p l = 0 → l !! i = Some x → p x = false.
Proof.
  revert i. induction l as [|y l IH]; intros [|i] H0 H; simplify_eq/=.
  - by destruct (p x).
  - apply (IH i); [lia|done].
Qed.

Lemma NoDup_fmap_filter_lookup {B} (f : A → B) (P : A → Prop) `{∀ x, Decision (P x)}
    l i j x y :
  NoDup (f <$> filter P l) → l !! i = Some x → l !! j = Some y → P x → P y →
  f x = f y → i = j.
Proof.
  revert i j. induction l as [|z l IH]; intros i j Hnd Hi Hj Hx Hy He; [done|].
  rewrite filter_cons in Hnd.
  destruct i as [|i], j as [|j]; simplify_eq/=; [done| | |].
  - rewrite decide_True in Hnd by done. apply NoDup_cons in Hnd as [[] _].
    rewrite He. apply list_elem_of_fmap_2, list_elem_of_filter.
    split; [done|]. by eapply list_elem_of_lookup_2.
  - rewrite decide_True in Hnd by done. apply NoDup_cons in Hnd as [[] _].
    rewrite <- He. apply list_elem_of_fmap_2, list_elem_of_filter.
    split; [done|]. by eapply list_elem_of_lookup_2.
  - f_equal. eapply IH; eauto. case_decide; [|done]. by apply NoDup_cons in Hnd as [_ ?].
Qed.

Lemma sum_list_insert (f : A → nat) l i x y :
  l !! i = Some x →
  sum_list_with f (<[i:=y]> l) + f x = sum_list_with f l + f y.
Proof.
  revert i. induction l as [|z l IH]; intros [|i] H; simplify_eq/=; [lia|].
  specialize (IH _ H). lia.
Qed.

Lemma countb_ext p q l : (∀ x, x ∈ l → p x = q x) → countb p l = countb q l.
Proof.
  induction l as [|x l IH]; intros H; simpl; [done|].
  rewrite (H x) by set_solver. rewrite IH; [done|]. set_solver.
Qed.
End Lists.

(** Picking the elements at given positions. *)
Lemma omap_lookup_length {A} (l : list A) idxs :
  (∀ i, i ∈ idxs → i < length l) → length (omap (λ i, l !! i) idxs) = length idxs.
Proof.
  induction idxs as [|i idxs IH]; intros H; simpl; [done|].
  destruct (lookup_lt_is_Some_2 l i) as [x Hx]; [apply H; set_solver|].
  rewrite Hx. simpl. f_equal. apply IH. intros j Hj. apply H. set_solver.
Qed.

Lemma countb_fmap {A B} (f : A → B) (p : B → bool) (l : list A) :
  countb p (f <$> l) = countb (λ x, p (f x)) l.
Proof. induction l as [|x l IH]; csimpl; [done|]. by rewrite IH. Qed.

(** [for x in l { out[key(x)] = x }]: the elements indexed by a key. *)
Definition index_by `{Countable K} {A} (key : A → K) (l : list A) : gmap K A :=
  foldl (λ m x, <[key x := x]> m) ∅ l.

Lemma index_by_lookup `{Countable K} {A} (key : A → K) l k x0 :
  x0 ∈ l → key x0 = k → (∀ x, x ∈ l → key x = k → x = x0) → index_by key l !! k = Some x0.
Proof.
  intros Hin Hk Hu. unfold index_by. induction l as [|x l IH] using rev_ind;
    [by apply elem_of_nil in Hin|].
  rewrite foldl_app. simpl. destruct (decide (key x = k)) as [E|E].
  - rewrite (Hu x) by set_solver. rewrite Hk. by rewrite lookup_insert_eq.
  - rewrite lookup_insert_ne by done. apply IH; [|set_solver].
    apply elem_of_app in Hin as [?|<-%list_elem_of_singleton]; done.
Qed.

Lemma index_by_none `{Countable K} {A} (key : A → K) l k :
  (∀ x, x ∈ l → key x ≠ k) → index_by key l !! k = None.
Proof.
  intros Hn. unfold index_by. induction l as [|x l IH] using rev_ind; [apply lookup_empty|].
  rewrite foldl_app. simpl. rewrite lookup_insert_ne; [apply IH; set_solver|].
  apply Hn. set_solver.
Qed.

(** ** Reachability by the steps of a transition function

    The concurrent components are given as a function [exec] that performs
    one atomic action chosen by a scheduler; a run is a list of choices. *)
Section Runs.
Context {St Ch : Type} (exec : Ch → St → option St).

Fixpoint run_sched (cs : list Ch) (s : St) : option St :=
  match cs with
  | [] => Some s
  | c :: cs' => match exec c s with Some s' => run_sched cs' s' | None => None end
  end.

Definition reachable (s0 s : St) : Prop := ∃ cs, run_sched cs s0 = Some s.

Lemma run_sched_cons c cs s s1 :
  exec c s = Some s1 → run_sched (c :: cs) s = run_sched cs s1.
Proof. simpl. by intros ->. Qed.

Lemma run_sched_app cs1 cs2 s :
  run_sched (cs1 ++ cs2) s =
    match run_sched cs1 s with Some s' => run_sched cs2 s' | None => None end.
Proof.
  revert s. induction cs1 as [|c cs1 IH]; intros s; simpl; [done|].
  destruct (exec c s); [apply IH|done].
Qed.

(** The state a schedule ends in, for evaluation on concrete inputs. *)
Definition run_to (cs : list Ch) (s0 : St) : St := default s0 (run_sched cs s0).
Definition enabled (cs : list Ch) (s0 : St) : bool :=
  match run_sched cs s0 with Some _ => true | None => false end.

Lemma run_to_reachable cs s0 : enabled cs s0 = true → reachable s0 (run_to cs s0).
Proof.
  unfold enabled, run_to. intros H. exists cs. by destruct (run_sched cs s0).
Qed.

(** Invariants of single steps hold along every schedule. *)
Lemma run_sched_invariant (I : St → Prop) :
  (∀ c s s', exec c s = Some s' → I s → I s') →
  ∀ cs s s', run_sched cs s = Some s' → I s → I s'.
Proof.
  intros Hstep cs. induction cs as [|c cs IH]; intros s s'; simpl; intros H HI;
    simplify_eq; [done|].
  destruct (exec c s) eqn:He; [|done]. eauto.
Qed.

(** A measure that every step from a state of the invariant decreases
    bounds the length of a schedule. *)
Lemma run_sched_measure (I : St → Prop) (m : St → nat) :
  (∀ c s s', exec c s = Some s' → I s → I s') →
  (∀ c s s', exec c s = Some s' → I s → m s' < m s) →
  ∀ cs s s', run_sched cs s = Some s' → I s → length cs + m s' ≤ m s.
Proof.
  intros HI Hm cs. induction cs as [|c cs IH]; intros s s'; simpl; intros H Hs;
    simplify_eq; [lia|].
  destruct (exec c s) as [t|] eqn:He; [|done].
  specialize (Hm _ _ _ He Hs). specialize (IH _ _ H (HI _ _ _ He Hs)). lia.
Qed.
End Runs.

(** ** Interleavings

    The effects of threads that run concurrently, each list in its own
    order. *)
Section Interleave.
Context {A : Type}.
Implicit Types (ls : list (list A)) (l tr seen : list A).

Inductive interleave : list (list A) → list A → Prop :=
  | interleave_nil ls : Forall (λ l, l = []) ls → interleave ls []
  | interleave_step ls i x l tr :
      ls !! i = Some (x :: l) → interleave (<[i := l]> ls) tr → interleave ls (x :: tr).

Lemma concat_take_head ls i x l :
  ls !! i = Some (x :: l) → concat ls ≡ₚ x :: concat (<[i := l]> ls).
Proof.
  revert i. induction ls as [|l' ls IH]; intros [|i] Hi; simplify_eq/=; [done|].
  rewrite (IH i Hi). by rewrite Permutation_middle.
Qed.

Lemma interleave_perm ls tr : interleave ls tr → tr ≡ₚ concat ls.
Proof.
  induction 1 as [ls Hn|ls i x l tr Hi _ IH].
  - induction Hn as [|l ls -> _ IH]; done.
  - by rewrite IH, (concat_take_head _ _ _ _ Hi).
Qed.

(** Every element that satisfies [P] comes after one that [R] asks for. *)
Definition preceded (P : A → Prop) (R : A → A → Prop) seen l : Prop :=
  ∀ l1 y l2, l = l1 ++ y :: l2 → P y → ∃ z, z ∈ seen ++ l1 ∧ R z y.

Lemma interleave_preceded P R ls tr :
  interleave ls tr → ∀ seen, (∀ l, l ∈ ls → preceded P R seen l) → preceded P R seen tr.
Proof.
  induction 1 as [ls Hn|ls i x l tr Hi _ IH]; intros seen Hls l1 y l2 E Hy.
  { by destruct l1. }
  assert (preceded P R seen (x :: l)) as Hx by (apply Hls; by eapply list_elem_of_lookup_2).
  destruct l1 as [|x' l1]; simplify_eq/=.
  - destruct (Hx [] y l eq_refl Hy) as (z & ? & ?). by exists z.
  - rename x' into x.
    destruct (IH (seen ++ [x])) with l1 y l2 as (z & Hz & ?); [|done|done|].
    2: { exists z. split; [|done]. by rewrite <- app_assoc in Hz. }
    intros l' Hl'. apply list_elem_of_lookup_1 in Hl' as [j Hj].
    destruct (decide (i = j)) as [->|].
    + rewrite list_lookup_insert_eq in Hj by (by eapply lookup_lt_Some). simplify_eq.
      intros k1 w k2 -> Hw. destruct (Hx (x :: k1) w k2 eq_refl Hw) as (z & ? & ?).
      exists z. by rewrite <- app_assoc.
    + rewrite list_lookup_insert_ne in Hj by done. intros k1 w k2 -> Hw.
      destruct (Hls _ (list_elem_of_lookup_2 _ _ _ Hj) k1 w k2 eq_refl Hw) as (z & Hz & ?).
      exists z. split; [|done]. set_solver.
Qed.
End Interleave.
