(* ===== verification/GoStrings.v ===== *)
(** * The functions of Go's [strings] package the program uses

    Go strings are byte strings; a [string] of Rocq is a list of 8-bit
    [ascii] characters, so indexing and lengths agree.  Every separator the
    code searches for is a single ASCII byte. *)
From stdpp Require Import prelude strings.
From Stdlib Require Import Ascii String.
From S2P Require Import Prelude.
Local Open Scope string_scope.

Implicit Types (s t : string) (c : ascii).

(** Does the byte occur in the string? *)
Fixpoint has_char c s : bool :=
  match s with
  | EmptyString => false
  | String a s' => Ascii.eqb a c || has_char c s'
  end.

(** [strings.HasPrefix]. *)
Definition has_prefix (p s : string) : bool := String.prefix p s.

(** The text before and after the first occurrence of a byte. *)
Fixpoint cut c s : option (string * string) :=
  match s with
  | EmptyString => None
  | String a s' =>
      if Ascii.eqb a c then Some (EmptyString, s')
      else match cut c s' with
           | Some (l, r) => Some (String a l, r)
           | None => None
           end
  end.

(** [strings.SplitN(s, sep, n)] for [n >= 1]. *)
Fixpoint splitn (n : nat) c s : list string :=
  match n with
  | 0 => []
  | S n' =>
      match n' with
      | 0 => [s]
      | _ => match cut c s with
             | Some (l, r) => l :: splitn n' c r
             | None => [s]
             end
      end
  end.

(** [strings.Split(s, sep)]: one more part than there are separators. *)
Definition split c s : list string := splitn (S (String.length s)) c s.

(** [strings.TrimPrefix]. *)
Definition trim_prefix (p s : string) : string :=
  if has_prefix p s
  then String.substring (String.length p) (String.length s - String.length p) s
  else s.

(** [strings.TrimSpace] on ASCII: the white space of [unicode.IsSpace] below
    0x80 is tab, newline, vertical tab, form feed, return and blank. *)
Definition is_space c : bool :=
  let n := nat_of_ascii c in ((9 <=? n) && (n <=? 13))%nat || (n =? 32)%nat.

Fixpoint trim_left (p : ascii → bool) s : string :=
  match s with
  | EmptyString => EmptyString
  | String a s' => if p a then trim_left p s' else s
  end.

Fixpoint trim_right (p : ascii → bool) s : string :=
  match s with
  | EmptyString => EmptyString
  | String a s' =>
      match trim_right p s' with
      | EmptyString => if p a then EmptyString else String a EmptyString
      | r => String a r
      end
  end.

Definition trim_space s : string := trim_right is_space (trim_left is_space s).

(** [strings.Trim(s, cutset)] for a cut set of one byte. *)
Definition trim_char c s : string :=
  trim_right (Ascii.eqb c) (trim_left (Ascii.eqb c) s).

(** The separator of the program's composite keys. *)
Definition colon : ascii := ":"%char.
Definition no_colon (s : string) : Prop := has_char colon s = false.

(** ** Lemmas *)
#[local] Arguments String.append !_ _ /.

Lemma app_assoc_str s t u : (s ++ t) ++ u = s ++ (t ++ u).
Proof. induction s; simpl; congruence. Qed.

Lemma app_nil_str s : s ++ "" = s.
Proof. induction s; simpl; congruence. Qed.

Lemma app_inv_head_str s t u : s ++ t = s ++ u → t = u.
Proof. induction s; simpl; intros H; simplify_eq; auto. Qed.

Lemma length_app_str s t : String.length (s ++ t) = String.length s + String.length t.
Proof. induction s; simpl; congruence. Qed.

Lemma has_char_app c s t : has_char c (s ++ t) = has_char c s || has_char c t.
Proof. induction s; simpl; [done|]. rewrite IHs. apply orb_assoc. Qed.

Lemma cut_app c s t :
  has_char c s = false → cut c (s ++ String c t) = Some (s, t).
Proof.
  induction s as [|a s IH]; simpl; intros H.
  - by rewrite Ascii.eqb_refl.
  - apply orb_false_iff in H as [Ha Hs]. by rewrite Ha, IH.
Qed.

Lemma cut_none c s : has_char c s = false → cut c s = None.
Proof.
  induction s as [|a s IH]; simpl; intros H; [done|].
  apply orb_false_iff in H as [Ha Hs]. by rewrite Ha, IH.
Qed.

Lemma cut_some c s l r :
  cut c s = Some (l, r) → s = l ++ String c r ∧ has_char c l = false.
Proof.
  revert l. induction s as [|a s IH]; simpl; intros l H; [done|].
  destruct (Ascii.eqb_spec a c) as [->|Hne]; simplify_eq/=; [done|].
  destruct (cut c s) as [[l' r']|] eqn:E; simplify_eq/=.
  destruct (IH _ eq_refl) as [-> Hl]. split; [done|].
  rewrite Hl, orb_false_r. by apply Ascii.eqb_neq.
Qed.

Lemma has_prefix_app p s : has_prefix p (p ++ s) = true.
Proof.
  unfold has_prefix. induction p as [|a p IH]; simpl; [by destruct s|].
  destruct (ascii_dec a a); [apply IH|done].
Qed.

Lemma has_prefix_true p s : has_prefix p s = true → ∃ t, s = p ++ t.
Proof.
  unfold has_prefix. revert s. induction p as [|a p IH]; intros s H; [by exists s|].
  destruct s as [|b s]; [done|]. simpl in H.
  destruct (ascii_dec a b) as [->|]; [|done].
  destruct (IH _ H) as [t ->]. by exists t.
Qed.

(** Two strings with a separator-free prefix agree on both sides of the
    separator: the injectivity of every [a + ":" + b] key of the program. *)
Lemma sep_inj c s1 t1 s2 t2 :
  has_char c s1 = false → has_char c s2 = false →
  s1 ++ String c t1 = s2 ++ String c t2 → s1 = s2 ∧ t1 = t2.
Proof.
  intros H1 H2 E. pose proof (cut_app c s1 t1 H1) as C1.
  rewrite E, cut_app in C1 by done. by simplify_eq.
Qed.

(** A string without the separator is no composite key. *)
Lemma no_colon_sep (p a x : string) : no_colon x → x ≠ p ++ String colon a.
Proof.
  unfold no_colon. intros Hx ->. rewrite has_char_app in Hx.
  apply orb_false_iff in Hx as [_ Hx]. discriminate.
Qed.

(** A key [r2 + ":" + t] starts with [r1 + ":"] exactly when [r1 = r2]. *)
Lemma has_prefix_sep c r1 r2 t :
  has_char c r1 = false → has_char c r2 = false →
  has_prefix (r1 ++ String c "") (r2 ++ String c t) = bool_decide (r1 = r2).
Proof.
  intros H1 H2. case_bool_decide as Heq.
  - subst r2. replace (r1 ++ String c t) with ((r1 ++ String c "") ++ t)
      by (rewrite app_assoc_str; done).
    apply has_prefix_app.
  - destruct (has_prefix _ _) eqn:Hp; [|done].
    apply has_prefix_true in Hp as [u Hu]. rewrite app_assoc_str in Hu.
    apply (sep_inj c r2 t r1 u) in Hu as [-> _]; done.
Qed.

Lemma splitn_two c s t :
  has_char c s = false → splitn 2 c (s ++ String c t) = [s; t].
Proof. intros H. simpl. by rewrite cut_app. Qed.

Lemma splitn_three c s t u :
  has_char c s = false → has_char c t = false →
  splitn 3 c (s ++ String c (t ++ String c u)) = [s; t; u].
Proof.
  intros H1 H2. unfold splitn; fold splitn.
  rewrite (cut_app c s _ H1). by rewrite (cut_app c t _ H2).
Qed.

(** With enough parts allowed a string with no separator is one part. *)
Lemma splitn_none c n s : has_char c s = false → splitn (S n) c s = [s].
Proof. intros H. destruct n; simpl; [done|]. by rewrite cut_none. Qed.

Lemma splitn_cons c n s t :
  has_char c s = false → splitn (S (S n)) c (s ++ String c t) = s :: splitn (S n) c t.
Proof. intros H. cbn [splitn]. by rewrite cut_app. Qed.

(** The part limit of [split] is never reached. *)
Lemma splitn_enough c s n m :
  String.length s < n → String.length s < m → splitn n c s = splitn m c s.
Proof.
  revert s m. induction n as [|n IH]; intros s m Hn Hm; [lia|].
  destruct m as [|m]; [lia|].
  destruct (cut c s) as [[l r]|] eqn:E.
  - pose proof E as E'. apply cut_some in E' as [-> _].
    rewrite length_app_str in *. simpl in *.
    destruct n as [|n]; [lia|]. destruct m as [|m]; [lia|].
    rewrite E. f_equal. apply IH; lia.
  - destruct n, m; simpl; rewrite ?E; done.
Qed.

Lemma split_none c s : has_char c s = false → split c s = [s].
Proof. apply splitn_none. Qed.

Lemma split_cons c s t :
  has_char c s = false → split c (s ++ String c t) = s :: split c t.
Proof.
  intros H. unfold split. rewrite length_app_str. cbn [String.length].
  rewrite Nat.add_succ_r, splitn_cons by done. f_equal.
  apply splitn_enough; lia.
Qed.

Lemma trim_prefix_app p s : trim_prefix p (p ++ s) = s.
Proof.
  unfold trim_prefix. rewrite has_prefix_app, length_app_str.
  replace (String.length p + String.length s - String.length p)
    with (String.length s) by lia.
  induction p as [|a p IH]; simpl; [|done].
  induction s as [|b s IH]; simpl; [done|]. by rewrite IH.
Qed.

Lemma trim_right_no_last p s c :
  p c = false → trim_right p (s ++ String c "") = s ++ String c "".
Proof.
  intros Hc. induction s as [|a s IH]; simpl; [by rewrite Hc|].
  rewrite IH. by destruct s.
Qed.

#[export] Hint Rewrite app_assoc_str app_nil_str has_char_app : go.
#[export] Hint Resolve cut_app cut_none has_prefix_app : go.

(** ** Decimal numbers: [strconv.FormatInt], [strconv.ParseInt] in base ten *)

Definition digit (d : Z) : ascii := ascii_of_nat (48 + Z.to_nat d).
Definition digit_val (c : ascii) : option Z :=
  let v := (Z.of_nat (nat_of_ascii c) - 48)%Z in
  if ((0 <=? v) && (v <=? 9))%Z then Some v else None.

(** The digits of [z >= 0] in front of [acc]; each step consumes one. *)
Fixpoint dec_digits (fuel : nat) (z : Z) (acc : string) : string :=
  match fuel with
  | O => acc
  | S fuel =>
      if (z <? 10)%Z then String (digit z) acc
      else dec_digits fuel (z / 10) (String (digit (z mod 10)) acc)
  end.

(** Twenty digits hold every 64-bit number. *)
Definition FormatInt (z : Z) : string :=
  if (z <? 0)%Z then String "-"%char (dec_digits 20 (- z) "") else dec_digits 20 z "".

Fixpoint parse_digits (acc : Z) s : option Z :=
  match s with
  | EmptyString => Some acc
  | String c s' =>
      match digit_val c with
      | Some d => parse_digits (10 * acc + d) s'
      | None => None
      end
  end.

Definition parse_nonempty s : option Z :=
  match s with EmptyString => None | _ => parse_digits 0 s end.

(** The value [strconv.ParseInt(s, 10, 64)] returns and whether [err == nil];
    out of range the value is the nearest bound, on a syntax error it is 0. *)
Definition ParseInt s : Z * bool :=
  let r := match s with
           | String c s' =>
               if Ascii.eqb c "-" then option_map Z.opp (parse_nonempty s')
               else if Ascii.eqb c "+" then parse_nonempty s' else parse_nonempty s
           | EmptyString => None
           end in
  match r with
  | None => (0%Z, false)
  | Some z =>
      if (z <? - 2 ^ 63)%Z then ((- 2 ^ 63)%Z, false)
      else if (2 ^ 63 <=? z)%Z then ((2 ^ 63 - 1)%Z, false) else (z, true)
  end.

Lemma digit_val_digit d : (0 ≤ d < 10)%Z → digit_val (digit d) = Some d.
Proof.
  intros Hd. unfold digit_val, digit. rewrite nat_ascii_embedding by lia.
  replace (Z.of_nat (48 + Z.to_nat d) - 48)%Z with d by lia.
  by replace ((0 <=? d) && (d <=? 9))%Z with true
    by (symmetry; apply andb_true_iff; split; apply Z.leb_le; lia).
Qed.

Lemma parse_dec_digits fuel z acc :
  (0 ≤ z < 10 ^ Z.of_nat fuel)%Z →
  parse_digits 0 (dec_digits fuel z acc) = parse_digits z acc.
Proof.
  revert z acc. induction fuel as [|fuel IH]; intros z acc Hz.
  { change (10 ^ Z.of_nat 0)%Z with 1%Z in Hz. by replace z with 0%Z by lia. }
  cbn [dec_digits]. destruct (Z.ltb_spec z 10).
  - cbn [parse_digits]. rewrite digit_val_digit by lia. f_equal; lia.
  - rewrite Nat2Z.inj_succ, Z.pow_succ_r in Hz by lia.
    rewrite IH by (split; [apply Z.div_pos|apply Z.div_lt_upper_bound]; lia).
    cbn [parse_digits]. rewrite digit_val_digit by (apply Z.mod_pos_bound; lia).
    f_equal. pose proof (Z.div_mod z 10). lia.
Qed.

(** The text starts with a digit, hence is not empty and has no sign. *)
Lemma dec_digits_head fuel z acc :
  (0 ≤ z < 10 ^ Z.of_nat (S fuel))%Z →
  ∃ d s, (0 ≤ d < 10)%Z ∧ dec_digits (S fuel) z acc = String (digit d) s.
Proof.
  revert z acc. induction fuel as [|fuel IH]; intros z acc Hz.
  - change (10 ^ Z.of_nat 1)%Z with 10%Z in Hz. cbn [dec_digits].
    destruct (Z.ltb_spec z 10); [|lia]. exists z, acc. split; [lia|done].
  - change (dec_digits (S (S fuel)) z acc) with
      (if (z <? 10)%Z then String (digit z) acc
       else dec_digits (S fuel) (z / 10) (String (digit (z mod 10)) acc)).
    destruct (Z.ltb_spec z 10); [exists z, acc; split; [lia|done]|].
    apply IH. rewrite (Nat2Z.inj_succ (S fuel)), Z.pow_succ_r in Hz by lia.
    split; [apply Z.div_pos|apply Z.div_lt_upper_bound]; lia.
Qed.

Lemma digit_not_sign d :
  (0 ≤ d < 10)%Z → Ascii.eqb (digit d) "-" = false ∧ Ascii.eqb (digit d) "+" = false.
Proof.
  intros Hd. pose proof (digit_val_digit d Hd) as Hv.
  split; apply Ascii.eqb_neq; intros E; rewrite E in Hv; by vm_compute in Hv.
Qed.

Lemma ParseInt_FormatInt z : in_int64 z → ParseInt (FormatInt z) = (z, true).
Proof.
  intros Hz. unfold in_int64 in Hz. unfold FormatInt.
  assert (∀ y, (0 ≤ y ≤ 2 ^ 63)%Z → ∃ d s, (0 ≤ d < 10)%Z ∧
    dec_digits 20 y "" = String (digit d) s ∧ parse_nonempty (String (digit d) s) = Some y) as H.
  { intros y Hy. assert (0 ≤ y < 10 ^ Z.of_nat 20)%Z as Hy'
      by (change (10 ^ Z.of_nat 20)%Z with 100000000000000000000%Z; lia).
    destruct (dec_digits_head 19 y "" Hy') as (d & s & Hd & E).
    exists d, s. split_and!; [lia|lia|done|].
    pose proof (parse_dec_digits 20 y "" Hy') as Hp. by rewrite E in Hp. }
  destruct (Z.ltb_spec z 0).
  - destruct (H (- z)%Z) as (d & s & _ & E & Hp); [lia|]. unfold ParseInt. rewrite E.
    rewrite Ascii.eqb_refl, Hp. simpl option_map.
    rewrite Z.opp_involutive, (proj2 (Z.ltb_ge _ _)), (proj2 (Z.leb_gt _ _)) by lia. done.
  - destruct (H z) as (d & s & Hd & E & Hp); [lia|]. unfold ParseInt. rewrite E.
    destruct (digit_not_sign d Hd) as [-> ->]. rewrite Hp.
    rewrite (proj2 (Z.ltb_ge _ _)), (proj2 (Z.leb_gt _ _)) by lia. done.
Qed.
