(* ===== verification/Base64.v ===== *)
(** * [encoding/base64]: the standard encoding

    The signatures and keys of [ondcauth.go] and of the registry client are
    written in [base64.StdEncoding].  The encoder pads the last group with
    [=]; the decoder skips line breaks and ignores the unused bits of the last
    group, as Go's decoder does outside its strict mode. *)
From stdpp Require Import prelude strings.
From Stdlib Require Import Ascii String.
From S2P Require Import Prelude GoStrings.
Local Open Scope string_scope.

Definition byte_val (c : ascii) : Z := Z.of_nat (nat_of_ascii c).
Definition byte_of (z : Z) : ascii := ascii_of_nat (Z.to_nat z).

#[global] Arguments byte_val : simpl never.
#[global] Arguments byte_of : simpl never.

Definition b64_pad : ascii := "=".
Definition dquote : ascii := "034".

(** [ABC...abc...0123456789+/]. *)
Definition b64_char (v : Z) : ascii :=
  byte_of (if (v <? 26)%Z then 65 + v
           else if (v <? 52)%Z then 71 + v
           else if (v <? 62)%Z then v - 4
           else if (v =? 62)%Z then 43 else 47).

Definition b64_val (c : ascii) : option Z :=
  let n := byte_val c in
  (if (65 <=? n) && (n <=? 90) then Some (n - 65)
   else if (97 <=? n) && (n <=? 122) then Some (n - 71)
   else if (48 <=? n) && (n <=? 57) then Some (n + 4)
   else if n =? 43 then Some 62
   else if n =? 47 then Some 63 else None)%Z.

(** The [k]th group of six bits, from the right, of a 24-bit value. *)
Definition sextet (val k : Z) : ascii := b64_char ((val / 64 ^ k) mod 64).
(** The [k]th byte of it. *)
Definition octet (val k : Z) : ascii := byte_of ((val / 256 ^ k) mod 256).

(** [StdEncoding.EncodeToString]. *)
Fixpoint EncodeToString (s : string) : string :=
  match s with
  | String a (String b (String c rest)) =>
      let val := (byte_val a * 65536 + byte_val b * 256 + byte_val c)%Z in
      String (sextet val 3) (String (sextet val 2) (String (sextet val 1)
        (String (sextet val 0) (EncodeToString rest))))
  | String a (String b EmptyString) =>
      let val := (byte_val a * 65536 + byte_val b * 256)%Z in
      String (sextet val 3) (String (sextet val 2) (String (sextet val 1) (String b64_pad "")))
  | String a EmptyString =>
      let val := (byte_val a * 65536)%Z in
      String (sextet val 3) (String (sextet val 2) (String b64_pad (String b64_pad "")))
  | EmptyString => ""
  end.

Definition is_newline (c : ascii) : bool := ((byte_val c =? 10) || (byte_val c =? 13))%Z.

Fixpoint drop_newlines (s : string) : string :=
  match s with
  | EmptyString => ""
  | String c s' => if is_newline c then drop_newlines s' else String c (drop_newlines s')
  end.

(** Two to four digits as the value of a group, the missing ones zero. *)
Definition group (a b : ascii) (c d : option ascii) : option Z :=
  let digit o := match o with Some x => b64_val x | None => Some 0%Z end in
  va ← b64_val a; vb ← b64_val b; vc ← digit c; vd ← digit d;
  Some (va * 262144 + vb * 4096 + vc * 64 + vd)%Z.

(** Groups of four; only the last may be padded. *)
Fixpoint decode_groups (s : string) : option string :=
  match s with
  | EmptyString => Some ""
  | String a (String b (String c (String d rest))) =>
      if (rest =? "") && Ascii.eqb d b64_pad then
        if Ascii.eqb c b64_pad
        then v ← group a b None None; Some (String (octet v 2) "")
        else v ← group a b (Some c) None; Some (String (octet v 2) (String (octet v 1) ""))
      else
        v ← group a b (Some c) (Some d);
        r ← decode_groups rest;
        Some (String (octet v 2) (String (octet v 1) (String (octet v 0) r)))
  | _ => None
  end.

(** [StdEncoding.DecodeString]. *)
Definition DecodeString (s : string) : option string := decode_groups (drop_newlines s).

(** ** Lemmas *)
Section Lemmas.
Local Open Scope Z_scope.

Lemma byte_val_range c : 0 ≤ byte_val c < 256.
Proof. unfold byte_val. pose proof (nat_ascii_bounded c). lia. Qed.

Lemma byte_of_val c : byte_of (byte_val c) = c.
Proof. unfold byte_of, byte_val. by rewrite Nat2Z.id, ascii_nat_embedding. Qed.

Lemma byte_val_of z : 0 ≤ z < 256 → byte_val (byte_of z) = z.
Proof. intros. unfold byte_of, byte_val. rewrite nat_ascii_embedding; lia. Qed.

(** A digit is decoded to its value, and is neither the padding nor a line
    break nor a quote. *)
Lemma b64_char_byte v : 0 ≤ v < 64 → byte_val (b64_char v) =
  (if v <? 26 then 65 + v else if v <? 52 then 71 + v else if v <? 62 then v - 4
   else if v =? 62 then 43 else 47).
Proof.
  intros. unfold b64_char. apply byte_val_of.
  repeat match goal with |- context [?a <? ?b] => destruct (Z.ltb_spec a b) end;
    try lia; destruct (v =? 62); lia.
Qed.

Ltac zcases :=
  repeat match goal with
  | |- context [?a <? ?b] => destruct (Z.ltb_spec a b)
  | |- context [?a <=? ?b] => destruct (Z.leb_spec a b)
  | |- context [?a =? ?b] => destruct (Z.eqb_spec a b)
  end; simpl; try done; try lia.

Lemma b64_val_char v : 0 ≤ v < 64 → b64_val (b64_char v) = Some v.
Proof. intros H. unfold b64_val. rewrite (b64_char_byte v H). zcases; f_equal; lia. Qed.

Lemma b64_char_ascii v : 0 ≤ v < 64 → byte_val (b64_char v) < 128.
Proof. intros H. rewrite (b64_char_byte v H). destruct (Z.eqb_spec v 62); zcases. Qed.

Lemma b64_char_ne v c : 0 ≤ v < 64 → b64_val c = None → b64_char v ≠ c.
Proof. intros H E <-. by rewrite b64_val_char in E. Qed.

Lemma b64_char_not_newline v : 0 ≤ v < 64 → is_newline (b64_char v) = false.
Proof. intros H. unfold is_newline. rewrite (b64_char_byte v H).
  destruct (Z.eqb_spec v 62); apply orb_false_intro; zcases.
Qed.

Lemma sextet_range val k : 0 ≤ (val / 64 ^ k) mod 64 < 64.
Proof. by apply Z.mod_pos_bound. Qed.

Lemma b64_val_sextet val k : b64_val (sextet val k) = Some ((val / 64 ^ k) mod 64).
Proof. apply b64_val_char, sextet_range. Qed.

Lemma sextet_not_pad val k : Ascii.eqb (sextet val k) b64_pad = false.
Proof. apply Ascii.eqb_neq, b64_char_ne; [apply sextet_range|done]. Qed.

Lemma sextet_ascii val k : (byte_val (sextet val k) <? 128) = true.
Proof. apply Z.ltb_lt. apply (b64_char_ascii _ (sextet_range val k)). Qed.

Lemma sextet_not_newline val k : is_newline (sextet val k) = false.
Proof. apply b64_char_not_newline, sextet_range. Qed.

(** The digits of a 24-bit value give it back. *)
Lemma sextets val : 0 ≤ val < 16777216 →
  (val / 64 ^ 3) mod 64 * 262144 + (val / 64 ^ 2) mod 64 * 4096
    + (val / 64 ^ 1) mod 64 * 64 + (val / 64 ^ 0) mod 64 = val.
Proof. intros. change (64^3) with 262144. change (64^2) with 4096. change (64^1) with 64.
  change (64^0) with 1. Z.to_euclidean_division_equations. lia. Qed.

Lemma string_ind3 (P : string → Prop) :
  P "" → (∀ a, P (String a "")) → (∀ a b, P (String a (String b ""))) →
  (∀ a b c s, P s → P (String a (String b (String c s)))) → ∀ s, P s.
Proof.
  intros H0 H1 H2 H3. fix IH 1. intros [|a [|b [|c s]]]; [done|done|done|]. apply H3, IH.
Qed.

Lemma octet_byte val k c : (val / 256 ^ k) mod 256 = byte_val c → octet val k = c.
Proof. intros E. unfold octet. rewrite E. apply byte_of_val. Qed.

Lemma octets a b c :
  let val := byte_val a * 65536 + byte_val b * 256 + byte_val c in
  octet val 2 = a ∧ octet val 1 = b ∧ octet val 0 = c.
Proof.
  intros val. pose proof (byte_val_range a). pose proof (byte_val_range b).
  pose proof (byte_val_range c).
  split_and!; apply octet_byte; change (256^2) with 65536; change (256^1) with 256;
    change (256^0) with 1; unfold val; Z.to_euclidean_division_equations; lia.
Qed.

Lemma drop_newlines_encode s : drop_newlines (EncodeToString s) = EncodeToString s.
Proof.
  induction s as [|a|a b|a b c s IH] using string_ind3; [done| | |];
    cbn [EncodeToString drop_newlines]; rewrite !sextet_not_newline; [done|done|].
  by rewrite IH.
Qed.

(** The digits of a whole group, and of the two padded ones. *)
Lemma group_sextets val : 0 ≤ val < 16777216 →
  group (sextet val 3) (sextet val 2) (Some (sextet val 1)) (Some (sextet val 0)) = Some val.
Proof. intros. unfold group. rewrite !b64_val_sextet. simpl. by rewrite sextets. Qed.

Lemma group_sextets3 val : 0 ≤ val < 16777216 → val mod 64 = 0 →
  group (sextet val 3) (sextet val 2) (Some (sextet val 1)) None = Some val.
Proof.
  intros Hv Hm. unfold group. rewrite !b64_val_sextet. simpl. f_equal.
  pose proof (sextets val Hv) as E. change (64 ^ 0) with 1 in E. rewrite Z.div_1_r, Hm in E. lia.
Qed.

Lemma group_sextets2 val : 0 ≤ val < 16777216 → val mod 4096 = 0 →
  group (sextet val 3) (sextet val 2) None None = Some val.
Proof.
  intros Hv Hm. unfold group. rewrite !b64_val_sextet. simpl. f_equal.
  change (64^3) with 262144. change (64^2) with 4096. Z.to_euclidean_division_equations. lia.
Qed.

(** Decoding an encoded string gives it back. *)
Lemma Decode_Encode s : DecodeString (EncodeToString s) = Some s.
Proof.
  unfold DecodeString. rewrite drop_newlines_encode.
  induction s as [|a|a b|a b c s IH] using string_ind3; [done| | |];
    cbn [EncodeToString decode_groups]; pose proof (byte_val_range a).
  - rewrite !Ascii.eqb_refl. simpl.
    rewrite group_sextets2 by (Z.to_euclidean_division_equations; lia). simpl.
    destruct (octets a zero zero) as [E _]. change (byte_val zero) with 0 in E.
    by rewrite <- E at 2; rewrite Z.mul_0_l, !Z.add_0_r.
  - pose proof (byte_val_range b). rewrite Ascii.eqb_refl, sextet_not_pad. simpl.
    rewrite group_sextets3 by (Z.to_euclidean_division_equations; lia). simpl.
    destruct (octets a b zero) as (E1 & E2 & _). change (byte_val zero) with 0 in *.
    rewrite Z.add_0_r in *. by rewrite E1, E2.
  - pose proof (byte_val_range b). pose proof (byte_val_range c).
    rewrite sextet_not_pad, andb_false_r, group_sextets by lia. cbn [mbind option_bind].
    rewrite IH. simpl. by destruct (octets a b c) as (-> & -> & ->).
Qed.

(** An encoded string has no quote, and is as long as its groups. *)
Lemma sextet_no_quote val k : Ascii.eqb (sextet val k) dquote = false.
Proof. apply Ascii.eqb_neq, b64_char_ne; [apply sextet_range|done]. Qed.

Lemma encode_no_quote s : has_char dquote (EncodeToString s) = false.
Proof.
  induction s as [|a|a b|a b c s IH] using string_ind3; [done| | |];
    cbn [EncodeToString has_char]; rewrite !sextet_no_quote; simpl; done.
Qed.

Lemma encode_empty s : EncodeToString s = "" → s = "".
Proof. by destruct s as [|a [|b [|c s]]]. Qed.
End Lemmas.
