(* ===== verification/GoTime.v ===== *)
(** * [time.Parse(time.RFC3339, s)] and the time layouts of the program

    Times are nanoseconds since the Unix epoch in UTC; days are counted in the
    proleptic Gregorian calendar, as package [time] does. *)
From stdpp Require Import prelude strings.
From Stdlib Require Import Ascii String.
From S2P Require Import Prelude GoStrings.
Local Open Scope string_scope.

Definition second : Z := 1000000000.
Definition millisecond : Z := 1000000.

(** [Duration.Milliseconds]: division truncated towards zero. *)
Definition Milliseconds (d : Z) : Z := Z.quot d millisecond.

(** ** The calendar *)
Section Calendar.
Local Open Scope Z_scope.

Definition leap (y : Z) : bool :=
  (y mod 4 =? 0) && (negb (y mod 100 =? 0) || (y mod 400 =? 0)).

Definition daysIn (month year : Z) : Z :=
  if month =? 2 then (if leap year then 29 else 28)
  else if (month =? 4) || (month =? 6) || (month =? 9) || (month =? 11) then 30 else 31.

(** Days from 1970-01-01 to the given day; years begin in March so that the
    leap day is the last one. *)
Definition days_from_civil (y m d : Z) : Z :=
  let y := if m <=? 2 then y - 1 else y in
  let era := y / 400 in
  let yoe := y - era * 400 in
  let doy := (153 * (if 2 <? m then m - 3 else m + 9) + 2) / 5 + d - 1 in
  let doe := yoe * 365 + yoe / 4 - yoe / 100 + doy in
  era * 146097 + doe - 719468.

(** The day with this number: year, month, day. *)
Definition civil_from_days (z : Z) : Z * Z * Z :=
  let z := z + 719468 in
  let era := z / 146097 in
  let doe := z - era * 146097 in
  let yoe := (doe - doe / 1460 + doe / 36524 - doe / 146096) / 365 in
  let doy := doe - (365 * yoe + yoe / 4 - yoe / 100) in
  let mp := (5 * doy + 2) / 153 in
  let m := if mp <? 10 then mp + 3 else mp - 9 in
  ((if m <=? 2 then 1 else 0) + yoe + era * 400, m, doy - (153 * mp + 2) / 5 + 1).

(** [time.Date(y, m, d, hh, mm, ss, ns, UTC)]. *)
Definition Date (y m d hh mm ss ns : Z) : Z :=
  (days_from_civil y m d * 86400 + hh * 3600 + mm * 60 + ss) * second + ns.
End Calendar.

(** ** Parsing *)

(** [n] decimal digits. *)
Fixpoint digits (n : nat) (acc : Z) (s : string) : option (Z * string) :=
  match n with
  | O => Some (acc, s)
  | S n' =>
      match s with
      | String c s' => d ← digit_val c; digits n' (10 * acc + d)%Z s'
      | EmptyString => None
      end
  end.

Definition literal (c : ascii) (s : string) : option string :=
  match s with String a s' => if Ascii.eqb a c then Some s' else None | EmptyString => None end.

(** [getnum(value, false)]: two digits, or one when the next is none. *)
Definition getnum (s : string) : option (Z * string) :=
  match digits 2 0 s with Some r => Some r | None => digits 1 0 s end.

(** The fraction of a second: all its digits are consumed, nine count. *)
Fixpoint fraction (weight acc : Z) (s : string) : Z * string :=
  match s with
  | String c s' =>
      match digit_val c with
      | Some d => fraction (weight / 10) (acc + weight * d) s'
      | None => (acc, s)
      end
  | EmptyString => (acc, s)
  end.

Definition parse_fraction (s : string) : Z * string :=
  match s with
  | String p (String c _ as s') =>
      if (Ascii.eqb p "." || Ascii.eqb p ",") && bool_decide (is_Some (digit_val c))
      then fraction 100000000 0 s' else (0%Z, s)
  | _ => (0%Z, s)
  end.

(** The zone: seconds east of UTC; nothing may follow. *)
Definition parse_zone (s : string) : option Z :=
  if s =? "Z" then Some 0%Z
  else match s with
  | String sign s =>
      '(hh, s) ← digits 2 0 s; s ← literal ":" s; '(mm, s) ← digits 2 0 s;
      if (s =? "") && (hh <=? 24)%Z && (mm <=? 60)%Z then
        if Ascii.eqb sign "+" then Some (hh * 3600 + mm * 60)%Z
        else if Ascii.eqb sign "-" then Some (- (hh * 3600 + mm * 60))%Z else None
      else None
  | EmptyString => None
  end.

Definition parse_rfc3339 (s : string) : option Z :=
  '(y, s) ← digits 4 0 s; s ← literal "-" s; '(m, s) ← digits 2 0 s; s ← literal "-" s;
  '(d, s) ← digits 2 0 s; s ← literal "T" s;
  '(hh, s) ← getnum s; s ← literal ":" s; '(mm, s) ← digits 2 0 s; s ← literal ":" s;
  '(ss, s) ← digits 2 0 s;
  let '(ns, s) := parse_fraction s in
  off ← parse_zone s;
  if ((1 <=? m) && (m <=? 12) && (1 <=? d) && (d <=? daysIn m y) && (hh <? 24) && (mm <? 60)
      && (ss <? 60))%Z
  then Some (Date y m d hh mm ss ns - off * second)%Z else None.

(** ** Formatting *)

(** The last [n] decimal digits of [z >= 0]. *)
Fixpoint padded (n : nat) (z : Z) (acc : string) : string :=
  match n with O => acc | S n' => padded n' (z / 10) (String (digit (z mod 10)) acc) end.

(** [t.UTC().Format("2006-01-02T15:04:05.000Z")] for years of four digits;
    the layout with [Z07:00] gives the same text in UTC. *)
Definition format_ms (t : Z) : string :=
  let days := (t / (86400 * second))%Z in
  let rest := (t mod (86400 * second))%Z in
  let '(y, m, d) := civil_from_days days in
  padded 4 y "" ++ "-" ++ padded 2 m "" ++ "-" ++ padded 2 d "" ++ "T"
  ++ padded 2 (rest / (3600 * second)) "" ++ ":" ++ padded 2 (rest / (60 * second) mod 60) "" ++ ":"
  ++ padded 2 (rest / second mod 60) "" ++ "." ++ padded 3 (rest / millisecond mod 1000) "" ++ "Z".

Example format_ms_ex : format_ms 1700000000123456789 = "2023-11-14T22:13:20.123Z".
Proof. vm_compute. reflexivity. Qed.
Example parse_rfc3339_ex :
  parse_rfc3339 "2024-02-29T23:59:60Z" = None ∧
  parse_rfc3339 "2024-02-29T12:00:00.5+05:30" = Some 1709188200500000000%Z ∧
  parse_rfc3339 "2023-02-29T12:00:00Z" = None.
Proof. vm_compute. done. Qed.
