(* ===== verification/Float64.v ===== *)
(** * Go [float64]: IEEE-754 binary64 arithmetic

    The arithmetic is the executable specification of the Standard Library
    ([SpecFloat]) at precision 53 and exponent bound 1024, round to nearest,
    ties to even: the results are those of Go's [float64] operations bit for
    bit. *)
From stdpp Require Import prelude.
From Stdlib Require Import ZArith SpecFloat.
From S2P Require Import Prelude.
Local Open Scope Z_scope.

Definition float64 : Set := spec_float.

Definition prec64 : Z := 53.
Definition emax64 : Z := 1024.

(** [float64(z)] for an integer [z]: rounded to nearest. *)
Definition f64_of_Z (z : Z) : float64 := binary_normalize prec64 emax64 z 0 false.

Definition f64_add : float64 → float64 → float64 := SFadd prec64 emax64.
Definition f64_sub : float64 → float64 → float64 := SFsub prec64 emax64.
Definition f64_mul : float64 → float64 → float64 := SFmul prec64 emax64.
Definition f64_div : float64 → float64 → float64 := SFdiv prec64 emax64.
Definition f64_eqb : float64 → float64 → bool := SFeqb.
Definition f64_ltb : float64 → float64 → bool := SFltb.
Definition f64_leb : float64 → float64 → bool := SFleb.

(** The constant [a/b] of the source, correctly rounded (both integers are
    exact, and division rounds once). *)
Definition f64_const (a b : Z) : float64 := f64_div (f64_of_Z a) (f64_of_Z b).

(** [int(f)]: truncation towards zero.  Infinities and NaN, whose conversion
    Go leaves to the implementation, do not occur in the program. *)
Definition f64_trunc (f : float64) : Z :=
  match f with
  | S754_finite s m e =>
      let a := if 0 <=? e then Zpos m * 2 ^ e else Zpos m / 2 ^ (- e) in
      if s then - a else a
  | _ => 0
  end.

(** [math.Round]: nearest integer, halves away from zero. *)
Definition f64_round (f : float64) : float64 :=
  match f with
  | S754_finite s m e =>
      if 0 <=? e then f
      else
        let q := (2 * Zpos m + 2 ^ (- e)) / (2 * 2 ^ (- e)) in
        if q =? 0 then S754_zero s else f64_of_Z (if s then - q else q)
  | _ => f
  end.

#[export] Instance float64_eq_dec : EqDecision float64.
Proof. unfold float64. solve_decision. Defined.

Lemma f64_trunc_nonneg m e : 0 ≤ f64_trunc (S754_finite false m e).
Proof.
  simpl. destruct (Z.leb_spec 0 e).
  - pose proof (Z.pow_nonneg 2 e). lia.
  - apply Z.div_pos; [lia|]. apply Z.pow_pos_nonneg; lia.
Qed.

(** Sanity: constants and operations evaluate to the expected doubles. *)
Example f64_const_half : f64_const 1 2 = S754_finite false 4503599627370496 (-53).
Proof. reflexivity. Qed.
Example f64_trunc_ex : f64_trunc (f64_mul (f64_const 95 100) (f64_of_Z 39)) = 37.
Proof. reflexivity. Qed.
Example f64_round_ex :
  map (λ z, f64_trunc (f64_round (f64_const z 2))) [5; -5; 4; 1; 0] = [3; -3; 2; 1; 0].
Proof. reflexivity. Qed.

(** ** Exactness of integer conversion and bounds of the rounding

    The lemmas below bound the result of a multiplication by half a unit in
    the last place; they are what the percentile computation needs. *)
Section Rounding.
Implicit Types (r : shr_record) (M m e k q : Z).

Lemma iter_pos_iter {A : Type} (f : A → A) p x : SpecFloat.iter_pos f p x = Nat.iter (Pos.to_nat p) f x.
Proof.
  revert x. induction p as [p IH|p IH|]; intros x; cbn [SpecFloat.iter_pos]; [| |done].
  - rewrite !IH, <- !Nat.iter_add. rewrite <- Nat.iter_succ_r. f_equal. lia.
  - rewrite !IH, <- !Nat.iter_add. f_equal. lia.
Qed.

(** [r] is [M] shifted right by [k] bits, with its round and sticky bits. *)
Definition shifted M k r : Prop :=
  ∃ rho, M = shr_m r * 2 ^ k + rho ∧ 0 ≤ rho < 2 ^ k ∧ 0 ≤ shr_m r
    ∧ (shr_r r = true ↔ 2 ^ k ≤ 2 * rho)
    ∧ (shr_s r = true ↔ rho ≠ 0 ∧ 2 * rho ≠ 2 ^ k).

Lemma shifted_0 M : 0 ≤ M → shifted M 0 (Build_shr_record M false false).
Proof. intros H. exists 0. simpl. repeat split; try lia; done. Qed.

Lemma shr_1_half m b s :
  0 ≤ m → shr_1 (Build_shr_record m b s) = Build_shr_record (m / 2) (Z.odd m) (b || s).
Proof.
  intros Hm. destruct m as [|[p|p|]|p]; try done.
  - simpl. f_equal. change (Z.pos p~1) with (2 * Z.pos p + 1).
    rewrite Z.mul_comm, Z.div_add_l by lia. by rewrite Z.add_0_r.
  - simpl. f_equal. change (Z.pos p~0) with (2 * Z.pos p).
    by rewrite Z.mul_comm, Z.div_mul.
Qed.

Lemma shifted_step M k r : 0 ≤ k → shifted M k r → shifted M (k + 1) (shr_1 r).
Proof.
  destruct r as [m b s]. intros Hk (rho & HM & Hrho & Hm & Hb & Hs).
  cbn [shr_m shr_r shr_s] in *.
  rewrite shr_1_half by done. unfold shifted. cbn [shr_m shr_r shr_s].
  assert (Z.odd m = true ∧ m = 2 * (m / 2) + 1 ∨ Z.odd m = false ∧ m = 2 * (m / 2)) as Hodd.
  { pose proof (Z.div2_odd m) as Hd. rewrite Z.div2_div in Hd.
    destruct (Z.odd m); simpl in Hd; [left|right]; split; (done || lia). }
  pose proof (Z.pow_pos_nonneg 2 k ltac:(lia) Hk). rewrite Z.pow_add_r, Z.pow_1_r by lia.
  set (K := 2 ^ k) in *.
  assert (0 ≤ m / 2) by (apply Z.div_pos; lia).
  exists (rho + (if Z.odd m then K else 0)).
  assert (b || s = true ↔ rho ≠ 0) as Hbs.
  { rewrite orb_true_iff, Hb, Hs. lia. }
  rewrite Hbs. destruct Hodd as [[-> Ho]|[-> He]]; repeat split; try nia; done.
Qed.

Lemma shifted_iter M k r n :
  0 ≤ k → shifted M k r → shifted M (k + Z.of_nat n) (Nat.iter n shr_1 r).
Proof.
  intros Hk H. induction n as [|n IH]; [by rewrite Z.add_0_r|].
  replace (k + Z.of_nat (S n)) with (k + Z.of_nat n + 1) by lia.
  simpl. apply shifted_step; [lia|done].
Qed.

Lemma shr_shifted M e n :
  0 ≤ M →
  let k := Z.max n 0 in
  shifted M k (fst (shr (Build_shr_record M false false) e n))
  ∧ snd (shr (Build_shr_record M false false) e n) = e + k.
Proof.
  intros HM. pose proof (shifted_0 M HM) as H0.
  destruct n as [|p|p]; simpl; rewrite ?Z.add_0_r; [done| |done].
  rewrite iter_pos_iter. split; [|lia].
  pose proof (shifted_iter M 0 _ (Pos.to_nat p) ltac:(lia) H0) as H.
  by rewrite positive_nat_Z in H.
Qed.

(** Rounding moves a value by at most half a unit. *)
Lemma round_even_bound M k r :
  0 ≤ k → shifted M k r →
  let q := round_nearest_even (shr_m r) (loc_of_shr_record r) in
  0 ≤ q ∧ 2 * M - 2 ^ k ≤ 2 * q * 2 ^ k ≤ 2 * M + 2 ^ k.
Proof.
  intros Hk (rho & -> & Hrho & Hm & Hb & Hs). destruct r as [m b s]. simpl in *.
  pose proof (Z.pow_pos_nonneg 2 k ltac:(lia) Hk). set (K := 2 ^ k) in *.
  destruct b, s; simpl; try case_match; split; try lia;
    destruct Hb as [Hb1 Hb2], Hs as [Hs1 Hs2];
    repeat match goal with
    | H : _ = true → ?P |- _ => assert P by (apply H; done); clear H
    end; try nia.
  all: assert (2 * rho = K ∨ rho = 0 ∨ 2 * rho < K ∨ K < 2 * rho) as Hc by lia;
    destruct Hc as [Hc|[Hc|[Hc|Hc]]]; try nia;
    exfalso;
    (discriminate (Hb2 ltac:(lia)) || discriminate (Hs2 ltac:(lia))).
Qed.
End Rounding.

Section Products.
Implicit Types (M e q n : Z) (p : positive).

Lemma digits2_bounds p :
  2 ^ (Z.pos (digits2_pos p) - 1) ≤ Z.pos p < 2 ^ Z.pos (digits2_pos p).
Proof.
  induction p as [p IH|p IH|]; cbn [digits2_pos]; [| |by vm_compute].
  all: rewrite Pos2Z.inj_succ;
    replace (Z.succ (Z.pos (digits2_pos p)) - 1)
      with (Z.succ (Z.pos (digits2_pos p) - 1)) by lia;
    rewrite !Z.pow_succ_r by lia; lia.
Qed.

Lemma digits2_le p d : 0 ≤ d → Z.pos p < 2 ^ d → Z.pos (digits2_pos p) ≤ d.
Proof.
  intros Hd Hp. destruct (digits2_bounds p) as [Hlo _].
  apply Z.nlt_ge. intros Hlt.
  assert (2 ^ d ≤ 2 ^ (Z.pos (digits2_pos p) - 1)) by (apply Z.pow_le_mono_r; lia). lia.
Qed.

(** The truncation of a rounded positive value [M * 2^e]. *)
Lemma trunc_round_aux p e :
  let M := Z.pos p in
  let k := Z.max (fexp prec64 emax64 (Z.pos (digits2_pos p) + e) - e) 0 in
  e + k ≤ -1 →
  ∃ q, 2 * M - 2 ^ k ≤ 2 * q * 2 ^ k ≤ 2 * M + 2 ^ k
    ∧ f64_trunc (binary_round_aux prec64 emax64 false (Z.pos p) e loc_Exact)
      = q / 2 ^ (- (e + k)).
Proof.
  intros M k Hneg. unfold binary_round_aux, shr_fexp, shr_record_of_loc.
  cbn [Zdigits2].
  set (n1 := fexp prec64 emax64 (Z.pos (digits2_pos p) + e) - e) in *.
  destruct (shr_shifted M e n1 ltac:(lia)) as [Hs1 He1].
  destruct (shr _ e n1) as [r1 e1]. cbn [fst snd] in *.
  destruct (round_even_bound M k r1 ltac:(lia) Hs1) as [Hq0 Hq].
  set (q := round_nearest_even (shr_m r1) (loc_of_shr_record r1)) in *.
  exists q. split; [done|].
  set (n2 := fexp prec64 emax64 (Zdigits2 q + e1) - e1).
  destruct (shr_shifted q e1 n2 Hq0) as [Hs2 He2].
  destruct (shr _ e1 n2) as [r2 e2]. cbn [fst snd] in *.
  assert (0 ≤ n2 ≤ 1 ∨ n2 ≤ 0) as Hn2.
  { destruct (digits2_bounds p) as [_ Hhi].
    assert (q ≤ 2 ^ 53) as Hq53.
    { assert (M ≤ 2 ^ 53 * 2 ^ k) as HM.
      { rewrite <- Z.pow_add_r by lia. transitivity (2 ^ Z.pos (digits2_pos p)); [lia|].
        apply Z.pow_le_mono_r; [lia|]. unfold n1, fexp, prec64 in k. lia. }
      pose proof (Z.pow_pos_nonneg 2 k ltac:(lia) ltac:(lia)). nia. }
    assert (Zdigits2 q ≤ 54) as Hdig.
    { destruct q as [|qp|qp]; simpl; [lia| |lia].
      apply digits2_le; [lia|]. transitivity (2 ^ 53 + 1); lia. }
    unfold n2, fexp, emin, prec64, emax64 in *. unfold n1, fexp, emin, prec64, emax64 in k. lia. }
  destruct Hs2 as (rho & Hr & Hrho & Hm & _).
  match goal with |- f64_trunc ?t = _ =>
    assert (f64_trunc t = shr_m r2 / 2 ^ (- e2)) as -> end.
  { destruct (shr_m r2) as [|m|m]; [by rewrite Z.div_0_l by (apply Z.pow_nonzero; lia)| |lia].
    replace (e2 <=? emax64 - prec64) with true
      by (symmetry; apply Z.leb_le; unfold emax64, prec64; lia).
    unfold f64_trunc. destruct (Z.leb_spec 0 e2); [|done].
    replace e2 with 0 by lia. by rewrite Z.mul_1_r, Z.div_1_r. }
  assert (shr_m r2 = q / 2 ^ Z.max n2 0) as ->.
  { rewrite Hr, Z.div_add_l by (apply Z.pow_nonzero; lia). rewrite Z.div_small; lia. }
  rewrite Z.div_div by (try apply Z.pow_nonzero; try apply Z.pow_pos_nonneg; lia).
  rewrite <- Z.pow_add_r by lia. do 2 f_equal. lia.
Qed.

(** Integers below [2^53] convert exactly. *)
Lemma f64_of_Z_exact n :
  1 ≤ n < 2 ^ 53 →
  ∃ p j, f64_of_Z n = S754_finite false p (- j) ∧ Z.pos p = n * 2 ^ j ∧ 0 ≤ j
    ∧ 2 ^ 52 ≤ Z.pos p < 2 ^ 53.
Proof.
  intros Hn. destruct n as [|n|n]; [lia| |lia].
  pose proof (digits2_bounds n) as Hd.
  assert (Z.pos (digits2_pos n) ≤ 53) as Hle by (apply digits2_le; lia).
  set (j := 53 - Z.pos (digits2_pos n)) in *.
  assert (∃ p, shl_align n 0 (- j) = (p, - j) ∧ Z.pos p = Z.pos n * 2 ^ j) as (p & Hal & Hp).
  { unfold shl_align. rewrite Z.sub_0_r. destruct j as [|jp|jp] eqn:Ej; simpl; [|  |lia].
    - exists n. split; [done|]. lia.
    - eexists. split; [done|]. clear. induction jp as [|jp IH] using Pos.peano_ind; [simpl; lia|].
      rewrite Pos.iter_succ, Pos2Z.inj_xO, IH, Pos2Z.inj_succ, Z.pow_succ_r by lia. lia. }
  exists p, j.
  assert (2 ^ 52 ≤ Z.pos p < 2 ^ 53) as Hb.
  { rewrite Hp. assert (2 ^ 52 = 2 ^ (Z.pos (digits2_pos n) - 1) * 2 ^ j) as ->
      by (rewrite <- Z.pow_add_r by lia; f_equal; lia).
    assert (2 ^ 53 = 2 ^ Z.pos (digits2_pos n) * 2 ^ j) as ->
      by (rewrite <- Z.pow_add_r by lia; f_equal; lia).
    pose proof (Z.pow_pos_nonneg 2 j ltac:(lia) ltac:(lia)). nia. }
  split; [|split; [done|split; [lia|done]]].
  assert (Z.pos (digits2_pos p) = 53) as Hdp.
  { pose proof (digits2_bounds p). assert (Z.pos (digits2_pos p) ≤ 53) by (apply digits2_le; lia).
    apply Z.le_antisymm; [done|]. apply Z.nlt_ge. intros Hlt.
    assert (2 ^ Z.pos (digits2_pos p) ≤ 2 ^ 52) by (apply Z.pow_le_mono_r; lia). lia. }
  unfold f64_of_Z, binary_normalize, binary_round.
  replace (fexp prec64 emax64 (Z.pos (digits2_pos n) + 0)) with (- j)
    by (unfold fexp, emin, prec64, emax64; lia).
  rewrite Hal. unfold binary_round_aux, shr_fexp. cbn [Zdigits2 shr_record_of_loc].
  rewrite Hdp. replace (fexp prec64 emax64 (53 + - j) - - j) with 0
    by (unfold fexp, emin, prec64, emax64; lia).
  cbn [shr loc_of_shr_record shr_m round_nearest_even Zdigits2 shr_record_of_loc].
  rewrite Hdp. replace (fexp prec64 emax64 (53 + - j) - - j) with 0
    by (unfold fexp, emin, prec64, emax64; lia).
  cbn [shr shr_m]. replace (- j <=? emax64 - prec64) with true; [done|].
  symmetry. apply Z.leb_le. unfold emax64, prec64. lia.
Qed.
End Products.

(** ** Order *)

(** The strict order of floats is asymmetric, NaN included. *)
Lemma f64_ltb_asym x y : f64_ltb x y = true → f64_ltb y x = false.
Proof.
  unfold f64_ltb, SFltb. destruct x as [s1|s1| |s1 m1 e1], y as [s2|s2| |s2 m2 e2]; simpl;
    try destruct s1; try destruct s2; try done;
    rewrite (Z.compare_antisym e1 e2); destruct (Z.compare e1 e2); simpl; try done;
    change (Pos.compare_cont Eq m1 m2) with (m1 ?= m2)%positive in *;
    change (Pos.compare_cont Eq m2 m1) with (m2 ?= m1)%positive in *;
    rewrite (Pos.compare_antisym m1 m2); by destruct (m1 ?= m2)%positive.
Qed.

(** On integers that convert exactly it is the order of the integers. *)
Lemma f64_ltb_of_Z a b :
  0 ≤ a < 2 ^ 53 → 0 ≤ b < 2 ^ 53 → f64_ltb (f64_of_Z a) (f64_of_Z b) = (a <? b).
Proof.
  intros Ha Hb. destruct (decide (a = 0)) as [->|Ha0]; destruct (decide (b = 0)) as [->|Hb0]; [done|..].
  - destruct (f64_of_Z_exact b) as (p & j & -> & _); [lia|]. symmetry. apply Z.ltb_lt. lia.
  - destruct (f64_of_Z_exact a) as (p & j & -> & _); [lia|]. symmetry. apply Z.ltb_ge. lia.
  - destruct (f64_of_Z_exact a) as (p1 & j1 & -> & E1 & H1 & B1); [lia|].
    destruct (f64_of_Z_exact b) as (p2 & j2 & -> & E2 & H2 & B2); [lia|].
    unfold f64_ltb, SFltb, SFcompare.
    change (Pos.compare_cont Eq p1 p2) with (p1 ?= p2)%positive.
    assert (∀ m n i k, 0 ≤ i → 0 < k → 2 ^ 52 ≤ m * 2 ^ i → n * 2 ^ (i + k) < 2 ^ 53 → n < m) as Hexp.
    { intros m n i k Hi Hk Hm Hn. pose proof (Z.pow_pos_nonneg 2 i ltac:(lia) Hi).
      assert (2 ≤ 2 ^ k) by (apply (Z.pow_le_mono_r 2 1 k); lia).
      rewrite Z.pow_add_r in Hn by lia. assert (n * 2 ^ i * 2 ^ k < 2 * (m * 2 ^ i)) by lia.
      destruct (Z.le_gt_cases n 0); [nia|]. assert (n * 2 ^ i * 2 ≤ n * 2 ^ i * 2 ^ k) by nia. nia. }
    destruct (Z.compare_spec (- j1) (- j2)) as [Hj|Hj|Hj].
    + assert (j1 = j2) as -> by lia. pose proof (Z.pow_pos_nonneg 2 j2 ltac:(lia) H2).
      destruct (Pos.compare_spec p1 p2) as [->|Hp|Hp]; symmetry;
        [apply Z.ltb_ge|apply Z.ltb_lt|apply Z.ltb_ge]; nia.
    + symmetry. apply Z.ltb_lt. apply (Hexp b a j2 (j1 - j2)); try lia.
      replace (j2 + (j1 - j2)) with j1 by lia. lia.
    + symmetry. apply Z.ltb_ge, Z.lt_le_incl. apply (Hexp a b j1 (j2 - j1)); try lia.
      replace (j1 + (j2 - j1)) with j2 by lia. lia.
Qed.
