(* ===== verification/Latency.v ===== *)
(** * Latency statistics: [internal/domain/latency]

    [types.go] gives the stages, outcomes, events and summaries; the
    functions of [percentiles.go] compute the average and the percentiles of
    the successful samples of a stage.  Times are nanoseconds since the Unix
    epoch. *)
From stdpp Require Import prelude sorting strings.
From Stdlib Require Import ZArith SpecFloat.
From S2P Require Import Prelude Float64.
Local Open Scope Z_scope.

(** ** Types ([types.go]) *)

Inductive Stage := StageOnSelect | StageOnInit | StageOnConfirm.
Inductive Outcome := OutcomeSuccess | OutcomeFailure | OutcomeTimeout.

#[export] Instance Stage_eq_dec : EqDecision Stage.
Proof. solve_decision. Defined.
#[export] Instance Outcome_eq_dec : EqDecision Outcome.
Proof. solve_decision. Defined.
#[export] Instance Stage_countable : Countable Stage.
Proof.
  refine (inj_countable'
    (λ s, match s with StageOnSelect => 0 | StageOnInit => 1 | StageOnConfirm => 2 end)
    (λ n, match n with 0 => StageOnSelect | 1 => StageOnInit | _ => StageOnConfirm end) _).
  by intros [].
Defined.

(** The string constants of the two named types. *)
Definition stage_string (s : Stage) : string :=
  match s with
  | StageOnSelect => "on_select" | StageOnInit => "on_init" | StageOnConfirm => "on_confirm"
  end.

Record RunLatencyEvent := mkEvent {
  ev_SessionID : string;
  ev_RunID : string;
  ev_Stage : Stage;
  ev_TxnID : string;
  ev_SentAt : Z;
  ev_ReceivedAt : option Z;
  ev_LatencyMS : option Z;
  ev_Outcome : Outcome;
  ev_RecordedAt : Z;
  ev_TimeoutCause : string;
}.

Record RunLatencySummary := mkSummary {
  sum_SessionID : string;
  sum_RunID : string;
  sum_Stage : Stage;
  sum_TimeoutThresholdMS : Z;
  sum_CutoffAt : Z;
  sum_Total : Z;
  sum_SuccessCount : Z;
  sum_FailureCount : Z;
  sum_TimeoutCount : Z;
  sum_AvgMS : float64;
  sum_P90MS : float64;
  sum_P95MS : float64;
  sum_P99MS : float64;
  sum_ComputedAt : Z;
}.

(** [time.Duration.Milliseconds()]: truncated division of nanoseconds. *)
Definition milliseconds (d : Z) : Z := Z.quot d 1000000.

(** ** Percentiles ([percentiles.go]) *)

(** Go panics on an index out of range; [nth_z] is total and the theorem
    [percentileMs_mem] shows that the index is always in range. *)
Definition nth_z (l : list Z) (i : Z) : Z := nth (Z.to_nat i) l 0.

(** [int(p * float64(len(sorted)-1))], then clamped to the valid indices. *)
Definition percentile_index (n : Z) (p : float64) : Z :=
  let idx := f64_trunc (f64_mul p (f64_of_Z (n - 1))) in
  let idx := if idx <? 0 then 0 else idx in
  if n <=? idx then n - 1 else idx.

Definition percentileMs (sorted : list Z) (p : float64) : Z :=
  let n := Z.of_nat (length sorted) in
  if n =? 0 then 0
  else if f64_leb p (f64_of_Z 0) then nth_z sorted 0
  else if f64_leb (f64_of_Z 1) p then nth_z sorted (n - 1)
  else nth_z sorted (percentile_index n p).

(** [sort.Slice] on a copy of the samples: integers are equal when neither is
    smaller, so the sorted result is unique although the sort is unstable. *)
Definition sort_ms (l : list Z) : list Z := merge_sort Z.le l.

Definition p50c : float64 := f64_const 50 100.
Definition p90c : float64 := f64_const 90 100.
Definition p95c : float64 := f64_const 95 100.
Definition p99c : float64 := f64_const 99 100.

Definition ComputeP50P95MaxFromSuccessLatenciesMs (l : list Z) : Z * Z * Z :=
  if (length l =? 0)%nat then (0, 0, 0)
  else
    let sorted := sort_ms l in
    (percentileMs sorted p50c, percentileMs sorted p95c,
     nth_z sorted (Z.of_nat (length sorted) - 1)).

(** [sum += v] on [int64]. *)
Definition sum64 (l : list Z) : Z := fold_left (λ acc v, wrap64 (acc + v)) l 0.

Definition ComputeSummaryFromSuccessLatenciesMs (l : list Z) : float64 * Z * Z * Z :=
  if (length l =? 0)%nat then (f64_of_Z 0, 0, 0, 0)
  else
    let avg := f64_div (f64_of_Z (sum64 l)) (f64_of_Z (Z.of_nat (length l))) in
    let avg := f64_div (f64_round (f64_mul avg (f64_of_Z 100))) (f64_of_Z 100) in
    let sorted := sort_ms l in
    (avg, percentileMs sorted p90c, percentileMs sorted p95c, percentileMs sorted p99c).

(** ** Lemmas *)

Lemma sort_ms_perm l : sort_ms l ≡ₚ l.
Proof. apply merge_sort_Permutation. Qed.

Lemma sort_ms_sorted l : StronglySorted Z.le (sort_ms l).
Proof. apply (StronglySorted_merge_sort _). Qed.

Lemma elem_of_sort_ms x l : x ∈ sort_ms l ↔ x ∈ l.
Proof. by rewrite (elem_of_Permutation_proper x _ _ (sort_ms_perm l)). Qed.

Lemma sort_ms_length l : length (sort_ms l) = length l.
Proof. apply Permutation_length, sort_ms_perm. Qed.

(** The sorted copy does not depend on the order of the samples. *)
Lemma sort_ms_ext l1 l2 : l1 ≡ₚ l2 → sort_ms l1 = sort_ms l2.
Proof.
  intros H. apply (StronglySorted_unique Z.le); try apply sort_ms_sorted.
  by rewrite !sort_ms_perm.
Qed.

Lemma fold_sum64 l a : fold_left (λ acc v, wrap64 (acc + v)) l (wrap64 a) = wrap64 (a + foldr Z.add 0 l).
Proof.
  revert a. induction l as [|x l IH]; intros a; simpl; [by rewrite Z.add_0_r|].
  rewrite wrap64_add_l, IH. f_equal. lia.
Qed.

Lemma sum64_wrap l : sum64 l = wrap64 (foldr Z.add 0 l).
Proof. apply (fold_sum64 l 0). Qed.

Lemma sum64_perm l1 l2 : l1 ≡ₚ l2 → sum64 l1 = sum64 l2.
Proof.
  rewrite !sum64_wrap. intros H. f_equal.
  induction H; simpl; lia.
Qed.

#[export] Instance sort_ms_proper : Proper ((≡ₚ) ==> eq) sort_ms.
Proof. intros ???. by apply sort_ms_ext. Qed.
#[export] Instance sum64_proper : Proper ((≡ₚ) ==> eq) sum64.
Proof. intros ???. by apply sum64_perm. Qed.

Lemma nth_z_mem l i : 0 ≤ i < Z.of_nat (length l) → nth_z l i ∈ l.
Proof. intros H. apply list_elem_of_In, nth_In. lia. Qed.

Lemma sorted_nth_le l i j :
  StronglySorted Z.le l → (i ≤ j)%nat → (j < length l)%nat → nth i l 0 ≤ nth j l 0.
Proof.
  intros Hs. revert i j. induction Hs as [|x l Hs IH Hall]; intros i j Hij Hj; simpl in *; [lia|].
  destruct i as [|i], j as [|j]; try lia.
  - rewrite Forall_forall in Hall. apply Hall, list_elem_of_In, nth_In. lia.
  - apply IH; lia.
Qed.

Lemma nth_z_mono l i j :
  StronglySorted Z.le l → 0 ≤ i ≤ j → j < Z.of_nat (length l) → nth_z l i ≤ nth_z l j.
Proof. intros Hs ??. apply sorted_nth_le; [done|lia|lia]. Qed.

Lemma percentile_index_range n p : 0 < n → 0 ≤ percentile_index n p < n.
Proof.
  intros Hn. unfold percentile_index.
  destruct (Z.ltb_spec (f64_trunc (f64_mul p (f64_of_Z (n - 1)))) 0); simpl;
    [|]; match goal with |- context [n <=? ?i] => destruct (Z.leb_spec n i) end; lia.
Qed.

(** The arithmetic behind [percent_floor], scaled by the power of two that
    makes the integer a 53-bit mantissa: how far [P * N'] is from the floor. *)
Lemma percent_scaled P a N N' J :
  0 < N' → N' = N * J → 2 ^ 7 ≤ J →
  -40 ≤ 2 * a * 2 ^ 53 - 200 * P ≤ 80 →
  (2 * a * 2 ^ 53 - 200 * P ≤ 0 ∨ 90 * 2 ^ 53 ≤ 100 * P) →
  100 * (a * N / 100 * J) ≤ a * N' ≤ 100 * (a * N / 100 * J) + 99 * J ∧
  -40 * N' ≤ 2 * 2 ^ 53 * (a * N') - 200 * (P * N') ≤ 80 * N' ∧
  (2 * 2 ^ 53 * (a * N') - 200 * (P * N') ≤ 0 ∨ 90 * 2 ^ 53 * N' ≤ 100 * (P * N')).
Proof.
  intros HN0 HN HJ HD HP9. split_and!.
  1, 2: replace (a * N') with (a * N * J) by (rewrite HN; ring);
    pose proof (Z.div_mod (a * N) 100 ltac:(lia)) as Hdm;
    pose proof (Z.mod_pos_bound (a * N) 100 ltac:(lia)) as Hmod;
    set (F := a * N / 100) in *; set (Y := a * N) in *; clearbody F Y; clear - Hdm Hmod HJ; nia.
  1, 2: clear - HD HN0; nia.
  clear - HP9 HN0. destruct HP9; [left|right]; nia.
Qed.

(** The product of a percentage constant [P * 2^-53] and an integer, rounded
    by [float64] multiplication and truncated, is the exact integer floor: the
    rounding error stays below the distance to the next integer.  The
    hypotheses on [P] hold for the four constants of the code. *)
Lemma percent_floor P a N :
  2 ^ 52 ≤ Zpos P < 2 ^ 53 → 1 ≤ N < 2 ^ 46 → 0 ≤ a →
  -40 ≤ 2 * a * 2 ^ 53 - 200 * Zpos P ≤ 80 →
  (2 * a * 2 ^ 53 - 200 * Zpos P ≤ 0 ∨ 90 * 2 ^ 53 ≤ 100 * Zpos P) →
  f64_trunc (f64_mul (S754_finite false P (-53)) (f64_of_Z N)) = a * N / 100.
Proof.
  intros HP HN Ha HD HP9.
  destruct (f64_of_Z_exact N ltac:(lia)) as (N' & j & -> & HN' & Hj & HNb).
  assert (7 ≤ j ≤ 52) as Hj7.
  { split; apply Z.nlt_ge; intros Hlt.
    - assert (2 ^ j ≤ 2 ^ 6) by (apply Z.pow_le_mono_r; lia). nia.
    - assert (2 ^ 53 ≤ 2 ^ j) by (apply Z.pow_le_mono_r; lia). nia. }
  pose proof (Z.pow_le_mono_r 2 7 j ltac:(lia) ltac:(lia)) as HJ.
  unfold f64_mul, SFmul. cbn [xorb].
  pose proof (digits2_bounds (P * N')) as Hd. rewrite Pos2Z.inj_mul in Hd.
  assert (Zpos (digits2_pos (P * N')) = 105 ∨ Zpos (digits2_pos (P * N')) = 106) as Hdig.
  { assert (Zpos (digits2_pos (P * N')) ≤ 106) by (apply digits2_le; [lia|]; nia).
    destruct (Z.le_gt_cases 105 (Zpos (digits2_pos (P * N')))); [lia|].
    assert (2 ^ Zpos (digits2_pos (P * N')) ≤ 2 ^ 104) by (apply Z.pow_le_mono_r; lia). nia. }
  destruct (trunc_round_aux (P * N') (-53 + - j)) as (q & Hq & ->).
  { unfold fexp, emin, prec64, emax64. lia. }
  rewrite Pos2Z.inj_mul in Hq.
  destruct (percent_scaled (Zpos P) a N (Zpos N') (2 ^ j)) as (HF & HE & HE9); [lia|done..|].
  assert (0 ≤ a * N / 100) by (apply Z.div_pos; nia).
  set (F := a * N / 100) in *. set (J := 2 ^ j) in *. clear HD HP9 HP HN' HN Ha.
  set (X := F * J) in *. set (PN := Zpos P * Zpos N') in *. set (aN := a * Zpos N') in *.
  destruct Hdig as [Hdig|Hdig]; rewrite Hdig in *.
  - replace (- (-53 + - j + Z.max (fexp prec64 emax64 (105 + (-53 + - j)) - (-53 + - j)) 0))
      with (j + 1) by (unfold fexp, emin, prec64, emax64; lia).
    replace (Z.max (fexp prec64 emax64 (105 + (-53 + - j)) - (-53 + - j)) 0)
      with 52 in Hq by (unfold fexp, emin, prec64, emax64; lia).
    rewrite Z.pow_add_r by lia. fold J. change (2 ^ 1) with 2.
    apply div_floor; [lia|].
    replace (F * (J * 2)) with (2 * X) by (unfold X; ring).
    replace ((F + 1) * (J * 2)) with (2 * X + 2 * J) by (unfold X; ring).
    lia.
  - replace (- (-53 + - j + Z.max (fexp prec64 emax64 (106 + (-53 + - j)) - (-53 + - j)) 0))
      with j by (unfold fexp, emin, prec64, emax64; lia).
    replace (Z.max (fexp prec64 emax64 (106 + (-53 + - j)) - (-53 + - j)) 0)
      with 53 in Hq by (unfold fexp, emin, prec64, emax64; lia).
    fold J. apply div_floor; [lia|]. fold X.
    replace ((F + 1) * J) with (X + J) by (unfold X; ring).
    lia.
Qed.

Definition p50c_eq : p50c = S754_finite false 4503599627370496 (-53) := eq_refl.
Definition p90c_eq : p90c = S754_finite false 8106479329266893 (-53) := eq_refl.
Definition p95c_eq : p95c = S754_finite false 8556839292003942 (-53) := eq_refl.
Definition p99c_eq : p99c = S754_finite false 8917127262193582 (-53) := eq_refl.

(** The number of samples below which the floating-point index is proved
    exact; a batch holds [rps * duration_sec] samples, far fewer. *)
Definition max_samples : Z := 2 ^ 46.

Lemma percentile_index_floor n a :
  1 ≤ n ≤ max_samples → a ∈ [50; 90; 95; 99] →
  percentile_index n (f64_const a 100) = a * (n - 1) / 100.
Proof.
  intros Hn Ha. unfold percentile_index.
  assert (f64_trunc (f64_mul (f64_const a 100) (f64_of_Z (n - 1))) = a * (n - 1) / 100) as ->.
  { destruct (Z.eq_dec n 1) as [->|Hn1].
    - rewrite !elem_of_cons in Ha. by destruct Ha as [->|[->|[->|[->|Ha%elem_of_nil]]]].
    - unfold max_samples in Hn. rewrite !elem_of_cons in Ha.
      destruct Ha as [->|[->|[->|[->|Ha%elem_of_nil]]]]; [| | | |done].
      + fold p50c. rewrite p50c_eq. apply percent_floor; lia.
      + fold p90c. rewrite p90c_eq. apply percent_floor; lia.
      + fold p95c. rewrite p95c_eq. apply percent_floor; lia.
      + fold p99c. rewrite p99c_eq. apply percent_floor; lia. }
  assert (0 ≤ a ≤ 99) as Ha' by (rewrite !elem_of_cons in Ha;
    destruct Ha as [->|[->|[->|[->|Ha%elem_of_nil]]]]; (lia || done)).
  assert (0 ≤ a * (n - 1) / 100 ∧ a * (n - 1) / 100 < n) as [H1 H2].
  { split; [apply Z.div_pos; nia|apply Z.div_lt_upper_bound; nia]. }
  destruct (Z.ltb_spec (a * (n - 1) / 100) 0); [lia|].
  destruct (Z.leb_spec n (a * (n - 1) / 100)); lia.
Qed.

Lemma percentileMs_const sorted a :
  a ∈ [50; 90; 95; 99] → sorted ≠ [] →
  percentileMs sorted (f64_const a 100)
    = nth_z sorted (percentile_index (Z.of_nat (length sorted)) (f64_const a 100)).
Proof.
  intros Ha Hne. unfold percentileMs.
  assert (Z.of_nat (length sorted) ≠ 0) by (destruct sorted; simpl in *; [done|lia]).
  destruct (Z.eqb_spec (Z.of_nat (length sorted)) 0); [done|].
  rewrite !elem_of_cons in Ha. by destruct Ha as [->|[->|[->|[->|Ha%elem_of_nil]]]].
Qed.

#[export] Hint Resolve sort_ms_sorted sort_ms_perm percentile_index_range : go.

(** ** Order statistics *)

(** The first [i + 1] elements of a sorted list are at most its [i]-th, and
    the ones from [i] on are at least it. *)
Lemma countb_sorted_le (l : list Z) (i : nat) :
  StronglySorted Z.le l → (i < length l)%nat →
  (i < countb (λ x, Z.leb x (nth i l 0%Z)) l)%nat ∧
  (length l - i ≤ countb (λ x, Z.leb (nth i l 0%Z) x) l)%nat.
Proof.
  intros Hs. revert i. induction Hs as [|x l Hs IH Hall]; intros i Hi; simpl in *; [lia|].
  rewrite Forall_forall in Hall. destruct i as [|i].
  - rewrite Z.leb_refl. split; [lia|].
    rewrite (countb_ext _ (λ _, true) l).
    + pose proof (countb_compl (λ _, true) l) as Hc.
      assert (countb (λ _ : Z, negb true) l = 0%nat) as H0 by (clear; induction l; done). lia.
    + intros y Hy. by apply Z.leb_le, Hall.
  - destruct (IH i ltac:(lia)) as [H1 H2].
    assert (x ≤ nth i l 0) as Hx by (apply Hall, list_elem_of_In, nth_In; lia).
    apply Z.leb_le in Hx. rewrite Hx. split; [lia|]. destruct (_ <=? x); lia.
Qed.

(** What the [a]-th percentile of a multiset of samples is: one of them,
    with the right number of samples on either side. *)
Definition is_percentile (l : list Z) (a : Z) (v : Z) : Prop :=
  let r := a * (Z.of_nat (length l) - 1) / 100 in
  v ∈ l ∧ r < Z.of_nat (countb (λ x, x <=? v) l)
  ∧ Z.of_nat (length l) - r ≤ Z.of_nat (countb (λ x, v <=? x) l).

Lemma percentile_rank_range n a :
  1 ≤ n → 0 ≤ a ≤ 100 → 0 ≤ a * (n - 1) / 100 < n.
Proof.
  intros. split; [apply Z.div_pos; nia|apply Z.div_lt_upper_bound; nia].
Qed.

Lemma percent_consts_range a : a ∈ [50; 90; 95; 99] → 0 ≤ a ≤ 100.
Proof. rewrite !elem_of_cons, elem_of_nil. lia. Qed.

Lemma length_pos_Z {A} (l : list A) : l ≠ [] → 1 ≤ Z.of_nat (length l).
Proof. destruct l; simpl; [done|lia]. Qed.

Lemma percentileMs_nth l a :
  a ∈ [50; 90; 95; 99] → l ≠ [] → Z.of_nat (length l) ≤ max_samples →
  percentileMs (sort_ms l) (f64_const a 100)
    = nth_z (sort_ms l) (a * (Z.of_nat (length l) - 1) / 100).
Proof.
  intros Ha Hl Hn. pose proof (length_pos_Z l Hl).
  rewrite percentileMs_const, sort_ms_length, percentile_index_floor; try done.
  intros E. apply (f_equal length) in E. rewrite sort_ms_length in E.
  destruct l; simpl in *; [done|lia].
Qed.

Lemma percentileMs_is_percentile l a :
  a ∈ [50; 90; 95; 99] → l ≠ [] → Z.of_nat (length l) ≤ max_samples →
  is_percentile l a (percentileMs (sort_ms l) (f64_const a 100)).
Proof.
  intros Ha Hl Hn. rewrite percentileMs_nth by done.
  pose proof (percentile_rank_range (Z.of_nat (length l)) a (length_pos_Z l Hl)
    (percent_consts_range a Ha)) as Hr.
  unfold is_percentile. set (r := a * _ / 100) in *.
  destruct (countb_sorted_le (sort_ms l) (Z.to_nat r)) as [H1 H2].
  { apply sort_ms_sorted. } { rewrite sort_ms_length. lia. }
  rewrite sort_ms_length in H2. rewrite !(countb_perm _ _ _ (sort_ms_perm l)) in *.
  split; [|unfold nth_z; split; lia].
  apply elem_of_sort_ms, nth_z_mem. rewrite sort_ms_length. lia.
Qed.

Lemma percentileMs_mono l a b :
  a ∈ [50; 90; 95; 99] → b ∈ [50; 90; 95; 99] → a ≤ b →
  l ≠ [] → Z.of_nat (length l) ≤ max_samples →
  percentileMs (sort_ms l) (f64_const a 100) ≤ percentileMs (sort_ms l) (f64_const b 100).
Proof.
  intros Ha Hb Hab Hl Hn. rewrite !percentileMs_nth by done.
  pose proof (length_pos_Z l Hl).
  pose proof (percentile_rank_range (Z.of_nat (length l)) a ltac:(done)
    (percent_consts_range a Ha)).
  pose proof (percentile_rank_range (Z.of_nat (length l)) b ltac:(done)
    (percent_consts_range b Hb)).
  apply nth_z_mono; [apply sort_ms_sorted| |rewrite sort_ms_length; lia].
  assert (a * (Z.of_nat (length l) - 1) / 100 ≤ b * (Z.of_nat (length l) - 1) / 100)
    by (apply Z.div_le_mono; nia). lia.
Qed.

(** ** Properties *)

(** the summary of a stage (average and percentiles) depends on the
    multiset of successful latencies only: the order in which the events map
    is iterated, which Go leaves unspecified, does not influence a report. *)
Theorem summary_order_independent l1 l2 :
  l1 ≡ₚ l2 →
  ComputeSummaryFromSuccessLatenciesMs l1 = ComputeSummaryFromSuccessLatenciesMs l2 ∧
  ComputeP50P95MaxFromSuccessLatenciesMs l1 = ComputeP50P95MaxFromSuccessLatenciesMs l2.
Proof.
  intros H. unfold ComputeSummaryFromSuccessLatenciesMs,
    ComputeP50P95MaxFromSuccessLatenciesMs.
  by rewrite (sort_ms_proper _ _ H), (sum64_proper _ _ H), (Permutation_length H).
Qed.

Lemma summary_order_independent_witness :
  [120; 7; 30] ≡ₚ [7; 30; 120] ∧
  ComputeSummaryFromSuccessLatenciesMs [120; 7; 30]
    = ComputeSummaryFromSuccessLatenciesMs [7; 30; 120].
Proof.
  assert ([120; 7; 30] ≡ₚ [7; 30; 120]) as H by (by apply Permutation_cons_append).
  split; [exact H|]. apply (proj1 (summary_order_independent _ _ H)).
Defined.

(** C8: for any non-empty sample of at most 2^46 latencies the reported
    percentiles are those of the definition (a sample with at least the
    right share of the samples at or below it), computed without error in
    spite of the floating-point index; they are ordered p90 <= p95 <= p99,
    and p99 is at most the reported maximum. *)
Theorem summary_percentiles_correct l :
  l ≠ [] → Z.of_nat (length l) ≤ max_samples →
  let '(_, p90, p95, p99) := ComputeSummaryFromSuccessLatenciesMs l in
  let '(p50, p95', mx) := ComputeP50P95MaxFromSuccessLatenciesMs l in
  is_percentile l 90 p90 ∧ is_percentile l 95 p95 ∧ is_percentile l 99 p99 ∧
  is_percentile l 50 p50 ∧ p95' = p95 ∧
  p50 ≤ p90 ≤ p95 ∧ p95 ≤ p99 ≤ mx ∧ mx ∈ l ∧ (∀ x, x ∈ l → x ≤ mx).
Proof.
  intros Hl Hn. unfold ComputeSummaryFromSuccessLatenciesMs,
    ComputeP50P95MaxFromSuccessLatenciesMs.
  pose proof (length_pos_Z l Hl). replace (length l =? 0)%nat with false
    by (symmetry; apply Nat.eqb_neq; lia).
  unfold p50c, p90c, p95c, p99c.
  assert (∀ i, 0 ≤ i < Z.of_nat (length l) →
    nth_z (sort_ms l) i ≤ nth_z (sort_ms l) (Z.of_nat (length (sort_ms l)) - 1)) as Hmax.
  { intros i Hi. apply nth_z_mono; [apply sort_ms_sorted|rewrite sort_ms_length; lia..]. }
  do 4 (split; [apply percentileMs_is_percentile; (set_solver || done)|]).
  split; [done|]. split; [split; apply percentileMs_mono; (set_solver || lia || done)|].
  split; [split; [apply percentileMs_mono; (set_solver || lia || done)|]|split].
  - rewrite percentileMs_nth by (set_solver || done). apply Hmax, percentile_rank_range; lia.
  - apply elem_of_sort_ms, nth_z_mem. rewrite sort_ms_length. lia.
  - intros x Hx. apply elem_of_sort_ms in Hx.
    apply list_elem_of_In, (In_nth _ _ 0) in Hx as (i & Hi & <-).
    rewrite sort_ms_length in Hi. specialize (Hmax (Z.of_nat i) ltac:(lia)).
    unfold nth_z at 1 in Hmax. by rewrite Nat2Z.id in Hmax.
Qed.

Lemma summary_percentiles_correct_witness :
  [120; 7; 30; 55] ≠ ([] : list Z) ∧ is_percentile [120; 7; 30; 55] 90 55.
Proof.
  split; [discriminate|].
  apply (summary_percentiles_correct [120; 7; 30; 55]); [discriminate|].
  vm_compute. discriminate.
Defined.
