(* ===== verification/Json.v ===== *)
(** * JSON values as the program handles them

    Every payload is decoded into [map[string]any], edited in place and
    encoded again.  [json] is the dynamic type [any] restricted to what
    [encoding/json] produces, plus Go [int] values, which the code inserts
    into decoded maps (they become [float64] after the next decoding).

    A decoded value is a tree: no two places of it share a map or a slice, so
    an in-place edit is modelled by rebuilding the path to the edited field.

    The byte encoding itself is abstract: [JsonCodec] gives the bytes, the
    two functions of [encoding/json] and the round-trip law the code relies
    on. *)
From stdpp Require Import prelude gmap strings.
From Stdlib Require Import Ascii String.
From S2P Require Import Prelude Float64.

Inductive json : Type :=
  | JNull
  | JBool (b : bool)
  | JNum (f : float64)
  | JInt (z : Z)
  | JStr (s : string)
  | JArr (l : list json)
  | JObj (m : gmap string json).

Abbreviation obj := (gmap string json).

(** ** Type assertions on the result of a map lookup *)

(** [m, _ := x.(map[string]any)]: the nil map when the assertion fails. *)
Definition as_obj (o : option json) : option obj :=
  match o with Some (JObj m) => Some m | _ => None end.

Definition as_arr (o : option json) : option (list json) :=
  match o with Some (JArr l) => Some l | _ => None end.

(** [s, _ := x.(string)]: the empty string when the assertion fails. *)
Definition as_str (o : option json) : string :=
  match o with Some (JStr s) => s | _ => "" end.

(** The boolean of [_, ok := x.(string)]. *)
Definition is_str (o : option json) : bool :=
  match o with Some (JStr _) => true | _ => false end.

(** [x == nil] for an [any]: a missing key or a JSON [null]. *)
Definition is_nil (o : option json) : bool :=
  match o with None | Some JNull => true | _ => false end.

(** The recurrent idiom
    [if _, ok := m[k].(string); !ok { m[k] = v }]. *)
Definition default_str (k v : string) (m : obj) : obj :=
  if is_str (m !! k) then m else <[k := JStr v]> m.

(** [if m[k] == nil { m[k] = v }]. *)
Definition default_nil (k : string) (v : json) (m : obj) : obj :=
  if is_nil (m !! k) then <[k := v]> m else m.

(** [if _, ok := m[k]; !ok { m[k] = v }]. *)
Definition default_key (k : string) (v : json) (m : obj) : obj :=
  match m !! k with Some _ => m | None => <[k := v]> m end.

(** The nested object under [k], or a new empty one. *)
Definition obj_or_new (k : string) (m : obj) : obj := default ∅ (as_obj (m !! k)).

(** [for i, f := range fulf { fm, _ := f.(map[string]any); if fm == nil
    { continue }; ...; fulf[i] = fm }]. *)
Definition map_objs (f : obj → obj) (l : list json) : list json :=
  (λ j, match j with JObj m => JObj (f m) | _ => j end) <$> l.

(** What decoding an encoded value gives: Go [int]s come back as [float64]. *)
Fixpoint norm (j : json) : json :=
  match j with
  | JInt z => JNum (f64_of_Z z)
  | JArr l => JArr (map norm l)
  | JObj m => JObj (norm <$> m)
  | _ => j
  end.

(** ** The codec *)

(** [json.Marshal] fails on a NaN or an infinity only; the law is the
    documented inverse property of [encoding/json]. *)
Class JsonCodec (B : Type) := {
  json_unmarshal : B → option json;
  json_marshal : json → option B;
  json_roundtrip : ∀ j b, json_marshal j = Some b → json_unmarshal b = Some (norm j);
}.

(** [json.Unmarshal(b, &m)] into a [map[string]any]: [None] is an error,
    [Some None] the nil map a JSON [null] leaves behind. *)
Definition decode_map {B} `{JsonCodec B} (b : B) : option (option obj) :=
  match json_unmarshal b with
  | Some (JObj m) => Some (Some m)
  | Some JNull => Some None
  | _ => None
  end.

(** [json.Marshal] of a map that may be nil. *)
Definition encode_map {B} `{JsonCodec B} (m : option obj) : option B :=
  json_marshal (match m with Some m => JObj m | None => JNull end).

(** ** Decoding into structs

    [encoding/json] assigns a key of an object to the field with that name,
    or to the one whose name is equal under Unicode case folding.  When two
    keys of one object differ only in case the text's order decides, which
    the tree does not keep: the model then takes the exact spelling. *)
Fixpoint fold_name (s : string) : string :=
  match s with
  | String "197"%char (String "191"%char s') => String "s"%char (fold_name s')            (* U+017F *)
  | String "226"%char (String "132"%char (String "170"%char s')) => String "k"%char (fold_name s')  (* U+212A *)
  | String c s' =>
      let n := Ascii.nat_of_ascii c in
      String (if (65 <=? n) && (n <=? 90) then Ascii.ascii_of_nat (n + 32) else c) (fold_name s')
  | EmptyString => EmptyString
  end.

Definition struct_field (name : string) (m : obj) : option json :=
  match m !! name with
  | Some v => Some v
  | None => (λ p, p.2.2) <$> list_find (λ kv, fold_name kv.1 = fold_name name) (map_to_list m)
  end.

(** A [string] field: a missing key and [null] leave it empty, another value
    is an error. *)
Definition string_field (o : option json) : option string :=
  match o with
  | None | Some JNull => Some ""
  | Some (JStr s) => Some s
  | _ => None
  end.

(** [json:"message"] of [json:"ack"] of [json:"status"], as the handlers read
    it from a callback; with any error the text is empty. *)
Definition ack_status (j : option json) : string :=
  let nested o k := m ← as_obj o; struct_field k m in
  as_str (nested (nested (nested j "message") "ack") "status").

(** [fmt.Sprint] of a decoded value: the text of strings, booleans and nil is
    fixed; the text of numbers, slices and maps is left abstract. *)
Class Sprint := sprint_other : json → string.

Definition sprint `{Sprint} (o : option json) : string :=
  match o with
  | None | Some JNull => "<nil>"
  | Some (JStr s) => s
  | Some (JBool true) => "true"
  | Some (JBool false) => "false"
  | Some j => sprint_other j
  end.

(** ** Lemmas *)

Lemma default_str_is_str k v (m : obj) : is_str (default_str k v m !! k) = true.
Proof.
  unfold default_str. destruct (is_str (m !! k)) eqn:E; [done|]. by rewrite lookup_insert_eq.
Qed.

Lemma default_str_keep k v (m : obj) s :
  m !! k = Some (JStr s) → default_str k v m = m.
Proof. unfold default_str. by intros ->. Qed.

Lemma default_str_ne k k' v (m : obj) :
  k ≠ k' → default_str k v m !! k' = m !! k'.
Proof. intros. unfold default_str. case_match; [done|]. by rewrite lookup_insert_ne. Qed.

Lemma default_key_ne k k' v (m : obj) :
  k ≠ k' → default_key k v m !! k' = m !! k'.
Proof. intros. unfold default_key. case_match; [done|]. by rewrite lookup_insert_ne. Qed.

Lemma default_key_is_Some k v (m : obj) : is_Some (default_key k v m !! k).
Proof. unfold default_key. case_match; [eauto|]. rewrite lookup_insert_eq. eauto. Qed.

Lemma default_nil_ne k k' v (m : obj) :
  k ≠ k' → default_nil k v m !! k' = m !! k'.
Proof. intros. unfold default_nil. case_match; [|done]. by rewrite lookup_insert_ne. Qed.

Lemma as_obj_Some o m : as_obj o = Some m → o = Some (JObj m).
Proof. destruct o as [[]|]; simpl; congruence. Qed.

Lemma as_arr_Some o l : as_arr o = Some l → o = Some (JArr l).
Proof. destruct o as [[]|]; simpl; congruence. Qed.

Lemma map_objs_length f l : length (map_objs f l) = length l.
Proof. apply length_fmap. Qed.

(** Idempotence of an edit lifts to the objects of an array. *)
Lemma map_objs_idem f l :
  (∀ m, f (f m) = f m) → map_objs f (map_objs f l) = map_objs f l.
Proof.
  intros Hf. unfold map_objs. rewrite <- list_fmap_compose.
  apply list_fmap_ext. intros ? j _. destruct j; simpl; congruence.
Qed.

Lemma default_str_idem k v (m : obj) : default_str k v (default_str k v m) = default_str k v m.
Proof. unfold default_str at 1. by rewrite default_str_is_str. Qed.

Lemma map_objs_lookup f l i :
  map_objs f l !! i = (λ j, match j with JObj m => JObj (f m) | _ => j end) <$> l !! i.
Proof. apply list_lookup_fmap. Qed.

(** The fields an edit is entitled to change. *)
Lemma insert_obj_ne k k' (j : json) (m : obj) : k ≠ k' → (<[k := j]> m) !! k' = m !! k'.
Proof. apply lookup_insert_ne. Qed.

#[export] Hint Rewrite @lookup_insert_eq : go.
#[export] Hint Resolve default_str_is_str default_key_is_Some : go.

(** A codec whose bytes are the decoded values themselves, which shows that
    the law can be satisfied. *)
#[export] Instance tree_codec : JsonCodec json.
Proof.
  refine {| json_unmarshal := Some; json_marshal := λ j, Some (norm j) |}.
  congruence.
Defined.

(** ** Nested objects *)

Lemma obj_or_new_Some k (m e : obj) : as_obj (m !! k) = Some e → obj_or_new k m = e.
Proof. unfold obj_or_new. by intros ->. Qed.

Lemma insert_obj_id k (m e : obj) : as_obj (m !! k) = Some e → <[k := JObj e]> m = m.
Proof. intros H%as_obj_Some. by apply insert_id. Qed.

Lemma default_str_id k v (m : obj) : is_str (m !! k) = true → default_str k v m = m.
Proof. unfold default_str. by intros ->. Qed.

Lemma as_obj_insert k (m e : obj) : as_obj (<[k := JObj e]> m !! k) = Some e.
Proof. by rewrite lookup_insert_eq. Qed.

Lemma default_str_mono k k' v (m : obj) :
  is_str (m !! k') = true → is_str (default_str k v m !! k') = true.
Proof.
  intros H. destruct (decide (k = k')) as [->|]; [apply default_str_is_str|].
  by rewrite default_str_ne.
Qed.

(** An edit of the objects of an array: every object satisfies what the edit
    establishes, and an edit that changes nothing there changes nothing. *)
Lemma map_objs_forall (P : obj → Prop) f l m :
  (∀ m, P (f m)) → JObj m ∈ map_objs f l → P m.
Proof.
  intros Hf (j & E & Hj)%list_elem_of_fmap. destruct j; simplify_eq. apply Hf.
Qed.

Lemma map_objs_id f l : (∀ m, JObj m ∈ l → f m = m) → map_objs f l = l.
Proof.
  intros Hf. unfold map_objs. rewrite <- (list_fmap_id l) at 2. apply list_fmap_ext.
  intros i j Hj. destruct j; simpl; try done. rewrite Hf; [done|]. by eapply list_elem_of_lookup_2.
Qed.

#[export] Hint Resolve default_str_mono as_obj_insert : go.

(** Reads a field of an edited object: walks through the edits of the other
    fields until it meets the edit of this one. *)
Ltac field :=
  repeat first
    [ apply default_str_is_str
    | apply as_obj_insert
    | rewrite default_str_ne by done
    | rewrite lookup_insert_ne by done
    | rewrite lookup_insert_eq ].
