(* ===== verification/ApiError.v ===== *)
(** * Errors: [internal/shared/apierror] and the error values of the handlers *)
From stdpp Require Import prelude strings pretty.
From S2P Require Import Prelude Json.
Local Open Scope string_scope.

(** [types.go]. *)
Record CustomError := mkCustomError {
  ce_HTTPCode : Z;
  ce_Code : string;
  ce_Message : string;
  ce_Details : option json;
}.

(** The error values of the program: a structured error, Fiber's own error,
    the two errors of a finished [context.Context], and the texts made by
    [errors.New] and [fmt.Errorf], wrapped ([%w]) or not. *)
Inductive error :=
  | ECustom (e : CustomError)
  | EFiber (code : Z) (msg : string)
  | ECanceled
  | EDeadlineExceeded
  | EText (s : string)
  | EWrap (prefix : string) (e : error).

Definition NewCustomError (httpCode : Z) (code message : string) : CustomError :=
  mkCustomError httpCode code message None.

Definition NewCustomErrorD (httpCode : Z) (code message : string) (d : option json) : CustomError :=
  mkCustomError httpCode code message d.

(** [session.go], [pipeline.go], [generic.go]. *)
Definition ErrSessionNotFound := NewCustomError 404 "SESSION_4001" "Session not found".
Definition ErrSessionExpired := NewCustomError 410 "SESSION_4002" "Session has expired".
Definition ErrCatalogNotReady :=
  NewCustomError 422 "SESSION_4005" "Catalog snapshot not available, run discovery first".
Definition ErrCatalogPending := NewCustomError 409 "SESSION_4006" "Discovery already in progress".
Definition ErrRunAlreadyActive :=
  NewCustomError 409 "SESSION_4007" "A run is already active for this session".
Definition ErrRunNotFound := NewCustomError 404 "SESSION_4008" "Run not found".
Definition ErrNoActiveRun := NewCustomError 404 "SESSION_4009" "No active run to stop".
Definition ErrUpstreamTimeout := NewCustomError 504 "PIPELINE_5001" "BPP did not respond in time".
Definition ErrUpstreamNonSuccess :=
  NewCustomError 502 "PIPELINE_5002" "BPP returned a non-success status".
Definition ErrRateLimited := NewCustomError 429 "PIPELINE_4001" "Rate limit exceeded".
Definition ErrOnSearchNotFound := NewCustomError 404 "PIPELINE_4002" "on_search payload not found".
Definition ErrBatchBuildFailed := NewCustomError 500 "PIPELINE_5003" "Failed to build payload batch".
Definition ErrInvalidRequestBody := NewCustomError 400 "REQUEST_2001" "Invalid request body".
Definition ErrInvalidRequestFormat := NewCustomError 400 "REQUEST_2004" "Invalid request body format".
Definition ErrValidationFailed := NewCustomError 400 "VALIDATION_2001" "Validation failed".
Definition ErrMissingRequiredFields := NewCustomError 400 "REQUIRED_FIELDS_4001" "Missing required fields".
Definition ErrHTTPBadRequest := NewCustomError 400 "HTTP_400" "Bad Request".
Definition ErrHTTPUnauthorized := NewCustomError 401 "HTTP_401" "Unauthorized".
Definition ErrHTTPForbidden := NewCustomError 403 "HTTP_403" "Forbidden".
Definition ErrHTTPNotFound := NewCustomError 404 "HTTP_404" "Not Found".
Definition ErrHTTPConflict := NewCustomError 409 "HTTP_409" "Conflict".
Definition ErrHTTPInternalServer := NewCustomError 500 "HTTP_500" "Internal Server Error".

(** [CustomError.Is]: details are ignored. *)
Definition CustomError_Is (e t : CustomError) : bool :=
  (ce_Code e =? ce_Code t) && (ce_Message e =? ce_Message t)
  && (ce_HTTPCode e =? ce_HTTPCode t)%Z.

(** [CustomError.Error]. *)
Definition CustomError_Error (e : CustomError) : string :=
  if ce_Code e =? "" then ce_Message e
  else "[" ++ ce_Code e ++ "] " ++ ce_Message e.

(** [err.Error()] of every error value. *)
Fixpoint error_text (e : error) : string :=
  match e with
  | ECustom c => CustomError_Error c
  | EFiber _ m => m
  | ECanceled => "context canceled"
  | EDeadlineExceeded => "context deadline exceeded"
  | EText s => s
  | EWrap p e' => p ++ ": " ++ error_text e'
  end.

(** [IsNotFoundError]: a plain type assertion, which does not unwrap. *)
Definition IsNotFoundError (e : option error) : bool :=
  match e with
  | Some (ECustom c) => (ce_HTTPCode c =? 404)%Z
  | _ => false
  end.

(** [errors.As] for the two structured types: the first of the chain. *)
Fixpoint as_fiber (e : error) : option (Z * string) :=
  match e with EFiber c m => Some (c, m) | EWrap _ e' => as_fiber e' | _ => None end.
Fixpoint as_custom (e : error) : option CustomError :=
  match e with ECustom c => Some c | EWrap _ e' => as_custom e' | _ => None end.

(** The body [writeErrorResponse] sends (the timestamp apart). *)
Record ErrorResponse := mkErrorResponse {
  er_status : Z;
  er_code : string;
  er_message : string;
  er_details : option json;
}.

(** [ErrorHandler]: [None] when the response is left as it is. *)
Definition ErrorHandler (content_length status : Z) (e : error) : option ErrorResponse :=
  if ((0 <? content_length) && (400 <=? status))%Z then None
  else match as_fiber e with
  | Some (c, m) => Some (mkErrorResponse c ("HTTP_" ++ pretty c) m None)
  | None =>
      match as_custom e with
      | Some c => Some (mkErrorResponse (ce_HTTPCode c) (ce_Code c) (ce_Message c) (ce_Details c))
      | None => Some (mkErrorResponse 500 "HTTP_500" "Internal Server Error" None)
      end
  end.
