(* ===== verification/OndcAuth.v ===== *)
(** * Signed requests: [internal/shared/ondcauth/ondcauth.go]

    The [Authorization] header of the ONDC network: made and signed by
    [CreateAuthorisationHeader], taken apart by [parseAuthHeader] and checked
    by [VerifyAuthorisationHeaderBytes].  Ed25519 and BLAKE2b are no code of
    the repository; the class [Crypto] has their functions and the documented
    properties the code relies on, and the proofs hold for every instance.
    The clock ([time.Now().Unix()]) is an argument.  Its log lines are left out. *)
From stdpp Require Import prelude gmap strings.
From Stdlib Require Import Ascii String.
From S2P Require Import Prelude GoStrings Base64 ApiError.
Local Open Scope string_scope.

Class Crypto := {
  blake2b_Sum512 : string → string;
  ed25519_public : string → string;            (* of a 32-byte seed *)
  ed25519_Sign : string → string → string;     (* seed, message *)
  ed25519_Verify : string → string → string → bool;  (* public key, message, signature *)
  ed25519_public_length : ∀ seed, String.length seed = 32%nat →
    String.length (ed25519_public seed) = 32%nat;
  ed25519_Sign_nonempty : ∀ seed m, ed25519_Sign seed m ≠ "";
  ed25519_Verify_Sign : ∀ seed m, String.length seed = 32%nat →
    ed25519_Verify (ed25519_public seed) m (ed25519_Sign seed m) = true;
}.

Definition newline : string := String "010" "".
Definition quoted (s : string) : string := String dquote (s ++ String dquote "").

Definition ttlSeconds : Z := 3600.

(** ** Making a header *)
Section Create.
Context `{Crypto}.

(** The text that is signed; [created] and [expires] as written. *)
Definition signing_string (created expires payload : string) : string :=
  "(created): " ++ created ++ newline ++ "(expires): " ++ expires ++ newline
  ++ "digest: BLAKE-512=" ++ EncodeToString (blake2b_Sum512 payload).

(** The seed of a private key of 64 or 32 bytes. *)
Definition key_seed (key : string) : option string :=
  if (String.length key =? 64)%nat then Some (String.substring 0 32 key)
  else if (String.length key =? 32)%nat then Some key else None.

(** The header's text. *)
Definition header_text (keyId created expires signature : string) : string :=
  "Signature keyId=" ++ quoted keyId ++ ",algorithm=" ++ quoted "ed25519"
  ++ ",created=" ++ quoted created ++ ",expires=" ++ quoted expires
  ++ ",headers=" ++ quoted "(created) (expires) digest" ++ ",signature=" ++ quoted signature.

Definition CreateAuthorisationHeader (now : Z) (payload privateKey subscriberID uniqueKeyID : string)
  : result error string :=
  match DecodeString privateKey with
  | None => Err (EText "decode private key")
  | Some key =>
      match key_seed key with
      | None => Err (EText "unsupported private key length")
      | Some seed =>
          let created := FormatInt now in
          let expires := FormatInt (wrap64 (now + ttlSeconds)) in
          let signature := EncodeToString (ed25519_Sign seed (signing_string created expires payload)) in
          Ok (header_text (subscriberID ++ "|" ++ uniqueKeyID ++ "|ed25519") created expires signature)
      end
  end.
End Create.

(** ** Taking a header apart *)

(** [for _, ch := range s]: the runes of a string, each as the bytes
    [WriteRune] writes for it; a byte that starts no valid encoding is read
    as one replacement character. *)
Definition cont (c : ascii) : bool := ((128 <=? byte_val c) && (byte_val c <=? 191))%Z.
Definition within (lo hi : Z) (c : ascii) : bool := ((lo <=? byte_val c) && (byte_val c <=? hi))%Z.
Definition replacement : string := String "239" (String "191" (String "189" "")).

(** The second byte allowed after a lead byte of three or four. *)
Definition second3 (a b : ascii) : bool :=
  if within 224 224 a then within 160 191 b
  else if within 237 237 a then within 128 159 b
  else within 225 239 a && cont b.
Definition second4 (a b : ascii) : bool :=
  if within 240 240 a then within 144 191 b
  else if within 244 244 a then within 128 143 b
  else within 241 243 a && cont b.

Fixpoint runes (s : string) : list string :=
  match s with
  | EmptyString => []
  | String a s1 =>
      if (byte_val a <? 128)%Z then String a "" :: runes s1
      else match s1 with
      | String b s2 =>
          if within 194 223 a && cont b then String a (String b "") :: runes s2
          else match s2 with
          | String c s3 =>
              if second3 a b && cont c then String a (String b (String c "")) :: runes s3
              else match s3 with
              | String d s4 =>
                  if second4 a b && cont c && cont d
                  then String a (String b (String c (String d ""))) :: runes s4
                  else replacement :: runes s1
              | EmptyString => replacement :: runes s1
              end
          | EmptyString => replacement :: runes s1
          end
      | EmptyString => replacement :: runes s1
      end
  end.

(** The loop of [splitHeaderParts] on the runes. *)
Fixpoint split_parts (current : string) (inQuotes : bool) (rs : list string) : list string :=
  match rs with
  | [] => if current =? "" then [] else [current]
  | ch :: rs' =>
      if ch =? String dquote "" then split_parts (current ++ ch) (negb inQuotes) rs'
      else if (ch =? ",") && negb inQuotes then current :: split_parts "" inQuotes rs'
      else split_parts (current ++ ch) inQuotes rs'
  end.
Definition splitHeaderParts (header : string) : list string := split_parts "" false (runes header).

(** [fields[key] = val] over the parts. *)
Definition header_field (fields : gmap string string) (part : string) : gmap string string :=
  match cut "=" (trim_space part) with
  | None => fields
  | Some (key, val) => <[key := trim_char dquote val]> fields
  end.
Definition header_fields (header : string) : gmap string string :=
  foldl header_field ∅ (splitHeaderParts (trim_prefix "Signature " header)).

Definition field (fields : gmap string string) (k : string) : string := default "" (fields !! k).

(** The four results of [parseAuthHeader], with [err != nil]: no caller uses
    them then. *)
Definition parseAuthHeader (header : string) : result error (string * string * string * string) :=
  let fields := header_fields header in
  let created := field fields "created" in
  let expires := field fields "expires" in
  let signature := field fields "signature" in
  if (created =? "") || (expires =? "") || (signature =? "")
  then Err (EText "missing required fields in auth header")
  else Ok (field fields "keyId", created, expires, signature).

Definition truncate (s : string) (n : nat) : string :=
  if (String.length s <=? n)%nat then s else String.substring 0 n s.

Record AuthHeaderSummary := mkAuthSummary {
  ah_KeyID : string; ah_Created : string; ah_Expires : string; ah_SigPreview : string;
}.
Definition SummarizeAuthorisationHeader (authHeader : string) : result error AuthHeaderSummary :=
  match parseAuthHeader authHeader with
  | Err e => Err e
  | Ok (keyID, created, expires, sig) => Ok (mkAuthSummary keyID created expires (truncate sig 16))
  end.

(** [subscriberID, uniqueKeyID] when [ok]. *)
Definition ParseKeyID (keyID : string) : option (string * string) :=
  match split "|" keyID with
  | sub :: uk :: _ => Some (sub, uk)
  | _ => None
  end.

(** ** Checking a header *)
Section Verify.
Context `{Crypto}.

Definition VerifyAuthorisationHeaderBytes (now : Z) (authHeader payload pubKeyBytes : string)
  : result error () :=
  if negb (String.length pubKeyBytes =? 32)%nat then Err (EText "invalid public key length")
  else
    match parseAuthHeader authHeader with
    | Err e => Err (EWrap "parse auth header" e)
    | Ok (_, created, expires, sig) =>
        match ParseInt created, ParseInt expires with
        | (_, false), _ => Err (EText "parse created timestamp")
        | _, (_, false) => Err (EText "parse expires timestamp")
        | (createdInt, true), (expiresInt, true) =>
            if (now <? createdInt)%Z then Err (EText "header not yet valid")
            else if (expiresInt <? now)%Z then Err (EText "header expired")
            else match DecodeString sig with
            | None => Err (EText "decode signature")
            | Some sigBytes =>
                if ed25519_Verify pubKeyBytes (signing_string created expires payload) sigBytes
                then Ok () else Err (EText "signature verification failed")
            end
        end
    end.

Definition VerifyAuthorisationHeader (now : Z) (authHeader payload publicKey : string)
  : result error () :=
  match parseAuthHeader authHeader with
  | Err e => Err (EWrap "parse auth header" e)
  | Ok _ =>
      match DecodeString publicKey with
      | None => Err (EText "decode public key")
      | Some pub => VerifyAuthorisationHeaderBytes now authHeader payload pub
      end
  end.
End Verify.

(** ** The parser on what the program writes *)

(** ASCII without a quote: what may stand between the quotes of a header. *)
Definition clean_char (c : ascii) : bool := (byte_val c <? 128)%Z && negb (Ascii.eqb c dquote).
Fixpoint clean (s : string) : bool :=
  match s with EmptyString => true | String c s' => clean_char c && clean s' end.

(** The [n]th field as it is written, and a header of several. *)
Definition field_text (kv : string * string) : string := kv.1 ++ String "=" (quoted kv.2).
Fixpoint fields_text (kvs : list (string * string)) : string :=
  match kvs with
  | [] => ""
  | [kv] => field_text kv
  | kv :: kvs' => field_text kv ++ String "," (fields_text kvs')
  end.

(** A field name: not empty, clean, and without the characters the parser
    looks for. *)
Definition key_char (c : ascii) : bool :=
  clean_char c && negb (is_space c) && negb (Ascii.eqb c "=") && negb (Ascii.eqb c ",").
Fixpoint key_ok (s : string) : bool :=
  match s with
  | EmptyString => false
  | String c EmptyString => key_char c
  | String c s' => key_char c && key_ok s'
  end.

Lemma clean_app s t : clean (s ++ t) = clean s && clean t.
Proof. induction s as [|c s IH]; simpl; [done|]. rewrite IH. apply andb_assoc. Qed.

Lemma clean_no_quote s : clean s = true → has_char dquote s = false.
Proof.
  induction s as [|c s IH]; simpl; [done|]. unfold clean_char. intros. bool_hyps.
  apply orb_false_iff. eauto.
Qed.

Lemma clean_sextet v k : clean_char (sextet v k) = true.
Proof. unfold clean_char. rewrite (sextet_ascii v k), (sextet_no_quote v k). reflexivity. Qed.

Lemma clean_encode s : clean (EncodeToString s) = true.
Proof.
  induction s as [|a|a b|a b c s IH] using string_ind3; [done| | |];
    cbn [EncodeToString clean]; rewrite !clean_sextet; simpl; done.
Qed.

Lemma clean_digit d : (0 ≤ d < 10)%Z → clean_char (digit d) = true.
Proof.
  intros Hd. assert (forallb (λ k, clean_char (digit (Z.of_nat k))) (seq 0 10) = true) as H
    by (vm_compute; reflexivity).
  rewrite forallb_forall in H. specialize (H (Z.to_nat d)). rewrite Z2Nat.id in H by lia.
  apply H, in_seq. lia.
Qed.

Lemma clean_digits fuel z acc :
  (0 ≤ z)%Z → clean acc = true → clean (dec_digits fuel z acc) = true.
Proof.
  revert z acc. induction fuel as [|n IH]; intros z acc Hz Ha; [done|]. cbn [dec_digits].
  destruct (Z.ltb_spec z 10) as [Hlt|Hge].
  - cbn [clean]. rewrite clean_digit; [exact Ha|by split].
  - apply IH; [by apply Z.div_pos|]. cbn [clean]. rewrite clean_digit; [exact Ha|].
    by apply Z.mod_pos_bound.
Qed.

Lemma clean_FormatInt z : clean (FormatInt z) = true.
Proof.
  unfold FormatInt. destruct (Z.ltb_spec z 0) as [Hz|Hz].
  - cbn [clean]. apply andb_true_intro. split; [reflexivity|]. apply clean_digits; [lia|done].
  - by apply clean_digits.
Qed.

Lemma FormatInt_nonempty z : in_int64 z → FormatInt z ≠ "".
Proof. intros H E. pose proof (ParseInt_FormatInt z H) as P. by rewrite E in P. Qed.

Lemma key_ok_cons c s :
  key_ok (String c s) = true → key_char c = true ∧ (s = "" ∨ key_ok s = true).
Proof. destruct s; simpl; [auto|]. intros. bool_hyps. auto. Qed.

Lemma key_char_facts c :
  key_char c = true →
  clean_char c = true ∧ is_space c = false ∧ Ascii.eqb c "=" = false ∧ Ascii.eqb c "," = false.
Proof. unfold key_char. intros. bool_hyps. done. Qed.

Lemma key_ok_facts s : key_ok s = true →
  clean s = true ∧ has_char "=" s = false ∧ has_char "," s = false.
Proof.
  induction s as [|c s IH]; [done|].
  intros [(Hc & _ & He & Hm)%key_char_facts [->|(? & ? & ?)%IH]]%key_ok_cons;
    cbn [clean has_char]; by rewrite ?Hc, ?He, ?Hm.
Qed.

(** *** Splitting *)

Definition chars (s : string) : list string := (λ c, String c "") <$> String.list_ascii_of_string s.

Fixpoint ascii_only (s : string) : bool :=
  match s with EmptyString => true | String c s' => (byte_val c <? 128)%Z && ascii_only s' end.

Lemma runes_ascii s : ascii_only s = true → runes s = chars s.
Proof.
  induction s as [|c s IH]; [done|]. cbn [ascii_only]. intros [Hc Hs]%andb_true_iff.
  cbn [runes]. rewrite Hc, IH by done. done.
Qed.

Lemma ascii_only_app s t : ascii_only (s ++ t) = ascii_only s && ascii_only t.
Proof. induction s as [|c s IH]; [done|]. simpl. rewrite IH. apply andb_assoc. Qed.

Lemma clean_ascii s : clean s = true → ascii_only s = true.
Proof.
  induction s as [|c s IH]; [done|]. cbn [clean ascii_only]. unfold clean_char. intros.
  bool_hyps. apply andb_true_iff. split; [by apply Z.ltb_lt|by apply IH].
Qed.

#[local] Arguments String.eqb : simpl never.

Lemma single_eqb c d : (String c "" =? String d "") = Ascii.eqb c d.
Proof.
  destruct (Ascii.eqb_spec c d); [subst; apply String.eqb_refl|apply String.eqb_neq; congruence].
Qed.

Lemma chars_app s t : chars (s ++ t) = (chars s ++ chars t)%list.
Proof.
  induction s as [|c s IH]; [done|].
  change (String c "" :: chars (s ++ t) = String c "" :: (chars s ++ chars t)%list). by rewrite IH.
Qed.

(** Text without quotes goes to the current part, inside quotes or when it
    has no comma. *)
Lemma split_parts_text cur q s rest :
  clean s = true → q = true ∨ has_char "," s = false →
  split_parts cur q (chars s ++ rest) = split_parts (cur ++ s) q rest.
Proof.
  revert cur. induction s as [|c s IH]; intros cur Hs Hq; [by rewrite app_nil_str|].
  simpl in Hs, Hq. bool_hyps. unfold clean_char in *. bool_hyps.
  change (chars (String c s)) with (String c "" :: chars s). cbn [app split_parts].
  replace (String c "" =? String dquote "") with false by (rewrite single_eqb; done).
  replace ((String c "" =? ",") && negb q) with false.
  - rewrite IH; [by rewrite app_assoc_str|done|].
    destruct Hq as [|Hq]; [by left|right]. by apply orb_false_iff in Hq as [_ ?].
  - destruct Hq as [->|Hq]; [by rewrite andb_false_r|].
    apply orb_false_iff in Hq as [Hc _]. by rewrite (single_eqb c ","), Hc.
Qed.

Lemma split_parts_quote cur q rest :
  split_parts cur q (chars (String dquote "") ++ rest)
  = split_parts (cur ++ String dquote "") (negb q) rest.
Proof. reflexivity. Qed.

Lemma split_parts_field kv rest :
  key_ok kv.1 = true → clean kv.2 = true →
  split_parts "" false (chars (field_text kv) ++ rest) = split_parts (field_text kv) false rest.
Proof.
  destruct kv as [k v]. intros Hk Hv. unfold field_text, quoted. cbn [fst snd] in *.
  change (String "=" (String dquote (v ++ String dquote "")))
    with ("=" ++ String dquote "" ++ v ++ String dquote "").
  rewrite !chars_app, <-!(assoc_L (++)%list).
  destruct (key_ok_facts k Hk) as (? & ? & ?).
  rewrite split_parts_text by auto. rewrite split_parts_text by auto. rewrite split_parts_quote.
  rewrite split_parts_text by auto. rewrite split_parts_quote.
  simpl. by rewrite !app_assoc_str.
Qed.

Definition field_ok (kv : string * string) : Prop := key_ok kv.1 = true ∧ clean kv.2 = true.

Lemma ascii_fields kvs : Forall field_ok kvs → ascii_only (fields_text kvs) = true.
Proof.
  assert (∀ kv, field_ok kv → ascii_only (field_text kv) = true) as Hf.
  { intros [k v] [(? & _)%key_ok_facts ?]. unfold field_text, quoted. cbn [fst snd] in *.
    rewrite ascii_only_app. cbn [ascii_only]. rewrite ascii_only_app.
    by rewrite !(clean_ascii k), !(clean_ascii v). }
  induction 1 as [|kv kvs Hkv Hkvs IH]; [done|]. destruct kvs as [|kv' kvs]; [by apply Hf|].
  change (fields_text (kv :: kv' :: kvs))
    with (field_text kv ++ String "," (fields_text (kv' :: kvs))).
  rewrite ascii_only_app, Hf by done. exact IH.
Qed.

Lemma field_nonempty kv : (field_text kv =? "") = false.
Proof. destruct kv as [[|c k] v]; done. Qed.

(** Every list of fields is taken apart as it was put together. *)
Lemma splitHeaderParts_fields kvs :
  Forall field_ok kvs → splitHeaderParts (fields_text kvs) = field_text <$> kvs.
Proof.
  intros Hkvs. unfold splitHeaderParts. rewrite runes_ascii by by apply ascii_fields.
  induction Hkvs as [|kv kvs [Hk Hv] Hkvs IH]; [done|].
  pose proof (split_parts_field kv) as Hf. destruct kvs as [|kv' kvs].
  - cbn [fields_text]. rewrite <-(right_id_L [] (++)%list (chars _)), Hf by done.
    cbn [split_parts]. by rewrite field_nonempty.
  - change (fields_text (kv :: kv' :: kvs))
      with (field_text kv ++ "," ++ fields_text (kv' :: kvs)).
    rewrite !chars_app, Hf by done.
    change (field_text kv :: split_parts "" false (chars (fields_text (kv' :: kvs)))
            = field_text kv :: (field_text <$> kv' :: kvs)). by rewrite IH.
Qed.

Lemma trim_left_no_first p c s : p c = false → trim_left p (String c s) = String c s.
Proof. intros Hc. cbn. by rewrite Hc. Qed.

Lemma trim_right_last p s c :
  p c = true → trim_right p (s ++ String c "") = trim_right p s.
Proof. intros Hc. induction s as [|a s IH]; simpl; [by rewrite Hc|]. by rewrite IH. Qed.

Lemma trim_right_none c s : has_char c s = false → trim_right (Ascii.eqb c) s = s.
Proof.
  induction s as [|a s IH]; [done|]. simpl. intros [Ha Hs]%orb_false_iff. rewrite IH by done.
  rewrite Ascii.eqb_sym, Ha. by destruct s.
Qed.

Lemma trim_quoted v : clean v = true → trim_char dquote (quoted v) = v.
Proof.
  intros Hv%clean_no_quote. unfold trim_char, quoted. cbn [trim_left].
  rewrite Ascii.eqb_refl. destruct v as [|c v]; [done|].
  pose proof Hv as Hv'. cbn [has_char] in Hv'. apply orb_false_iff in Hv' as [Hc _].
  change (String c v ++ String dquote "") with (String c (v ++ String dquote "")).
  rewrite trim_left_no_first by (by rewrite Ascii.eqb_sym).
  change (String c (v ++ String dquote "")) with (String c v ++ String dquote "").
  rewrite trim_right_last by done. by apply trim_right_none.
Qed.

Lemma header_field_text fields kv :
  field_ok kv → header_field fields (field_text kv) = <[kv.1 := kv.2]> fields.
Proof.
  destruct kv as [k v]. intros [Hk Hv]. cbn [fst snd] in *. unfold header_field, trim_space.
  destruct (key_ok_facts k Hk) as (_ & He & _).
  assert (trim_left is_space (field_text (k, v)) = field_text (k, v)) as ->.
  { destruct k as [|c k]; [done|]. apply trim_left_no_first.
    by apply key_ok_cons in Hk as [(_ & ? & _)%key_char_facts _]. }
  assert (field_text (k, v) = (k ++ "=" ++ String dquote "" ++ v) ++ String dquote "") as E.
  { unfold field_text, quoted. simpl. by rewrite !app_assoc_str. }
  rewrite E, trim_right_no_last by done. rewrite <- E. unfold field_text. cbn [fst snd].
  rewrite cut_app by done. by rewrite trim_quoted.
Qed.

(** The fields of a header written by the program, the last of a name
    winning. *)
Lemma header_fields_text kvs :
  Forall field_ok kvs →
  header_fields ("Signature " ++ fields_text kvs) = foldl (λ m kv, <[kv.1 := kv.2]> m) ∅ kvs.
Proof.
  intros Hkvs. unfold header_fields. rewrite trim_prefix_app, splitHeaderParts_fields by done.
  generalize (∅ : gmap string string). induction Hkvs as [|kv kvs Hkv Hkvs IH]; [done|].
  intros m. cbn [fmap list_fmap foldl]. rewrite header_field_text by done. apply IH.
Qed.

(** The fields of [header_text]. *)
Definition header_kvs (keyId created expires signature : string) : list (string * string) :=
  [("keyId", keyId); ("algorithm", "ed25519"); ("created", created); ("expires", expires);
   ("headers", "(created) (expires) digest"); ("signature", signature)].

Lemma header_text_fields keyId created expires signature :
  header_text keyId created expires signature
  = "Signature " ++ fields_text (header_kvs keyId created expires signature).
Proof.
  unfold header_text, header_kvs, fields_text, field_text, quoted. cbn [fst snd].
  simpl. repeat (rewrite app_assoc_str; simpl). reflexivity.
Qed.

Lemma parse_header_text keyId created expires signature :
  clean keyId = true → clean created = true → clean expires = true → clean signature = true →
  created ≠ "" → expires ≠ "" → signature ≠ "" →
  parseAuthHeader (header_text keyId created expires signature)
  = Ok (keyId, created, expires, signature).
Proof.
  intros H1 H2 H3 H4 N2%String.eqb_neq N3%String.eqb_neq N4%String.eqb_neq.
  unfold parseAuthHeader. rewrite header_text_fields, header_fields_text.
  - unfold header_kvs, field. cbn [foldl fst snd]. simplify_map_eq. by rewrite N2, N3, N4.
  - unfold header_kvs. repeat constructor; done.
Qed.

(** ** What the headers of the program are worth *)
Section Headers.
Context `{Crypto}.

Lemma create_header_inv now payload privateKey sub uk h :
  CreateAuthorisationHeader now payload privateKey sub uk = Ok h →
  ∃ key seed, DecodeString privateKey = Some key ∧ key_seed key = Some seed ∧
    h = header_text (sub ++ "|" ++ uk ++ "|ed25519") (FormatInt now)
          (FormatInt (wrap64 (now + ttlSeconds)))
          (EncodeToString (ed25519_Sign seed (signing_string (FormatInt now)
             (FormatInt (wrap64 (now + ttlSeconds))) payload))).
Proof.
  unfold CreateAuthorisationHeader. destruct (DecodeString privateKey) as [key|]; [|done].
  destruct (key_seed key) as [seed|] eqn:E; [|done]. intros [= <-]. eauto.
Qed.

Lemma substring_length n s : (n ≤ String.length s)%nat → String.length (String.substring 0 n s) = n.
Proof.
  revert s. induction n as [|n IH]; intros [|c s] Hs; simpl in *; try lia. by rewrite IH by lia.
Qed.

Lemma key_seed_length key seed : key_seed key = Some seed → String.length seed = 32%nat.
Proof.
  unfold key_seed. destruct (Nat.eqb_spec (String.length key) 64) as [E|].
  { intros [= <-]. apply substring_length. lia. }
  destruct (Nat.eqb_spec (String.length key) 32); [|done]. by intros [= <-].
Qed.

Lemma parse_created now payload privateKey sub uk h :
  CreateAuthorisationHeader now payload privateKey sub uk = Ok h →
  clean sub = true → clean uk = true → in_int64 now →
  ∃ key seed, DecodeString privateKey = Some key ∧ key_seed key = Some seed ∧
    parseAuthHeader h = Ok (sub ++ "|" ++ uk ++ "|ed25519", FormatInt now,
      FormatInt (wrap64 (now + ttlSeconds)),
      EncodeToString (ed25519_Sign seed (signing_string (FormatInt now)
        (FormatInt (wrap64 (now + ttlSeconds))) payload))).
Proof.
  intros (key & seed & Hk & Hs & ->)%create_header_inv Hsub Huk Hn. exists key, seed.
  split_and!; [done..|]. apply parse_header_text;
    auto using clean_FormatInt, clean_encode, FormatInt_nonempty, wrap64_range.
  - rewrite !clean_app, Hsub, Huk. done.
  - by intros ?%encode_empty%ed25519_Sign_nonempty.
Qed.
End Headers.

(** A header made by the program can be read back by the program: the
    subscriber, the key and the two times in it are the ones it was made
    with. *)
Theorem auth_header_roundtrip `{Crypto} now payload privateKey sub uk h :
  CreateAuthorisationHeader now payload privateKey sub uk = Ok h →
  clean sub = true → clean uk = true → has_char "|" sub = false → has_char "|" uk = false →
  in_int64 now → in_int64 (now + ttlSeconds) →
  ∃ s, SummarizeAuthorisationHeader h = Ok s ∧
    ParseKeyID (ah_KeyID s) = Some (sub, uk) ∧
    ParseInt (ah_Created s) = (now, true) ∧ ParseInt (ah_Expires s) = ((now + ttlSeconds)%Z, true).
Proof.
  intros Hc Hsub Huk Bsub Buk Hn He.
  destruct (parse_created _ _ _ _ _ _ Hc Hsub Huk Hn) as (key & seed & _ & _ & Hp).
  unfold SummarizeAuthorisationHeader. rewrite Hp. eexists. split; [done|].
  cbn [ah_KeyID ah_Created ah_Expires]. rewrite wrap64_id by done.
  split_and!; [|by apply ParseInt_FormatInt..].
  unfold ParseKeyID. change (sub ++ "|" ++ uk ++ "|ed25519")
    with (sub ++ String "|" (uk ++ String "|" "ed25519")). by rewrite !split_cons.
Qed.

(** A header verifies under the public key of its signer for exactly the
    hour after it was made: earlier it is not yet valid, later it has
    expired. *)
Theorem verify_own_header `{Crypto} t now payload privateKey sub uk h key seed :
  CreateAuthorisationHeader t payload privateKey sub uk = Ok h →
  DecodeString privateKey = Some key → key_seed key = Some seed →
  clean sub = true → clean uk = true → in_int64 t → in_int64 (t + ttlSeconds) →
  VerifyAuthorisationHeader now h payload (EncodeToString (ed25519_public seed)) =
    if (now <? t)%Z then Err (EText "header not yet valid")
    else if (t + ttlSeconds <? now)%Z then Err (EText "header expired")
    else Ok ().
Proof.
  intros Hc Hk Hs Hsub Huk Hn He.
  destruct (parse_created _ _ _ _ _ _ Hc Hsub Huk Hn) as (key' & seed' & Hk' & Hs' & Hp).
  simplify_eq. unfold VerifyAuthorisationHeader, VerifyAuthorisationHeaderBytes.
  rewrite Hp, Decode_Encode, ed25519_public_length by (by eapply key_seed_length).
  simpl. rewrite !ParseInt_FormatInt, wrap64_id by auto using wrap64_range.
  destruct (now <? t)%Z; [done|]. destruct (t + ttlSeconds <? now)%Z; [done|].
  rewrite Decode_Encode, ed25519_Verify_Sign; [done|by eapply key_seed_length].
Qed.

(** An accepted header carries a signature of this very payload and of
    the times in it, and the clock lies between them. *)
Lemma verify_accepted `{Crypto} now h payload pub :
  VerifyAuthorisationHeaderBytes now h payload pub = Ok () ↔
  String.length pub = 32%nat ∧
  ∃ keyID created expires sig t0 t1 sigBytes,
    parseAuthHeader h = Ok (keyID, created, expires, sig) ∧
    ParseInt created = (t0, true) ∧ ParseInt expires = (t1, true) ∧ (t0 ≤ now ≤ t1)%Z ∧
    DecodeString sig = Some sigBytes ∧
    ed25519_Verify pub (signing_string created expires payload) sigBytes = true.
Proof.
  unfold VerifyAuthorisationHeaderBytes. split.
  - intros E. repeat case_match; simplify_eq. bool_hyps. apply Nat.eqb_eq in H0. split; [done|].
    do 7 eexists. split_and!; try done; lia.
  - intros [-> (keyID & created & expires & sig & t0 & t1 & sb & -> & -> & -> & [H0 H1] & -> & ->)].
    simpl. by rewrite (proj2 (Z.ltb_ge _ _) H0), (proj2 (Z.ltb_ge _ _) H1).
Qed.

(** ** Witnesses: a toy signature scheme with the properties *)
Section Toy.
Program Definition toy_crypto : Crypto := {|
  blake2b_Sum512 p := p;
  ed25519_public seed := seed;
  ed25519_Sign seed m := "s" ++ seed ++ m;
  ed25519_Verify pub m s := s =? "s" ++ pub ++ m;
|}.
Next Obligation. done. Qed.
Next Obligation. done. Qed.
Next Obligation. intros. apply String.eqb_refl. Qed.

Definition toy_seed : string := "0123456789abcdef0123456789abcdef".
Definition toy_key : string := EncodeToString (toy_seed ++ toy_seed).
Definition toy_header : string :=
  match CreateAuthorisationHeader (H := toy_crypto) 1700000000 "{}" toy_key "buyer.example" "k1" with
  | Ok h => h
  | Err _ => ""
  end.
End Toy.

Lemma toy_header_made :
  CreateAuthorisationHeader (H := toy_crypto) 1700000000 "{}" toy_key "buyer.example" "k1"
  = Ok toy_header.
Proof. vm_compute. reflexivity. Qed.

Lemma auth_header_roundtrip_witness :
  ∃ s, SummarizeAuthorisationHeader toy_header = Ok s ∧
    ParseKeyID (ah_KeyID s) = Some ("buyer.example", "k1") ∧
    ParseInt (ah_Created s) = (1700000000%Z, true) ∧
    ParseInt (ah_Expires s) = ((1700000000 + ttlSeconds)%Z, true).
Proof.
  apply (auth_header_roundtrip (H := toy_crypto) 1700000000 "{}" toy_key "buyer.example" "k1"
           toy_header toy_header_made); [reflexivity..| |]; split; vm_compute; congruence.
Defined.

Lemma verify_own_header_witness :
  VerifyAuthorisationHeader (H := toy_crypto) 1700003600 toy_header "{}" (EncodeToString toy_seed)
  = Ok () ∧
  VerifyAuthorisationHeader (H := toy_crypto) 1700003601 toy_header "{}" (EncodeToString toy_seed)
  = Err (EText "header expired").
Proof.
  assert (DecodeString toy_key = Some (toy_seed ++ toy_seed)) as Hk by (vm_compute; reflexivity).
  assert (key_seed (toy_seed ++ toy_seed) = Some toy_seed) as Hs by (vm_compute; reflexivity).
  split.
  - exact (verify_own_header (H := toy_crypto) 1700000000 1700003600 "{}" toy_key "buyer.example"
      "k1" toy_header _ _ toy_header_made Hk Hs eq_refl eq_refl
      ltac:(split; vm_compute; congruence) ltac:(split; vm_compute; congruence)).
  - exact (verify_own_header (H := toy_crypto) 1700000000 1700003601 "{}" toy_key "buyer.example"
      "k1" toy_header _ _ toy_header_made Hk Hs eq_refl eq_refl
      ltac:(split; vm_compute; congruence) ltac:(split; vm_compute; congruence)).
Defined.
