(* ===== verification/Dispatcher.v ===== *)
(** * Concurrent dispatch: [internal/domain/pipeline/dispatcher.go]

    [DispatchConcurrentThrottled] walks over the payloads, asks the throttle
    for permission, takes a slot of a counting semaphore (a buffered channel)
    and starts a goroutine per payload, until the context is done; then it
    waits for the goroutines and returns one result per payload.

    The model is a transition function [exec]: a scheduler picks who moves
    (the loop, one goroutine, or the context being cancelled) and the outcome
    of the throttle and of the [select].  Each line of the loop that can block
    or observe shared state is one step, so every interleaving of the Go
    program is a schedule. *)
From stdpp Require Import prelude list strings.
From S2P Require Import Prelude ApiError.

Record DispatchResult := mkResult {
  dr_Index : nat;
  dr_TxnID : string;
  dr_Err : option error;
}.

Definition zero_result : DispatchResult := mkResult 0 "" None.

Section Dispatch.
Context {B : Type}.
Variable payloads : list B.
Variable maxInFlight : Z.
(** [throttle != nil]; the answers of [Acquire] are the scheduler's. *)
Variable has_throttle : bool.
(** [sendFn] runs at most once per index, so its answers, however the
    network behaves, are a function of the index. *)
Variable sendFn : nat → B → DispatchResult.

Abbreviation n := (length payloads).

(** [if maxInFlight <= 0 { maxInFlight = 256 }]. *)
Definition capacity : nat :=
  if (maxInFlight <=? 0)%Z then 256 else Z.to_nat maxInFlight.

(** What has become of a payload: not reached yet, refused by the throttle,
    or its goroutine about to send, about to release its semaphore slot
    (the deferred calls run last-in first-out), about to call [wg.Done],
    finished. *)
Inductive slot := SPending | SDenied | SRun | SRelease | SWgDone | SEnd.

(** The program counter of the loop at payload [i]: the context check at
    its head, the throttle, the [select], the second context check, and
    [wg.Wait()] after the loop stopped at [i]. *)
Inductive pc := PHead (i : nat) | PAcquire (i : nat) | PSelect (i : nat)
  | PCheck (i : nat) | PWait (i : nat) | PReturned (i : nat).

Record dstate := mkD {
  d_pc : pc;
  d_results : list DispatchResult;
  d_sem : nat;
  d_wg : nat;
  d_slots : list slot;
  d_ctx : option error;
  d_calls : list nat;  (* the calls of [sendFn], oldest first *)
}.

Definition d_init : dstate :=
  mkD (PHead 0) (replicate n zero_result) 0 0 (replicate n SPending) None [].

Definition cancelled_result (i : nat) (e : error) : DispatchResult := mkResult i "" (Some e).
Definition denied_result (i : nat) : DispatchResult := mkResult i "" (Some EDeadlineExceeded).

(** [for j := i; j < len(payloads); j++ { results[j] = ... }]. *)
Definition fill_from (i : nat) (e : error) (rs : list DispatchResult) : list DispatchResult :=
  imap (λ j r, if i <=? j then cancelled_result j e else r) rs.

Inductive choice :=
  | CMain (allow : bool) (on_done : bool)
  | CGoroutine (i : nat)
  | CCancel (e : error).

(** The loop. [None]: the chosen move is not enabled (the thread blocks). *)
Definition exec_main (allow on_done : bool) (s : dstate) : option dstate :=
  let 'mkD p rs sem wg sl cx calls := s in
  match p with
  | PHead i =>
      if n <=? i then Some (mkD (PWait i) rs sem wg sl cx calls)
      else match cx with
           | Some e => Some (mkD (PWait i) (fill_from i e rs) sem wg sl cx calls)
           | None => Some (mkD (PAcquire i) rs sem wg sl cx calls)
           end
  | PAcquire i =>
      if has_throttle && negb allow
      then Some (mkD (PHead (S i)) (<[i := denied_result i]> rs) sem wg
                   (<[i := SDenied]> sl) cx calls)
      else Some (mkD (PSelect i) rs sem wg sl cx calls)
  | PSelect i =>
      if on_done
      then match cx with
           | Some e => Some (mkD (PWait i) (fill_from i e rs) sem wg sl cx calls)
           | None => None
           end
      else if sem <? capacity then Some (mkD (PCheck i) rs (S sem) wg sl cx calls)
           else None
  | PCheck i =>
      match cx with
      | Some e => Some (mkD (PWait i) (fill_from i e rs) sem wg sl cx calls)
      | None => Some (mkD (PHead (S i)) rs sem (S wg) (<[i := SRun]> sl) cx calls)
      end
  | PWait i => if wg =? 0 then Some (mkD (PReturned i) rs sem wg sl cx calls) else None
  | PReturned _ => None
  end.

(** One step of goroutine [i]. *)
Definition exec_goroutine (i : nat) (s : dstate) : option dstate :=
  let 'mkD p rs sem wg sl cx calls := s in
  match sl !! i, payloads !! i with
  | Some SRun, Some b =>
      Some (mkD p (<[i := sendFn i b]> rs) sem wg (<[i := SRelease]> sl) cx (calls ++ [i]))
  | Some SRelease, _ => Some (mkD p rs (pred sem) wg (<[i := SWgDone]> sl) cx calls)
  | Some SWgDone, _ => Some (mkD p rs sem (pred wg) (<[i := SEnd]> sl) cx calls)
  | _, _ => None
  end.

Definition exec (c : choice) (s : dstate) : option dstate :=
  match c with
  | CMain a d => exec_main a d s
  | CGoroutine i => exec_goroutine i s
  | CCancel e =>
      match d_ctx s with
      | None => Some (mkD (d_pc s) (d_results s) (d_sem s) (d_wg s) (d_slots s) (Some e)
                        (d_calls s))
      | Some _ => None
      end
  end.

(** ** The invariant *)

Definition holds_sem (x : slot) : bool :=
  match x with SRun | SRelease => true | _ => false end.
Definition is_live (x : slot) : bool :=
  match x with SRun | SRelease | SWgDone => true | _ => false end.

Definition pos (p : pc) : nat :=
  match p with
  | PHead i | PAcquire i | PSelect i | PCheck i | PWait i | PReturned i => i
  end.
Definition in_loop (p : pc) : bool :=
  match p with PWait _ | PReturned _ => false | _ => true end.
Definition at_check (p : pc) : nat := match p with PCheck _ => 1 | _ => 0 end.

(** Requests between the start of their goroutine and the release of the
    semaphore: the concurrency the peer sees. *)
Definition in_flight (s : dstate) : nat := countb holds_sem (d_slots s).

(** What is known of payload [j] when the loop stands at position [i]. *)
Definition slot_ok (s : dstate) (j : nat) (b : B) : Prop :=
  let r := d_results s !! j in
  match d_slots s !! j with
  | Some SPending =>
      pos (d_pc s) ≤ j ∧ (j ∉ d_calls s) ∧
      r = Some (match d_pc s, d_ctx s with
                | (PWait _ | PReturned _), Some e => cancelled_result j e
                | _, _ => zero_result end)
  | Some SDenied =>
      j < pos (d_pc s) ∧ (j ∉ d_calls s) ∧ has_throttle = true ∧ r = Some (denied_result j)
  | Some SRun => j < pos (d_pc s) ∧ j ∉ d_calls s
  | Some (SRelease | SWgDone | SEnd) =>
      j < pos (d_pc s) ∧ j ∈ d_calls s ∧ r = Some (sendFn j b)
  | None => False
  end.

Record Inv (s : dstate) : Prop := mkInv {
  inv_results : length (d_results s) = n;
  inv_slots : length (d_slots s) = n;
  inv_pos : pos (d_pc s) ≤ n;
  inv_body : in_loop (d_pc s) = true → d_pc s ≠ PHead n → pos (d_pc s) < n;
  inv_stop : in_loop (d_pc s) = false → pos (d_pc s) < n → is_Some (d_ctx s);
  inv_ret : ∀ i, d_pc s = PReturned i → d_wg s = 0;
  inv_sem : in_loop (d_pc s) = true → d_sem s = in_flight s + at_check (d_pc s);
  inv_holders : in_flight s ≤ d_sem s;
  inv_cap : d_sem s ≤ capacity;
  inv_wg : d_wg s = countb is_live (d_slots s);
  inv_nodup : NoDup (d_calls s);
  inv_calls : ∀ j, j ∈ d_calls s → j < n;
  inv_each : ∀ j b, payloads !! j = Some b → slot_ok s j b;
}.

(** ** Preservation *)

Lemma capacity_pos : 0 < capacity.
Proof. unfold capacity. destruct (Z.leb_spec maxInFlight 0); lia. Qed.

Lemma fill_from_length i e rs : length (fill_from i e rs) = length rs.
Proof. apply length_imap. Qed.

Lemma fill_from_lookup i e rs j :
  fill_from i e rs !! j = (λ r, if i <=? j then cancelled_result j e else r) <$> rs !! j.
Proof. unfold fill_from. by rewrite list_lookup_imap. Qed.

Lemma init_slots p k : p SPending = false → countb p (replicate k SPending) = 0.
Proof. intros Hp. induction k; simpl; [done|]. by rewrite Hp. Qed.

Lemma Inv_init : Inv d_init.
Proof.
  split; simpl; rewrite ?length_replicate; try lia; try done.
  - intros _ H. destruct (decide (n = 0)) as [E|]; [|lia].
    rewrite E in H. done.
  - unfold in_flight. simpl. by rewrite init_slots.
  - unfold in_flight. simpl. by rewrite init_slots.
  - by rewrite init_slots.
  - constructor.
  - intros j Hj. by apply elem_of_nil in Hj.
  - intros j b Hb. apply lookup_lt_Some in Hb. unfold slot_ok. simpl.
    rewrite !lookup_replicate_2 by lia. repeat split; [lia|]. apply not_elem_of_nil.
Qed.

(** Leaving the loop with the context done fills the remaining results. *)
Lemma slot_ok_fill s i e j b :
  slot_ok s j b → pos (d_pc s) = i → in_loop (d_pc s) = true → d_ctx s = Some e →
  j < n → length (d_results s) = n →
  slot_ok (mkD (PWait i) (fill_from i e (d_results s)) (d_sem s) (d_wg s) (d_slots s) (Some e)
             (d_calls s)) j b.
Proof.
  intros H Hpos Hl Hctx Hj Hlen.
  unfold slot_ok in *. simpl. rewrite fill_from_lookup, Hpos in *.
  assert (j < i → (i <=? j) = false) as Hlt by (intros; apply Nat.leb_gt; lia).
  destruct (d_slots s !! j) as [[]|]; try done.
  { destruct H as (H1 & H2 & H3). repeat split; [done..|]. rewrite H3. simpl.
    by replace (i <=? j) with true by (symmetry; apply Nat.leb_le; lia). }
  { destruct H as (H1 & H2 & H3 & ->). repeat split; [done..|]. simpl. by rewrite Hlt. }
  all: destruct H as (H1 & H2 & ->); repeat split; [done..|]; simpl; by rewrite Hlt.
Qed.

Lemma Inv_break s i e :
  Inv s → pos (d_pc s) = i → in_loop (d_pc s) = true → i < n → d_ctx s = Some e →
  Inv (mkD (PWait i) (fill_from i e (d_results s)) (d_sem s) (d_wg s) (d_slots s) (d_ctx s)
         (d_calls s)).
Proof.
  intros [] Hpos Hl Hi Hctx. split; simpl; rewrite ?fill_from_length; eauto; try done; [lia|].
  intros j b Hb. pose proof (lookup_lt_Some _ _ _ Hb).
  rewrite Hctx. by apply slot_ok_fill; auto.
Qed.

(** The slot the loop stands at is still pending. *)
Lemma Inv_pending s :
  Inv s → pos (d_pc s) < n → d_slots s !! pos (d_pc s) = Some SPending.
Proof.
  intros [] Hlt. destruct (lookup_lt_is_Some_2 payloads (pos (d_pc s)) Hlt) as [b Hb].
  specialize (inv_each0 _ _ Hb). unfold slot_ok in inv_each0.
  destruct (d_slots s !! pos (d_pc s)) as [[]|]; try done; lia.
Qed.

(** Changing the pending slot at the loop's position, moving on to the next
    payload. *)
Lemma slot_ok_advance s i rs' sl' sem' wg' j b :
  let s' := mkD (PHead (S i)) rs' sem' wg' sl' (d_ctx s) (d_calls s) in
  slot_ok s j b → j ≠ i → pos (d_pc s) = i → in_loop (d_pc s) = true →
  rs' !! j = d_results s !! j → sl' !! j = d_slots s !! j → slot_ok s' j b.
Proof.
  intros s' H Hji Hpos Hl Hr Hs. unfold slot_ok in *. simpl. rewrite Hr, Hs.
  destruct (d_slots s !! j) as [[]|]; try done.
  { destruct H as (? & ? & ?). repeat split; [lia|done|]. by destruct (d_pc s). }
  all: split_hyps; repeat split; first [assumption | lia].
Qed.

(** The throttle refuses payload [i]. *)
Lemma Inv_denied i rs sem wg sl cx calls :
  has_throttle = true → i < n → Inv (mkD (PAcquire i) rs sem wg sl cx calls) →
  Inv (mkD (PHead (S i)) (<[i := denied_result i]> rs) sem wg (<[i := SDenied]> sl) cx calls).
Proof.
  intros Ht Hi HI. pose proof (Inv_pending _ HI Hi) as Hp. destruct HI. simpl in *.
  split; simpl; rewrite ?length_insert; auto; try done.
  - intros _ Hne. destruct (decide (S i = n)) as [E|]; [rewrite E in Hne; done|lia].
  - rewrite inv_sem0 by done. unfold in_flight. simpl.
    pose proof (countb_insert holds_sem sl i SPending SDenied Hp). simpl in *. lia.
  - unfold in_flight in *. simpl in *.
    pose proof (countb_insert holds_sem sl i SPending SDenied Hp). simpl in *. lia.
  - pose proof (countb_insert is_live sl i SPending SDenied Hp). simpl in *. lia.
  - intros j b Hb. specialize (inv_each0 _ _ Hb). destruct (decide (j = i)) as [->|].
    + unfold slot_ok in *. simpl in *. rewrite !list_lookup_insert_eq by lia.
      rewrite Hp in inv_each0. destruct inv_each0 as (_ & ? & _). repeat split; [lia|done..].
    + by apply (slot_ok_advance _ i _ _ _ _ j b inv_each0);
        simpl; rewrite ?list_lookup_insert_ne.
Qed.

(** The goroutine of payload [i] is started. *)
Lemma Inv_launch i rs sem wg sl calls :
  i < n → Inv (mkD (PCheck i) rs sem wg sl None calls) →
  Inv (mkD (PHead (S i)) rs sem (S wg) (<[i := SRun]> sl) None calls).
Proof.
  intros Hi HI. pose proof (Inv_pending _ HI Hi) as Hp. destruct HI. simpl in *.
  pose proof (countb_insert holds_sem sl i SPending SRun Hp) as Hh.
  pose proof (countb_insert is_live sl i SPending SRun Hp) as Hv. simpl in Hh, Hv.
  split; simpl; rewrite ?length_insert; auto; try done;
    unfold in_flight in *; simpl in *; try lia.
  - intros _ Hne. destruct (decide (S i = n)) as [E|]; [rewrite E in Hne; done|lia].
  - intros j b Hb. specialize (inv_each0 _ _ Hb). destruct (decide (j = i)) as [->|].
    + unfold slot_ok in *. simpl in *. rewrite list_lookup_insert_eq by lia.
      rewrite Hp in inv_each0. destruct inv_each0 as (_ & ? & _). split; [lia|done].
    + by apply (slot_ok_advance _ i _ _ _ _ j b inv_each0);
        simpl; rewrite ?list_lookup_insert_ne.
Qed.

Lemma Inv_main a d s s' : exec_main a d s = Some s' → Inv s → Inv s'.
Proof.
  intros He HI. destruct s as [p rs sem wg sl cx calls]. pose proof HI as HI0. destruct HI.
  destruct p as [i|i|i|i|i|i]; simpl in *.
  - destruct (Nat.leb_spec n i).
    + simplify_eq/=. split; simpl; auto; try done; try lia.
      intros j b Hb. pose proof (lookup_lt_Some _ _ _ Hb). specialize (inv_each0 _ _ Hb).
      unfold slot_ok in *. simpl in *. destruct (sl !! j) as [[]|]; try done. lia.
    + destruct cx as [e|]; simplify_eq/=.
      * by apply (Inv_break _ i e HI0).
      * split; simpl; auto; done.
  - destruct (has_throttle && negb a) eqn:Ht; simplify_eq/=.
    + apply andb_true_iff in Ht as [Ht _]. apply Inv_denied; auto; done.
    + split; simpl; auto; done.
  - assert (i < n) as Hi by (apply inv_body0; done). destruct d.
    + destruct cx as [e|]; simplify_eq/=. by apply (Inv_break _ i e HI0).
    + destruct (Nat.ltb_spec sem capacity); simplify_eq/=.
      specialize (inv_sem0 eq_refl).
      split; simpl; auto; try done; unfold in_flight in *; simpl in *; lia.
  - assert (i < n) as Hi by (apply inv_body0; done). destruct cx as [e|]; simplify_eq/=.
    + by apply (Inv_break _ i e HI0).
    + by apply Inv_launch.
  - destruct (Nat.eqb_spec wg 0); simplify_eq/=. split; simpl; auto; try done.
  - done.
Qed.

(** What happens to another payload does not matter to payload [j]. *)
Lemma slot_ok_frame s s' j b :
  d_pc s' = d_pc s → d_ctx s' = d_ctx s → d_results s' !! j = d_results s !! j →
  d_slots s' !! j = d_slots s !! j → (j ∈ d_calls s' ↔ j ∈ d_calls s) →
  slot_ok s j b → slot_ok s' j b.
Proof.
  intros Hp Hc Hr Hs Hm H. unfold slot_ok in *. rewrite Hp, Hc, Hr, Hs.
  destruct (d_slots s !! j) as [[]|]; naive_solver.
Qed.

(** A goroutine that is between its start and its end. *)
Lemma slot_ok_live s i x :
  Inv s → d_slots s !! i = Some x → is_live x = true →
  ∃ b, payloads !! i = Some b ∧ slot_ok s i b ∧ i < pos (d_pc s) ∧ i < length (d_results s).
Proof.
  intros [] Hx Hl. pose proof (lookup_lt_Some _ _ _ Hx).
  destruct (lookup_lt_is_Some_2 payloads i) as [b Hb]; [lia|].
  pose proof (inv_each0 _ _ Hb) as H0. exists b. repeat split; [done..| |lia].
  unfold slot_ok in H0. rewrite Hx in H0. destruct x; naive_solver.
Qed.

Lemma Inv_goroutine i s s' : exec_goroutine i s = Some s' → Inv s → Inv s'.
Proof.
  intros He HI. destruct s as [p rs sem wg sl cx calls]. simpl in He.
  destruct (sl !! i) as [x|] eqn:Hx; [|done].
  destruct (is_live x) eqn:Hl; [|by destruct x, (payloads !! i)].
  destruct (slot_ok_live _ _ _ HI Hx Hl) as (b & Hb & Hok & Hlt & Hi). simpl in *.
  pose proof HI as HI0. destruct HI; simpl in *. rewrite Hb in He.
  unfold slot_ok in Hok; simpl in Hok; rewrite Hx in Hok.
  pose proof (λ y, countb_insert holds_sem sl i x y Hx) as Hh.
  pose proof (λ y, countb_insert is_live sl i x y Hx) as Hv.
  destruct x; simplify_eq/=; split; simpl; rewrite ?length_insert; auto; try done;
    unfold in_flight in *; simpl in *.
  - intros Hin. specialize (Hh SRelease). simpl in Hh. rewrite inv_sem0 by done. lia.
  - specialize (Hh SRelease). simpl in Hh. lia.
  - specialize (Hv SRelease). simpl in Hv. lia.
  - apply NoDup_app. repeat split; [done| |apply NoDup_singleton].
    intros j Hj ->%list_elem_of_singleton. by destruct Hok.
  - intros j [Hj| ->%list_elem_of_singleton]%elem_of_app; [auto|lia].
  - intros j b' Hb'. destruct (decide (j = i)) as [->|].
    + unfold slot_ok. simpl. rewrite !list_lookup_insert_eq by lia. simplify_eq.
      repeat split; [lia|]. apply elem_of_app. right. by apply list_elem_of_singleton.
    + eapply slot_ok_frame; [..|exact (inv_each0 _ _ Hb')]; simpl;
        rewrite ?list_lookup_insert_ne by done; try done.
      rewrite elem_of_app, list_elem_of_singleton. naive_solver.
  - intros Hin. specialize (Hh SWgDone). simpl in Hh. rewrite inv_sem0 by done. lia.
  - specialize (Hh SWgDone). simpl in Hh. lia.
  - lia.
  - specialize (Hv SWgDone). simpl in Hv. lia.
  - intros j b' Hb'. destruct (decide (j = i)) as [->|].
    + unfold slot_ok. simpl. rewrite list_lookup_insert_eq by lia. naive_solver.
    + eapply slot_ok_frame; [..|exact (inv_each0 _ _ Hb')]; simpl;
        by rewrite ?list_lookup_insert_ne.
  - intros k Hk. rewrite (inv_ret0 _ Hk). done.
  - intros Hin. specialize (Hh SEnd). simpl in Hh. rewrite inv_sem0 by done. lia.
  - specialize (Hh SEnd). simpl in Hh. lia.
  - specialize (Hv SEnd). simpl in Hv. lia.
  - intros j b' Hb'. destruct (decide (j = i)) as [->|].
    + unfold slot_ok. simpl. rewrite list_lookup_insert_eq by lia. naive_solver.
    + eapply slot_ok_frame; [..|exact (inv_each0 _ _ Hb')]; simpl;
        by rewrite ?list_lookup_insert_ne.
Qed.

Lemma Inv_step c s s' : exec c s = Some s' → Inv s → Inv s'.
Proof.
  destruct c as [a d|i|e]; simpl; [apply Inv_main|apply Inv_goroutine|].
  intros He HI. destruct s as [p rs sem wg sl [e'|] calls]; simplify_eq/=.
  destruct HI; simpl in *. split; simpl; auto.
  intros j b Hb. pose proof (lookup_lt_Some _ _ _ Hb). specialize (inv_each0 _ _ Hb).
  unfold slot_ok in *; simpl in *. destruct (sl !! j) as [[]|]; try done.
  destruct inv_each0 as (? & ? & ->). repeat split; [done..|].
  destruct p; try done; simpl in *; destruct (inv_stop0 eq_refl); try done; lia.
Qed.

Lemma Inv_reachable s : reachable exec d_init s → Inv s.
Proof. intros [cs H]. apply (run_sched_invariant exec Inv Inv_step cs _ _ H), Inv_init. Qed.

(** ** Progress *)

Definition pc_fuel (p : pc) : nat :=
  match p with
  | PHead i => 8 * (n - i) + 2
  | PAcquire i => 8 * (n - i) + 1
  | PSelect i => 8 * (n - i)
  | PCheck i => 8 * (n - i) - 1
  | PWait _ => 1
  | PReturned _ => 0
  end.
Definition slot_fuel (x : slot) : nat :=
  match x with SRun => 3 | SRelease => 2 | SWgDone => 1 | _ => 0 end.
Definition fuel (s : dstate) : nat :=
  pc_fuel (d_pc s) + sum_list_with slot_fuel (d_slots s)
  + match d_ctx s with None => 1 | Some _ => 0 end.

Lemma fuel_main a d s s' : exec_main a d s = Some s' → Inv s → fuel s' < fuel s.
Proof.
  intros He HI. pose proof (inv_body _ HI) as Hb. pose proof (Inv_pending _ HI) as Hp.
  destruct s as [p rs sem wg sl cx calls]. unfold fuel.
  destruct p as [i|i|i|i|i|i]; simpl in *.
  - destruct (Nat.leb_spec n i); [|destruct cx]; simplify_eq/=; lia.
  - specialize (Hb eq_refl ltac:(done)). specialize (Hp Hb).
    destruct (_ && _); simplify_eq/=; [|lia].
    pose proof (sum_list_insert slot_fuel sl i SPending SDenied Hp). simpl in *. lia.
  - specialize (Hb eq_refl ltac:(done)).
    destruct d; [destruct cx|destruct (sem <? capacity)]; simplify_eq/=; lia.
  - specialize (Hb eq_refl ltac:(done)). specialize (Hp Hb).
    destruct cx; simplify_eq/=; [lia|].
    pose proof (sum_list_insert slot_fuel sl i SPending SRun Hp). simpl in *. lia.
  - destruct (wg =? 0); simplify_eq/=. lia.
  - done.
Qed.

Lemma fuel_step c s s' : exec c s = Some s' → Inv s → fuel s' < fuel s.
Proof.
  destruct c as [a d|i|e]; simpl; [apply fuel_main| |].
  - intros He _. destruct s as [p rs sem wg sl cx calls]. unfold fuel. simpl in He.
    destruct (sl !! i) as [x|] eqn:Hx; [|done].
    pose proof (λ y, sum_list_insert slot_fuel sl i x y Hx) as Hs.
    destruct x; try done; [destruct (payloads !! i); [|done]|..]; simplify_eq/=.
    + specialize (Hs SRelease). simpl in Hs. lia.
    + specialize (Hs SWgDone). simpl in Hs. lia.
    + specialize (Hs SEnd). simpl in Hs. lia.
  - intros He _. unfold fuel. destruct (d_ctx s); simplify_eq/=. lia.
Qed.

Lemma live_enabled s :
  Inv s → 0 < countb is_live (d_slots s) → ∃ i s', exec (CGoroutine i) s = Some s'.
Proof.
  intros HI (i & x & Hx & Hl)%countb_pos. exists i.
  destruct (slot_ok_live _ _ _ HI Hx Hl) as (b & Hb & _).
  destruct s as [p rs sem wg sl cx calls]; simpl in *. rewrite Hx, Hb.
  destruct x; simpl in Hl; try done; eauto.
Qed.

Lemma holders_live sl : countb holds_sem sl ≤ countb is_live sl.
Proof. induction sl as [|[] sl IH]; simpl; lia. Qed.

(** Something other than a cancellation can move until the call returns. *)
Lemma Inv_progress s :
  Inv s → (∃ i, d_pc s = PReturned i) ∨ (∃ a d s', exec (CMain a d) s = Some s') ∨
  ∃ i s', exec (CGoroutine i) s = Some s'.
Proof.
  intros HI. pose proof (live_enabled s HI) as Hl. pose proof (inv_wg _ HI) as Hw.
  pose proof (inv_sem _ HI) as Hsem. pose proof (holders_live (d_slots s)) as Hh.
  destruct s as [p rs sem wg sl cx calls]. unfold in_flight in Hsem. simpl in *.
  destruct p as [i|i|i|i|i|i]; simpl.
  - right; left. exists true, false. destruct (n <=? i); [|destruct cx]; eauto.
  - right; left. exists true, false. rewrite andb_false_r. eauto.
  - right. destruct (Nat.ltb_spec sem capacity) as [|Hc].
    + left. exists true, false. eauto.
    + right. apply Hl. specialize (Hsem eq_refl). pose proof capacity_pos. simpl in Hsem. lia.
  - right; left. exists true, false. destruct cx; eauto.
  - right. destruct (Nat.eqb_spec wg 0).
    + left. exists true, false. eauto.
    + right. apply Hl. lia.
  - left. eauto.
Qed.

(** What a slot means once the call has returned: no goroutine is left. *)
Lemma Inv_returned s i j b :
  Inv s → d_pc s = PReturned i → payloads !! j = Some b →
  if j <? i
  then (j ∈ d_calls s ∧ d_results s !! j = Some (sendFn j b)) ∨
       (has_throttle = true ∧ j ∉ d_calls s ∧ d_results s !! j = Some (denied_result j))
  else ∃ e, d_ctx s = Some e ∧ j ∉ d_calls s ∧ d_results s !! j = Some (cancelled_result j e).
Proof.
  intros HI Hpc Hb. pose proof (inv_each _ HI _ _ Hb) as H0.
  pose proof (lookup_lt_Some _ _ _ Hb) as Hj.
  pose proof (inv_ret _ HI _ Hpc) as Hw. rewrite (inv_wg _ HI) in Hw.
  pose proof (inv_stop _ HI) as Hst. rewrite Hpc in Hst. simpl in Hst.
  unfold slot_ok in H0. rewrite Hpc in H0. simpl in H0.
  destruct (d_slots s !! j) as [x|] eqn:Hx; [|done].
  pose proof (countb_zero is_live _ _ _ Hw Hx) as Hl.
  destruct (Nat.ltb_spec j i); destruct x; try done; try (destruct H0; lia).
  - right. naive_solver.
  - left. naive_solver.
  - destruct Hst as [e He]; [done|lia|]. exists e. rewrite He in H0. naive_solver.
Qed.
End Dispatch.

(** [DispatchConcurrent]: no throttle. *)
Definition DispatchConcurrent {B} (payloads : list B) (maxInFlight : Z)
  (sendFn : nat → B → DispatchResult) : choice → dstate → option dstate :=
  exec payloads maxInFlight false sendFn.

(** ** Theorems *)

(** C1: When [DispatchConcurrentThrottled] returns, there is one result per
    payload and a cut [i] such that every payload before the cut was either
    sent exactly once, its result being that of [sendFn], or refused by the
    throttle and never sent, and every payload from the cut on was never sent
    and carries the error of the context, which is done: whatever the
    interleaving of the loop, the goroutines and the cancellation. *)
Theorem dispatch_results_final {B} (payloads : list B) mx thr sendFn s i :
  reachable (exec payloads mx thr sendFn) (d_init payloads) s → d_pc s = PReturned i →
  length (d_results s) = length payloads ∧ i ≤ length payloads ∧ NoDup (d_calls s) ∧
  in_flight s = 0 ∧
  ∀ j b, payloads !! j = Some b →
    if j <? i
    then (j ∈ d_calls s ∧ d_results s !! j = Some (sendFn j b)) ∨
         (thr = true ∧ j ∉ d_calls s ∧ d_results s !! j = Some (denied_result j))
    else ∃ e, d_ctx s = Some e ∧ j ∉ d_calls s ∧ d_results s !! j = Some (cancelled_result j e).
Proof.
  intros HI%Inv_reachable Hpc. repeat split.
  - by destruct HI.
  - pose proof (inv_pos _ _ _ _ _ HI) as H. by rewrite Hpc in H.
  - by destruct HI.
  - pose proof (inv_ret _ _ _ _ _ HI _ Hpc) as Hw. rewrite (inv_wg _ _ _ _ _ HI) in Hw.
    pose proof (holders_live (d_slots s)). unfold in_flight. lia.
  - intros j b. eapply Inv_returned; eauto.
Qed.

(** A run of three payloads with one slot and a throttle: the first is sent
    while the second waits for the slot, the second is refused, the context
    is cancelled before the third. *)
Definition demo_send (i : nat) (b : string) : DispatchResult := mkResult i ("txn-" +:+ b) None.

Definition main : choice := CMain true false.

Definition demo_throttled : list choice :=
  [main; main; main; main; main; CMain false false; CGoroutine 0; CCancel ECanceled;
   main; CGoroutine 0; CGoroutine 0; main].

Lemma dispatch_results_final_witness :
  ∃ s, reachable (exec ["a"; "b"; "c"]%string 1 true demo_send) (d_init ["a"; "b"; "c"]%string) s ∧
  d_pc s = PReturned 2 ∧
  d_results s = [mkResult 0 "txn-a" None; denied_result 1; cancelled_result 2 ECanceled] ∧
  length (d_results s) = 3.
Proof.
  eexists. split; [exists demo_throttled; reflexivity|].
  split; [reflexivity|split; [reflexivity|]].
  eapply (dispatch_results_final ["a"; "b"; "c"]%string 1 true demo_send _ 2);
    [exists demo_throttled; reflexivity|reflexivity].
Defined.

(** C5: Without throttle and without cancellation, [DispatchConcurrent]
    returns what the sequential loop over the payloads would: the i-th result
    is that of [sendFn] on the i-th payload, and [sendFn] was called once per
    payload, in some order. *)
Theorem dispatch_concurrent_sequential {B} (payloads : list B) mx sendFn s i :
  reachable (DispatchConcurrent payloads mx sendFn) (d_init payloads) s →
  d_pc s = PReturned i → d_ctx s = None →
  d_results s = imap sendFn payloads ∧ d_calls s ≡ₚ seq 0 (length payloads).
Proof.
  unfold DispatchConcurrent. intros HI%Inv_reachable Hpc Hctx.
  assert (∀ j b, payloads !! j = Some b →
    j ∈ d_calls s ∧ d_results s !! j = Some (sendFn j b)) as Hall.
  { intros j b Hb. pose proof (Inv_returned _ _ _ _ _ _ _ _ HI Hpc Hb) as H.
    destruct (j <? i); [|by rewrite Hctx in H; destruct H as (? & ? & _)].
    destruct H as [?|(? & _)]; done. }
  split.
  - apply list_eq. intros j. rewrite list_lookup_imap.
    destruct (payloads !! j) as [b|] eqn:Hb; simpl; [by apply Hall|].
    apply lookup_ge_None in Hb. apply lookup_ge_None. by rewrite (inv_results _ _ _ _ _ HI).
  - apply NoDup_Permutation; [by destruct HI|apply NoDup_seq|].
    intros j. rewrite elem_of_seq. split.
    + intros Hj%(inv_calls _ _ _ _ _ HI). lia.
    + intros [_ Hj]. destruct (lookup_lt_is_Some_2 payloads j Hj) as [b Hb]. by eapply Hall.
Qed.

Definition demo_sequential : list choice :=
  [main; main; main; main; main; main; CGoroutine 0; CGoroutine 0; main; main; main;
   CGoroutine 1; CGoroutine 1; CGoroutine 0; CGoroutine 1; main].

Lemma dispatch_concurrent_sequential_witness :
  ∃ s, reachable (DispatchConcurrent ["a"; "b"]%string 1 demo_send) (d_init ["a"; "b"]%string) s ∧
  d_results s = [mkResult 0 "txn-a" None; mkResult 1 "txn-b" None] ∧ d_calls s ≡ₚ [0; 1].
Proof.
  eexists. split; [exists demo_sequential; reflexivity|].
  eapply (dispatch_concurrent_sequential ["a"; "b"]%string 1 demo_send _ 2);
    [exists demo_sequential; reflexivity|reflexivity|reflexivity].
Defined.

(** C4: At no point of any interleaving are more than [maxInFlight] requests
    in flight (256 when the argument is not positive). *)
Theorem dispatch_in_flight_bounded {B} (payloads : list B) mx thr sendFn s :
  reachable (exec payloads mx thr sendFn) (d_init payloads) s → in_flight s ≤ capacity mx.
Proof.
  intros HI%Inv_reachable. pose proof (inv_holders _ _ _ _ _ HI).
  pose proof (inv_cap _ _ _ _ _ HI). lia.
Qed.

Lemma dispatch_in_flight_bounded_witness :
  ∃ s, reachable (exec ["a"; "b"]%string 1 false demo_send) (d_init ["a"; "b"]%string) s ∧
  in_flight s = 1 ∧ in_flight s ≤ 1.
Proof.
  eexists. split; [exists [main; main; main; main; main; main]; reflexivity|].
  split; [reflexivity|].
  apply (dispatch_in_flight_bounded ["a"; "b"]%string 1 false demo_send).
  exists [main; main; main; main; main; main]; reflexivity.
Defined.

(** C3: The dispatch terminates under every scheduler: each schedule from the
    start has at most [8 * length payloads + 3] steps, and a state in which
    the call has not returned always has a move other than a cancellation,
    that is, the semaphore and the wait group never deadlock. *)
Theorem dispatch_terminates {B} (payloads : list B) mx thr sendFn cs s :
  run_sched (exec payloads mx thr sendFn) cs (d_init payloads) = Some s →
  length cs ≤ 8 * length payloads + 3 ∧
  ((∃ i, d_pc s = PReturned i) ∨
   ∃ c s', (∀ e, c ≠ CCancel e) ∧ exec payloads mx thr sendFn c s = Some s').
Proof.
  intros H. split.
  - pose proof (run_sched_measure _ _ (fuel payloads)
      (Inv_step payloads mx thr sendFn) (fuel_step payloads mx thr sendFn) _ _ _ H
      (Inv_init _ _ _ _)) as Hl.
    unfold fuel at 2 in Hl. simpl in Hl.
    assert (∀ k, sum_list_with slot_fuel (replicate k SPending) = 0) as Hz.
    { intros k. induction k; simpl; lia. }
    rewrite Hz in Hl. lia.
  - destruct (Inv_progress _ _ _ _ s (Inv_reachable _ _ _ _ _ (ex_intro _ _ H)))
      as [?|[(a & d & s' & ?)|(i & s' & ?)]]; [by left|right..];
      eexists _, s'; (split; [|eassumption]; done).
Qed.

Lemma dispatch_terminates_witness :
  ∃ s, run_sched (exec ["a"; "b"]%string 1 false demo_send) [main; main; main; main; main; main]
         (d_init ["a"; "b"]%string) = Some s ∧
  ((∃ i, d_pc s = PReturned i) ∨
   ∃ c s', (∀ e, c ≠ CCancel e) ∧ exec ["a"; "b"]%string 1 false demo_send c s = Some s').
Proof.
  eexists. split; [reflexivity|].
  apply (dispatch_terminates ["a"; "b"]%string 1 false demo_send
    [main; main; main; main; main; main]). reflexivity.
Defined.
