(* ===== verification/Notifier.v ===== *)
(** * Waiting for callbacks: [internal/domain/pipeline/callback_notifier.go]

    A [CallbackNotifier] keeps, per run and action, an atomic counter and a
    one-element channel.  HTTP handlers call [Notify]; the run's goroutine
    calls [WaitForCount]; [Reset] forgets a run.  Counters and channels live
    in a heap and the maps hold their addresses, because a caller keeps using
    the pair it got from [getOrCreate] after [Reset] has dropped it.

    A pool of threads is stepped by a scheduler: each access to shared memory
    is one step, the critical sections of [n.mu] are one step each. *)
From stdpp Require Import prelude gmap list strings.
From S2P Require Import Prelude GoStrings.

(** [chan struct{}] of capacity one: full or not, closed or not. *)
Record chan := mkChan { ch_full : bool; ch_closed : bool }.

Inductive notify_pc :=
  | NStart
  | NAdd (ctr ch : nat)
  | NSend (ch : nat)
  | NDone
  | NPanic.  (* send on closed channel *)

Inductive wait_pc :=
  | WStart
  | WLoad (ctr ch : nat)            (* the test before the loop *)
  | WSelect (ctr ch : nat)          (* blocked in the select *)
  | WCheck (ctr ch : nat)           (* woken up by the channel *)
  | WReturn (ctr : nat) (timeout : bool)  (* return int(ctr.Load()) *)
  | WDone (ret : Z) (timeout : bool).

Inductive thread :=
  | TNotify (run action : string) (p : notify_pc)
  | TWait (run action : string) (target : Z) (p : wait_pc)
  | TReset (run : string) (finished : bool).

Record nstate := mkN {
  n_counters : gmap string nat;
  n_channels : gmap string nat;
  n_ctrs : list Z;
  n_chans : list chan;
  n_threads : list thread;
}.

Definition key (runID action : string) : string := (runID +:+ ":" +:+ action)%string.

Definition get_ctr (s : nstate) (c : nat) : Z := default 0%Z (n_ctrs s !! c).
Definition set_thread (i : nat) (t : thread) (s : nstate) : nstate :=
  mkN (n_counters s) (n_channels s) (n_ctrs s) (n_chans s) (<[i:=t]> (n_threads s)).

(** The critical section of [getOrCreate]: the counter, then the channel. *)
Definition getCounter (k : string) (s : nstate) : nat * nstate :=
  match n_counters s !! k with
  | Some c => (c, s)
  | None => (length (n_ctrs s),
      mkN (<[k := length (n_ctrs s)]> (n_counters s)) (n_channels s)
        (n_ctrs s ++ [0%Z]) (n_chans s) (n_threads s))
  end.

Definition getChannel (k : string) (s : nstate) : nat * nstate :=
  match n_channels s !! k with
  | Some ch => (ch, s)
  | None => (length (n_chans s),
      mkN (n_counters s) (<[k := length (n_chans s)]> (n_channels s))
        (n_ctrs s) (n_chans s ++ [mkChan false false]) (n_threads s))
  end.

Definition getOrCreate (k : string) (s : nstate) : nat * nat * nstate :=
  let '(c, s1) := getCounter k s in
  let '(ch, s2) := getChannel k s1 in (c, ch, s2).

(** One step of [Notify]. *)
Definition exec_notify (run action : string) (p : notify_pc) (s : nstate)
  : option (notify_pc * nstate) :=
  match p with
  | NStart => let '(c, ch, s') := getOrCreate (key run action) s in Some (NAdd c ch, s')
  | NAdd c ch =>
      Some (NSend ch, mkN (n_counters s) (n_channels s)
                        (<[c := wrap64 (get_ctr s c + 1)]> (n_ctrs s)) (n_chans s) (n_threads s))
  | NSend ch =>
      match n_chans s !! ch with
      | Some (mkChan _ true) => Some (NPanic, s)
      | Some (mkChan true false) => Some (NDone, s)
      | Some (mkChan false false) =>
          Some (NDone, mkN (n_counters s) (n_channels s) (n_ctrs s)
                         (<[ch := mkChan true false]> (n_chans s)) (n_threads s))
      | None => None
      end
  | NDone | NPanic => None
  end.

(** One step of [WaitForCount]; at the [select], [deadline] tells which
    branch is taken. *)
Definition exec_wait (run action : string) (target : Z) (deadline : bool) (p : wait_pc)
  (s : nstate) : option (wait_pc * nstate) :=
  match p with
  | WStart => let '(c, ch, s') := getOrCreate (key run action) s in Some (WLoad c ch, s')
  | WLoad c ch =>
      Some (if (target <=? get_ctr s c)%Z then WReturn c false else WSelect c ch, s)
  | WSelect c ch =>
      if deadline then Some (WReturn c true, s)
      else match n_chans s !! ch with
           | Some (mkChan true cl) =>
               Some (WCheck c ch, mkN (n_counters s) (n_channels s) (n_ctrs s)
                                    (<[ch := mkChan false cl]> (n_chans s)) (n_threads s))
           | Some (mkChan false true) => Some (WCheck c ch, s)
           | _ => None
           end
  | WCheck c ch =>
      Some (if (target <=? get_ctr s c)%Z then WReturn c false else WSelect c ch, s)
  | WReturn c t => Some (WDone (get_ctr s c) t, s)
  | WDone _ _ => None
  end.

(** [len(k) > len(prefix) && k[:len(prefix)] == prefix]. *)
Definition in_run (run : string) (k : string) : bool :=
  let prefix := (run +:+ ":")%string in
  (String.length prefix <? String.length k) && has_prefix prefix k.

(** The critical section of [Reset]. *)
Definition Reset (run : string) (s : nstate) : nstate :=
  let gone := filter (λ kv, in_run run kv.1 = true) (n_channels s) in
  mkN (filter (λ kv, gone !! kv.1 = None) (n_counters s))
      (filter (λ kv, in_run run kv.1 = false) (n_channels s))
      (n_ctrs s)
      (imap (λ id c, if existsb (λ kv, kv.2 =? id) (map_to_list gone)
                     then mkChan (ch_full c) true else c) (n_chans s))
      (n_threads s).

Inductive choice := CThread (i : nat) (deadline : bool).

Definition exec (c : choice) (s : nstate) : option nstate :=
  let '(CThread i deadline) := c in
  match n_threads s !! i with
  | Some (TNotify run action p) =>
      '(p', s') ← exec_notify run action p s; Some (set_thread i (TNotify run action p') s')
  | Some (TWait run action target p) =>
      '(p', s') ← exec_wait run action target deadline p s;
      Some (set_thread i (TWait run action target p') s')
  | Some (TReset run false) => Some (set_thread i (TReset run true) (Reset run s))
  | Some (TReset _ true) => None
  | None => None
  end.

(** [NewCallbackNotifier], and the calls made on it. *)
Definition n_init (ts : list thread) : nstate := mkN ∅ ∅ [] [] ts.

(** ** The invariant without [Reset] *)

Definition t_key (t : thread) : string :=
  match t with TNotify r a _ | TWait r a _ _ => key r a | TReset _ _ => "" end.
Definition t_ctr (t : thread) : option nat :=
  match t with
  | TNotify _ _ (NAdd c _) => Some c
  | TWait _ _ _ (WLoad c _ | WSelect c _ | WCheck c _ | WReturn c _) => Some c
  | _ => None
  end.
Definition t_ch (t : thread) : option nat :=
  match t with
  | TNotify _ _ (NAdd _ ch | NSend ch) => Some ch
  | TWait _ _ _ (WLoad _ ch | WSelect _ ch | WCheck _ ch) => Some ch
  | _ => None
  end.
Definition is_wait (t : thread) : bool := match t with TWait _ _ _ _ => true | _ => false end.
Definition is_reset (t : thread) : bool := match t with TReset _ _ => true | _ => false end.
Definition is_panic (t : thread) : bool :=
  match t with TNotify _ _ NPanic => true | _ => false end.

(** A call of [Notify] on key [k] that has incremented the counter. *)
Definition added (k : string) (t : thread) : bool :=
  match t with
  | TNotify r a (NSend _ | NDone | NPanic) => bool_decide (key r a = k)
  | _ => false
  end.

(** A waiter blocked although its target is reached finds the channel full,
    or a notifier is about to fill it. *)
Definition wakeable (s : nstate) (t : thread) : Prop :=
  match t with
  | TWait _ _ target (WSelect c ch) =>
      (target ≤ get_ctr s c)%Z →
      n_chans s !! ch = Some (mkChan true false) ∨
      ∃ j r a, n_threads s !! j = Some (TNotify r a (NSend ch))
  | _ => True
  end.

(** What is promised of each return of [WaitForCount]. *)
Definition returned_ok (s : nstate) (t : thread) : Prop :=
  match t with
  | TWait r a target (WReturn c false) => (target ≤ get_ctr s c)%Z
  | TWait r a target (WDone n timeout) =>
      (timeout = false → (target ≤ n)%Z) ∧
      (n ≤ Z.of_nat (countb (added (key r a)) (n_threads s)))%Z
  | _ => True
  end.

Record Inv (s : nstate) : Prop := mkInv {
  inv_size : (Z.of_nat (length (n_threads s)) < 2 ^ 63)%Z;
  inv_ctr : ∀ k c, n_counters s !! k = Some c →
    n_ctrs s !! c = Some (Z.of_nat (countb (added k) (n_threads s)));
  inv_new : ∀ k, n_counters s !! k = None → countb (added k) (n_threads s) = 0;
  inv_open : ∀ k ch, n_channels s !! k = Some ch → ∃ f, n_chans s !! ch = Some (mkChan f false);
  inv_ctr_inj : ∀ k k' c, n_counters s !! k = Some c → n_counters s !! k' = Some c → k = k';
  inv_ch_inj : ∀ k k' c, n_channels s !! k = Some c → n_channels s !! k' = Some c → k = k';
  inv_thread : ∀ i t, n_threads s !! i = Some t →
    is_reset t = false ∧ is_panic t = false ∧
    (∀ c, t_ctr t = Some c → n_counters s !! t_key t = Some c) ∧
    (∀ ch, t_ch t = Some ch → n_channels s !! t_key t = Some ch) ∧
    wakeable s t ∧ returned_ok s t;
  inv_single : ∀ i j t t', n_threads s !! i = Some t → n_threads s !! j = Some t' →
    is_wait t = true → is_wait t' = true → t_key t = t_key t' → i = j;
}.

Lemma inv_get_ctr s k c :
  Inv s → n_counters s !! k = Some c →
  get_ctr s c = Z.of_nat (countb (added k) (n_threads s)).
Proof. intros HI Hc. unfold get_ctr. by rewrite (inv_ctr _ HI _ _ Hc). Qed.

Lemma wakeable_frame s s' t :
  n_threads s' = n_threads s →
  (∀ c, t_ctr t = Some c → get_ctr s' c = get_ctr s c) →
  (∀ ch, t_ch t = Some ch → n_chans s' !! ch = n_chans s !! ch) →
  wakeable s t → wakeable s' t.
Proof.
  intros Ht Hc Hch. destruct t as [|r a tg [| |c ch| | |]|]; simpl in *; try done.
  by rewrite (Hc c), (Hch ch), Ht.
Qed.

Lemma returned_frame s s' t :
  (∀ k, countb (added k) (n_threads s') = countb (added k) (n_threads s)) →
  (∀ c, t_ctr t = Some c → get_ctr s' c = get_ctr s c) →
  returned_ok s t → returned_ok s' t.
Proof.
  intros Ht Hc. destruct t as [|r a tg [| | | |c []|]|]; simpl in *; try done.
  - by rewrite (Hc c).
  - by rewrite Ht.
Qed.

Lemma getCounter_Inv k s c s' :
  Inv s → getCounter k s = (c, s') →
  Inv s' ∧ n_counters s' !! k = Some c ∧ n_threads s' = n_threads s.
Proof.
  unfold getCounter. intros HI. destruct (n_counters s !! k) as [c'|] eqn:Hk; [naive_solver|].
  intros [= <- <-]; simpl. rewrite lookup_insert_eq. split; [|done].
  assert (∀ k' c, n_counters s !! k' = Some c → c < length (n_ctrs s)) as Hlt.
  { intros k' c H%(inv_ctr _ HI). by apply lookup_lt_Some in H. }
  assert (∀ c, c < length (n_ctrs s) →
    default 0%Z ((n_ctrs s ++ [0%Z]) !! c) = get_ctr s c) as Hget.
  { intros c Hc. unfold get_ctr. by rewrite lookup_app_l. }
  split; simpl; try apply HI.
  - intros k' c [[<- <-]|[Hne Hc]]%lookup_insert_Some.
    + rewrite (inv_new _ HI _ Hk), lookup_app_r, Nat.sub_diag by lia. done.
    + rewrite lookup_app_l by eauto. by apply (inv_ctr _ HI).
  - intros k' [? Hn]%lookup_insert_None. by apply (inv_new _ HI).
  - intros k1 k2 c [[<- <-]|[? H1]]%lookup_insert_Some [[<- H2]|[? H2]]%lookup_insert_Some; auto.
    + apply Hlt in H2. lia.
    + subst. apply Hlt in H1. lia.
    + by apply (inv_ctr_inj _ HI _ _ c).
  - intros i t Ht. destruct (inv_thread _ HI _ _ Ht) as (? & ? & H1 & ? & H3 & H4).
    repeat split; try done.
    + intros c Hc. rewrite lookup_insert_ne; [by apply H1|]. intros ->.
      by rewrite (H1 _ Hc) in Hk.
    + eapply wakeable_frame, H3; try done. intros c Hc. apply Hget. eauto.
    + eapply returned_frame, H4; try done. intros c Hc. apply Hget. eauto.
Qed.

Lemma getChannel_Inv k s ch s' :
  Inv s → getChannel k s = (ch, s') →
  Inv s' ∧ n_channels s' !! k = Some ch ∧ n_threads s' = n_threads s ∧
  n_counters s' = n_counters s.
Proof.
  unfold getChannel. intros HI. destruct (n_channels s !! k) as [c'|] eqn:Hk; [naive_solver|].
  intros [= <- <-]; simpl. rewrite lookup_insert_eq. split; [|done].
  assert (∀ k' c, n_channels s !! k' = Some c → c < length (n_chans s)) as Hlt.
  { intros k' c [f H]%(inv_open _ HI). by apply lookup_lt_Some in H. }
  split; simpl; try apply HI.
  - intros k' c [[<- <-]|[Hne Hc]]%lookup_insert_Some.
    + rewrite lookup_app_r, Nat.sub_diag by lia. eauto.
    + rewrite lookup_app_l by eauto. by apply (inv_open _ HI k').
  - intros k1 k2 c [[<- <-]|[? H1]]%lookup_insert_Some [[<- H2]|[? H2]]%lookup_insert_Some; auto.
    + apply Hlt in H2. lia.
    + subst. apply Hlt in H1. lia.
    + by apply (inv_ch_inj _ HI _ _ c).
  - intros i t Ht. destruct (inv_thread _ HI _ _ Ht) as (? & ? & ? & H1 & H3 & H4).
    repeat split; try done.
    + intros c Hc. rewrite lookup_insert_ne; [by apply H1|]. intros ->.
      by rewrite (H1 _ Hc) in Hk.
    + eapply wakeable_frame, H3; try done. intros c Hc. simpl. rewrite lookup_app_l; eauto.
Qed.

Lemma getOrCreate_Inv k s c ch s' :
  Inv s → getOrCreate k s = (c, ch, s') →
  Inv s' ∧ n_counters s' !! k = Some c ∧ n_channels s' !! k = Some ch ∧
  n_threads s' = n_threads s.
Proof.
  unfold getOrCreate. intros HI.
  destruct (getCounter k s) as [c1 s1] eqn:H1, (getChannel k s1) as [ch1 s2] eqn:H2.
  intros [= <- <- <-].
  destruct (getCounter_Inv _ _ _ _ HI H1) as (HI1 & Hc & Ht1).
  destruct (getChannel_Inv _ _ _ _ HI1 H2) as (HI2 & Hch & Ht2 & Hc2).
  split_and!; [done|congruence..].
Qed.

(** A thread moves without touching the shared state. *)
Lemma set_thread_Inv s i t t' :
  Inv s → n_threads s !! i = Some t →
  is_wait t' = is_wait t → t_key t' = t_key t → is_reset t' = false → is_panic t' = false →
  (∀ k, added k t' = added k t) →
  (∀ c, t_ctr t' = Some c → n_counters s !! t_key t = Some c) →
  (∀ ch, t_ch t' = Some ch → n_channels s !! t_key t = Some ch) →
  wakeable s t' → returned_ok s t' →
  (∀ r a ch, t = TNotify r a (NSend ch) → n_chans s !! ch = Some (mkChan true false)) →
  Inv (set_thread i t' s).
Proof.
  intros HI Ht Hw Hk Hr Hp Ha Hc Hch Hwk Hret Hsend.
  assert (∀ k, countb (added k) (<[i:=t']> (n_threads s)) = countb (added k) (n_threads s)) as Hcnt.
  { intros k. pose proof (countb_insert (added k) _ i _ t' Ht) as H. rewrite (Ha k) in H. lia. }
  assert (∀ u, wakeable s u → wakeable (set_thread i t' s) u) as Hwake.
  { intros [|r a tg []|]; simpl; try done. intros H Hle.
    destruct (H Hle) as [?|(j & r' & a' & Hj)]; [by left|].
    destruct (decide (j = i)) as [->|].
    - left. simplify_eq. by eapply Hsend.
    - right. exists j, r', a'. by rewrite list_lookup_insert_ne. }
  split; simpl; try apply HI.
  - rewrite length_insert. apply HI.
  - intros k c H. rewrite Hcnt. by apply HI.
  - intros k H. rewrite Hcnt. by apply HI.
  - intros j u [(-> & <- & _)|[Hne Hu]]%list_lookup_insert_Some.
    + rewrite Hk. repeat split; try done; [by apply Hwake|]. by eapply returned_frame, Hret.
    + destruct (inv_thread _ HI _ _ Hu) as (? & ? & ? & ? & ? & H4).
      repeat split; try done; [by apply Hwake|]. by eapply returned_frame, H4.
  - intros j1 j2 u1 u2 [(-> & <- & _)|[Hne1 Hu1]]%list_lookup_insert_Some
      [(-> & <- & _)|[Hne2 Hu2]]%list_lookup_insert_Some; try done.
    + rewrite Hw, Hk. eapply (inv_single _ HI); eauto.
    + rewrite Hw, Hk. eapply (inv_single _ HI); eauto.
    + eapply (inv_single _ HI); eauto.
Qed.

(** [Notify] increments the counter it obtained: one more callback of its key
    is counted, and the counter holds their number. *)
Definition after_add (s : nstate) (i : nat) (r a : string) (c ch : nat) : nstate :=
  set_thread i (TNotify r a (NSend ch))
    (mkN (n_counters s) (n_channels s) (<[c := wrap64 (get_ctr s c + 1)]> (n_ctrs s))
       (n_chans s) (n_threads s)).

Lemma add_count s i r a c ch k :
  n_threads s !! i = Some (TNotify r a (NAdd c ch)) →
  countb (added k) (n_threads (after_add s i r a c ch)) =
    countb (added k) (n_threads s) + if bool_decide (key r a = k) then 1 else 0.
Proof.
  intros Ht. pose proof (countb_insert (added k) _ i _ (TNotify r a (NSend ch)) Ht) as H.
  simpl in *. lia.
Qed.

Lemma add_value s i r a c ch :
  Inv s → n_threads s !! i = Some (TNotify r a (NAdd c ch)) →
  n_counters s !! key r a = Some c →
  wrap64 (get_ctr s c + 1) = Z.of_nat (S (countb (added (key r a)) (n_threads s))) ∧
  ∀ c', get_ctr (after_add s i r a c ch) c' =
    if decide (c' = c) then (get_ctr s c + 1)%Z else get_ctr s c'.
Proof.
  intros HI Ht Hc. pose proof (inv_get_ctr _ _ _ HI Hc) as Hget.
  pose proof (inv_ctr _ HI _ _ Hc) as Hlc%lookup_lt_Some.
  assert (wrap64 (get_ctr s c + 1) = Z.of_nat (S (countb (added (key r a)) (n_threads s)))) as Hw.
  { rewrite Hget, wrap64_id; [lia|]. pose proof (inv_size _ HI).
    pose proof (countb_le (added (key r a)) (n_threads (after_add s i r a c ch))) as Hle.
    rewrite (add_count _ _ _ _ _ _ _ Ht), bool_decide_true in Hle by done. cbn in Hle.
    rewrite length_insert in Hle. unfold in_int64. lia. }
  split; [done|]. intros c'. unfold get_ctr at 1. cbn. case_decide as Hd; [subst c'|].
  - rewrite list_lookup_insert_eq by done. simpl. lia.
  - by rewrite list_lookup_insert_ne.
Qed.

(** A waiter whose target the increment reaches finds the signal still to be
    sent, by this very call. *)
Lemma add_wakeable s i r a c ch j u :
  Inv s → n_threads s !! i = Some (TNotify r a (NAdd c ch)) → j ≠ i →
  n_threads s !! j = Some u → wakeable (after_add s i r a c ch) u.
Proof.
  intros HI Ht Hne Hu. destruct (inv_thread _ HI _ _ Ht) as (_ & _ & Hc & Hch & _ & _).
  specialize (Hc _ eq_refl). specialize (Hch _ eq_refl). simpl in Hc, Hch.
  destruct (add_value s i r a c ch HI Ht Hc) as [_ Hg].
  destruct (inv_thread _ HI _ _ Hu) as (_ & _ & H1 & H2 & H3 & _).
  destruct u as [|r' a' tg [| |c' ch'| | |]|]; try done. cbn [wakeable] in *. intros Hle.
  specialize (H1 _ eq_refl). specialize (H2 _ eq_refl). rewrite Hg in Hle. simpl in *.
  case_decide as Hd.
  - subst c'. right. exists i, r, a.
    assert (key r' a' = key r a) as Hkk by (by eapply (inv_ctr_inj _ HI)).
    rewrite Hkk in H2. simplify_eq. by rewrite list_lookup_insert_eq by (by eapply lookup_lt_Some).
  - destruct (H3 Hle) as [?|(j' & r1 & a1 & Hj')]; [by left|right].
    exists j', r1, a1. rewrite list_lookup_insert_ne; [done|]. intros ->. congruence.
Qed.

Lemma add_Inv s i r a c ch :
  Inv s → n_threads s !! i = Some (TNotify r a (NAdd c ch)) → Inv (after_add s i r a c ch).
Proof.
  intros HI Ht. destruct (inv_thread _ HI _ _ Ht) as (_ & _ & Hc & Hch & _ & _).
  specialize (Hc _ eq_refl). specialize (Hch _ eq_refl). simpl in Hc, Hch.
  pose proof (inv_ctr _ HI _ _ Hc) as Hlc%lookup_lt_Some.
  destruct (add_value s i r a c ch HI Ht Hc) as [Hw Hg].
  assert (Hcnt := λ k, add_count s i r a c ch k Ht).
  split; try (simpl; apply HI).
  - simpl. rewrite length_insert. apply HI.
  - intros k c' Hk. rewrite Hcnt. simpl in *. case_bool_decide as Hd.
    + subst k. simplify_eq. rewrite list_lookup_insert_eq by done. rewrite Hw. do 2 f_equal. lia.
    + rewrite Nat.add_0_r, list_lookup_insert_ne; [by apply HI|].
      intros <-. by apply Hd, (inv_ctr_inj _ HI _ _ c).
  - intros k Hk. simpl in Hk. rewrite Hcnt, bool_decide_false; [|intros <-; congruence].
    rewrite (inv_new _ HI _ Hk). done.
  - intros j u [(-> & <- & _)|[Hne Hu]]%list_lookup_insert_Some.
    + repeat split; try done. by intros ? [= <-].
    + destruct (inv_thread _ HI _ _ Hu) as (? & ? & ? & ? & _ & H4).
      repeat split; try done; [by eapply add_wakeable|].
      destruct u as [|r' a' tg [| | | |c' []|n b]|]; try done; simpl in *.
      * rewrite Hg. case_decide; [subst|]; lia.
      * rewrite Hcnt. split; [apply H4|]. lia.
  - intros j1 j2 u1 u2 [(-> & <- & _)|[Hne1 Hu1]]%list_lookup_insert_Some
      [(-> & <- & _)|[Hne2 Hu2]]%list_lookup_insert_Some; try done.
    eapply (inv_single _ HI); eauto.
Qed.

(** The channel of key [k] changes its contents: if it is emptied no waiter
    may still be blocked on it. *)
Lemma chan_Inv s k ch f :
  Inv s → n_channels s !! k = Some ch →
  (f = false → ∀ i r a tg c, n_threads s !! i ≠ Some (TWait r a tg (WSelect c ch))) →
  Inv (mkN (n_counters s) (n_channels s) (n_ctrs s) (<[ch := mkChan f false]> (n_chans s))
         (n_threads s)).
Proof.
  intros HI Hk Hf. destruct (inv_open _ HI _ _ Hk) as [f0 Hf0].
  pose proof (lookup_lt_Some _ _ _ Hf0) as Hlt.
  split; simpl; try apply HI.
  - intros k' ch' Hk'. destruct (decide (ch' = ch)) as [->|].
    + rewrite list_lookup_insert_eq by done. eauto.
    + rewrite list_lookup_insert_ne by done. by eapply (inv_open _ HI).
  - intros i t Ht. destruct (inv_thread _ HI _ _ Ht) as (? & ? & H1 & H2 & H3 & H4).
    repeat split; try done.
    + destruct t as [|r a tg [| |c ch'| | |]|]; try done. simpl in *. intros Hle.
      destruct (decide (ch' = ch)) as [->|].
      * rewrite list_lookup_insert_eq by done. destruct f; [by left|].
        by destruct (Hf eq_refl i r a tg c).
      * rewrite list_lookup_insert_ne by done. by apply H3.
Qed.

Lemma Inv_notify s i r a p p' s1 :
  Inv s → n_threads s !! i = Some (TNotify r a p) → exec_notify r a p s = Some (p', s1) →
  Inv (set_thread i (TNotify r a p') s1).
Proof.
  intros HI Ht He. destruct (inv_thread _ HI _ _ Ht) as (_ & _ & Hc & Hch & _ & _).
  destruct p as [|c ch|ch| |]; simplify_eq/=.
  - destruct (getOrCreate (key r a) s) as [[c ch] s'] eqn:Hg. simplify_eq/=.
    destruct (getOrCreate_Inv _ _ _ _ _ HI Hg) as (HI' & Hc' & Hch' & Hts).
    eapply set_thread_Inv; [done|by rewrite Hts|..]; simpl; naive_solver.
  - by apply add_Inv.
  - specialize (Hch _ eq_refl). destruct (inv_open _ HI _ _ Hch) as [f Hf].
    rewrite Hf in He. destruct f; simplify_eq/=.
    + eapply set_thread_Inv; [done|done|..]; simpl; naive_solver.
    + pose proof (chan_Inv _ _ _ true HI Hch ltac:(done)) as HI'.
      eapply set_thread_Inv; [done|exact Ht|..]; simpl; try done.
      intros ? ? ? [= -> -> ->]. rewrite list_lookup_insert_eq; [done|].
      by eapply lookup_lt_Some.
Qed.

Lemma Inv_wait s i r a tg d p p' s1 :
  Inv s → n_threads s !! i = Some (TWait r a tg p) → exec_wait r a tg d p s = Some (p', s1) →
  Inv (set_thread i (TWait r a tg p') s1).
Proof.
  intros HI Ht He. destruct (inv_thread _ HI _ _ Ht) as (_ & _ & Hc & Hch & Hw & Hr).
  destruct p as [|c ch|c ch|c ch|c t|]; simpl in Hc, Hch; simplify_eq/=.
  - destruct (getOrCreate (key r a) s) as [[c ch] s'] eqn:Hg. simplify_eq/=.
    destruct (getOrCreate_Inv _ _ _ _ _ HI Hg) as (HI' & Hc' & Hch' & Hts).
    eapply set_thread_Inv; [done|by rewrite Hts|..]; simpl; naive_solver.
  - destruct (Z.leb_spec tg (get_ctr s1 c));
      (eapply set_thread_Inv; [done|done|..]; simpl; first [done|lia|naive_solver]).
  - destruct d; simplify_eq/=.
    { eapply set_thread_Inv; [done|done|..]; simpl; naive_solver. }
    specialize (Hch _ eq_refl). destruct (inv_open _ HI _ _ Hch) as [f Hf].
    rewrite Hf in He. destruct f; simplify_eq/=.
    set (s0 := set_thread i (TWait r a tg (WCheck c ch)) s).
    assert (Inv s0) as HI0 by
      (eapply set_thread_Inv; [done|exact Ht|..]; simpl; naive_solver).
    assert (Inv (mkN (n_counters s0) (n_channels s0) (n_ctrs s0)
      (<[ch := mkChan false false]> (n_chans s0)) (n_threads s0))) as HI1.
    { apply (chan_Inv _ (key r a)); [done|done|]. intros _ j r' a' tg' c'. simpl.
      intros [(-> & [=] & _)|[Hne Hj]]%list_lookup_insert_Some.
      destruct (inv_thread _ HI _ _ Hj) as (_ & _ & _ & Hch2 & _).
      specialize (Hch2 _ eq_refl). simpl in Hch2.
      apply Hne, (inv_single _ HI _ _ _ _ Ht Hj); [done..|]. simpl.
      by eapply (inv_ch_inj _ HI). }
    done.
  - destruct (Z.leb_spec tg (get_ctr s1 c));
      (eapply set_thread_Inv; [done|done|..]; simpl; first [done|lia|naive_solver]).
  - specialize (Hc _ eq_refl). pose proof (inv_get_ctr _ _ _ HI Hc).
    eapply set_thread_Inv; [done|done|..]; simpl; try done. split; [|lia].
    intros ->. done.
Qed.

Lemma notifier_Inv_step c s s' : exec c s = Some s' → Inv s → Inv s'.
Proof.
  destruct c as [i d]; simpl. intros He HI.
  destruct (n_threads s !! i) as [[r a p|r a tg p|r b]|] eqn:Ht; [| | |done].
  - apply bind_Some in He as ([p' s1] & He & [= <-]). by eapply Inv_notify.
  - apply bind_Some in He as ([p' s1] & He & [= <-]). by eapply Inv_wait.
  - by destruct (inv_thread _ HI _ _ Ht).
Qed.

(** ** Pools of calls *)

(** The call a thread executes, before its first step. *)
Definition call (t : thread) : thread :=
  match t with
  | TNotify r a _ => TNotify r a NStart
  | TWait r a tg _ => TWait r a tg WStart
  | TReset r _ => TReset r false
  end.

Definition notifies (k : string) (t : thread) : bool :=
  match t with TNotify r a _ => bool_decide (key r a = k) | _ => false end.

(** Calls of [Notify] and [WaitForCount], at most one waiter per key. *)
Record pool_ok (ts : list thread) : Prop := mkPool {
  pool_size : (Z.of_nat (length ts) < 2 ^ 63)%Z;
  pool_calls : call <$> ts = ts;
  pool_no_reset : countb is_reset ts = 0;
  pool_single : NoDup (t_key <$> filter (λ t, is_wait t = true) ts);
}.

Lemma pool_start (ts : list thread) t : call <$> ts = ts → t ∈ ts → t = call t.
Proof.
  intros Hc [i Hi]%list_elem_of_lookup_1.
  assert (H : (call <$> ts) !! i = Some t) by by rewrite Hc.
  rewrite list_lookup_fmap, Hi in H. by simplify_eq/=.
Qed.

Lemma Inv_n_init ts : pool_ok ts → Inv (n_init ts).
Proof.
  intros [Hs Hc Hr Hu].
  assert (∀ k, countb (added k) ts = 0) as H0.
  { intros k. rewrite <- Hc, countb_fmap.
    clear. induction ts as [|[] ts IH]; simpl; auto. }
  split; simpl; try done.
  - intros i t Ht. pose proof (countb_zero _ _ _ _ Hr Ht) as Hnr.
    rewrite (pool_start ts t Hc) by by eapply list_elem_of_lookup_2.
    destruct t; simpl in *; naive_solver.
  - intros. by eapply NoDup_fmap_filter_lookup.
Qed.

Lemma notifier_Inv_reachable ts s : pool_ok ts → reachable exec (n_init ts) s → Inv s.
Proof.
  intros Hp [cs H]. by eapply (run_sched_invariant exec Inv notifier_Inv_step), Inv_n_init.
Qed.

Lemma getOrCreate_threads k s c ch s' :
  getOrCreate k s = (c, ch, s') → n_threads s' = n_threads s.
Proof.
  unfold getOrCreate, getCounter, getChannel. intros H.
  repeat (case_match; simplify_eq/=; try done).
Qed.

Lemma exec_notify_threads r a p s p' s' :
  exec_notify r a p s = Some (p', s') → n_threads s' = n_threads s.
Proof.
  destruct p; simpl; try done.
  - destruct (getOrCreate _ _) as [[??]?] eqn:Hg. intros [= <- <-].
    by eapply getOrCreate_threads.
  - by intros [= <- <-].
  - repeat (case_match; simplify_eq/=; try done); by intros [= <- <-].
Qed.

Lemma exec_wait_threads r a tg d p s p' s' :
  exec_wait r a tg d p s = Some (p', s') → n_threads s' = n_threads s.
Proof.
  destruct p; simpl; try done.
  - destruct (getOrCreate _ _) as [[??]?] eqn:Hg. intros [= <- <-].
    by eapply getOrCreate_threads.
  - by intros [= <- <-].
  - repeat (case_match; simplify_eq/=; try done); by intros [= <- <-].
  - by intros [= <- <-].
  - by intros [= <- <-].
Qed.

(** No step changes which calls are being made. *)
Lemma exec_calls c s s' :
  exec c s = Some s' → call <$> n_threads s' = call <$> n_threads s.
Proof.
  destruct c as [i d]; simpl.
  destruct (n_threads s !! i) as [[r a p|r a tg p|r []]|] eqn:Ht; [| |done| |done];
    [intros ([p' s1] & He%exec_notify_threads & [= <-])%bind_Some
    |intros ([p' s1] & He%exec_wait_threads & [= <-])%bind_Some|intros [= <-]; pose proof I as He];
    unfold set_thread; simpl; rewrite ?He, list_fmap_insert; simpl;
    apply list_insert_id; by rewrite list_lookup_fmap, Ht.
Qed.

Lemma reachable_calls (ts : list thread) s :
  call <$> ts = ts → reachable exec (n_init ts) s → call <$> n_threads s = ts.
Proof.
  intros Hc [cs H].
  apply (run_sched_invariant exec (λ s, call <$> n_threads s = ts)) in H; [done| |done].
  intros c s1 s2 He <-. by eapply exec_calls.
Qed.

(** ** The maps agree, also when runs are reset *)

Definition maps_agree (s : nstate) : Prop :=
  ∀ k, n_counters s !! k = None ↔ n_channels s !! k = None.

Lemma getOrCreate_agree k s c ch s' :
  getOrCreate k s = (c, ch, s') → maps_agree s → maps_agree s'.
Proof.
  unfold getOrCreate, getCounter, getChannel, maps_agree. intros H Ha k'.
  pose proof (Ha k) as Hk. pose proof (Ha k') as Hk'.
  destruct (n_counters s !! k) eqn:E1; simplify_eq/=;
    destruct (n_channels s !! k) eqn:E2; simplify_eq/=; [done| | |].
  - by apply proj2 in Hk; specialize (Hk eq_refl).
  - by apply proj1 in Hk; specialize (Hk eq_refl).
  - by rewrite !lookup_insert_None, Hk'.
Qed.

Lemma Reset_agree run s : maps_agree s → maps_agree (Reset run s).
Proof.
  intros Ha k. simpl. specialize (Ha k).
  destruct (n_counters s !! k) as [c|] eqn:Hc, (n_channels s !! k) as [ch|] eqn:Hch;
    try naive_solver; rewrite !map_lookup_filter, Hc, Hch; simpl; [|done].
  rewrite map_lookup_filter, Hch. simpl. destruct (in_run run k); simplify_option_eq; done.
Qed.

Lemma exec_agree c s s' : exec c s = Some s' → maps_agree s → maps_agree s'.
Proof.
  destruct c as [i d]; simpl.
  destruct (n_threads s !! i) as [[r a p|r a tg p|r []]|]; try done.
  - intros ([p' s1] & He & [= <-])%bind_Some Ha. unfold maps_agree, set_thread; simpl.
    destruct p; simpl in He;
      [destruct (getOrCreate _ _) as [[c ch] s2] eqn:Hg; simplify_eq/=;
       by eapply getOrCreate_agree|..];
      repeat (case_match; simplify_eq/=; try done); simplify_eq/=; exact Ha.
  - intros ([p' s1] & He & [= <-])%bind_Some Ha. unfold maps_agree, set_thread; simpl.
    destruct p; simpl in He;
      [destruct (getOrCreate _ _) as [[c ch] s2] eqn:Hg; simplify_eq/=;
       by eapply getOrCreate_agree|..];
      repeat (case_match; simplify_eq/=; try done); simplify_eq/=; exact Ha.
  - intros [= <-] Ha. by apply Reset_agree.
Qed.

Lemma agree_reachable ts s : reachable exec (n_init ts) s → maps_agree s.
Proof. intros [cs H]. by eapply (run_sched_invariant exec maps_agree exec_agree). Qed.

(** Keys of a run, when run ids hold no [':'] (they are UUIDs). *)
Lemma in_run_key (run run' action : string) :
  no_colon run → no_colon run' →
  in_run run (key run' action) = bool_decide (run = run' ∧ action ≠ ""%string).
Proof.
  intros H1 H2. unfold in_run, key.
  change (":" +:+ action)%string with (String colon action).
  change ":"%string with (String colon "").
  rewrite has_prefix_sep by done. rewrite !length_app_str. simpl.
  case_bool_decide as E; [subst run'|]; [|by rewrite andb_false_r, bool_decide_false by naive_solver].
  rewrite andb_true_r. destruct action as [|c action]; simpl.
  - rewrite bool_decide_false by naive_solver. apply Nat.ltb_ge. lia.
  - rewrite bool_decide_true by done. apply Nat.ltb_lt. lia.
Qed.

(** ** Theorems *)

Lemma notifies_added k t :
  (∀ r a p, t = TNotify r a p → key r a = k → p = NDone) → added k t = notifies k t.
Proof.
  intros H. destruct t as [r a p|r a tg p|r b]; simpl; [|done|done].
  destruct (decide (key r a = k)) as [E|].
  - by rewrite (H _ _ _ eq_refl E).
  - rewrite bool_decide_false by done. by destruct p.
Qed.

Lemma countb_notifies_calls k ts :
  countb (notifies k) (call <$> ts) = countb (notifies k) ts.
Proof. rewrite countb_fmap. apply countb_ext. by intros [] _. Qed.

(** C2: No lost wake-up.  When every [Notify] call of a key has finished and
    they are at least as many as the waiter asked for, a waiter that is
    blocked in the [select] of [WaitForCount] is woken up: its next three
    steps, without the deadline firing, make it return the exact number of
    notifications. *)
Theorem notifier_no_lost_wakeup ts s i run action target c ch :
  pool_ok ts → reachable exec (n_init ts) s →
  n_threads s !! i = Some (TWait run action target (WSelect c ch)) →
  (∀ j r a p, n_threads s !! j = Some (TNotify r a p) → key r a = key run action → p = NDone) →
  (target ≤ Z.of_nat (countb (notifies (key run action)) ts))%Z →
  ∃ s', run_sched exec [CThread i false; CThread i false; CThread i false] s = Some s' ∧
    n_threads s' !! i =
      Some (TWait run action target
              (WDone (Z.of_nat (countb (notifies (key run action)) ts)) false)).
Proof.
  intros Hp Hr Hi Hdone Htg. pose proof (notifier_Inv_reachable _ _ Hp Hr) as HI.
  destruct (inv_thread _ HI _ _ Hi) as (_ & _ & Hc & Hch & Hw & _).
  specialize (Hc _ eq_refl). specialize (Hch _ eq_refl). simpl in Hc, Hch.
  pose proof (inv_get_ctr _ _ _ HI Hc) as Hget.
  rewrite (countb_ext _ (notifies (key run action))) in Hget.
  2:{ intros t [j Hj]%list_elem_of_lookup_1. apply notifies_added. intros r a p -> Hk.
      by eapply Hdone. }
  assert (countb (notifies (key run action)) (n_threads s)
          = countb (notifies (key run action)) ts) as Hn.
  { rewrite <- countb_notifies_calls. by rewrite (reachable_calls ts s) by (done || apply Hp). }
  rewrite Hn in Hget. pose proof (lookup_lt_Some _ _ _ Hi) as Hlt.
  destruct Hw as [Hf|(j & r & a & Hj)]; [lia| |].
  2:{ destruct (inv_thread _ HI _ _ Hj) as (_ & _ & _ & Hch' & _).
      specialize (Hch' _ eq_refl). simpl in Hch'.
      by specialize (Hdone _ _ _ _ Hj (inv_ch_inj _ HI _ _ _ Hch' Hch)). }
  cbn. rewrite Hi. cbn. rewrite Hf. cbn. rewrite list_lookup_insert_eq by done. cbn.
  unfold get_ctr at 1; cbn. change (default 0%Z (n_ctrs s !! c)) with (get_ctr s c).
  rewrite Hget. destruct (Z.leb_spec target (Z.of_nat (countb (notifies (key run action)) ts)));
    [|lia].
  cbn. rewrite list_lookup_insert_eq by by rewrite length_insert. cbn. eexists. split; [done|].
  cbn. rewrite list_lookup_insert_eq by by rewrite !length_insert.
  unfold get_ctr at 1; cbn. change (default 0%Z (n_ctrs s !! c)) with (get_ctr s c).
  by rewrite Hget.
Qed.

(** The witnesses evaluate maps. *)
#[local] Transparent gmap_empty.

(** Two callbacks and their waiter; the waiter goes to sleep between them. *)
Definition demo_pool : list thread :=
  [TNotify "r1" "on_select" NStart; TWait "r1" "on_select" 2 WStart;
   TNotify "r1" "on_select" NStart].
Definition demo_sleep : list choice :=
  [CThread 0 false; CThread 0 false; CThread 1 false; CThread 1 false; CThread 0 false;
   CThread 1 false; CThread 1 false; CThread 2 false; CThread 2 false; CThread 2 false].

Lemma demo_pool_ok : pool_ok demo_pool.
Proof. split; [reflexivity|reflexivity|reflexivity|]. apply NoDup_singleton. Qed.

Lemma notifier_no_lost_wakeup_witness :
  ∃ s s', reachable exec (n_init demo_pool) s ∧
  n_threads s !! 1 = Some (TWait "r1" "on_select" 2 (WSelect 0 0)) ∧
  run_sched exec [CThread 1 false; CThread 1 false; CThread 1 false] s = Some s' ∧
  n_threads s' !! 1 = Some (TWait "r1" "on_select" 2 (WDone 2 false)).
Proof.
  assert (reachable exec (n_init demo_pool) (run_to exec demo_sleep (n_init demo_pool))) as Hr
    by (apply run_to_reachable; reflexivity).
  eexists.
  destruct (notifier_no_lost_wakeup demo_pool _ 1 "r1" "on_select" 2 0 0 demo_pool_ok Hr)
    as (s' & H1 & H2); [reflexivity| |vm_compute; discriminate|].
  - assert (n_threads (run_to exec demo_sleep (n_init demo_pool)) =
      [TNotify "r1" "on_select" NDone; TWait "r1" "on_select" 2 (WSelect 0 0);
       TNotify "r1" "on_select" NDone]) as -> by reflexivity.
    intros [|[|[|j]]] r a p Hj; by simplify_eq/=.
  - exists s'. split; [exact Hr|]. split; [reflexivity|]. split; [exact H1|exact H2].
Defined.

(** C6: [WaitForCount] never over-counts: what it returns is at most the
    number of notifications sent, and at least the target unless the deadline
    fired. *)
Theorem notifier_count_sound ts s i run action target n timeout :
  pool_ok ts → reachable exec (n_init ts) s →
  n_threads s !! i = Some (TWait run action target (WDone n timeout)) →
  (timeout = false → (target ≤ n)%Z) ∧
  (n ≤ Z.of_nat (countb (added (key run action)) (n_threads s)))%Z.
Proof.
  intros Hp Hr Hi. by destruct (inv_thread _ (notifier_Inv_reachable _ _ Hp Hr) _ _ Hi)
    as (_ & _ & _ & _ & _ & ?).
Qed.

(** One callback, then the deadline. *)
Definition demo_late : list choice :=
  [CThread 0 false; CThread 0 false; CThread 0 false; CThread 1 false; CThread 1 false;
   CThread 1 true; CThread 1 false].

Lemma notifier_count_sound_witness :
  ∃ s, reachable exec (n_init demo_pool) s ∧
  n_threads s !! 1 = Some (TWait "r1" "on_select" 2 (WDone 1 true)) ∧
  (1 ≤ Z.of_nat (countb (added (key "r1" "on_select")) (n_threads s)))%Z.
Proof.
  assert (reachable exec (n_init demo_pool) (run_to exec demo_late (n_init demo_pool))) as Hr
    by (apply run_to_reachable; reflexivity).
  eexists.
  split; [exact Hr|]. split; [reflexivity|].
  by apply (notifier_count_sound demo_pool _ 1 "r1" "on_select" 2 1 true demo_pool_ok Hr).
Defined.

(** [Reset] forgets the run and nothing else: with run ids that hold no
    [':'], the counter and the channel of every action of the run are dropped
    and the channel is closed, and those of another run are kept. *)
Theorem notifier_reset_exact ts s run run' action :
  reachable exec (n_init ts) s → no_colon run → no_colon run' → action ≠ ""%string →
  n_counters (Reset run s) !! key run' action =
    (if decide (run = run') then None else n_counters s !! key run' action) ∧
  n_channels (Reset run s) !! key run' action =
    (if decide (run = run') then None else n_channels s !! key run' action) ∧
  ∀ ch c, n_channels s !! key run action = Some ch → n_chans s !! ch = Some c →
    n_chans (Reset run s) !! ch = Some (mkChan (ch_full c) true).
Proof.
  intros Hr H1 H2 Ha. pose proof (agree_reachable _ _ Hr (key run' action)) as Hag.
  pose proof (in_run_key run run' action H1 H2) as Hin.
  split_and!; simpl.
  - rewrite map_lookup_filter.
    destruct (n_counters s !! key run' action) as [c|] eqn:Hc; simpl; [|by case_decide].
    rewrite map_lookup_filter.
    destruct (n_channels s !! key run' action) as [ch|] eqn:Hch; simpl; [|naive_solver].
    rewrite Hin. destruct (decide (run = run')).
    + rewrite bool_decide_true by done. by simplify_option_eq.
    + rewrite bool_decide_false by naive_solver. by simplify_option_eq.
  - rewrite map_lookup_filter.
    destruct (n_channels s !! key run' action) as [ch|] eqn:Hch; simpl; [|by case_decide].
    rewrite Hin. destruct (decide (run = run')).
    + rewrite bool_decide_true by done. by simplify_option_eq.
    + rewrite bool_decide_false by naive_solver. by simplify_option_eq.
  - intros ch c Hch Hc. rewrite list_lookup_imap, Hc. simpl.
    replace (existsb _ _) with true; [done|]. symmetry. apply existsb_exists.
    exists (key run action, ch). split; [|apply Nat.eqb_refl].
    apply list_elem_of_In, elem_of_map_to_list, map_lookup_filter_Some. split; [done|].
    simpl. rewrite (in_run_key run run action H1 H1). by apply bool_decide_eq_true.
Qed.

Lemma notifier_reset_exact_witness :
  ∃ s, reachable exec (n_init [TNotify "r1" "on_init" NStart]) s ∧
  n_counters s !! key "r1" "on_init" = Some 0 ∧
  n_counters (Reset "r1" s) !! key "r1" "on_init" = None.
Proof.
  assert (reachable exec (n_init [TNotify "r1" "on_init" NStart])
    (run_to exec [CThread 0 false] (n_init [TNotify "r1" "on_init" NStart]))) as Hr
    by (apply run_to_reachable; reflexivity).
  eexists.
  split; [exact Hr|]. split; [reflexivity|].
  eapply (notifier_reset_exact _ _ "r1" "r1" "on_init" Hr); [reflexivity..|discriminate].
Defined.

(** C7: Without [Reset] no [Notify] call panics; with it, every run has an
    interleaving in which a [Notify] that obtained the channel before the
    [Reset] sends on the closed channel, which crashes the process. *)
Theorem notifier_reset_race ts s run action :
  (pool_ok ts → reachable exec (n_init ts) s →
   ∀ i r a, n_threads s !! i ≠ Some (TNotify r a NPanic)) ∧
  (action ≠ ""%string → no_colon run →
   ∃ s', reachable exec (n_init [TNotify run action NStart; TReset run false]) s' ∧
     n_threads s' !! 0 = Some (TNotify run action NPanic)).
Proof.
  split.
  - intros Hp Hr i r a Hi.
    by destruct (inv_thread _ (notifier_Inv_reachable _ _ Hp Hr) _ _ Hi) as (_ & ? & _).
  - intros Ha Hn.
    set (s1 := mkN {[key run action := 0]} {[key run action := 0]} [0%Z] [mkChan false false]
           [TNotify run action (NAdd 0 0); TReset run false]).
    assert (exec (CThread 0 false) (n_init [TNotify run action NStart; TReset run false])
            = Some s1) as E1 by reflexivity.
    assert (n_chans (Reset run s1) = [mkChan false true]) as E2.
    { simpl. f_equal. rewrite map_filter_singleton_True, map_to_list_singleton; [done|].
      simpl. rewrite in_run_key by done. by apply bool_decide_eq_true. }
    assert (∃ C1 C2, exec (CThread 1 false) s1 = Some (mkN C1 C2 [0%Z] [mkChan false true]
      [TNotify run action (NAdd 0 0); TReset run true])) as (C1 & C2 & E3).
    { eexists _, _. cbn -[Reset]. unfold set_thread. rewrite E2. reflexivity. }
    eexists. split.
    + exists [CThread 0 false; CThread 1 false; CThread 0 false; CThread 0 false].
      rewrite (run_sched_cons _ _ _ _ _ E1), (run_sched_cons _ _ _ _ _ E3). reflexivity.
    + reflexivity.
Qed.

Lemma notifier_reset_race_witness :
  ∃ s', reachable exec (n_init [TNotify "r1" "on_init" NStart; TReset "r1" false]) s' ∧
    n_threads s' !! 0 = Some (TNotify "r1" "on_init" NPanic).
Proof.
  apply (notifier_reset_race demo_pool (n_init demo_pool) "r1" "on_init");
    [discriminate|reflexivity].
Defined.
