(* ===== verification/RateLimiter.v ===== *)
(** * Rate limiting: [internal/domain/session/rate_limiter.go]

    A Lua script run inside Redis keeps one token bucket for the whole
    program and one per session; the Go side calls it before each request and
    keeps statistics.  Both sides are modelled: the script, translated from
    the constant [dualBucketLua], and the methods of [RateLimiter].

    Lua 5.1 numbers are binary64; the script is written against the class
    [LuaNum] and has two instances: binary64 ([lua_float]) and exact rationals
    ([lua_Q]).  The theorems about branches and statistics hold for every
    instance; the bound on a window is proved for exact arithmetic, from which
    binary64 differs by the rounding of one division and two additions per
    call. *)
From stdpp Require Import prelude gmap list strings pretty.
From Stdlib Require Import QArith Lqa.
From S2P Require Import Prelude GoStrings Float64 ApiError.
Local Open Scope string_scope.

(** ** Lua numbers *)

Class LuaNum (N : Type) := {
  lua_of_Z : Z → N;
  lua_add : N → N → N;
  lua_sub : N → N → N;
  lua_mul : N → N → N;
  lua_div : N → N → N;
  lua_lt : N → N → bool;
}.

#[export] Instance lua_float : LuaNum float64 := {|
  lua_of_Z := f64_of_Z; lua_add := f64_add; lua_sub := f64_sub;
  lua_mul := f64_mul; lua_div := f64_div; lua_lt := f64_ltb;
|}.

#[export] Instance lua_Q : LuaNum Q := {|
  lua_of_Z := inject_Z; lua_add := Qplus; lua_sub := Qminus;
  lua_mul := Qmult; lua_div := Qdiv;
  lua_lt x y := negb (Qle_bool y x);
|}.

(** [math.min(a, b)]. *)
Definition lua_min {N} `{LuaNum N} (a b : N) : N := if lua_lt b a then b else a.

(** ** The script *)

(** The hash a bucket is stored in; Redis keeps a number written by [HMSET]
    with 17 significant digits, which [tonumber] reads back exactly. *)
Record bucket (N : Type) := mkBucket { b_tokens : N; b_last : N }.
Arguments mkBucket {N}.
Arguments b_tokens {N}.
Arguments b_last {N}.

(** The database: each bucket with the time (ms, of the server's clock) its
    [EXPIRE] ends. *)
Abbreviation redis_db N := (gmap string (bucket N * Z)).

(** [HMGET]: a key whose time is over is gone. *)
Definition live_bucket {N} (clock : Z) (key : string) (db : redis_db N) : option (bucket N) :=
  match db !! key with
  | Some (b, expire) => if (clock <? expire)%Z then Some b else None
  | None => None
  end.

Section Script.
Context {N : Type} `{LuaNum N}.

(** [tokens] and [last] after the [nil] test, then the refill. *)
Definition refilled (clock : Z) (key : string) (max_tokens refill_rate now : N)
  (db : redis_db N) : N :=
  let '(tokens, last) :=
    match live_bucket clock key db with
    | Some b => (b_tokens b, b_last b)
    | None => (max_tokens, now)
    end in
  let elapsed := lua_sub now last in
  let refill := lua_div (lua_mul elapsed refill_rate) (lua_of_Z 1000) in
  lua_min max_tokens (lua_add tokens refill).

(** [acquire_bucket]; [HMSET] and [EXPIRE key 10] on both branches. *)
Definition acquire_bucket (clock : Z) (key : string) (max_tokens refill_rate now requested : N)
  (db : redis_db N) : bool * redis_db N :=
  let tokens := refilled clock key max_tokens refill_rate now db in
  let store t := <[key := (mkBucket t now, (clock + 10000)%Z)]> db in
  if lua_lt tokens requested then (false, store tokens)
  else (true, store (lua_sub tokens requested)).

(** What a Redis reply is decoded to. *)
Inductive redis_value :=
  | RNil
  | RInt (z : Z)
  | RStr (s : string)
  | RArr (l : list redis_value).

(** The body of [dualBucketLua]. *)
Definition dualBucketLua (clock : Z) (global_key session_key : string)
  (global_max global_refill session_max session_refill now requested : N)
  (db : redis_db N) : redis_value * redis_db N :=
  let '(ok1, db1) := acquire_bucket clock global_key global_max global_refill now requested db in
  if negb ok1 then (RArr [RInt 0; RStr "global"], db1)
  else
    let '(ok2, db2) :=
      acquire_bucket clock session_key session_max session_refill now requested db1 in
    if negb ok2 then (RArr [RInt 0; RStr "session"], db2)
    else (RArr [RInt 1; RStr "ok"], db2).

(** ** The Go side *)

Record RateLimiter := mkRL {
  rl_scriptSHA : string;
  rl_globalMax : Z;
  rl_sessionMax : Z;
  rl_allowed : Z;
  rl_deniedGlobal : Z;
  rl_deniedSession : Z;
  rl_deniedOther : Z;
  rl_redisErrors : Z;
}.

Definition NewRateLimiter (globalRPS perSessionRPS : Z) : RateLimiter :=
  mkRL "" (if (globalRPS <=? 0)%Z then 2000 else globalRPS)%Z
    (if (perSessionRPS <=? 0)%Z then 150 else perSessionRPS)%Z 0 0 0 0 0.

(** [Stats]: the counters, as they are. *)
Record RateLimiterStats := mkStats {
  sts_Allowed : Z; sts_DeniedGlobal : Z; sts_DeniedSession : Z; sts_DeniedOther : Z; sts_RedisErrors : Z;
}.
Definition RateLimiter_Stats (rl : RateLimiter) : RateLimiterStats :=
  mkStats (rl_allowed rl) (rl_deniedGlobal rl) (rl_deniedSession rl) (rl_deniedOther rl) (rl_redisErrors rl).

(** [Init]; [sha] is the server's answer to [SCRIPT LOAD]. *)
Definition RateLimiter_Init (sha : result error string) (rl : RateLimiter)
  : result error RateLimiter :=
  match sha with
  | Err e => Err (EWrap "load rate limiter script" e)
  | Ok s => Ok (mkRL s (rl_globalMax rl) (rl_sessionMax rl) (rl_allowed rl) (rl_deniedGlobal rl)
                  (rl_deniedSession rl) (rl_deniedOther rl) (rl_redisErrors rl))
  end.

Definition toInt (v : redis_value) : Z := match v with RInt n => n | _ => 0 end.

(** [fmt.Sprint] of a decoded reply. *)
Fixpoint rv_text (v : redis_value) : string :=
  match v with
  | RNil => "<nil>"
  | RInt z => pretty z
  | RStr s => s
  | RArr l => "[" ++ String.concat " " (map rv_text l) ++ "]"
  end.

Definition parseAcquireResult (v : redis_value) : bool * string :=
  match v with
  | RArr (x :: rest) =>
      let allowed := (toInt x =? 1)%Z in
      match rest with
      | [] => if allowed then (true, "ok") else (false, "unknown")
      | y :: _ => (allowed, rv_text y)
      end
  | _ => (false, "unknown")
  end.

(** A call of [EvalSha]: the reply arrives, or an error is returned, the
    script having run or not. *)
Inductive fate := Reply | LostBefore | LostAfter.

Record call_env := mkEnv {
  env_clock : Z;      (* the server's clock *)
  env_now : Z;        (* time.Now().UnixMilli() at the caller *)
  env_session : string;
  env_fate : fate;
}.

Definition global_bucket_key : string := "ratelimit:global".
Definition session_bucket_key (sessionID : string) : string := "ratelimit:session:" ++ sessionID.

(** [rl.r.EvalSha(...)] with the arguments [AcquireWithReason] passes. *)
Definition eval_script (rl : RateLimiter) (e : call_env) (db : redis_db N)
  : option redis_value * redis_db N :=
  let '(v, db') := dualBucketLua (env_clock e) global_bucket_key (session_bucket_key (env_session e))
    (lua_of_Z (rl_globalMax rl)) (lua_of_Z (rl_globalMax rl))
    (lua_of_Z (rl_sessionMax rl)) (lua_of_Z (rl_sessionMax rl))
    (lua_of_Z (env_now e)) (lua_of_Z 1) db in
  match env_fate e with
  | Reply => (Some v, db')
  | LostBefore => (None, db)
  | LostAfter => (None, db')
  end.

(** The [atomic.Int64.Add(1)] of the five counters. *)
Definition count_allowed (rl : RateLimiter) : RateLimiter :=
  mkRL (rl_scriptSHA rl) (rl_globalMax rl) (rl_sessionMax rl) (wrap64 (rl_allowed rl + 1))
    (rl_deniedGlobal rl) (rl_deniedSession rl) (rl_deniedOther rl) (rl_redisErrors rl).
Definition count_denied (reason : string) (rl : RateLimiter) : RateLimiter :=
  let '(g, s, o) :=
    if reason =? "global" then (1, 0, 0)%Z
    else if reason =? "session" then (0, 1, 0)%Z else (0, 0, 1)%Z in
  mkRL (rl_scriptSHA rl) (rl_globalMax rl) (rl_sessionMax rl) (rl_allowed rl)
    (wrap64 (rl_deniedGlobal rl + g)) (wrap64 (rl_deniedSession rl + s))
    (wrap64 (rl_deniedOther rl + o)) (rl_redisErrors rl).
Definition count_error (rl : RateLimiter) : RateLimiter :=
  mkRL (rl_scriptSHA rl) (rl_globalMax rl) (rl_sessionMax rl) (rl_allowed rl)
    (rl_deniedGlobal rl) (rl_deniedSession rl) (wrap64 (rl_deniedOther rl + 1))
    (wrap64 (rl_redisErrors rl + 1)).

Definition AcquireWithReason (e : call_env) (rl : RateLimiter) (db : redis_db N)
  : bool * string * RateLimiter * redis_db N :=
  if rl_scriptSHA rl =? "" then (true, "script_not_loaded", count_allowed rl, db)
  else match eval_script rl e db with
  | (None, db') => (false, "redis_error", count_error rl, db')
  | (Some out, db') =>
      let '(allowed, reason) := parseAcquireResult out in
      if allowed then (true, reason, count_allowed rl, db')
      else (false, reason, count_denied reason rl, db')
  end.

Definition Acquire (e : call_env) (rl : RateLimiter) (db : redis_db N)
  : bool * RateLimiter * redis_db N :=
  let '(ok, _, rl', db') := AcquireWithReason e rl db in (ok, rl', db').

(** Calls in the order in which the server serves them. *)
Fixpoint acquire_all (es : list call_env) (rl : RateLimiter) (db : redis_db N)
  : list (bool * string) * RateLimiter * redis_db N :=
  match es with
  | [] => ([], rl, db)
  | e :: es' =>
      let '(ok, reason, rl1, db1) := AcquireWithReason e rl db in
      let '(rs, rl2, db2) := acquire_all es' rl1 db1 in ((ok, reason) :: rs, rl2, db2)
  end.
End Script.

(** ** What one bucket lets through, in exact arithmetic *)
Section Window.
Local Open Scope Q_scope.

Lemma lua_lt_Q (x y : Q) : if lua_lt x y then x < y else y <= x.
Proof.
  unfold lua_lt; simpl. destruct (Qle_bool y x) eqn:E; simpl.
  - by apply Qle_bool_iff.
  - apply Qnot_le_lt. intros H%Qle_bool_iff. congruence.
Qed.

Lemma lua_min_Q (a b : Q) :
  lua_min a b <= a /\ lua_min a b <= b /\ (lua_min a b == a \/ lua_min a b == b).
Proof.
  unfold lua_min. pose proof (lua_lt_Q b a). destruct (lua_lt b a).
  - split; [lra|]. split; [lra|]. right; reflexivity.
  - split; [lra|]. split; [lra|]. left; reflexivity.
Qed.

(** A caller's reading runs ahead of the server's clock by [off], give or take
    [skew]: the clocks of several processes, or one that is set. *)
Variable skew : Z.
Hypothesis skew_ok : (0 ≤ skew ≤ 9000)%Z.
Definition reads (off c now : Z) : Prop := (c + off ≤ now ≤ c + off + skew)%Z.

(** [k] has let [A] requests through since [t0]; the last reading of the
    server's clock is [c]. *)
Definition bucket_inv (k : string) (M t0 off c A : Z) (db : redis_db Q) : Prop :=
  match db !! k with
  | None => A = 0%Z
  | Some (b, expire) => ∃ l n : Z,
      expire = (l + 10000)%Z ∧ (l ≤ c)%Z ∧ b_last b == inject_Z n ∧ reads off l n ∧
      inject_Z M * (inject_Z n - inject_Z (l + off + skew)) / 1000 <= b_tokens b ∧ b_tokens b <= inject_Z M ∧
      (A = 0%Z ∨ (t0 ≤ l)%Z ∧
        inject_Z A + b_tokens b <= inject_Z M + inject_Z M * (inject_Z n - inject_Z (off + t0)) / 1000)
  end.

Lemma bucket_inv_mono k M t0 off c c' A db :
  (c ≤ c')%Z → bucket_inv k M t0 off c A db → bucket_inv k M t0 off c' A db.
Proof.
  unfold bucket_inv. intros Hc. destruct (db !! k) as [[b ex]|]; [|done].
  intros (l & n & ? & ? & ?). exists l, n. split; [done|]. split; [lia|done].
Qed.

(** A new window may start at any time. *)
Lemma bucket_inv_restart k M t0 t1 off c A db :
  bucket_inv k M t0 off c A db → bucket_inv k M t1 off c 0 db.
Proof.
  unfold bucket_inv. destruct (db !! k) as [[b ex]|]; [|done].
  intros (l & n & ? & ? & ? & ? & ? & ? & ?). exists l, n. split_and!; try done. by left.
Qed.

Ltac q_arith :=
  unfold Qdiv in *; change (inject_Z 1000) with 1000 in *;
  change (/ 1000) with (1 # 1000) in *; change (inject_Z 0) with 0 in *; lra.

(** A bucket that is missing, or was deleted when its time was over, is full. *)
Lemma refill_full (M n : Q) :
  lua_min M (lua_add M (lua_div (lua_mul (lua_sub n n) M) (lua_of_Z 1000))) == M.
Proof.
  set (r := lua_min _ _).
  pose proof (lua_min_Q M (lua_add M (lua_div (lua_mul (lua_sub n n) M) (lua_of_Z 1000))))
    as (H1 & H2 & H3). fold r in H1, H2, H3. simpl in H2, H3. clearbody r.
  destruct H3; q_arith.
Qed.

Lemma rate_diff (M a b z : Z) :
  (0 < M)%Z → (z ≤ a - b)%Z → inject_Z M * inject_Z z <= inject_Z M * (inject_Z a - inject_Z b).
Proof.
  intros HM Hz. apply Qmult_le_l; [change 0 with (inject_Z 0); by rewrite <- Zlt_Qlt|].
  unfold Qminus. by rewrite <- inject_Z_opp, <- inject_Z_plus, <- Zle_Qle.
Qed.

(** The tokens available to a call. *)
Lemma refilled_bounds k M t0 off c c' n' A db R :
  (0 < M)%Z → (t0 ≤ c')%Z → (c ≤ c')%Z → reads off c' n' → bucket_inv k M t0 off c A db →
  R = refilled c' k (inject_Z M) (inject_Z M) (inject_Z n') db →
  inject_Z M * (inject_Z n' - inject_Z (c' + off + skew)) / 1000 <= R ∧ R <= inject_Z M ∧
  inject_Z A + R <= inject_Z M + inject_Z M * (inject_Z n' - inject_Z (off + t0)) / 1000.
Proof.
  intros HM Ht0 Hc Hn' Hinv ->. unfold reads in *. unfold refilled, live_bucket. unfold bucket_inv in Hinv.
  assert (inject_Z M * 0 <= inject_Z M * (inject_Z n' - inject_Z (off + t0))) as Hpos
    by (apply (rate_diff M _ _ 0); lia).
  assert (inject_Z M * 0 <= inject_Z M * (inject_Z (c' + off + skew) - inject_Z n')) as Hneg
    by (apply (rate_diff M _ _ 0); lia).
  assert (0 < inject_Z M) as HMq by (change 0 with (inject_Z 0); by rewrite <- Zlt_Qlt).
  destruct (db !! k) as [[b ex]|].
  2:{ subst A. rewrite refill_full. split_and!; q_arith. }
  destruct Hinv as (l & n & -> & Hl & Hlast & Hn & Htok0 & HtokM & Hpot). unfold reads in Hn.
  assert (inject_Z M * 0 <= inject_Z M * (inject_Z (c' + off + skew) - inject_Z (l + off + skew))) as Hlc
    by (apply (rate_diff M _ _ 0); lia).
  destruct (Z.ltb_spec c' (l + 10000)) as [Hlive|Hdead].
  - set (r := lua_min _ _).
    pose proof (lua_min_Q (inject_Z M) (lua_add (b_tokens b) (lua_div (lua_mul
      (lua_sub (inject_Z n') (b_last b)) (inject_Z M)) (lua_of_Z 1000))))
      as (H1 & H2 & H3). fold r in H1, H2, H3. simpl in H2, H3. clearbody r. rewrite Hlast in H2, H3.
    split_and!; [destruct H3; q_arith|done|destruct Hpot as [->|[_ Hpot]]; q_arith].
  - rewrite refill_full. split_and!; [q_arith|lra|]. destruct Hpot as [->|[_ Hpot]]; [q_arith|].
    assert (inject_Z M * 1000 <= inject_Z M * (inject_Z n' - inject_Z (l + off + skew))) as Hgap
      by (apply (rate_diff M _ _ 1000); lia).
    q_arith.
Qed.

Lemma acquire_bucket_inv k M t0 off c c' n' A db ok db' :
  (0 < M)%Z → (t0 ≤ c')%Z → (c ≤ c')%Z → reads off c' n' → bucket_inv k M t0 off c A db →
  acquire_bucket c' k (inject_Z M) (inject_Z M) (inject_Z n') (inject_Z 1) db = (ok, db') →
  bucket_inv k M t0 off c' (A + if ok then 1 else 0) db'.
Proof.
  intros HM Ht0 Hc Hn' Hinv Ha.
  destruct (refilled_bounds _ _ _ _ _ _ _ _ _ _ HM Ht0 Hc Hn' Hinv eq_refl) as (H1 & H2 & H3).
  assert (inject_Z M * 0 <= inject_Z M * (inject_Z (c' + off + skew) - inject_Z n')) as Hneg
    by (apply (rate_diff M _ _ 0); unfold reads in Hn'; lia).
  unfold acquire_bucket in Ha. set (R := refilled _ _ _ _ _ _) in *. clearbody R.
  pose proof (lua_lt_Q R (inject_Z 1)) as Hlt. change (inject_Z 1) with 1 in *.
  unfold bucket_inv.
  destruct (lua_lt R 1); injection Ha as <- <-; rewrite lookup_insert_eq; cbn [b_last b_tokens lua_sub lua_Q];
    exists c', n'; split_and!; try done; try reflexivity; try q_arith; try lia;
    (right; split; [done|]); [rewrite Z.add_0_r|rewrite inject_Z_plus]; change (inject_Z 1) with 1; q_arith.
Qed.

Lemma acquire_bucket_other k k' M t0 off c c' A db ok db' (m r n q : Q) :
  k ≠ k' → (c ≤ c')%Z → bucket_inv k M t0 off c A db →
  acquire_bucket c' k' m r n q db = (ok, db') → bucket_inv k M t0 off c' A db'.
Proof.
  intros Hk Hc Hinv Ha. apply (bucket_inv_mono _ _ _ _ _ c') in Hinv; [|done]. revert Hinv.
  unfold acquire_bucket in Ha. unfold bucket_inv.
  destruct (lua_lt _ _); injection Ha as <- <-; by rewrite lookup_insert_ne.
Qed.

(** What the potential says at time [c]. *)
Lemma bucket_inv_bound k M t0 off c A db :
  (0 < M)%Z → (t0 ≤ c)%Z → bucket_inv k M t0 off c A db → (1000 * A ≤ M * (1000 + (c - t0) + skew))%Z.
Proof.
  intros HM Hc Hinv. assert (reads off c (c + off)) as Hr by (unfold reads; lia).
  destruct (refilled_bounds _ _ _ _ _ _ _ _ _ _ HM Hc (Z.le_refl c) Hr Hinv eq_refl) as (H1 & _ & H3).
  set (R := refilled _ _ _ _ _ _) in *. clearbody R.
  assert (1000 * inject_Z A <= inject_Z M * (1000 + (inject_Z c - inject_Z t0) + inject_Z skew)) as H.
  { repeat rewrite inject_Z_plus in H1. repeat rewrite inject_Z_plus in H3. q_arith. }
  change 1000 with (inject_Z 1000) in H.
  rewrite Zle_Qle. unfold Z.sub. rewrite !inject_Z_mult, !inject_Z_plus, inject_Z_opp. exact H.
Qed.

(** Which calls a bucket is asked for. *)
Definition asks (k : string) (e : call_env) : bool :=
  (k =? global_bucket_key)%string || (k =? session_bucket_key (env_session e))%string.

(** The buckets of a limiter and their sizes. *)
Definition bucket_of (rl : RateLimiter) (k : string) (M : Z) : Prop :=
  (k = global_bucket_key ∧ M = rl_globalMax rl) ∨
  (∃ sid, k = session_bucket_key sid ∧ M = rl_sessionMax rl).

Lemma session_key_inj s1 s2 : session_bucket_key s1 = session_bucket_key s2 → s1 = s2.
Proof. apply app_inv_head_str. Qed.

Lemma session_key_global s1 : session_bucket_key s1 ≠ global_bucket_key.
Proof. discriminate. Qed.

(** One bucket across both [acquire_bucket] calls of the script. *)
Lemma script_inv rl k M t0 off c A e (db db' : redis_db Q) v :
  bucket_of rl k M → (0 < M)%Z → (t0 ≤ env_clock e)%Z → (c ≤ env_clock e)%Z →
  reads off (env_clock e) (env_now e) → bucket_inv k M t0 off c A db →
  dualBucketLua (env_clock e) global_bucket_key (session_bucket_key (env_session e))
    (inject_Z (rl_globalMax rl)) (inject_Z (rl_globalMax rl))
    (inject_Z (rl_sessionMax rl)) (inject_Z (rl_sessionMax rl))
    (inject_Z (env_now e)) (inject_Z 1) db = (v, db') →
  ∃ A', bucket_inv k M t0 off (env_clock e) A' db' ∧ (A ≤ A')%Z ∧
    ((parseAcquireResult v).1 = true → asks k e = true → (A + 1 ≤ A')%Z).
Proof.
  intros Hk HM Ht0 Hc Hnow Hinv. unfold dualBucketLua.
  destruct (acquire_bucket _ global_bucket_key _ _ _ _ db) as [ok1 db1] eqn:H1.
  destruct Hk as [[-> ->]|(sid & -> & ->)].
  - apply (acquire_bucket_inv _ _ t0 off c _ _ A) in H1; [|done..].
    destruct ok1; simpl; [|intros [= <- <-]; exists (A + 0)%Z; split_and!; [done|lia|done]].
    destruct (acquire_bucket _ (session_bucket_key _) _ _ _ _ db1) as [ok2 db2] eqn:H2.
    apply (acquire_bucket_other global_bucket_key _ (rl_globalMax rl) t0 off (env_clock e) _
      (A + 1)) in H2; [|done|lia|done].
    destruct ok2; intros [= <- <-]; exists (A + 1)%Z; (split; [done|]); lia.
  - apply (acquire_bucket_other (session_bucket_key sid) _ (rl_sessionMax rl) t0 off c _ A) in H1;
      [|done..].
    destruct ok1; simpl; [|intros [= <- <-]; exists A; split_and!; [done|lia|done]].
    destruct (acquire_bucket _ (session_bucket_key (env_session e)) _ _ _ _ db1)
      as [ok2 db2] eqn:H2.
    destruct (decide (sid = env_session e)) as [->|Hne].
    + apply (acquire_bucket_inv _ _ t0 off (env_clock e) _ _ A) in H2; [|done|lia|lia|done|done].
      destruct ok2; intros [= <- <-]; eexists; (split; [exact H2|]); simpl; lia.
    + apply (acquire_bucket_other (session_bucket_key sid) _ (rl_sessionMax rl) t0 off
        (env_clock e) _ A) in H2; [|by intros ?%session_key_inj|lia|done].
      assert (asks (session_bucket_key sid) e = false) as Hasks.
      { apply orb_false_iff. split; apply String.eqb_neq; [done|by intros ?%session_key_inj]. }
      destruct ok2; intros [= <- <-]; exists A; rewrite Hasks; (split; [done|]); split; done || lia.
Qed.

Lemma AcquireWithReason_inv rl rl' k M t0 off c A e (db db' : redis_db Q) ok reason :
  bucket_of rl k M → (0 < M)%Z → rl_scriptSHA rl ≠ ""%string →
  (t0 ≤ env_clock e)%Z → (c ≤ env_clock e)%Z →
  reads off (env_clock e) (env_now e) → bucket_inv k M t0 off c A db →
  AcquireWithReason e rl db = (ok, reason, rl', db') →
  ∃ A', bucket_inv k M t0 off (env_clock e) A' db' ∧
    (A + (if ok && asks k e then 1 else 0) ≤ A')%Z.
Proof.
  intros Hk HM Hsha Ht0 Hc Hnow Hinv. unfold AcquireWithReason, eval_script. simpl.
  apply String.eqb_neq in Hsha. rewrite Hsha.
  destruct (dualBucketLua _ _ _ _ _ _ _ _ _ db) as [v db1] eqn:Hs.
  destruct (script_inv _ _ _ _ _ _ _ _ _ _ _ Hk HM Ht0 Hc Hnow Hinv Hs) as (A' & HA' & Hle & Hok).
  destruct (env_fate e).
  - destruct (parseAcquireResult v) as [[] r] eqn:Hp; intros [= <- <- <- <-]; exists A';
      (split; [done|]); simpl in *; [|lia].
    destruct (asks k e); [specialize (Hok eq_refl eq_refl)|]; lia.
  - intros [= <- <- <- <-]. exists A. split; [by eapply bucket_inv_mono|]. simpl. lia.
  - intros [= <- <- <- <-]. exists A'. split; [done|]. simpl. lia.
Qed.

Lemma AcquireWithReason_config {N} `{LuaNum N} e rl rl' (db db' : redis_db N) ok reason :
  AcquireWithReason e rl db = (ok, reason, rl', db') →
  rl_scriptSHA rl' = rl_scriptSHA rl ∧ rl_globalMax rl' = rl_globalMax rl ∧
  rl_sessionMax rl' = rl_sessionMax rl.
Proof.
  unfold AcquireWithReason. destruct (rl_scriptSHA rl =? "")%string; [by intros [= <- <- <- <-]|].
  destruct (eval_script rl e db) as [[v|] db1]; [|by intros [= <- <- <- <-]].
  destruct (parseAcquireResult v) as [[] r]; intros [= <- <- <- <-]; [done|].
  unfold count_denied. by repeat case_match.
Qed.

(** The calls come in the order of the server's clock, from [c] on, and the
    callers' readings run [off] to [off + skew] ahead of it. *)
Fixpoint clocks_ok (off c : Z) (es : list call_env) : bool :=
  match es with
  | [] => true
  | e :: es' =>
      (c <=? env_clock e)%Z && (env_clock e + off <=? env_now e)%Z && (env_now e <=? env_clock e + off + skew)%Z &&
      clocks_ok off (env_clock e) es'
  end.
Definition last_clock (c : Z) (es : list call_env) : Z := default c (last (env_clock <$> es)).

(** Calls that bucket [k] is asked for and that were allowed. *)
Definition allowed_by (k : string) (es : list call_env) (rs : list (bool * string)) : nat :=
  countb (λ p, p.2.1 && asks k p.1) (zip es rs).

Lemma acquire_all_inv es : ∀ rl rl' k M t0 off c A (db db' : redis_db Q) rs,
  bucket_of rl k M → (0 < M)%Z → rl_scriptSHA rl ≠ ""%string → (t0 ≤ last_clock c es)%Z →
  (∀ e es', es = e :: es' → (t0 ≤ env_clock e)%Z) →
  clocks_ok off c es = true → bucket_inv k M t0 off c A db →
  acquire_all es rl db = (rs, rl', db') →
  bucket_of rl' k M ∧ rl_scriptSHA rl' ≠ ""%string ∧
  ∃ A', bucket_inv k M t0 off (last_clock c es) A' db' ∧ (A + Z.of_nat (allowed_by k es rs) ≤ A')%Z.
Proof.
  induction es as [|e es IH]; intros rl rl' k M t0 off c A db db' rs Hk HM Hsha Ht Hfst Hcl Hinv.
  { intros [= <- <- <-]. split; [done|]. split; [done|]. exists A. split; [done|].
    unfold allowed_by. simpl. lia. }
  simpl in Hcl |- *. bool_hyps.
  destruct (AcquireWithReason e rl db) as [[[ok r] rl1] db1] eqn:Ha1.
  destruct (acquire_all es rl1 db1) as [[rs1 rl2] db2] eqn:Ha2. intros [= <- <- <-].
  destruct (AcquireWithReason_config _ _ _ _ _ _ _ Ha1) as (E1 & E2 & E3).
  specialize (Hfst _ _ eq_refl).
  eapply (AcquireWithReason_inv rl _ k M t0 off c A) in Ha1 as (A1 & HA1 & Hle1); try done.
  assert (last_clock c (e :: es) = last_clock (env_clock e) es) as El.
  { unfold last_clock. rewrite fmap_cons, last_cons. by destruct (last _). }
  rewrite El in *.
  eapply (IH rl1 _ k M t0 off (env_clock e) A1) in Ha2 as (Hk2 & Hs2 & A2 & HA2 & Hle2); try done.
  - split; [done|]. split; [done|]. exists A2. split; [done|].
    revert Hle1. unfold allowed_by in *. simpl. destruct (ok && asks k e); lia.
  - destruct Hk as [[-> ->]|(sid & -> & ->)]; [left|right]; [by rewrite E2|].
    exists sid. by rewrite E3.
  - by rewrite E1.
  - intros e' es' ->. simpl in *. bool_hyps. lia.
Qed.

Lemma clocks_ok_app off c es1 es2 :
  clocks_ok off c (es1 ++ es2) =
  clocks_ok off c es1 && clocks_ok off (last_clock c es1) es2.
Proof.
  revert c. induction es1 as [|e es1 IH]; intros c; simpl; [done|]. rewrite IH.
  assert (last_clock c (e :: es1) = last_clock (env_clock e) es1) as ->
    by (unfold last_clock; rewrite fmap_cons, last_cons; by destruct (last _)).
  by rewrite !andb_assoc.
Qed.

Lemma last_clock_le off c es : clocks_ok off c es = true → (c ≤ last_clock c es)%Z.
Proof.
  revert c. induction es as [|e es IH]; intros c; simpl; [done|]. intros. bool_hyps.
  assert (last_clock c (e :: es) = last_clock (env_clock e) es) as ->
    by (unfold last_clock; rewrite fmap_cons, last_cons; by destruct (last _)).
  specialize (IH (env_clock e) ltac:(done)). lia.
Qed.
End Window.

(** ** Theorems *)

Lemma NewRateLimiter_pos g s :
  (0 < rl_globalMax (NewRateLimiter g s))%Z ∧ (0 < rl_sessionMax (NewRateLimiter g s))%Z.
Proof. simpl. destruct (Z.leb_spec g 0), (Z.leb_spec s 0); lia. Qed.

(** C30: Token buckets, in exact arithmetic.  In every window of consecutive
    calls, from the server's clock at its first call to that at its last, the
    requests let through are at most what a full bucket holds plus what it
    gains in that time and in the [skew] of the callers' clocks:
    [globalMax * (1000 + T + skew) / 1000] for the whole program,
    [sessionMax * (1000 + T + skew) / 1000] for each session, in milliseconds,
    whatever happened before the window, with replies lost or not, and although
    Redis drops a bucket ten seconds after its last use.  The readings the
    callers send may differ from the server's clock, from one another and from
    their own earlier ones by up to nine seconds; with one constant offset
    [skew] is zero. *)
Theorem rate_window_bound g s sha rl es1 e es2 rs1 rl1 (db1 : redis_db Q) rs2 rl2 db2 skew off c :
  sha ≠ "" → (0 ≤ skew ≤ 9000)%Z → RateLimiter_Init (Ok sha) (NewRateLimiter g s) = Ok rl →
  clocks_ok skew off c (es1 ++ e :: es2) = true →
  acquire_all es1 rl ∅ = (rs1, rl1, db1) → acquire_all (e :: es2) rl1 db1 = (rs2, rl2, db2) →
  let T := (last_clock (env_clock e) es2 - env_clock e)%Z in
  (1000 * Z.of_nat (allowed_by global_bucket_key (e :: es2) rs2)
     ≤ rl_globalMax rl * (1000 + T + skew))%Z ∧
  ∀ sid, (1000 * Z.of_nat (allowed_by (session_bucket_key sid) (e :: es2) rs2)
     ≤ rl_sessionMax rl * (1000 + T + skew))%Z.
Proof.
  intros Hsha Hskew [= <-] Hcl H1 H2 T. destruct (NewRateLimiter_pos g s) as [Hg Hs].
  set (rl := mkRL sha _ _ _ _ _ _ _) in *. simpl in Hg, Hs.
  assert (∀ k M, bucket_of rl k M → (0 < M)%Z →
    (1000 * Z.of_nat (allowed_by k (e :: es2) rs2) ≤ M * (1000 + T + skew))%Z) as Hall.
  { intros k M Hk HM. rewrite clocks_ok_app in Hcl. bool_hyps.
    eapply (acquire_all_inv skew Hskew es1 rl rl1 k M c off c 0) in H1
      as (Hk1 & Hs1 & A1 & HA1 & _); try done; [..|by eapply last_clock_le|].
    2:{ intros e' es' ->. simpl in *. by bool_hyps. }
    apply (bucket_inv_restart _ _ _ _ (env_clock e)) in HA1.
    assert (last_clock (last_clock c es1) (e :: es2) = last_clock (env_clock e) es2) as El.
    { unfold last_clock at 1 3. rewrite fmap_cons, last_cons. by destruct (last _). }
    assert (env_clock e ≤ last_clock (env_clock e) es2)%Z as Hle.
    { simpl in *. bool_hyps. by eapply last_clock_le. }
    eapply (acquire_all_inv skew Hskew (e :: es2) rl1 rl2 k M (env_clock e) off (last_clock c es1) 0) in H2
      as (_ & _ & A2 & HA2 & Hle2); try done; [|by rewrite El|by intros ? ? [= -> ->]].
    rewrite El in HA2. apply bucket_inv_bound in HA2; [|done..]. lia. }
  split; [apply Hall; [by left|done]|]. intros sid. apply Hall; [|done]. right. by exists sid.
Qed.

(** The witnesses evaluate maps. *)
#[local] Transparent gmap_empty.

(** Two sessions, two tokens each, three in all; the bucket of a session is
    full again after ten seconds.  The callers' clocks differ. *)
Definition demo_calls : list call_env :=
  [mkEnv 0 5 "a" Reply; mkEnv 0 20 "a" Reply; mkEnv 0 5 "a" Reply; mkEnv 0 5 "b" Reply;
   mkEnv 10000 9995 "a" Reply].
Definition demo_rl : RateLimiter := mkRL "sha" 3 2 0 0 0 0 0.

Lemma rate_window_bound_witness :
  (acquire_all demo_calls demo_rl (∅ : redis_db Q)).1.1 =
    [(true, "ok"); (true, "ok"); (false, "session"); (false, "global"); (true, "ok")] ∧
  (1000 * Z.of_nat (allowed_by (session_bucket_key "a") demo_calls
     (acquire_all demo_calls demo_rl (∅ : redis_db Q)).1.1) ≤ 2 * (1000 + 10000 + 40))%Z.
Proof.
  split; [reflexivity|].
  destruct (acquire_all demo_calls demo_rl (∅ : redis_db Q)) as [[rs rl2] db2] eqn:H.
  refine (proj2 (rate_window_bound 3 2 "sha" demo_rl [] (mkEnv 0 5 "a" Reply) (tail demo_calls)
    [] demo_rl ∅ rs rl2 db2 40 (-20) 0 _ _ _ _ _ _) "a"); [discriminate|lia|reflexivity..|exact H].
Defined.

(** The class of each outcome, as the statistics see it. *)
Definition is_allowed (r : bool * string) : bool := r.1.
Definition is_denied (reason : string) (r : bool * string) : bool := negb r.1 && (r.2 =? reason).
Definition is_denied_other (r : bool * string) : bool :=
  negb r.1 && negb (r.2 =? "global") && negb (r.2 =? "session").

(** The counters of [rl] are those of the results [rs] that came before. *)
Definition stats_are (rl : RateLimiter) (rs : list (bool * string)) : Prop :=
  rl_allowed rl = Z.of_nat (countb is_allowed rs) ∧
  rl_deniedGlobal rl = Z.of_nat (countb (is_denied "global") rs) ∧
  rl_deniedSession rl = Z.of_nat (countb (is_denied "session") rs) ∧
  rl_deniedOther rl = Z.of_nat (countb is_denied_other rs) ∧
  rl_redisErrors rl = Z.of_nat (countb (is_denied "redis_error") rs).

Lemma wrap64_count (a b n : nat) :
  (a ≤ n)%nat → (Z.of_nat n + 1 < 2 ^ 63)%Z → (b ≤ 1)%nat →
  wrap64 (Z.of_nat a + Z.of_nat b) = Z.of_nat (a + b).
Proof. intros. rewrite wrap64_id; [lia|]. unfold in_int64. lia. Qed.

Section Stats.
Context {N : Type} `{LuaNum N}.

(** The three replies of the script. *)
Lemma dualBucketLua_reply clock gk sk gm gr sm sr now q (db db' : redis_db N) v :
  dualBucketLua clock gk sk gm gr sm sr now q db = (v, db') →
  parseAcquireResult v ∈ [(true, "ok"); (false, "global"); (false, "session")].
Proof.
  unfold dualBucketLua. destruct (acquire_bucket _ gk _ _ _ _ db) as [[] db1]; simpl.
  - destruct (acquire_bucket _ sk _ _ _ _ db1) as [[] db2]; intros [= <- <-]; simpl; set_solver.
  - intros [= <- <-]; simpl; set_solver.
Qed.

Lemma AcquireWithReason_stats e rl rl' (db db' : redis_db N) ok reason rs :
  (Z.of_nat (length rs) + 1 < 2 ^ 63)%Z → stats_are rl rs →
  AcquireWithReason e rl db = (ok, reason, rl', db') → stats_are rl' (rs ++ [(ok, reason)]).
Proof.
  intros Hlen (H1 & H2 & H3 & H4 & H5). unfold AcquireWithReason, stats_are.
  rewrite !countb_app. simpl.
  assert (∀ p b, (b ≤ 1)%nat →
    wrap64 (Z.of_nat (countb p rs) + Z.of_nat b) = Z.of_nat (countb p rs + b)) as Hw.
  { intros p b Hb. apply (wrap64_count _ _ (length rs)); [apply countb_le|done|done]. }
  destruct (rl_scriptSHA rl =? "").
  { intros [= <- <- <- <-]. simpl. rewrite H1, H2, H3, H4, H5, !Nat.add_0_r.
    by rewrite (Hw _ 1). }
  unfold eval_script. destruct (dualBucketLua _ _ _ _ _ _ _ _ _ db) as [v db1] eqn:Hs.
  apply dualBucketLua_reply in Hs.
  destruct (env_fate e).
  2,3: intros [= <- <- <- <-]; simpl; rewrite H1, H2, H3, H4, H5, !Nat.add_0_r;
    by rewrite !(Hw _ 1).
  assert (Z.of_nat 0 = 0%Z) as E0 by done.
  destruct (parseAcquireResult v) as [b r].
  repeat (apply elem_of_cons in Hs as [[= -> ->]|Hs]); [..|by apply elem_of_nil in Hs];
    intros [= <- <- <- <-]; simpl; rewrite H1, H2, H3, H4, H5;
    rewrite <- ?E0, ?(Hw _ 0), ?(Hw _ 1) by lia; by rewrite ?Nat.add_0_r.
Qed.

Lemma acquire_all_stats es : ∀ rl rl' (db db' : redis_db N) rs0 rs,
  (Z.of_nat (length rs0 + length es) < 2 ^ 63)%Z → stats_are rl rs0 →
  acquire_all es rl db = (rs, rl', db') → stats_are rl' (rs0 ++ rs) ∧ length rs = length es.
Proof.
  induction es as [|e es IH]; intros rl rl' db db' rs0 rs Hlen Hst; simpl.
  { intros [= <- <- <-]. by rewrite app_nil_r. }
  destruct (AcquireWithReason e rl db) as [[[ok r] rl1] db1] eqn:H1.
  destruct (acquire_all es rl1 db1) as [[rs1 rl2] db2] eqn:H2. intros [= <- <- <-].
  simpl in Hlen. apply (AcquireWithReason_stats _ _ _ _ _ _ _ rs0) in H1; [|lia|done].
  eapply (IH _ _ _ _ (rs0 ++ [(ok, r)])%list) in H2 as [Hst2 Hl2]; [|rewrite length_app; simpl; lia|done].
  rewrite <- app_assoc in Hst2. simpl in *. split; [done|lia].
Qed.
End Stats.

(** The statistics account for every call exactly once: the four
    outcome counters are the numbers of results of each class and add up to
    the number of calls, and [RedisErrors] is the number of calls whose reply
    was lost, in any arithmetic of the server. *)
Theorem rate_stats_account {N} `{LuaNum N} g s sha rl es (db db' : redis_db N) rs rl' :
  RateLimiter_Init (Ok sha) (NewRateLimiter g s) = Ok rl →
  (Z.of_nat (length es) < 2 ^ 63)%Z → acquire_all es rl db = (rs, rl', db') →
  stats_are rl' rs ∧
  (rl_allowed rl' + rl_deniedGlobal rl' + rl_deniedSession rl' + rl_deniedOther rl'
   = Z.of_nat (length es))%Z.
Proof.
  intros [= <-] Hlen Hall.
  eapply (acquire_all_stats _ _ _ _ _ []) in Hall as [Hst Hl]; [|simpl; lia|done].
  simpl in Hst. split; [done|]. destruct Hst as (-> & -> & -> & -> & _). rewrite <- Hl.
  clear. unfold is_allowed, is_denied, is_denied_other.
  induction rs as [|[[] r] rs IH]; simpl; [done|lia|].
  destruct (String.eqb_spec r "global") as [->|]; simpl; [lia|].
  destruct (String.eqb_spec r "session") as [->|]; simpl; lia.
Qed.

Lemma rate_stats_account_witness :
  let r := acquire_all (demo_calls ++ [mkEnv 10000 10005 "b" LostAfter])%list demo_rl
             (∅ : redis_db Q) in
  stats_are r.1.2 r.1.1 ∧ rl_allowed r.1.2 = 3%Z ∧ rl_redisErrors r.1.2 = 1%Z.
Proof.
  intros r. split; [|split; reflexivity].
  apply (rate_stats_account 3 2 "sha" demo_rl
    (demo_calls ++ [mkEnv 10000 10005 "b" LostAfter])%list ∅ r.2 r.1.1 r.1.2);
    [reflexivity|reflexivity|]. fold r. by destruct r as [[??]?].
Defined.
