(* ===== verification/Redis.v ===== *)
(** * Redis: [internal/shared/redis/redis.go]

    The server is not part of the program: it is any state type [R] with an
    operation [r_exec] that behaves as the commands are documented
    ([cmd_spec], a command on one key being a function of the entry that is
    live there) and with a scan.  [redis_map] is such a server, a map of
    entries, on which witnesses are evaluated.  The wrapper of the repository
    is translated on top of it. *)
From stdpp Require Import prelude gmap list strings.
From S2P Require Import Prelude GoStrings ApiError.
Local Open Scope string_scope.

(** Byte slices and the conversions [[]byte(s)] and [string(b)]. *)
Class Bytes (B : Type) := {
  b_of_string : string → B;
  b_string : B → string;
  b_string_of : ∀ s, b_string (b_of_string s) = s;
}.

#[export] Instance bytes_string : Bytes string :=
  {| b_of_string s := s; b_string s := s; b_string_of _ := eq_refl |}.

(** ** Values and commands *)

Inductive rvalue (B : Type) := VStr (b : B) | VHash (h : gmap string B).
Arguments VStr {B}.
Arguments VHash {B}.

(** A value with the time (ns) at which it expires, if any. *)
Abbreviation entry B := (prod (rvalue B) (option Z)).

Section Commands.
Context {B : Type} `{Bytes B}.

Inductive cmd :=
  | CSet (v : B) (ttl : Z)
  | CSetNX (v : B) (ttl : Z)
  | CGet
  | CDel
  | CExists
  | CHSet (field : string) (v : B)
  | CHGet (field : string)
  | CHGetAll
  | CHMGet (fields : list string)
  | CIncrBy (delta : Z)
  | CExpire (ttl : Z).

Inductive reply :=
  | ReplyOK
  | ReplyNil
  | ReplyBulk (b : B)
  | ReplyHash (h : gmap string B)
  | ReplyMulti (l : list (option B))
  | ReplyInt (z : Z)
  | ReplyErr (e : error).

Definition wrong_type : reply :=
  ReplyErr (EText "WRONGTYPE Operation against a key holding the wrong kind of value").
Definition not_an_integer : reply :=
  ReplyErr (EText "ERR value is not an integer or out of range").

Definition is_live (now : Z) (e : entry B) : bool :=
  match e.2 with Some t => (now <? t)%Z | None => true end.
Definition live (now : Z) (e : option (entry B)) : option (entry B) :=
  match e with Some x => if is_live now x then Some x else None | None => None end.

(** [SET key v PX ttl]; a zero [ttl] is no expiry. *)
Definition expiry (now ttl : Z) : option Z := if (ttl =? 0)%Z then None else Some (now + ttl)%Z.

(** The documented effect of a command on the live entry of its key. *)
Definition cmd_spec (now : Z) (c : cmd) (e : option (entry B)) : reply * option (entry B) :=
  match c, e with
  | CSet v ttl, _ => (ReplyOK, Some (VStr v, expiry now ttl))
  | CSetNX v ttl, None => (ReplyInt 1, Some (VStr v, expiry now ttl))
  | CSetNX _ _, Some _ => (ReplyInt 0, e)
  | CGet, None => (ReplyNil, e)
  | CGet, Some (VStr v, _) => (ReplyBulk v, e)
  | CGet, Some (VHash _, _) => (wrong_type, e)
  | CDel, _ => (ReplyInt (match e with Some _ => 1 | None => 0 end), None)
  | CExists, _ => (ReplyInt (match e with Some _ => 1 | None => 0 end), e)
  | CHSet f v, None => (ReplyInt 1, Some (VHash {[f := v]}, None))
  | CHSet f v, Some (VHash h, t) =>
      (ReplyInt (match h !! f with Some _ => 0 | None => 1 end), Some (VHash (<[f := v]> h), t))
  | CHSet _ _, Some (VStr _, _) => (wrong_type, e)
  | CHGet _, None => (ReplyNil, e)
  | CHGet f, Some (VHash h, _) =>
      (match h !! f with Some v => ReplyBulk v | None => ReplyNil end, e)
  | CHGet _, Some (VStr _, _) => (wrong_type, e)
  | CHGetAll, None => (ReplyHash ∅, e)
  | CHGetAll, Some (VHash h, _) => (ReplyHash h, e)
  | CHGetAll, Some (VStr _, _) => (wrong_type, e)
  | CHMGet fs, None => (ReplyMulti (map (λ _, None) fs), e)
  | CHMGet fs, Some (VHash h, _) => (ReplyMulti (map (λ f, h !! f) fs), e)
  | CHMGet _, Some (VStr _, _) => (wrong_type, e)
  | CIncrBy d, None => (ReplyInt d, Some (VStr (b_of_string (FormatInt d)), None))
  | CIncrBy d, Some (VStr v, t) =>
      let '(n, ok) := ParseInt (b_string v) in
      if ok && (- 2 ^ 63 <=? n + d)%Z && (n + d <? 2 ^ 63)%Z
      then (ReplyInt (n + d), Some (VStr (b_of_string (FormatInt (n + d))), t))
      else (not_an_integer, e)
  | CIncrBy _, Some (VHash _, _) => (wrong_type, e)
  | CExpire _, None => (ReplyInt 0, e)
  | CExpire ttl, Some (v, _) => (ReplyInt 1, Some (v, Some (now + ttl)%Z))
  end.
End Commands.
Arguments cmd B : clear implicits.
Arguments reply B : clear implicits.

(** [SCAN cursor MATCH prefix*] from a cursor until the server gives back
    the cursor zero: the pages of keys. *)
Inductive scan_pages (scan : Z → list string * Z) : Z → list (list string) → Prop :=
  | scan_last c page : scan c = (page, 0%Z) → scan_pages scan c [page]
  | scan_more c page c' pages :
      scan c = (page, c') → c' ≠ 0%Z → scan_pages scan c' pages →
      scan_pages scan c (page :: pages).

(** A server that is up.  A full iteration of [SCAN] ends, within a number of
    calls that depends on the size of the database, and returns the live keys
    with the prefix, each at least once. *)
Class RedisServer (B : Type) `{Bytes B} (R : Type) := {
  r_empty : R;
  r_lookup : R → string → option (entry B);
  r_exec : Z → string → cmd B → R → reply B * R;
  r_scan : Z → string → R → Z → list string * Z;
  r_scan_bound : R → nat;
  r_lookup_empty : ∀ k, r_lookup r_empty k = None;
  r_exec_reply : ∀ now k c r,
    (r_exec now k c r).1 = (cmd_spec now c (live now (r_lookup r k))).1;
  r_exec_lookup : ∀ now k c r k',
    r_lookup (r_exec now k c r).2 k' =
      if decide (k' = k) then (cmd_spec now c (live now (r_lookup r k))).2 else r_lookup r k';
  r_scan_spec : ∀ now prefix r, ∃ pages,
    scan_pages (r_scan now prefix r) 0 pages ∧ (length pages ≤ r_scan_bound r)%nat ∧
    ∀ k, k ∈ mjoin pages ↔ has_prefix prefix k = true ∧ live now (r_lookup r k) ≠ None;
}.

(** ** A map of entries *)
Abbreviation redis_map B := (gmap string (entry B)).

Definition redis_map_exec {B} `{Bytes B} (now : Z) (k : string) (c : cmd B) (m : redis_map B)
  : reply B * redis_map B :=
  let '(r, e) := cmd_spec now c (live now (m !! k)) in
  (r, match e with Some x => <[k := x]> m | None => delete k m end).

Definition redis_map_keys {B} (now : Z) (prefix : string) (m : redis_map B) : list string :=
  (filter (λ kv, has_prefix prefix kv.1 && is_live now kv.2 = true) (map_to_list m)).*1.

(** A hundred keys at a time; the cursor is the number of keys returned. *)
Definition redis_map_scan {B} (now : Z) (prefix : string) (m : redis_map B) (cursor : Z)
  : list string * Z :=
  let keys := redis_map_keys now prefix m in
  (take 100 (drop (Z.to_nat cursor) keys),
   if (Z.of_nat (length keys) <=? cursor + 100)%Z then 0%Z else (cursor + 100)%Z).

Lemma redis_map_keys_spec {B} now prefix (m : redis_map B) k :
  k ∈ redis_map_keys now prefix m ↔ has_prefix prefix k = true ∧ live now (m !! k) ≠ None.
Proof.
  unfold redis_map_keys. rewrite list_elem_of_fmap. split.
  - intros ([k' e] & -> & [H1 H2%elem_of_map_to_list]%list_elem_of_filter). simpl in *.
    apply andb_true_iff in H1 as [H1 H3]. rewrite H2. simpl. by rewrite H3.
  - intros [H1 H2]. destruct (m !! k) as [e|] eqn:E; [|done]. simpl in H2.
    destruct (is_live now e) eqn:E2; [|done].
    exists (k, e). split; [done|]. apply list_elem_of_filter. simpl. rewrite H1, E2.
    split; [done|]. by apply elem_of_map_to_list.
Qed.

Lemma redis_map_keys_length {B} now prefix (m : redis_map B) :
  (length (redis_map_keys now prefix m) ≤ size m)%nat.
Proof.
  unfold redis_map_keys. rewrite length_fmap.
  etrans; [apply length_filter|]. by rewrite length_map_to_list.
Qed.

Lemma redis_map_pages {B} now prefix (m : redis_map B) n : ∀ c,
  (length (redis_map_keys now prefix m) - c ≤ n)%nat → ∃ pages,
    scan_pages (redis_map_scan now prefix m) (Z.of_nat c) pages ∧ (length pages ≤ S n)%nat ∧
    mjoin pages = drop c (redis_map_keys now prefix m).
Proof.
  induction n as [|n IH]; intros c Hc;
    destruct (Z.leb_spec (Z.of_nat (length (redis_map_keys now prefix m))) (Z.of_nat c + 100)) as [E|E];
    try lia.
  1,2: exists [take 100 (drop c (redis_map_keys now prefix m))]; split_and!; [|simpl; lia|];
    [constructor; unfold redis_map_scan; rewrite Nat2Z.id; by destruct (Z.leb_spec (Z.of_nat
       (length (redis_map_keys now prefix m))) (Z.of_nat c + 100)); [|lia]
    |simpl; rewrite app_nil_r; apply take_ge; rewrite length_drop; lia].
  destruct (IH (c + 100)%nat) as (pages & Hp & Hl & Hj); [lia|].
  exists (take 100 (drop c (redis_map_keys now prefix m)) :: pages). split_and!; [|simpl; lia|].
  - apply scan_more with (Z.of_nat (c + 100)%nat); [|lia|done]. unfold redis_map_scan. rewrite Nat2Z.id.
    destruct (Z.leb_spec (Z.of_nat (length (redis_map_keys now prefix m))) (Z.of_nat c + 100)); [lia|].
    f_equal. lia.
  - simpl. rewrite Hj, <- drop_drop. apply take_drop.
Qed.

#[export] Program Instance redis_map_server {B} `{Bytes B} : RedisServer B (redis_map B) := {|
  r_empty := ∅; r_lookup m k := m !! k; r_exec := redis_map_exec; r_scan := redis_map_scan;
  r_scan_bound m := S (size m);
|}.
Next Obligation. intros. apply lookup_empty. Qed.
Next Obligation. intros. unfold redis_map_exec. by destruct (cmd_spec _ _ _). Qed.
Next Obligation.
  intros. unfold redis_map_exec. destruct (cmd_spec _ _ _) as [rp [x|]]; simpl; case_decide; subst.
  - by rewrite lookup_insert_eq.
  - by rewrite lookup_insert_ne.
  - by rewrite lookup_delete_eq.
  - by rewrite lookup_delete_ne.
Qed.
Next Obligation.
  intros B ? now prefix m.
  pose proof (redis_map_keys_length now prefix m) as Hlen.
  destruct (redis_map_pages now prefix m (length (redis_map_keys now prefix m)) 0)
    as (pages & Hp & Hl & Hj); [lia|].
  exists pages. split; [exact Hp|]. split; [lia|].
  intros k. rewrite Hj. apply redis_map_keys_spec.
Qed.

(** ** The wrapper: each method of [client] *)
Section Client.
Context {B : Type} `{Bytes B} {R : Type} `{!RedisServer B R}.
Implicit Types (now ttl : Z) (k : string) (r : R).

Definition reply_err (p : reply B) : option error :=
  match p with ReplyErr e => Some e | _ => None end.

Definition err_result {A} (p : reply B) (a : A) : result error A :=
  match p with ReplyErr e => Err e | _ => Ok a end.

Definition Client_Set now k (v : B) ttl r : result error unit * R :=
  let '(p, r') := r_exec now k (CSet v ttl) r in (err_result p (), r').

(** [err == redis.Nil] becomes [nil, nil]. *)
Definition Client_Get now k r : result error (option B) * R :=
  let '(p, r') := r_exec now k CGet r in
  (match p with
   | ReplyErr e => Err e
   | ReplyBulk b => Ok (Some b)
   | _ => Ok None
   end, r').

Definition Client_Del now k r : result error unit * R :=
  let '(p, r') := r_exec now k CDel r in (err_result p (), r').

(** The loop of [Keys]: [SCAN] until the cursor is zero again. *)
Fixpoint keys_loop (scan : Z → list string * Z) (fuel : nat) (cursor : Z) (keys : list string)
  : list string :=
  match fuel with
  | O => keys
  | S fuel =>
      let '(k, nextCursor) := scan cursor in
      let keys := (keys ++ k)%list in
      if (nextCursor =? 0)%Z then keys else keys_loop scan fuel nextCursor keys
  end.
Definition Client_Keys now prefix r : list string :=
  keys_loop (r_scan now prefix r) (r_scan_bound r) 0 [].

(** The fuel is enough. *)
Lemma keys_loop_pages scan cursor pages fuel keys :
  scan_pages scan cursor pages → (length pages ≤ fuel)%nat →
  keys_loop scan fuel cursor keys = (keys ++ mjoin pages)%list.
Proof.
  intros Hp. revert fuel keys.
  induction Hp as [c page E|c page c' pages E Hc _ IH]; intros [|fuel] keys Hf; simpl in *; try lia;
    rewrite E.
  - by rewrite app_nil_r.
  - destruct (Z.eqb_spec c' 0); [done|]. rewrite IH by lia. by rewrite app_assoc.
Qed.

Lemma Client_Keys_spec now prefix r k :
  k ∈ Client_Keys now prefix r ↔ has_prefix prefix k = true ∧ live now (r_lookup r k) ≠ None.
Proof.
  destruct (r_scan_spec now prefix r) as (pages & Hp & Hl & Hk).
  unfold Client_Keys. by rewrite (keys_loop_pages _ 0 pages) by done.
Qed.

Definition Client_HSet now k (f : string) (v : B) r : result error unit * R :=
  let '(p, r') := r_exec now k (CHSet f v) r in (err_result p (), r').

Definition Client_HGet now k (f : string) r : result error (option B) * R :=
  let '(p, r') := r_exec now k (CHGet f) r in
  (match p with
   | ReplyErr e => Err e
   | ReplyBulk b => Ok (Some b)
   | _ => Ok None
   end, r').

Definition Client_HGetAll now k r : result error (gmap string B) * R :=
  let '(p, r') := r_exec now k CHGetAll r in
  (match p with
   | ReplyErr e => Err e
   | ReplyHash h => Ok h
   | _ => Ok ∅
   end, r').

Definition Client_HMGet now k (fs : list string) r : result error (list (option B)) * R :=
  let '(p, r') := r_exec now k (CHMGet fs) r in
  (match p with
   | ReplyErr e => Err e
   | ReplyMulti l => Ok l
   | _ => Ok []
   end, r').

Definition Client_IncrBy now k (delta : Z) r : result error Z * R :=
  let '(p, r') := r_exec now k (CIncrBy delta) r in
  (match p with
   | ReplyErr e => Err e
   | ReplyInt z => Ok z
   | _ => Ok 0%Z
   end, r').

Definition Client_Incr now k r : result error Z * R := Client_IncrBy now k 1 r.

Definition Client_SetNX now k (v : B) ttl r : result error bool * R :=
  let '(p, r') := r_exec now k (CSetNX v ttl) r in
  (match p with
   | ReplyErr e => Err e
   | ReplyInt z => Ok (z =? 1)%Z
   | _ => Ok false
   end, r').

Definition Client_Exists now k r : result error bool * R :=
  let '(p, r') := r_exec now k CExists r in
  (match p with
   | ReplyErr e => Err e
   | ReplyInt z => Ok (0 <? z)%Z
   | _ => Ok false
   end, r').

Definition Client_Expire now k ttl r : result error unit * R :=
  let '(p, r') := r_exec now k (CExpire ttl) r in (err_result p (), r').

(** [DelPattern], on a prefix: the keys of the scan, deleted together. *)
Definition Client_DelPattern now prefix r : R :=
  foldl (λ r k, (r_exec now k CDel r).2) r (Client_Keys now prefix r).

(** ** Lookups after each command *)

Definition view now k r : option (entry B) := live now (r_lookup r k).

(** The wrapper leaves the server in the state of the command. *)
Lemma Client_Expire_state now k ttl r :
  (Client_Expire now k ttl r).2 = (r_exec now k (CExpire ttl) r).2.
Proof. unfold Client_Expire. by destruct (r_exec _ _ _ _). Qed.

Lemma Client_Set_state now k v ttl r :
  (Client_Set now k v ttl r).2 = (r_exec now k (CSet v ttl) r).2.
Proof. unfold Client_Set. by destruct (r_exec _ _ _ _). Qed.

Lemma Client_HSet_state now k f v r :
  (Client_HSet now k f v r).2 = (r_exec now k (CHSet f v) r).2.
Proof. unfold Client_HSet. by destruct (r_exec _ _ _ _). Qed.

Lemma Client_IncrBy_state now k d r :
  (Client_IncrBy now k d r).2 = (r_exec now k (CIncrBy d) r).2.
Proof. unfold Client_IncrBy. by destruct (r_exec _ _ _ _). Qed.

Lemma exec_lookup_same now k c r :
  r_lookup (r_exec now k c r).2 k = (cmd_spec now c (view now k r)).2.
Proof. rewrite r_exec_lookup. by rewrite decide_True. Qed.

Lemma exec_lookup_other now k c r k' :
  k' ≠ k → r_lookup (r_exec now k c r).2 k' = r_lookup r k'.
Proof. intros. rewrite r_exec_lookup. by rewrite decide_False. Qed.

Lemma del_all_lookup now k ks : ∀ r,
  r_lookup (foldl (λ r k, (r_exec now k CDel r).2) r ks) k =
    if decide (k ∈ ks) then None else r_lookup r k.
Proof.
  induction ks as [|k0 ks IH]; intros r; simpl; [done|]. rewrite IH.
  destruct (decide (k ∈ ks)).
  - rewrite decide_True; [done|]. by constructor.
  - destruct (decide (k = k0)) as [->|].
    + rewrite exec_lookup_same, decide_True by constructor.
      by destruct (view now k0 r) as [[[] ?]|].
    + rewrite exec_lookup_other by done. rewrite decide_False; [done|].
      intros [->|?]%elem_of_cons; done.
Qed.

(** Live keys with the prefix go, all other keys stay. *)
Lemma DelPattern_lookup now prefix r k :
  r_lookup (Client_DelPattern now prefix r) k =
    match has_prefix prefix k, view now k r with
    | true, Some _ => None
    | _, _ => r_lookup r k
    end.
Proof.
  unfold Client_DelPattern. rewrite del_all_lookup.
  pose proof (Client_Keys_spec now prefix r k) as Hs. fold (view now k r) in Hs.
  destruct (decide _) as [Hin|Hin].
  - apply Hs in Hin as [-> Hv]. by destruct (view now k r).
  - destruct (has_prefix prefix k); [|done].
    destruct (view now k r); [|done]. by destruct Hin; apply Hs.
Qed.
End Client.
