(* ===== verification/Registry.v ===== *)
(** * The key registry: [internal/ports/registry]

    [HTTPClient] asks the network's registry for the public key of a
    subscriber and caches the answer until it expires.  The registry is a
    service: [http_do] is what it answers to a request at a time, an argument
    of everything below.  [now] stands for the clock of one call, in
    nanoseconds.  [TrimSpace] and [HasSuffix] act on ASCII. *)
From stdpp Require Import prelude gmap strings.
From Stdlib Require Import Ascii String.
From S2P Require Import Prelude GoStrings Base64 GoTime Json ApiError OndcAuth Redis.
Local Open Scope string_scope.

(** The configuration of [HTTPClient]. *)
Record client_config := mkClient {
  rc_baseURL : string;
  rc_signingPrivateKey : string;
  rc_signingSubID : string;
  rc_signingUKID : string;
  rc_cacheTTL : Z;
}.

Definition ends_with (c : ascii) (s : string) : bool :=
  match String.get (String.length s - 1) s with Some a => Ascii.eqb a c | None => false end.

Definition NewHTTPClient (baseURL signingPrivateKey signingSubID signingUKID : string)
  (cacheTTL : Z) : client_config :=
  let baseURL := trim_space baseURL in
  let baseURL := if negb (baseURL =? "") && negb (ends_with "/" baseURL)
                 then baseURL ++ "/" else baseURL in
  mkClient baseURL signingPrivateKey signingSubID signingUKID
    (if (cacheTTL <=? 0)%Z then 600 * second else cacheTTL)%Z.

(** [Record] of client.go; its [SubscriberID] is the cache key. *)
Record CacheRecord := mkCacheRecord { cr_SubscriberID : string; cr_PubKey : string; cr_ExpiresAt : Z }.
Abbreviation cache := (gmap string CacheRecord).

(** The client of client.go that stands in for the registry. *)
Definition NewMockClient (now : Z) (pubKey : string) (ttl : Z) : CacheRecord :=
  mkCacheRecord "mock-subscriber" pubKey (now + ttl).
Definition mock_GetPublicKey (now : Z) (c : CacheRecord) (subscriberID : string) : option string :=
  if (cr_ExpiresAt c <? now)%Z then None else Some (cr_PubKey c).
Definition mock_GetPublicKeyByUKID (now : Z) (c : CacheRecord) (subscriberID ukID : string) : option string :=
  mock_GetPublicKey now c subscriberID.

Record LookupResponseItem := mkItem {
  li_SubscriberID : string; li_UKID : string; li_SigningPublicKey : string;
  li_SigningPublicKey2 : string; li_PubKey : string; li_ValidUntil : string; li_ValidTo : string;
}.

(** The first argument that is not blank, trimmed. *)
Fixpoint firstNonEmpty (v : list string) : string :=
  match v with
  | [] => ""
  | s :: v' => if trim_space s =? "" then firstNonEmpty v' else trim_space s
  end.

Definition parseExpiry (it : LookupResponseItem) : option Z :=
  let raw := firstNonEmpty [li_ValidUntil it; li_ValidTo it] in
  if raw =? "" then None else parse_rfc3339 raw.

(** Decoding one element of the answer: [null] leaves the item empty. *)
Definition decode_item (j : json) : option LookupResponseItem :=
  match j with
  | JNull => Some (mkItem "" "" "" "" "" "" "")
  | JObj m =>
      let get k := string_field (struct_field k m) in
      sub ← get "subscriber_id"; uk ← get "ukId"; k1 ← get "signing_public_key";
      k2 ← get "signingPublicKey"; k3 ← get "pub_key"; v1 ← get "valid_until"; v2 ← get "valid_to";
      Some (mkItem sub uk k1 k2 k3 v1 v2)
  | _ => None
  end.

Definition decode_items (j : option json) : option (list LookupResponseItem) :=
  match j with
  | Some (JArr l) => mapM decode_item l
  | Some JNull => Some []
  | _ => None
  end.

(** [io.LimitReader]. *)
Definition limit_read {B} `{Bytes B} (n : N) (b : B) : B :=
  if (N.of_nat (String.length (b_string b)) <=? n)%N then b
  else b_of_string (truncate (b_string b) (N.to_nat n)).

Section Client.
Context `{Crypto} {B : Type} `{Bytes B} `{JsonCodec B}.

(** A request: the address, the body and the [Authorization] header; the
    answer is the status and the body. *)
Variable http_do : Z → string → B → option string → result error (Z * B).
Variable c : client_config.

Definition lookup_body (sub uk : string) : option B :=
  json_marshal (JObj {[ "subscriber_id" := JStr sub; "ukId" := JStr uk ]}).

(** The request's [Authorization] header, when signing is configured. *)
Definition auth_header (now : Z) (body : B) : result error (option string) :=
  if negb (rc_signingPrivateKey c =? "") && negb (rc_signingSubID c =? "")
     && negb (rc_signingUKID c =? "")
  then match CreateAuthorisationHeader (now / second) (b_string body) (rc_signingPrivateKey c)
               (rc_signingSubID c) (rc_signingUKID c) with
       | Ok h => Ok (Some h)
       | Err e => Err (EWrap "build registry auth header" e)
       end
  else Ok None.

(** Picks the key and its expiry out of a successful answer. *)
Definition lookup_answer (now : Z) (raw : B) : result error (string * Z) :=
  match decode_items (json_unmarshal raw) with
  | None => Err (EText "parse registry lookup response")
  | Some [] => Err (EText "registry lookup returned empty result")
  | Some (it :: _) =>
      let pubKeyB64 := firstNonEmpty [li_SigningPublicKey it; li_SigningPublicKey2 it; li_PubKey it] in
      if pubKeyB64 =? "" then Err (EText "registry lookup missing public key in response")
      else match DecodeString pubKeyB64 with
      | None => Err (EText "decode registry public key")
      | Some pk =>
          if negb (String.length pk =? 32)%nat then Err (EText "invalid registry public key length")
          else
            let exp := match parseExpiry it with
                       | Some t => if (now <? t)%Z then t else (now + rc_cacheTTL c)%Z
                       | None => (now + rc_cacheTTL c)%Z
                       end in
            Ok (pk, exp)
      end
  end.

(** The request to the registry, after the cache missed; at most 256 KiB of
    the answer are read. *)
Definition lookup_remote (now : Z) (sub uk : string) : result error (string * Z) :=
  match lookup_body sub uk with
  | None => Err (EText "marshal lookup request")
  | Some body =>
      match auth_header now body with
      | Err e => Err e
      | Ok auth =>
          match http_do now (rc_baseURL c ++ "lookup") body auth with
          | Err e => Err (EWrap "registry lookup request failed" e)
          | Ok (status, raw) =>
              if (status <? 200)%Z || (300 <=? status)%Z
              then Err (EText "registry lookup non-2xx")
              else lookup_answer now (limit_read 262144 raw)
          end
      end
  end.

Definition getCached (now : Z) (key : string) (m : cache) : option string :=
  match m !! key with
  | None => None
  | Some r => if (cr_ExpiresAt r <? now)%Z || (cr_PubKey r =? "") then None else Some (cr_PubKey r)
  end.

Definition setCached (key pk : string) (exp : Z) (m : cache) : cache :=
  <[key := mkCacheRecord key pk exp]> m.

Definition cache_key (sub uk : string) : string := sub ++ "|" ++ uk.

Definition GetPublicKey (sub : string) : result error string :=
  Err (EText "registry client requires subscriber_id and ukId").

Definition GetPublicKeyByUKID (now : Z) (sub uk : string) (m : cache) : result error string * cache :=
  if rc_baseURL c =? "" then (Err (EText "registry base URL not configured"), m)
  else if (sub =? "") || (uk =? "") then (Err (EText "missing subscriber_id or ukId"), m)
  else match getCached now (cache_key sub uk) m with
  | Some pk => (Ok pk, m)
  | None =>
      match lookup_remote now sub uk with
      | Err e => (Err e, m)
      | Ok (pk, exp) => (Ok pk, setCached (cache_key sub uk) pk exp m)
      end
  end.

(** ** The cache *)

(** A history of calls, the latest first, and the cache it leaves. *)
Inductive history : list (Z * string * string) → cache → Prop :=
  | history_new : history [] ∅
  | history_call now sub uk h m :
      history h m → history ((now, sub, uk) :: h) (GetPublicKeyByUKID now sub uk m).2.

(** Every record was answered by the registry to an earlier call for the
    record's subscriber and key id. *)
Definition cache_ok (h : list (Z * string * string)) (m : cache) : Prop :=
  ∀ k r, m !! k = Some r → ∃ t sub uk,
    (t, sub, uk) ∈ h ∧ k = cache_key sub uk ∧ sub ≠ "" ∧ uk ≠ "" ∧
    lookup_remote t sub uk = Ok (cr_PubKey r, cr_ExpiresAt r).

Lemma cache_ok_history h m : history h m → cache_ok h m.
Proof.
  induction 1 as [|now sub uk h m Hh IH]; [by intros k r ?%lookup_empty_Some|].
  assert (cache_ok ((now, sub, uk) :: h) m) as Hweak.
  { intros k r (t & s & u & ? & ?)%IH. exists t, s, u. split; [by right|done]. }
  unfold GetPublicKeyByUKID.
  destruct (rc_baseURL c =? ""); [done|].
  destruct ((sub =? "") || (uk =? "")) eqn:E; [done|]. bool_hyps.
  destruct (getCached _ _ _); [done|].
  destruct (lookup_remote now sub uk) as [[pk exp]|] eqn:L; [|done]. cbn [snd]. unfold setCached.
  intros k r [[<- <-]|[_ Hk]]%lookup_insert_Some; [|by apply Hweak].
  exists now, sub, uk. split_and!; [by left|done..].
Qed.
Lemma cache_key_inj s u sub uk :
  has_char "|" s = false → has_char "|" sub = false →
  cache_key s u = cache_key sub uk → s = sub ∧ u = uk.
Proof. apply (sep_inj "|"). Qed.

Lemma getCached_Some now key m pk :
  getCached now key m = Some pk → ∃ r, m !! key = Some r ∧ cr_PubKey r = pk ∧ (now ≤ cr_ExpiresAt r)%Z.
Proof.
  unfold getCached. destruct (m !! key) as [r|]; [|done].
  destruct (_ || _) eqn:E; [done|]. intros [= <-]. bool_hyps. eauto.
Qed.

Lemma lookup_remote_length now sub uk pk exp :
  lookup_remote now sub uk = Ok (pk, exp) → String.length pk = 32%nat ∧ (now < exp ∨ exp = now + rc_cacheTTL c)%Z.
Proof.
  unfold lookup_remote, lookup_answer. intros E. repeat (case_match; simplify_eq).
  all: repeat match goal with H : negb _ = false |- _ => apply negb_false_iff, Nat.eqb_eq in H end.
  all: split; [done|]; bool_hyps; auto.
Qed.
End Client.

(** C27: A key served from the cache is the registry's own answer, given to an
    earlier request for this very subscriber and key id, and not yet expired
    when it is served; it is a key of 32 bytes.  Key ids come from
    [ParseKeyID], so no subscriber contains the separator of the cache's
    keys. *)
Theorem registry_cache_sound `{Crypto} {B} `{Bytes B} `{JsonCodec B}
    (http_do : Z → string → B → option string → result error (Z * B)) c h m now sub uk pk m' :
  history http_do c h m → Forall (λ q, has_char "|" q.1.2 = false) h →
  has_char "|" sub = false →
  GetPublicKeyByUKID http_do c now sub uk m = (Ok pk, m') →
  String.length pk = 32%nat ∧
  ∃ t exp, lookup_remote http_do c t sub uk = Ok (pk, exp) ∧
    (t = now ∨ ((t, sub, uk) ∈ h ∧ (now ≤ exp)%Z)).
Proof.
  intros Hh Hbar Hsub E.
  assert (∃ t exp, lookup_remote http_do c t sub uk = Ok (pk, exp) ∧
    (t = now ∨ ((t, sub, uk) ∈ h ∧ (now ≤ exp)%Z))) as Hex.
  { unfold GetPublicKeyByUKID in E. destruct (rc_baseURL c =? ""); [done|].
    destruct (_ || _); [done|]. destruct (getCached _ _ _) as [pk'|] eqn:G; simplify_eq.
    - apply getCached_Some in G as (r & Hr & <- & Hnow).
      apply (cache_ok_history http_do c h) in Hr as (t & s & u & Hin & Hk & _ & _ & L); [|done].
      rewrite Forall_forall in Hbar. pose proof (Hbar _ Hin) as Hs. cbn in Hs.
      apply cache_key_inj in Hk as [-> ->]; [|done..]. eauto 10.
    - destruct (lookup_remote _ _ _ _ _) as [[pk' exp]|] eqn:L; simplify_eq. eauto 10. }
  split; [|done]. destruct Hex as (t & exp & L & _). by apply lookup_remote_length in L as [? _].
Qed.

(** ** Witness: a registry that always answers with one key *)

#[export] Instance bytes_json : Bytes json := {|
  b_of_string s := JStr s;
  b_string j := match j with JStr s => s | _ => "json" end;
  b_string_of _ := eq_refl;
|}.

Definition demo_registry (now : Z) (url : string) (body : json) (auth : option string)
  : result error (Z * json) :=
  Ok (200%Z, JArr [JObj {[ "pub_key" := JStr (EncodeToString toy_seed) ]}]).
Definition demo_client : client_config := NewHTTPClient "http://registry" "" "" "" 60000000000.
Definition demo_lookup (now : Z) : cache → result error string * cache :=
  GetPublicKeyByUKID (H := toy_crypto) demo_registry demo_client now "buyer.example" "k1".

Lemma demo_history :
  history (H := toy_crypto) demo_registry demo_client [(0%Z, "buyer.example", "k1")] (demo_lookup 0 ∅).2.
Proof. apply history_call, history_new. Qed.

#[local] Transparent gmap_empty.
Lemma registry_cache_sound_witness :
  (demo_lookup 60000000000 (demo_lookup 0 ∅).2).1 = Ok toy_seed ∧
  String.length toy_seed = 32%nat ∧
  ∃ t exp, lookup_remote (H := toy_crypto) demo_registry demo_client t "buyer.example" "k1"
             = Ok (toy_seed, exp) ∧
    (t = 60000000000%Z ∨ ((t, "buyer.example", "k1") ∈ [(0%Z, "buyer.example", "k1")] ∧ (60000000000 ≤ exp)%Z)).
Proof.
  assert (demo_lookup 60000000000 (demo_lookup 0 ∅).2 = (Ok toy_seed, (demo_lookup 0 ∅).2)) as E
    by (vm_compute; reflexivity).
  split; [by rewrite E|].
  refine (registry_cache_sound (H := toy_crypto) demo_registry demo_client _ _
    60000000000 "buyer.example" "k1" toy_seed _ demo_history _ eq_refl E). by repeat constructor.
Defined.
