(* ===== verification/RunLog.v ===== *)
(** * Run logs: [internal/shared/runlog]

    [runlog.Store] keeps, per run, pipeline, action and transaction, the
    payload and the time of the request or callback, and counts the payloads
    recorded.  The interface is a class; [MemoryStore] and [RedisStore] are
    its two instances, and both are proved to refine one abstract log, hence
    to be interchangeable.

    Map iteration order is unspecified in Go: listings are sets or lists up
    to the order of [map_to_list].  Times are UTC nanoseconds. *)
From stdpp Require Import prelude gmap list strings.
From S2P Require Import Prelude GoStrings ApiError Redis.
Local Open Scope string_scope.

Section Interface.
Context {B : Type}.

(** The calls of the interface. *)
Inductive op :=
  | RecordPayload (run pipeline action txn : string) (payload : B)
  | RecordTimestamp (run pipeline action txn : string) (t : Z)
  | Get (run pipeline action txn : string)
  | GetMulti (run pipeline action : string) (txns : list string)
  | Count (run pipeline action : string)
  | GetTimestamp (run pipeline action txn : string)
  | ListTxnIDs (run pipeline action : string)
  | Cleanup (run : string).

(** What a caller sees of a call ([err != nil] or the value). *)
Inductive obs :=
  | OUnit (ok : bool)
  | OData (v : option B)
  | OMulti (m : gmap string B)
  | OCount (n : option Z)
  | OTime (t : option Z)
  | OTxns (l : gset string).

(** [if runID == "" || ... { return nil }]. *)
Definition some_empty (run pipeline action txn : string) : bool :=
  (run =? "") || (pipeline =? "") || (action =? "") || (txn =? "").

(** ** The abstract log *)

Record alog := mkLog {
  al_data : string → string → string → string → option B;
  al_time : string → string → string → string → option Z;
  al_count : string → string → string → Z;
}.

Definition alog_empty : alog :=
  mkLog (λ _ _ _ _, None) (λ _ _ _ _, None) (λ _ _ _, 0%Z).

Definition eqb3 (r p a r' p' a' : string) : bool := (r' =? r) && (p' =? p) && (a' =? a).

Definition alog_record (r p a t : string) (b : B) (A : alog) : alog :=
  mkLog (λ r' p' a' t', if eqb3 r p a r' p' a' && (t' =? t) then Some b else al_data A r' p' a' t')
    (al_time A)
    (λ r' p' a', al_count A r' p' a' + if eqb3 r p a r' p' a' then 1 else 0)%Z.

Definition alog_time (r p a t : string) (z : Z) (A : alog) : alog :=
  mkLog (al_data A)
    (λ r' p' a' t', if eqb3 r p a r' p' a' && (t' =? t) then Some z else al_time A r' p' a' t')
    (al_count A).

Definition alog_cleanup (r : string) (A : alog) : alog :=
  mkLog (λ r' p a t, if r' =? r then None else al_data A r' p a t)
    (λ r' p a t, if r' =? r then None else al_time A r' p a t)
    (λ r' p a, if r' =? r then 0%Z else al_count A r' p a).

(** The state after a call. *)
Definition alog_next (o : op) (A : alog) : alog :=
  match o with
  | RecordPayload r p a t b => if some_empty r p a t then A else alog_record r p a t b A
  | RecordTimestamp r p a t z => if some_empty r p a t then A else alog_time r p a t z A
  | Cleanup r => alog_cleanup r A
  | _ => A
  end.

(** The answer to a call, as a predicate because listings range over all
    transactions. *)
Definition alog_obs (o : op) (A : alog) (x : obs) : Prop :=
  match o, x with
  | (RecordPayload _ _ _ _ _ | RecordTimestamp _ _ _ _ _ | Cleanup _), OUnit ok => ok = true
  | Get r p a t, OData v => v = al_data A r p a t
  | GetMulti r p a ts, OMulti m =>
      ∀ t, m !! t = if decide (t ∈ ts) then al_data A r p a t else None
  | Count r p a, OCount n => n = Some (al_count A r p a)
  | GetTimestamp r p a t, OTime z => z = al_time A r p a t
  | ListTxnIDs r p a, OTxns l => ∀ t, t ∈ l ↔ al_time A r p a t ≠ None
  | _, _ => False
  end.

Lemma alog_obs_det o A x y : alog_obs o A x → alog_obs o A y → x = y.
Proof.
  destruct o, x, y; simpl; try done; intros Hx Hy; try congruence.
  - f_equal. apply map_eq. intros t. by rewrite Hx, Hy.
  - f_equal. apply set_eq. intros t. by rewrite Hx, Hy.
Qed.

(** Names the program uses: not empty and without the separator; times that
    fit [UnixNano]. *)
Definition name_ok (s : string) : bool := negb (has_char colon s).
Definition op_ok (o : op) : Prop :=
  match o with
  | RecordPayload r p a _ _ | Get r p a _ | GetMulti r p a _ | Count r p a
  | GetTimestamp r p a _ | ListTxnIDs r p a =>
      name_ok r = true ∧ name_ok p = true ∧ name_ok a = true
  | RecordTimestamp r p a _ z =>
      name_ok r = true ∧ name_ok p = true ∧ name_ok a = true ∧ in_int64 z
  | Cleanup r => name_ok r = true
  end.
End Interface.
Arguments op B : clear implicits.
Arguments obs B : clear implicits.
Arguments alog B : clear implicits.

(** A visit of [Export]: pipeline, action, transaction and payload. *)
Abbreviation visit B := (string * string * string * B)%type.

(** [Export] calls its callback on every visit, threading the state [x] the
    callback acts on, and stops at its first error. *)
Fixpoint export_loop {B A} (fn : string → string → string → B → A → option error * A)
  (l : list (visit B)) (x : A) : option error * A :=
  match l with
  | [] => (None, x)
  | (p, a, t, b) :: l' =>
      match fn p a t b x with
      | (None, x') => export_loop fn l' x'
      | (Some e, x') => (Some e, x')
      end
  end.

(** A store: the clock is read by the calls that set or observe an expiry.
    [log_export] has the visits of [Export] in their order, [log_flush] the
    files [FlushToFilesystem] writes, by path. *)
Class RunLogStore (B S : Type) := {
  log_new : S;
  log_call : Z → op B → S → obs B * S;
  log_export : Z → string → S → list (visit B);
  log_flush : Z → string → string → S → list (string * B);
}.

(** What a store promises: a relation to the abstract log that the new store
    satisfies and that calls preserve, as long as the clock stays in
    [[t0, t1)] and fewer than 2^63 calls were made. *)
Class RunLogRefines (B S : Type) `{RunLogStore B S} (t0 t1 : Z) := {
  log_repr : nat → S → alog B → Prop;
  log_repr_new : log_repr 0 log_new alog_empty;
  log_repr_call : ∀ n now o s A,
    (Z.of_nat (Datatypes.S n) < 2 ^ 63)%Z → (t0 ≤ now < t1)%Z → op_ok o → log_repr n s A →
    alog_obs o A (log_call now o s).1 ∧
    log_repr (Datatypes.S n) (log_call now o s).2 (alog_next o A);
  log_repr_export : ∀ n now r s A p a t b,
    (t0 ≤ now < t1)%Z → name_ok r = true → log_repr n s A →
    ((p, a, t, b) ∈ log_export now r s →
     name_ok p = true ∧ name_ok a = true ∧ al_data A r p a t = Some b) ∧
    (name_ok p = true → name_ok a = true → p ≠ "" → a ≠ "" → al_data A r p a t = Some b →
     (p, a, t, b) ∈ log_export now r s);
}.

(** A session of calls, each with the clock reading. *)
Fixpoint log_calls {B S} `{RunLogStore B S} (cs : list (Z * op B)) (s : S) : list (obs B) * S :=
  match cs with
  | [] => ([], s)
  | (now, o) :: cs' =>
      let '(x, s1) := log_call now o s in
      let '(xs, s2) := log_calls cs' s1 in (x :: xs, s2)
  end.

Fixpoint alog_run {B} (cs : list (Z * op B)) (A : alog B) : alog B :=
  match cs with [] => A | (_, o) :: cs' => alog_run cs' (alog_next o A) end.

Definition calls_ok {B} (t0 t1 : Z) (cs : list (Z * op B)) : Prop :=
  (Z.of_nat (length cs) < 2 ^ 63)%Z ∧ Forall (λ c, (t0 ≤ c.1 < t1)%Z ∧ op_ok c.2) cs.

Section Refinement.
Context {B S : Type} `{RunLogStore B S} {t0 t1 : Z} `{!RunLogRefines B S t0 t1}.

Lemma log_calls_repr cs : ∀ n s A,
  (Z.of_nat (n + length cs) < 2 ^ 63)%Z → Forall (λ c, (t0 ≤ c.1 < t1)%Z ∧ op_ok c.2) cs →
  log_repr n s A → log_repr (n + length cs) (log_calls cs s).2 (alog_run cs A).
Proof.
  induction cs as [|[now o] cs IH]; intros n s A Hn Hok HR; simpl in *.
  { by rewrite Nat.add_0_r. }
  apply Forall_cons in Hok as [[Hnow Ho] Hok]. simpl in *.
  destruct (log_repr_call n now o s A) as [_ HR']; [lia|done..|].
  destruct (log_call now o s) as [x s1]. simpl in *.
  specialize (IH (Datatypes.S n) s1 (alog_next o A) ltac:(lia) Hok HR').
  destruct (log_calls cs s1). simpl in *. by rewrite Nat.add_succ_r.
Qed.
End Refinement.

(** The answers the abstract log gives to a session. *)
Fixpoint alog_answers {B} (cs : list (Z * op B)) (A : alog B) (xs : list (obs B)) : Prop :=
  match cs, xs with
  | [], [] => True
  | (_, o) :: cs', x :: xs' => alog_obs o A x ∧ alog_answers cs' (alog_next o A) xs'
  | _, _ => False
  end.

Lemma log_calls_answers {B S} `{RunLogStore B S} {t0 t1} `{!RunLogRefines B S t0 t1} cs : ∀ n s A,
  (Z.of_nat (n + length cs) < 2 ^ 63)%Z → Forall (λ c, (t0 ≤ c.1 < t1)%Z ∧ op_ok c.2) cs →
  log_repr n s A → alog_answers cs A (log_calls cs s).1.
Proof.
  induction cs as [|[now o] cs IH]; intros n s A Hn Hok HR; simpl in *; [done|].
  apply Forall_cons in Hok as [[Hnow Ho] Hok]. simpl in *.
  destruct (log_repr_call n now o s A) as [Hobs HR']; [lia|done..|].
  destruct (log_call now o s) as [x s1]. simpl in *.
  specialize (IH (Datatypes.S n) s1 (alog_next o A) ltac:(lia) Hok HR').
  by destruct (log_calls cs s1).
Qed.

(** Nothing is recorded under an empty name. *)
Lemma alog_run_nonempty {B} (cs : list (Z * op B)) : ∀ A,
  (∀ r p a t b, al_data A r p a t = Some b → some_empty r p a t = false) →
  ∀ r p a t b, al_data (alog_run cs A) r p a t = Some b → some_empty r p a t = false.
Proof.
  induction cs as [|[now o] cs IH]; intros A HA; simpl; [done|]. apply IH.
  intros r p a t b. destruct o; simpl; try apply HA.
  - destruct (some_empty run pipeline action txn) eqn:E; [apply HA|]. simpl.
    destruct (eqb3 _ _ _ _ _ _ && _) eqn:E2; [|apply HA]. intros _.
    unfold eqb3 in E2. by bool_hyps; subst.
  - destruct (some_empty run pipeline action txn); apply HA.
  - destruct (r =? run); [done|apply HA].
Qed.

(** Two stores that keep the promise answer every session alike. *)
Lemma stores_agree {B S1 S2} `{RunLogStore B S1, RunLogStore B S2} {t0 t1}
  {R1 : RunLogRefines B S1 t0 t1} {R2 : RunLogRefines B S2 t0 t1} cs : ∀ n (s1 : S1) (s2 : S2) A,
  (Z.of_nat (n + length cs) < 2 ^ 63)%Z → Forall (λ c, (t0 ≤ c.1 < t1)%Z ∧ op_ok c.2) cs →
  log_repr n s1 A → log_repr n s2 A → (log_calls cs s1).1 = (log_calls cs s2).1.
Proof.
  induction cs as [|[now o] cs IH]; intros n s1 s2 A Hn Hok HR1 HR2; simpl in *; [done|].
  apply Forall_cons in Hok as [[Hnow Ho] Hok]. simpl in *.
  destruct (log_repr_call n now o s1 A) as [Ho1 HR1']; [lia|done..|].
  destruct (log_repr_call n now o s2 A) as [Ho2 HR2']; [lia|done..|].
  destruct (log_call now o s1) as [x1 s1'], (log_call now o s2) as [x2 s2']. simpl in *.
  specialize (IH (Datatypes.S n) s1' s2' (alog_next o A) ltac:(lia) Hok HR1' HR2').
  destruct (log_calls cs s1'), (log_calls cs s2'). simpl in *. subst.
  f_equal. by eapply alog_obs_det.
Qed.
