(* ===== verification/MemoryStore.v ===== *)
(** * The in-memory run log: [internal/shared/runlog/memory_store.go]

    Payloads, times and counters in three maps keyed by
    ["{runID}:{pipeline}:{action}"].  Each method is one step: the store's
    mutex is held while the maps are read or written (the few reads the code
    makes of an inner map after releasing the lock are taken at the same
    point). *)
From stdpp Require Import prelude gmap list strings.
From S2P Require Import Prelude GoStrings ApiError Redis RunLog.
Local Open Scope string_scope.

Section MemoryStore.
Context {B : Type}.

Record MemoryStore := mkMS {
  ms_data : gmap string (gmap string B);
  ms_counters : gmap string Z;
  ms_timestamps : gmap string (gmap string Z);
}.

Definition NewMemoryStore : MemoryStore := mkMS ∅ ∅ ∅.

Definition bucketKey (runID pipeline action : string) : string :=
  runID ++ ":" ++ pipeline ++ ":" ++ action.

Definition MemoryStore_Record (r p a t : string) (payload : B) (s : MemoryStore) : MemoryStore :=
  if some_empty r p a t then s
  else
    let key := bucketKey r p a in
    let bucket := default ∅ (ms_data s !! key) in
    let ctr := default 0%Z (ms_counters s !! key) in
    mkMS (<[key := <[t := payload]> bucket]> (ms_data s))
         (<[key := wrap64 (ctr + 1)]> (ms_counters s)) (ms_timestamps s).

Definition MemoryStore_RecordTimestamp (r p a t : string) (at_ : Z) (s : MemoryStore) : MemoryStore :=
  if some_empty r p a t then s
  else
    let key := bucketKey r p a in
    let bucket := default ∅ (ms_timestamps s !! key) in
    mkMS (ms_data s) (ms_counters s) (<[key := <[t := at_]> bucket]> (ms_timestamps s)).

Definition MemoryStore_GetTimestamp (r p a t : string) (s : MemoryStore) : result error Z :=
  match ms_timestamps s !! bucketKey r p a with
  | None => Err (EText ("no timestamp data for " ++ r ++ "/" ++ p ++ "/" ++ a))
  | Some bucket =>
      match bucket !! t with
      | None => Err (EText ("timestamp not found for txn " ++ t))
      | Some ts => Ok ts
      end
  end.

Definition MemoryStore_ListTxnIDs (r p a : string) (s : MemoryStore) : list string :=
  match ms_timestamps s !! bucketKey r p a with
  | None => []
  | Some bucket => (map_to_list bucket).*1
  end.

Definition MemoryStore_Get (r p a t : string) (s : MemoryStore) : result error B :=
  match ms_data s !! bucketKey r p a with
  | None => Err (EText ("no data for " ++ r ++ "/" ++ p ++ "/" ++ a))
  | Some bucket =>
      match bucket !! t with
      | None => Err (EText ("txn " ++ t ++ " not found in " ++ bucketKey r p a))
      | Some v => Ok v
      end
  end.

(** The loop of [GetMulti], shared with the Redis store: [out[id] = v] for
    the ids found. *)
Fixpoint collect_found (ids : list string) (vals : list (option B)) (out : gmap string B)
  : gmap string B :=
  match ids, vals with
  | id :: ids, v :: vals =>
      collect_found ids vals (match v with Some b => <[id := b]> out | None => out end)
  | _, _ => out
  end.

Definition MemoryStore_GetMulti (r p a : string) (txnIDs : list string) (s : MemoryStore)
  : gmap string B :=
  match ms_data s !! bucketKey r p a with
  | None => ∅
  | Some bucket => collect_found txnIDs (map (λ id, bucket !! id) txnIDs) ∅
  end.

Definition MemoryStore_Count (r p a : string) (s : MemoryStore) : Z :=
  default 0%Z (ms_counters s !! bucketKey r p a).

(** [strings.HasPrefix(k, runID+":")] over the keys of one map. *)
Definition drop_run {A} (runID : string) (m : gmap string A) : gmap string A :=
  filter (λ kv, has_prefix (runID ++ ":") kv.1 = false) m.

Definition MemoryStore_Cleanup (runID : string) (s : MemoryStore) : MemoryStore :=
  mkMS (drop_run runID (ms_data s)) (drop_run runID (ms_counters s))
       (drop_run runID (ms_timestamps s)).

(** The nested loops of [Export], as the list of the visits: pipeline,
    action, transaction, payload. *)
Definition MemoryStore_entries (runID : string) (s : MemoryStore)
  : list (visit B) :=
  flat_map (λ kb : string * gmap string B,
    if has_prefix (runID ++ ":") kb.1
    then match splitn 3 colon kb.1 with
         | [_; pipeline; action] =>
             map (λ tv : string * B, (pipeline, action, tv.1, tv.2)) (map_to_list kb.2)
         | _ => []
         end
    else []) (map_to_list (ms_data s)).

Definition MemoryStore_Export {A} (runID : string)
  (fn : option (string → string → string → B → A → option error * A)) (x : A) (s : MemoryStore)
  : option error * A :=
  match fn with
  | None => (None, x)
  | Some fn => export_loop fn (MemoryStore_entries runID s) x
  end.

(** [FlushToFilesystem]: the files written when no file operation fails,
    [rootDir/runID/pipeline/action/txn.json] with its contents. *)
Definition run_file (rootDir runID pipeline action txnID : string) : string :=
  rootDir ++ "/" ++ runID ++ "/" ++ pipeline ++ "/" ++ action ++ "/" ++ txnID ++ ".json".

Definition MemoryStore_FlushToFilesystem (runID rootDir : string) (s : MemoryStore)
  : list (string * B) :=
  map (λ e : visit B,
    let '(p, a, t, b) := e in (run_file rootDir runID p a t, b)) (MemoryStore_entries runID s).
End MemoryStore.
Arguments MemoryStore B : clear implicits.

#[export] Instance memory_log {B} : RunLogStore B (MemoryStore B) := {|
  log_new := NewMemoryStore;
  log_call now o s :=
    match o with
    | RecordPayload r p a t b => (OUnit true, MemoryStore_Record r p a t b s)
    | RecordTimestamp r p a t z => (OUnit true, MemoryStore_RecordTimestamp r p a t z s)
    | Get r p a t => (OData (res_opt (MemoryStore_Get r p a t s)), s)
    | GetMulti r p a ts => (OMulti (MemoryStore_GetMulti r p a ts s), s)
    | Count r p a => (OCount (Some (MemoryStore_Count r p a s)), s)
    | GetTimestamp r p a t => (OTime (res_opt (MemoryStore_GetTimestamp r p a t s)), s)
    | ListTxnIDs r p a => (OTxns (list_to_set (MemoryStore_ListTxnIDs r p a s)), s)
    | Cleanup r => (OUnit true, MemoryStore_Cleanup r s)
    end;
  log_export now r s := MemoryStore_entries r s;
  log_flush now r root s := MemoryStore_FlushToFilesystem r root s;
|}.

(** ** Refinement *)

Lemma bucketKey_cons r p a : bucketKey r p a = r ++ String colon (p ++ String colon a).
Proof. reflexivity. Qed.

Lemma name_ok_colon s : name_ok s = true ↔ no_colon s.
Proof. unfold name_ok, no_colon. by destruct (has_char colon s). Qed.

Lemma bucketKey_inj r p a r' p' a' :
  no_colon r → no_colon p → no_colon r' → no_colon p' →
  bucketKey r p a = bucketKey r' p' a' → r = r' ∧ p = p' ∧ a = a'.
Proof.
  intros Hr Hp Hr' Hp'. rewrite !bucketKey_cons. intros [-> E]%sep_inj; [|done..].
  by apply sep_inj in E as [-> ->].
Qed.

Lemma bucketKey_run r r' p a :
  no_colon r → no_colon r' → has_prefix (r ++ ":") (bucketKey r' p a) = bool_decide (r = r').
Proof. intros. rewrite bucketKey_cons. by apply has_prefix_sep. Qed.

Lemma eqb3_true (r p a r' p' a' : string) :
  eqb3 r p a r' p' a' = true ↔ r' = r ∧ p' = p ∧ a' = a.
Proof. unfold eqb3. rewrite !andb_true_iff, !String.eqb_eq. naive_solver. Qed.

(** One map of the store against one function of the abstract log: buckets
    of well-formed names only, each holding the transactions the function
    knows. *)
Section Maps.
Context {A : Type}.

Definition map_repr (m : gmap string (gmap string A))
  (f : string → string → string → string → option A) : Prop :=
  (∀ k b, m !! k = Some b → ∃ r p a, no_colon r ∧ no_colon p ∧ no_colon a ∧ k = bucketKey r p a) ∧
  ∀ r p a t, no_colon r → no_colon p → no_colon a →
    default ∅ (m !! bucketKey r p a) !! t = f r p a t.

Lemma map_repr_insert m f r p a t v :
  no_colon r → no_colon p → no_colon a → map_repr m f →
  map_repr (<[bucketKey r p a := <[t := v]> (default ∅ (m !! bucketKey r p a))]> m)
    (λ r' p' a' t', if eqb3 r p a r' p' a' && (t' =? t) then Some v else f r' p' a' t').
Proof.
  intros Hr Hp Ha [Hk Hf]. split.
  - intros k b [[<- _]|[_ Hb]]%lookup_insert_Some; [by exists r, p, a|by eapply Hk].
  - intros r' p' a' t' Hr' Hp' Ha'. destruct (eqb3 r p a r' p' a') eqn:E; simpl.
    + apply eqb3_true in E as (-> & -> & ->). rewrite lookup_insert_eq. simpl.
      destruct (String.eqb_spec t' t) as [->|]; [by rewrite lookup_insert_eq|].
      rewrite lookup_insert_ne by done. by apply Hf.
    + rewrite lookup_insert_ne; [by apply Hf|].
      intros (-> & -> & ->)%bucketKey_inj; [|done..].
      by rewrite (proj2 (eqb3_true r' p' a' r' p' a')) in E.
Qed.

Lemma map_repr_drop m f r0 :
  no_colon r0 → map_repr m f →
  map_repr (drop_run r0 m) (λ r p a t, if r =? r0 then None else f r p a t).
Proof.
  intros H0 [Hk Hf]. unfold drop_run. split.
  - intros k b [Hb _]%map_lookup_filter_Some. by eapply Hk.
  - intros r p a t Hr Hp Ha. specialize (Hf r p a t Hr Hp Ha). rewrite map_lookup_filter.
    destruct (m !! bucketKey r p a) as [b|]; simpl in *;
      [|destruct (r =? r0); [apply lookup_empty|done]].
    rewrite bucketKey_run by done.
    destruct (String.eqb_spec r r0) as [->|].
    + rewrite bool_decide_true by done. simplify_option_eq. apply lookup_empty.
    + rewrite bool_decide_false by done. by simplify_option_eq.
Qed.
End Maps.

(** The counters, after [n] calls. *)
Definition count_repr (n : nat) (m : gmap string Z) (f : string → string → string → Z) : Prop :=
  ∀ r p a, no_colon r → no_colon p → no_colon a →
    default 0%Z (m !! bucketKey r p a) = f r p a ∧ (0 ≤ f r p a ≤ Z.of_nat n)%Z.

Record memory_repr {B} (n : nat) (s : MemoryStore B) (A : alog B) : Prop := mkMemRepr {
  mr_data : map_repr (ms_data s) (al_data A);
  mr_time : map_repr (ms_timestamps s) (al_time A);
  mr_count : count_repr n (ms_counters s) (al_count A);
}.

Lemma count_repr_S n m f : count_repr n m f → count_repr (S n) m f.
Proof. intros Hc r p a Hr Hp Ha. destruct (Hc r p a Hr Hp Ha). split; [done|lia]. Qed.

Lemma count_repr_record n m f r p a :
  (Z.of_nat (S n) < 2 ^ 63)%Z → no_colon r → no_colon p → no_colon a → count_repr n m f →
  count_repr (S n) (<[bucketKey r p a := wrap64 (default 0%Z (m !! bucketKey r p a) + 1)]> m)
    (λ r' p' a', f r' p' a' + if eqb3 r p a r' p' a' then 1 else 0)%Z.
Proof.
  intros Hn Hr Hp Ha Hc r' p' a' Hr' Hp' Ha'. destruct (Hc r' p' a' Hr' Hp' Ha') as [E1 E2].
  destruct (eqb3 r p a r' p' a') eqn:E; simpl.
  - apply eqb3_true in E as (-> & -> & ->). rewrite lookup_insert_eq. simpl. rewrite E1.
    rewrite wrap64_id by (unfold in_int64; lia). split; [done|lia].
  - rewrite lookup_insert_ne; [rewrite E1; split; lia|].
    intros (-> & -> & ->)%bucketKey_inj; [|done..].
    by rewrite (proj2 (eqb3_true r' p' a' r' p' a')) in E.
Qed.

Lemma count_repr_drop n m f r0 :
  no_colon r0 → count_repr n m f →
  count_repr (S n) (drop_run r0 m) (λ r p a, if r =? r0 then 0%Z else f r p a).
Proof.
  intros H0 Hc r p a Hr Hp Ha. destruct (Hc r p a Hr Hp Ha) as [E1 E2].
  unfold drop_run. rewrite map_lookup_filter.
  destruct (m !! bucketKey r p a) as [b|]; simpl in *;
    [|destruct (r =? r0); split; lia].
  rewrite bucketKey_run by done. destruct (String.eqb_spec r r0) as [->|].
  - rewrite bool_decide_true by done. simplify_option_eq. lia.
  - rewrite bool_decide_false by done. simplify_option_eq. lia.
Qed.

Lemma collect_found_lookup {B} (f : string → option B) ids : ∀ out t,
  collect_found ids (map f ids) out !! t =
    if decide (t ∈ ids) then match f t with Some b => Some b | None => out !! t end else out !! t.
Proof.
  induction ids as [|id ids IH]; intros out t; simpl; [done|]. rewrite IH.
  destruct (decide (t ∈ ids)).
  - rewrite decide_True by by constructor. destruct (f t) eqn:Hft; [done|].
    destruct (f id) eqn:Hf; [|done]. rewrite lookup_insert_ne; [done|]. congruence.
  - destruct (decide (t = id)) as [->|].
    + rewrite decide_True by constructor.
      destruct (f id); [by rewrite lookup_insert_eq|done].
    + rewrite decide_False by (intros [->|?]%elem_of_cons; done).
      destruct (f id); [by rewrite lookup_insert_ne|done].
Qed.

Lemma some_empty_true_or (r p a t : string) : some_empty r p a t = true ∨ some_empty r p a t = false.
Proof. destruct (some_empty r p a t); auto. Qed.

Lemma memory_repr_S {B} n (s : MemoryStore B) A : memory_repr n s A → memory_repr (S n) s A.
Proof. intros [H1 H2 H3]. split; [done|done|]. by apply count_repr_S. Qed.

Lemma memory_record {B} n r p a t (b : B) s A :
  (Z.of_nat (S n) < 2 ^ 63)%Z → no_colon r → no_colon p → no_colon a → memory_repr n s A →
  memory_repr (S n) (MemoryStore_Record r p a t b s) (alog_next (RecordPayload r p a t b) A).
Proof.
  intros Hn Hr Hp Ha HR. unfold MemoryStore_Record, alog_next.
  destruct (some_empty r p a t); [by apply memory_repr_S|].
  destruct HR. split; simpl; [by apply map_repr_insert|done|by apply count_repr_record].
Qed.

Lemma memory_time {B} n r p a t z (s : MemoryStore B) A :
  no_colon r → no_colon p → no_colon a → memory_repr n s A →
  memory_repr (S n) (MemoryStore_RecordTimestamp r p a t z s)
    (alog_next (RecordTimestamp r p a t z) A).
Proof.
  intros Hr Hp Ha HR. unfold MemoryStore_RecordTimestamp, alog_next.
  destruct (some_empty r p a t); [by apply memory_repr_S|].
  destruct HR. split; simpl; [done|by apply map_repr_insert|by apply count_repr_S].
Qed.

Lemma memory_cleanup {B} n r (s : MemoryStore B) A :
  no_colon r → memory_repr n s A →
  memory_repr (S n) (MemoryStore_Cleanup r s) (alog_next (Cleanup r) A).
Proof.
  intros Hr [H1 H2 H3]. split; simpl;
    [by apply map_repr_drop|by apply map_repr_drop|by apply count_repr_drop].
Qed.

(** The reads. *)
Lemma memory_Get {B} n r p a t (s : MemoryStore B) A :
  no_colon r → no_colon p → no_colon a → memory_repr n s A →
  res_opt (MemoryStore_Get r p a t s) = al_data A r p a t.
Proof.
  intros Hr Hp Ha [[_ Hd] _ _]. rewrite <- Hd by done. unfold MemoryStore_Get.
  destruct (ms_data s !! _) as [b|]; simpl; [by destruct (b !! t)|by rewrite lookup_empty].
Qed.

Lemma memory_GetTimestamp {B} n r p a t (s : MemoryStore B) A :
  no_colon r → no_colon p → no_colon a → memory_repr n s A →
  res_opt (MemoryStore_GetTimestamp r p a t s) = al_time A r p a t.
Proof.
  intros Hr Hp Ha [_ [_ Hd] _]. rewrite <- Hd by done. unfold MemoryStore_GetTimestamp.
  destruct (ms_timestamps s !! _) as [b|]; simpl; [by destruct (b !! t)|by rewrite lookup_empty].
Qed.

Lemma memory_GetMulti {B} n r p a ts t (s : MemoryStore B) A :
  no_colon r → no_colon p → no_colon a → memory_repr n s A →
  MemoryStore_GetMulti r p a ts s !! t = if decide (t ∈ ts) then al_data A r p a t else None.
Proof.
  intros Hr Hp Ha [[_ Hd] _ _]. rewrite <- Hd by done. unfold MemoryStore_GetMulti.
  destruct (ms_data s !! _) as [b|]; simpl.
  - rewrite (collect_found_lookup (λ id, b !! id)), lookup_empty.
    case_decide; [by destruct (b !! t)|done].
  - rewrite lookup_empty. by case_decide.
Qed.

Lemma memory_ListTxnIDs {B} n r p a t (s : MemoryStore B) A :
  no_colon r → no_colon p → no_colon a → memory_repr n s A →
  t ∈ MemoryStore_ListTxnIDs r p a s ↔ al_time A r p a t ≠ None.
Proof.
  intros Hr Hp Ha [_ [_ Hd] _]. rewrite <- Hd by done. unfold MemoryStore_ListTxnIDs.
  destruct (ms_timestamps s !! _) as [b|]; simpl.
  - rewrite list_elem_of_fmap. split.
    + intros ([t' z] & -> & Hin%elem_of_map_to_list). simpl. by rewrite Hin.
    + intros Hn. destruct (b !! t) as [z|] eqn:E; [|done]. exists (t, z).
      split; [done|]. by apply elem_of_map_to_list.
  - rewrite lookup_empty. split; [intros H; by apply elem_of_nil in H|done].
Qed.

(** ** Exported entries *)

Lemma memory_entries_spec {B} n r (s : MemoryStore B) A p a t b :
  no_colon r → memory_repr n s A →
  (p, a, t, b) ∈ MemoryStore_entries r s ↔
    no_colon p ∧ no_colon a ∧ al_data A r p a t = Some b.
Proof.
  intros Hr [[Hk Hd] _ _]. unfold MemoryStore_entries. rewrite list_elem_of_In, in_flat_map. split.
  - intros ([k bk] & Hin%list_elem_of_In%elem_of_map_to_list & Hv). cbn [fst snd] in Hv.
    destruct (Hk _ _ Hin) as (r' & p' & a' & Hr' & Hp' & Ha' & ->).
    rewrite bucketKey_run in Hv by done. case_bool_decide as E; [subst r'|done].
    rewrite bucketKey_cons, splitn_three in Hv by done.
    apply in_map_iff in Hv as ([t' b'] & [= -> -> -> ->] & Hv%list_elem_of_In%elem_of_map_to_list).
    split; [done|]. split; [done|]. rewrite <- Hd by done. by rewrite Hin.
  - intros (Hp & Ha & Hv). rewrite <- Hd in Hv by done.
    destruct (ms_data s !! bucketKey r p a) as [bk|] eqn:Hb; simpl in Hv;
      [|by rewrite lookup_empty in Hv].
    exists (bucketKey r p a, bk). split; [by apply list_elem_of_In, elem_of_map_to_list|].
    cbn [fst snd]. rewrite bucketKey_run, bool_decide_true by done.
    rewrite bucketKey_cons, splitn_three by done.
    apply in_map_iff. exists (t, b). split; [done|]. by apply list_elem_of_In, elem_of_map_to_list.
Qed.

Lemma flat_map_bind {X Y} (f : X → list Y) l : flat_map f l = l ≫= f.
Proof. induction l as [|x l IH]; [done|]. cbn [flat_map]. csimpl. by rewrite IH. Qed.

(** [Export] visits nothing twice: the keys of a map are different. *)
Lemma memory_entries_nodup {B} n r (s : MemoryStore B) A :
  no_colon r → memory_repr n s A → NoDup (MemoryStore_entries r s).
Proof.
  intros Hr [[Hk Hd] _ _]. unfold MemoryStore_entries. rewrite flat_map_bind.
  set (f := λ kb : string * gmap string B, _).
  assert (∀ kb, kb ∈ map_to_list (ms_data s) → f kb = [] ∨ ∃ p a, kb.1 = bucketKey r p a ∧
    f kb = (λ tv, (p, a, tv.1, tv.2)) <$> map_to_list kb.2) as Hf.
  { intros [k bk] Hin%elem_of_map_to_list. unfold f. cbn [fst snd].
    destruct (Hk _ _ Hin) as (r' & p' & a' & Hr' & Hp' & Ha' & ->).
    rewrite bucketKey_run by done. case_bool_decide as E; [subst r'|by left].
    right. exists p', a'. split; [done|]. by rewrite bucketKey_cons, splitn_three. }
  clearbody f. apply NoDup_bind; [| |apply NoDup_map_to_list].
  - intros [k1 b1] [k2 b2] y H1 H2 Hy1 Hy2.
    destruct (Hf _ H1) as [E1|(p1 & a1 & Ek1 & E1)]; rewrite E1 in Hy1; [by inversion Hy1|].
    destruct (Hf _ H2) as [E2|(p2 & a2 & Ek2 & E2)]; rewrite E2 in Hy2; [by inversion Hy2|].
    apply list_elem_of_fmap in Hy1 as ([t1 v1] & -> & _), Hy2 as ([t2 v2] & [= <- <- _ _] & _).
    cbn [fst] in *. subst k1 k2. apply elem_of_map_to_list in H1, H2. congruence.
  - intros kb Hin. destruct (Hf kb Hin) as [->|(p & a & _ & ->)]; [constructor|].
    apply NoDup_fmap_2; [|apply NoDup_map_to_list]. by intros [t1 v1] [t2 v2] [= -> ->].
Qed.

#[export] Instance memory_refines {B} t0 t1 : RunLogRefines B (MemoryStore B) t0 t1.
Proof.
  refine {| log_repr := memory_repr |}.
  - split; simpl.
    + split; [intros k b Hk; by rewrite lookup_empty in Hk|].
      intros. by rewrite (lookup_empty (M:=gmap string)).
    + split; [intros k b Hk; by rewrite lookup_empty in Hk|].
      intros. by rewrite (lookup_empty (M:=gmap string)).
    + intros r p a _ _ _. by rewrite (lookup_empty (M:=gmap string)).
  - intros n now o s A Hn _ Ho HR.
    destruct o as [r p a t b|r p a t z|r p a t|r p a ts|r p a|r p a t|r p a|r]; simpl in Ho;
      rewrite ?name_ok_colon in Ho; split_hyps; simpl.
    + split; [done|]. by apply memory_record.
    + split; [done|]. by apply memory_time.
    + split; [|by apply memory_repr_S]. by apply (memory_Get n).
    + split; [|by apply memory_repr_S]. intros t. by apply (memory_GetMulti n).
    + split; [|by apply memory_repr_S]. destruct HR as [_ _ Hc].
      by rewrite <- (proj1 (Hc r p a ltac:(done) ltac:(done) ltac:(done))).
    + split; [|by apply memory_repr_S]. by apply (memory_GetTimestamp n).
    + split; [|by apply memory_repr_S]. intros t. rewrite elem_of_list_to_set.
      by apply (memory_ListTxnIDs n).
    + split; [done|]. by apply memory_cleanup.
  - intros n now r s A p a t b _ Hr HR. rewrite !name_ok_colon in *.
    rewrite (memory_entries_spec n r s A) by done. tauto.
Defined.
