(* ===== verification/Aliasing.v ===== *)
(** * Bodies by reference: the in-memory run log and the buffers of requests

    [recordCallback] gives the in-memory log the slice [ctx.Body()], which is
    valid only while the request is handled: the buffer belongs to Fiber and
    is filled again for a later request.  Here the log holds buffers (it is
    the store of [MemoryStore.v], over references) next to a heap of their
    contents.  When every request has a buffer of its own, the log reads as
    the log of copies of the other files; when a buffer is used again, it
    reads as the later body. *)
From stdpp Require Import prelude gmap list strings.
From S2P Require Import Prelude GoStrings ApiError Redis RunLog MemoryStore.
Local Open Scope string_scope.

Section Aliasing.
Context {B : Type}.

(** A request with a callback of a run, and the buffer its body arrives in. *)
Record inbound := mkInbound {
  ib_buffer : nat; ib_run : string; ib_action : string; ib_txn : string; ib_body : B;
}.
Implicit Types (q : inbound) (heap : gmap nat B) (s : MemoryStore nat).

(** The body is read into the buffer, and the buffer is recorded. *)
Definition receive (w : gmap nat B * MemoryStore nat) q : gmap nat B * MemoryStore nat :=
  (<[ib_buffer q := ib_body q]> w.1,
   MemoryStore_Record (ib_run q) "pipeline_b" (ib_action q) (ib_txn q) (ib_buffer q) w.2).

(** What a reader of the log finds in the buffers. *)
Definition deref heap s : MemoryStore B :=
  mkMS ((λ bucket : gmap string nat, omap (λ i, heap !! i) bucket : gmap string B) <$> ms_data s) (ms_counters s) (ms_timestamps s).

(** The log that copies. *)
Definition record_copy (s : MemoryStore B) q : MemoryStore B :=
  MemoryStore_Record (ib_run q) "pipeline_b" (ib_action q) (ib_txn q) (ib_body q) s.

Definition refers s (i : nat) : Prop := ∃ key bucket t, ms_data s !! key = Some bucket ∧ bucket !! t = Some i.

Lemma deref_record heap s r p a t i b :
  heap !! i = Some b →
  deref heap (MemoryStore_Record r p a t i s) = MemoryStore_Record r p a t b (deref heap s).
Proof.
  intros Hb. unfold MemoryStore_Record. destruct (some_empty r p a t); [done|].
  unfold deref. cbn [ms_data ms_counters ms_timestamps]. f_equal.
  rewrite fmap_insert, lookup_fmap. f_equal. erewrite omap_insert_Some by exact Hb. f_equal.
  destruct (ms_data s !! bucketKey r p a); [done|apply omap_empty].
Qed.

Lemma deref_write heap s i b : ¬ refers s i → deref (<[i := b]> heap) s = deref heap s.
Proof.
  intros Hi. unfold deref. f_equal. apply map_fmap_ext. intros key bucket Hk.
  apply map_eq. intros t. rewrite !lookup_omap. destruct (bucket !! t) as [j|] eqn:Hj; [|done].
  cbn. apply lookup_insert_ne. intros ->. apply Hi. by exists key, bucket, t.
Qed.

Lemma refers_record s r p a t i j : refers (MemoryStore_Record r p a t i s) j → j = i ∨ refers s j.
Proof.
  unfold MemoryStore_Record. destruct (some_empty r p a t); [by right|].
  intros (key & bucket & u & Hk & Hu). cbn [ms_data] in Hk.
  apply lookup_insert_Some in Hk as [[<- <-]|[_ Hk]]; [|right; by exists key, bucket, u].
  apply lookup_insert_Some in Hu as [[_ ->]|[_ Hu]]; [by left|]. right.
  destruct (ms_data s !! bucketKey r p a) as [bk|] eqn:E; [by exists (bucketKey r p a), bk, u|].
  cbn in Hu. by rewrite lookup_empty in Hu.
Qed.

Lemma receive_all qs : ∀ heap s,
  NoDup (ib_buffer <$> qs) → (∀ q, q ∈ qs → ¬ refers s (ib_buffer q)) →
  let '(heap', s') := foldl receive (heap, s) qs in
  deref heap' s' = foldl record_copy (deref heap s) qs.
Proof.
  induction qs as [|q qs IH]; intros heap s Hnd Hf; [done|]. csimpl in *.
  apply NoDup_cons in Hnd as [Hq Hnd]. unfold receive at 2. cbn [fst snd].
  specialize (IH (<[ib_buffer q := ib_body q]> heap)
    (MemoryStore_Record (ib_run q) "pipeline_b" (ib_action q) (ib_txn q) (ib_buffer q) s) Hnd).
  destruct (foldl receive _ qs) as [heap' s']. rewrite IH.
  - unfold record_copy at 2. erewrite deref_record by apply lookup_insert_eq.
    by rewrite deref_write by (apply Hf; left).
  - intros q' Hq' [E|Hr]%refers_record; [|by apply (Hf q'); [right|]].
    apply Hq. rewrite <- E. by apply list_elem_of_fmap_2.
Qed.

(** The payload the log shows for a transaction. *)
Definition shown (w : gmap nat B * MemoryStore nat) (run action txn : string) : option B :=
  res_opt (MemoryStore_Get run "pipeline_b" action txn (deref w.1 w.2)).

Lemma shown_spec w run action txn :
  shown w run action txn =
    (bucket ← ms_data w.2 !! bucketKey run "pipeline_b" action; i ← bucket !! txn; w.1 !! i).
Proof.
  unfold shown, MemoryStore_Get, deref. cbn [ms_data]. rewrite lookup_fmap.
  destruct (ms_data w.2 !! _) as [bucket|]; [|done]. cbn. rewrite lookup_omap.
  destruct (bucket !! txn) as [i|]; [|done]. cbn. by destruct (w.1 !! i).
Qed.

(** The in-memory log holds the payloads it was given if every request has its
    own buffer: it is then the log that copies, for every later call.  If a
    buffer is used again, by a request for another transaction, run or action
    (or one that is not recorded at all), the payload recorded from it
    becomes the later body. *)
Theorem recorded_bodies (qs : list inbound) :
  let w := foldl receive (∅, NewMemoryStore) qs in
  (NoDup (ib_buffer <$> qs) → deref w.1 w.2 = foldl record_copy NewMemoryStore qs) ∧
  ∀ run action txn bucket i q,
    ms_data w.2 !! bucketKey run "pipeline_b" action = Some bucket → bucket !! txn = Some i →
    ib_buffer q = i →
    shown (receive w q) run action txn = Some (ib_body q).
Proof.
  intros w. split.
  - intros Hnd. pose proof (receive_all qs ∅ NewMemoryStore Hnd) as H. fold w in H.
    destruct w as [heap s]. cbn [fst snd]. rewrite H.
    + unfold deref, NewMemoryStore. cbn [ms_data]. by rewrite fmap_empty.
    + intros q _ (key & bucket & t & Hk & _). cbn in Hk. by rewrite lookup_empty in Hk.
  - intros run action txn bucket i q Hk Ht Hi. rewrite shown_spec. unfold receive. cbn [fst snd].
    unfold MemoryStore_Record. destruct (some_empty _ _ _ _).
    { rewrite Hk. cbn. rewrite Ht. cbn. by rewrite Hi, lookup_insert_eq. }
    cbn [ms_data]. destruct (decide (bucketKey (ib_run q) "pipeline_b" (ib_action q)
      = bucketKey run "pipeline_b" action)) as [E|E].
    + rewrite E, lookup_insert_eq, Hk. cbn. destruct (decide (ib_txn q = txn)) as [->|Hne].
      * by rewrite lookup_insert_eq; cbn; rewrite lookup_insert_eq.
      * rewrite lookup_insert_ne, Ht by done. cbn. by rewrite Hi, lookup_insert_eq.
    + rewrite lookup_insert_ne, Hk by done. cbn. rewrite Ht. cbn. by rewrite Hi, lookup_insert_eq.
Qed.
End Aliasing.

(** Two callbacks on one connection: the first transaction shows the body of
    the second. *)
Example second_body_shown :
  let w := foldl receive (∅, NewMemoryStore)
    [mkInbound 0 "r1" "on_select" "t1" "one"; mkInbound 0 "r1" "on_select" "t2" "two"] in
  (shown w "r1" "on_select" "t1", shown w "r1" "on_select" "t2") = (Some "two", Some "two").
Proof. vm_compute. reflexivity. Qed.
