(* ===== verification/RedisRunLog.v ===== *)
(** * The Redis run log: [internal/shared/runlog/redis_store.go]

    Payloads in one hash per run, pipeline and action, times in a second
    hash, the count in a third key; every write renews the expiry.  It
    refines the abstract log while the clock stays within one expiry period
    of the first call. *)
From stdpp Require Import prelude gmap list strings.
From S2P Require Import Prelude GoStrings ApiError Redis RunLog MemoryStore.
Local Open Scope string_scope.

Section RedisStore.
Context {B : Type} `{Bytes B} {R : Type} `{!RedisServer B R}.

(** [NewRedisStore]: the expiry, in nanoseconds. *)
Definition store_ttl (ttlSeconds : Z) : Z :=
  wrap64 ((if ttlSeconds <=? 0 then 600 else ttlSeconds) * 1000000000)%Z.

Definition hashKey (runID pipeline action : string) : string :=
  "runlog:" ++ runID ++ ":" ++ pipeline ++ ":" ++ action.
Definition timestampHashKey (runID pipeline action : string) : string :=
  "runlog:" ++ runID ++ ":ts:" ++ pipeline ++ ":" ++ action.
Definition counterKey (runID pipeline action : string) : string :=
  "runlog:" ++ runID ++ ":count:" ++ pipeline ++ ":" ++ action.

Variable ttl : Z.
Implicit Types (s : R) (now : Z).

Definition RedisStore_Record now (r p a t : string) (payload : B) s : result error unit * R :=
  if some_empty r p a t then (Ok (), s)
  else
    let hk := hashKey r p a in
    match Client_HSet now hk t payload s with
    | (Err e, s1) => (Err (EWrap ("hset " ++ hk) e), s1)
    | (Ok _, s1) =>
        let s2 := (Client_Expire now hk ttl s1).2 in
        let ck := counterKey r p a in
        match Client_Incr now ck s2 with
        | (Err e, s3) => (Err (EWrap ("incr " ++ ck) e), s3)
        | (Ok _, s3) => (Ok (), (Client_Expire now ck ttl s3).2)
        end
    end.

Definition RedisStore_RecordTimestamp now (r p a t : string) (at_ : Z) s : result error unit * R :=
  if some_empty r p a t then (Ok (), s)
  else
    let hk := timestampHashKey r p a in
    match Client_HSet now hk t (b_of_string (FormatInt at_)) s with
    | (Err e, s1) => (Err (EWrap ("hset " ++ hk) e), s1)
    | (Ok _, s1) => (Ok (), (Client_Expire now hk ttl s1).2)
    end.

(** [fmt.Sscanf(raw, "%d", &ns)] on what [FormatInt] writes. *)
Definition RedisStore_GetTimestamp now (r p a t : string) s : result error Z * R :=
  match Client_HGet now (timestampHashKey r p a) t s with
  | (Err e, s1) => (Err e, s1)
  | (Ok None, s1) => (Err (EText ("timestamp not found for txn " ++ t)), s1)
  | (Ok (Some raw), s1) =>
      let '(ns, ok) := ParseInt (b_string raw) in
      (if ok then Ok ns
       else Err (EText ("parse timestamp for txn " ++ t)), s1)
  end.

Definition RedisStore_ListTxnIDs now (r p a : string) s : result error (list string) * R :=
  match Client_HGetAll now (timestampHashKey r p a) s with
  | (Err e, s1) => (Err e, s1)
  | (Ok all, s1) => (Ok (map_to_list all).*1, s1)
  end.

Definition RedisStore_Get now (r p a t : string) s : result error B * R :=
  match Client_HGet now (hashKey r p a) t s with
  | (Err e, s1) => (Err e, s1)
  | (Ok None, s1) => (Err (EText ("txn " ++ t ++ " not found")), s1)
  | (Ok (Some data), s1) => (Ok data, s1)
  end.

Definition RedisStore_GetMulti now (r p a : string) (txnIDs : list string) s
  : result error (gmap string B) * R :=
  match txnIDs with
  | [] => (Ok ∅, s)
  | _ =>
      match Client_HMGet now (hashKey r p a) txnIDs s with
      | (Err e, s1) => (Err e, s1)
      | (Ok vals, s1) => (Ok (collect_found txnIDs vals ∅), s1)
      end
  end.

(** The error of the scan is dropped: [n] keeps what was parsed. *)
Definition RedisStore_Count now (r p a : string) s : result error Z * R :=
  match Client_Get now (counterKey r p a) s with
  | (Err e, s1) => (Err e, s1)
  | (Ok None, s1) => (Ok 0%Z, s1)
  | (Ok (Some data), s1) => (Ok (ParseInt (b_string data)).1, s1)
  end.

Definition RedisStore_Cleanup now (runID : string) s : R :=
  Client_DelPattern now ("runlog:" ++ runID ++ ":") s.

Definition flush_actions : list string :=
  ["pipeline_b:select"; "pipeline_b:on_select"; "pipeline_b:init"; "pipeline_b:on_init";
   "pipeline_b:confirm"; "pipeline_b:on_confirm"].

(** [FlushToFilesystem]: the files written; the directory is named after
    [pa] as a whole, for [filepath.FromSlash] leaves the [':'] in place. *)
Definition RedisStore_FlushToFilesystem now (runID rootDir : string) s : list (string * B) :=
  flat_map (λ pa,
    match (Client_HGetAll now ("runlog:" ++ runID ++ ":" ++ pa) s).1 with
    | Err _ => []
    | Ok all => map (λ tv : string * B,
        (rootDir ++ "/" ++ runID ++ "/" ++ pa ++ "/" ++ tv.1 ++ ".json", tv.2)) (map_to_list all)
    end) flush_actions.

(** The visits of [Export]: the keys that match ["runlog:{run}:*:*"] and
    split into exactly four parts. *)
Definition RedisStore_entries now (runID : string) s : list (visit B) :=
  flat_map (λ key,
    match split colon key with
    | [p0; p1; pipeline; action] =>
        if negb (p0 =? "runlog") || negb (p1 =? runID) || (pipeline =? "") || (action =? "") then []
        else match (Client_HGetAll now key s).1 with
             | Err _ => []
             | Ok all =>
                 map (λ tv : string * B, (pipeline, action, tv.1, tv.2)) (map_to_list all)
             end
    | _ => []
    end)
  (filter (λ k, match cut colon (trim_prefix ("runlog:" ++ runID ++ ":") k) with
                | Some _ => true | None => false end = true)
     (Client_Keys now ("runlog:" ++ runID ++ ":") s)).

Definition RedisStore_Export {A} now (runID : string)
  (fn : option (string → string → string → B → A → option error * A)) (x : A) s
  : option error * A :=
  match fn with
  | None => (None, x)
  | Some fn => export_loop fn (RedisStore_entries now runID s) x
  end.

Definition call_unit (p : result error unit * R) : obs B * R := (OUnit (is_ok p.1), p.2).

Definition redis_log_call now (o : op B) s : obs B * R :=
  match o with
  | RecordPayload r p a t b => call_unit (RedisStore_Record now r p a t b s)
  | RecordTimestamp r p a t z => call_unit (RedisStore_RecordTimestamp now r p a t z s)
  | Get r p a t => let '(x, s1) := RedisStore_Get now r p a t s in (OData (res_opt x), s1)
  | GetMulti r p a ts =>
      let '(x, s1) := RedisStore_GetMulti now r p a ts s in
      (OMulti (default ∅ (res_opt x)), s1)
  | Count r p a => let '(x, s1) := RedisStore_Count now r p a s in (OCount (res_opt x), s1)
  | GetTimestamp r p a t =>
      let '(x, s1) := RedisStore_GetTimestamp now r p a t s in (OTime (res_opt x), s1)
  | ListTxnIDs r p a =>
      let '(x, s1) := RedisStore_ListTxnIDs now r p a s in
      (OTxns (list_to_set (default [] (res_opt x))), s1)
  | Cleanup r => (OUnit true, RedisStore_Cleanup now r s)
  end.
End RedisStore.

(** A Redis server with the store's expiry is a run log. *)
Record redis_log (R : Type) (ttl : Z) := mkRedisLog { rlog_state : R }.
Arguments mkRedisLog {R ttl}.
Arguments rlog_state {R ttl}.

#[export] Instance redis_log_store {B} `{Bytes B} {R} `{!RedisServer B R} {ttl}
  : RunLogStore B (redis_log R ttl) := {|
  log_new := mkRedisLog r_empty;
  log_call now o s :=
    let '(x, s') := redis_log_call ttl now o (rlog_state s) in (x, mkRedisLog s');
  log_export now r s := RedisStore_entries now r (rlog_state s);
  log_flush now r root s := RedisStore_FlushToFilesystem now r root (rlog_state s);
|}.

(** ** The keys *)

Inductive kind := KData | KTime | KCount.

Definition key_of (k : kind) (r p a : string) : string :=
  match k with
  | KData => hashKey r p a
  | KTime => timestampHashKey r p a
  | KCount => counterKey r p a
  end.

Definition key_rest (k : kind) (p a : string) : string :=
  match k with
  | KData => p ++ String colon a
  | KTime => "ts" ++ String colon (p ++ String colon a)
  | KCount => "count" ++ String colon (p ++ String colon a)
  end.

Lemma key_of_split k r p a : key_of k r p a = "runlog:" ++ (r ++ String colon (key_rest k p a)).
Proof. by destruct k. Qed.

Lemma key_rest_inj k p a k' p' a' :
  no_colon p → no_colon a → no_colon p' → no_colon a' →
  key_rest k p a = key_rest k' p' a' → k = k' ∧ p = p' ∧ a = a'.
Proof.
  intros Hp Ha Hp' Ha' E.
  destruct k, k'; cbn [key_rest] in E; apply sep_inj in E as [E1 E2]; try done.
  all: try (by apply no_colon_sep in E2).
  all: try (by symmetry in E2; apply no_colon_sep in E2).
  all: try (by subst).
  all: by apply sep_inj in E2 as [-> ->].
Qed.

Lemma key_of_inj k r p a k' r' p' a' :
  no_colon r → no_colon p → no_colon a → no_colon r' → no_colon p' → no_colon a' →
  key_of k r p a = key_of k' r' p' a' → k = k' ∧ r = r' ∧ p = p' ∧ a = a'.
Proof.
  intros Hr Hp Ha Hr' Hp' Ha' E. rewrite !key_of_split in E.
  apply app_inv_head_str, sep_inj in E as [-> E]; [|done..].
  by apply key_rest_inj in E as (-> & -> & ->).
Qed.

Lemma has_prefix_app_app (x y z : string) : has_prefix (x ++ y) (x ++ z) = has_prefix y z.
Proof.
  induction x as [|c x IH]; [done|].
  change (has_prefix (String c (x ++ y)) (String c (x ++ z)) = has_prefix y z).
  unfold has_prefix in *. cbn.
  destruct (Ascii.ascii_dec c c) as [_|Hc]; [exact IH|by destruct Hc].
Qed.

Lemma key_of_run k r r' p a :
  no_colon r → no_colon r' →
  has_prefix ("runlog:" ++ r ++ ":") (key_of k r' p a) = bool_decide (r = r').
Proof.
  intros Hr Hr'. rewrite key_of_split, has_prefix_app_app.
  change ":" with (String colon ""). by apply has_prefix_sep.
Qed.

(** ** The representation *)
Section Repr.
Context {B : Type} `{Bytes B} {R : Type} `{!RedisServer B R}.
Variables (ttl t0 t1 : Z).
(** No key written in [[t0, t1)] expires before [t1]. *)
Hypothesis Hspan : (t1 ≤ t0 + ttl)%Z.
Implicit Types (s : R) (A : alog B) (now : Z).

Definition hash_of (e : option (entry B)) : gmap string B :=
  match e with Some (VHash h, _) => h | _ => ∅ end.

(** A hash that does not expire before [t1], or no key. *)
Definition hash_ok (e : option (entry B)) : Prop :=
  match e with
  | None => True
  | Some (VHash _, Some ex) => (t1 ≤ ex)%Z
  | _ => False
  end.

(** What the entry of a key must be, given the abstract log. *)
Definition cell_ok (n : nat) A (k : kind) (r p a : string) (e : option (entry B)) : Prop :=
  match k with
  | KData => hash_ok e ∧ ∀ t, hash_of e !! t = al_data A r p a t
  | KTime => hash_ok e ∧ ∀ t,
      match hash_of e !! t with
      | Some b => ∃ z, ParseInt (b_string b) = (z, true) ∧ al_time A r p a t = Some z
      | None => al_time A r p a t = None
      end
  | KCount =>
      (0 ≤ al_count A r p a ≤ Z.of_nat n)%Z ∧
      match e with
      | None => al_count A r p a = 0%Z
      | Some (VStr b, Some ex) => ParseInt (b_string b) = (al_count A r p a, true) ∧ (t1 ≤ ex)%Z
      | _ => False
      end
  end.

Record redis_repr (n : nat) s A : Prop := mkRedisRepr {
  rr_cell : ∀ k r p a, no_colon r → no_colon p → no_colon a →
    cell_ok n A k r p a (r_lookup s (key_of k r p a));
  rr_keys : ∀ key, has_prefix "runlog:" key = true → r_lookup s key ≠ None →
    ∃ k r p a, no_colon r ∧ no_colon p ∧ no_colon a ∧ key = key_of k r p a;
}.

Lemma hash_ok_live now e : (now < t1)%Z → hash_ok e → live now e = e.
Proof.
  intros Hn. destruct e as [[[b|h] [ex|]]|]; simpl; try done. intros Hx. unfold is_live; simpl.
  by rewrite (proj2 (Z.ltb_lt _ _)) by lia.
Qed.

Lemma cell_live n A k r p a now e : (now < t1)%Z → cell_ok n A k r p a e → live now e = e.
Proof.
  intros Hn Hc. destruct k; simpl in Hc; [apply hash_ok_live; [done|apply Hc]..|].
  destruct Hc as [_ Hc]. destruct e as [[[b|h] [ex|]]|]; try done.
  destruct Hc as [_ Hc]. simpl. unfold is_live; simpl.
  by rewrite (proj2 (Z.ltb_lt _ _)) by lia.
Qed.

Lemma cell_mono n A k r p a e : cell_ok n A k r p a e → cell_ok (S n) A k r p a e.
Proof. destruct k; simpl; [done..|]. intros [? ?]. split; [lia|done]. Qed.

Lemma redis_repr_S n s A : redis_repr n s A → redis_repr (S n) s A.
Proof. intros [H1 H2]. split; [|done]. intros. by apply cell_mono, H1. Qed.

(** Two calls on one key: a write and the new expiry. *)
Definition put now key (c : cmd B) s : R :=
  (Client_Expire now key ttl (r_exec now key c s).2).2.

Lemma put_other now key c s key' : key' ≠ key → r_lookup (put now key c s) key' = r_lookup s key'.
Proof. intros Hne. unfold put. rewrite Client_Expire_state. by rewrite !exec_lookup_other. Qed.

Lemma put_same now key c s v ex :
  (cmd_spec now c (view now key s)).2 = Some (v, ex) →
  live now (Some (v, ex)) = Some (v, ex) →
  r_lookup (put now key c s) key = Some (v, Some (now + ttl)%Z).
Proof.
  intros Hc Hl. unfold put. rewrite Client_Expire_state, exec_lookup_same.
  unfold view. by rewrite exec_lookup_same, Hc, Hl.
Qed.

(** A field of a live hash is set. *)
Lemma put_hset now key f v s :
  (t0 ≤ now < t1)%Z → hash_ok (r_lookup s key) →
  is_ok (Client_HSet now key f v s).1 = true ∧
  r_lookup (put now key (CHSet f v) s) key =
    Some (VHash (<[f := v]> (hash_of (r_lookup s key))), Some (now + ttl)%Z).
Proof.
  intros Hn Hok. pose proof (hash_ok_live now _ (proj2 Hn) Hok) as Hl.
  pose proof (r_exec_reply now key (CHSet f v) s) as Hr. rewrite Hl in Hr.
  assert (∃ z, (r_exec now key (CHSet f v) s).1 = ReplyInt z) as [z Hz].
  { rewrite Hr. destruct (r_lookup s key) as [[[b|h] [ex|]]|]; simpl; try done; eauto. }
  split.
  - unfold Client_HSet. destruct (r_exec now key (CHSet f v) s). simpl in *.
    by rewrite Hz.
  - unfold hash_ok in Hok. destruct (r_lookup s key) as [[[b|h] [ex|]]|] eqn:E; try done.
    + eapply (put_same _ _ _ _ _ (Some ex)); [unfold view; by rewrite E, Hl|].
      simpl in *. unfold is_live in *. simpl in *. by destruct (now <? ex)%Z.
    + eapply (put_same _ _ _ _ _ None); [unfold view; by rewrite E|done].
Qed.
(** The counter of a live key is incremented. *)
Lemma put_incr now key n s c :
  (Z.of_nat (S n) < 2 ^ 63)%Z → (t0 ≤ now < t1)%Z → (0 ≤ c ≤ Z.of_nat n)%Z →
  match r_lookup s key with
  | None => c = 0%Z
  | Some (VStr b, Some ex) => ParseInt (b_string b) = (c, true) ∧ (t1 ≤ ex)%Z
  | _ => False
  end →
  is_ok (Client_Incr now key s).1 = true ∧
  ∃ b, r_lookup (put now key (CIncrBy 1) s) key = Some (VStr b, Some (now + ttl)%Z) ∧
    ParseInt (b_string b) = ((c + 1)%Z, true).
Proof.
  intros Hn Hnow Hc Hcell.
  assert (∀ z, (0 ≤ z ≤ Z.of_nat (S n))%Z →
    ParseInt (b_string (b_of_string (FormatInt z))) = (z, true)) as Hfmt.
  { intros z Hz. rewrite b_string_of, ParseInt_FormatInt; [done|]. unfold in_int64. lia. }
  pose proof (r_exec_reply now key (CIncrBy 1) s) as Hr.
  unfold Client_Incr, Client_IncrBy.
  destruct (r_exec now key (CIncrBy 1) s) as [rp s1] eqn:Ex. cbn [fst] in Hr.
  destruct (r_lookup s key) as [[[b|h] [ex|]]|] eqn:E; try done.
  - destruct Hcell as [Hp Hex].
    assert (live now (Some (VStr b, Some ex)) = Some (VStr b, Some ex)) as Hl.
    { simpl. unfold is_live; simpl. by rewrite (proj2 (Z.ltb_lt _ _)) by lia. }
    assert (cmd_spec now (CIncrBy 1) (Some (VStr b, Some ex)) =
      (ReplyInt (c + 1), Some (VStr (b_of_string (FormatInt (c + 1))), Some ex))) as Hs.
    { simpl. rewrite Hp. simpl. rewrite (proj2 (Z.leb_le _ _)), (proj2 (Z.ltb_lt _ _)) by lia.
      done. }
    rewrite Hl, Hs in Hr. split.
    + by rewrite Hr.
    + eexists. split.
      * eapply (put_same _ _ _ _ _ (Some ex)); [unfold view; by rewrite E, Hl, Hs|].
        unfold live, is_live; simpl. by rewrite (proj2 (Z.ltb_lt _ _)) by lia.
      * apply Hfmt. lia.
  - subst c. simpl in Hr. split; [by rewrite Hr|]. eexists. split.
    + eapply (put_same _ _ _ _ _ None); [unfold view; by rewrite E|done].
    + apply (Hfmt 1%Z). lia.
Qed.

(** One key of the store changes, and the abstract log with it. *)
Lemma repr_update n s s' A A' k r p a :
  redis_repr n s A → no_colon r → no_colon p → no_colon a →
  (∀ key, key ≠ key_of k r p a → r_lookup s' key = r_lookup s key) →
  cell_ok n A' k r p a (r_lookup s' (key_of k r p a)) →
  (∀ k' r' p' a' e, k' = k → eqb3 r p a r' p' a' = false →
    cell_ok n A k' r' p' a' e → cell_ok n A' k' r' p' a' e) →
  (∀ k' r' p' a' e, k' ≠ k → cell_ok n A k' r' p' a' e → cell_ok n A' k' r' p' a' e) →
  redis_repr n s' A'.
Proof.
  intros [Hcell Hkeys] Hr Hp Ha Hother Hsame Hn1 Hn2. split.
  - intros k' r' p' a' Hr' Hp' Ha'.
    destruct (decide (key_of k' r' p' a' = key_of k r p a)) as [E|E].
    + rewrite E. by apply key_of_inj in E as (-> & -> & -> & ->).
    + rewrite Hother by done. specialize (Hcell k' r' p' a' Hr' Hp' Ha').
      assert (k' = k ∨ k' ≠ k) as [->|] by (destruct k', k; auto; by right); [|by apply Hn2].
      apply Hn1; [done| |done]. destruct (eqb3 r p a r' p' a') eqn:E3; [|done].
      by apply eqb3_true in E3 as (-> & -> & ->).
  - intros key Hkey Hin. destruct (decide (key = key_of k r p a)) as [->|].
    + by exists k, r, p, a.
    + rewrite Hother in Hin by done. by apply Hkeys.
Qed.

(** The writes. *)

Lemma redis_record n now r p a t b s A :
  (Z.of_nat (S n) < 2 ^ 63)%Z → (t0 ≤ now < t1)%Z → no_colon r → no_colon p → no_colon a →
  redis_repr n s A →
  is_ok (RedisStore_Record ttl now r p a t b s).1 = true ∧
  redis_repr (S n) (RedisStore_Record ttl now r p a t b s).2
    (alog_next (RecordPayload r p a t b) A).
Proof.
  intros Hn Hnow Hr Hp Ha HR. unfold RedisStore_Record, alog_next.
  destruct (some_empty r p a t); [split; [done|]; by apply redis_repr_S|].
  pose proof (rr_cell _ _ _ HR KData r p a Hr Hp Ha) as [Hh Hd].
  destruct (put_hset now (hashKey r p a) t b s Hnow Hh) as [Hok1 Hl1].
  destruct (Client_HSet now (hashKey r p a) t b s) as [[u|e] s1] eqn:E1; [|done].
  assert (Hs1 : s1 = (r_exec now (hashKey r p a) (CHSet t b) s).2)
    by (rewrite <- Client_HSet_state; by rewrite E1).
  set (s2 := (Client_Expire now (hashKey r p a) ttl s1).2).
  assert (Hs2 : s2 = put now (hashKey r p a) (CHSet t b) s) by by (unfold s2, put; rewrite Hs1).
  set (A1 := mkLog (al_data (alog_record r p a t b A)) (al_time A) (al_count A)).
  assert (redis_repr n s2 A1) as HR1.
  { rewrite Hs2. apply (repr_update n s _ A A1 KData r p a HR Hr Hp Ha).
    - intros key Hkey. by apply put_other.
    - change (key_of KData r p a) with (hashKey r p a). rewrite Hl1. split; [simpl; lia|].
      intros t'. simpl. rewrite (proj2 (eqb3_true r p a r p a)) by done. simpl.
      destruct (String.eqb_spec t' t) as [->|]; [by rewrite lookup_insert_eq|].
      rewrite lookup_insert_ne by done. apply Hd.
    - intros k' r' p' a' e -> E [H1 H2]. split; [done|]. intros t'. simpl. rewrite E. apply H2.
    - intros k' r' p' a' e Hk. by destruct k'. }
  pose proof (rr_cell _ _ _ HR1 KCount r p a Hr Hp Ha) as [Hc1 Hc2].
  destruct (put_incr now (counterKey r p a) n s2 _ Hn Hnow Hc1 Hc2) as (Hok2 & bc & Hl2 & Hp2).
  destruct (Client_Incr now (counterKey r p a) s2) as [[z|e] s3] eqn:E3; [|done].
  assert (Hs3 : s3 = (r_exec now (counterKey r p a) (CIncrBy 1) s2).2)
    by (rewrite <- Client_IncrBy_state; unfold Client_Incr in E3; by rewrite E3).
  split; [done|].
  assert (Hs4 : (Client_Expire now (counterKey r p a) ttl s3).2 =
    put now (counterKey r p a) (CIncrBy 1) s2) by by (unfold put; rewrite Hs3).
  cbn [snd]. rewrite Hs4.
  apply (repr_update (S n) s2 _ A1 _ KCount r p a); try done.
  - by apply redis_repr_S.
  - intros key Hkey. by apply put_other.
  - change (key_of KCount r p a) with (counterKey r p a). rewrite Hl2. simpl.
    rewrite (proj2 (eqb3_true r p a r p a)) by done. simpl in Hc1, Hp2.
    split; [lia|]. split; [done|lia].
  - intros k' r' p' a' e -> E. simpl. rewrite E. by rewrite Z.add_0_r.
  - intros k' r' p' a' e Hk. by destruct k'.
Qed.

Lemma redis_time n now r p a t z s A :
  (t0 ≤ now < t1)%Z → no_colon r → no_colon p → no_colon a → in_int64 z →
  redis_repr n s A →
  is_ok (RedisStore_RecordTimestamp ttl now r p a t z s).1 = true ∧
  redis_repr (S n) (RedisStore_RecordTimestamp ttl now r p a t z s).2
    (alog_next (RecordTimestamp r p a t z) A).
Proof.
  intros Hnow Hr Hp Ha Hz HR. unfold RedisStore_RecordTimestamp, alog_next.
  destruct (some_empty r p a t); [split; [done|]; by apply redis_repr_S|].
  set (b := b_of_string (FormatInt z)).
  assert (ParseInt (b_string b) = (z, true)) as Hb
    by (unfold b; by rewrite b_string_of, ParseInt_FormatInt).
  pose proof (rr_cell _ _ _ HR KTime r p a Hr Hp Ha) as [Hh Hd].
  destruct (put_hset now (timestampHashKey r p a) t b s Hnow Hh) as [Hok1 Hl1].
  destruct (Client_HSet now (timestampHashKey r p a) t b s) as [[u|e] s1] eqn:E1; [|done].
  assert (Hs1 : s1 = (r_exec now (timestampHashKey r p a) (CHSet t b) s).2)
    by (rewrite <- Client_HSet_state; by rewrite E1).
  split; [done|]. cbn [snd].
  replace (Client_Expire now (timestampHashKey r p a) ttl s1).2
    with (put now (timestampHashKey r p a) (CHSet t b) s) by by (unfold put; rewrite Hs1).
  apply redis_repr_S, (repr_update n s _ A _ KTime r p a HR Hr Hp Ha).
  - intros key Hkey. by apply put_other.
  - change (key_of KTime r p a) with (timestampHashKey r p a). rewrite Hl1.
    split; [simpl; lia|]. intros t'. simpl.
    rewrite (proj2 (eqb3_true r p a r p a)) by done. simpl.
    destruct (String.eqb_spec t' t) as [->|]; [rewrite lookup_insert_eq; by exists z|].
    rewrite lookup_insert_ne by done. apply Hd.
  - intros k' r' p' a' e -> E [H1 H2]. split; [done|]. intros t'. simpl. rewrite E. apply H2.
  - intros k' r' p' a' e Hk. by destruct k'.
Qed.

(** The reads leave the entry of their key. *)
Lemma repr_read n now c k r p a s A :
  (∀ e, (cmd_spec now c e).2 = e) → (now < t1)%Z → no_colon r → no_colon p → no_colon a →
  redis_repr n s A → redis_repr (S n) (r_exec now (key_of k r p a) c s).2 A.
Proof.
  intros Hread Hnow Hr Hp Ha HR. apply redis_repr_S.
  apply (repr_update n s _ A A k r p a HR Hr Hp Ha); try done.
  - intros key Hkey. by apply exec_lookup_other.
  - pose proof (rr_cell _ _ _ HR k r p a Hr Hp Ha) as Hc.
    rewrite exec_lookup_same, Hread. unfold view. by rewrite (cell_live _ _ _ _ _ _ _ _ Hnow Hc).
Qed.

Lemma redis_get n now r p a t s A :
  (now < t1)%Z → no_colon r → no_colon p → no_colon a → redis_repr n s A →
  res_opt (RedisStore_Get now r p a t s).1 = al_data A r p a t ∧
  redis_repr (S n) (RedisStore_Get now r p a t s).2 A.
Proof.
  intros Hnow Hr Hp Ha HR. pose proof (rr_cell _ _ _ HR KData r p a Hr Hp Ha) as Hc.
  change (key_of KData r p a) with (hashKey r p a) in Hc.
  pose proof (cell_live _ _ _ _ _ _ _ _ Hnow Hc) as Hl. destruct Hc as [Hh Hd].
  pose proof (r_exec_reply now (hashKey r p a) (CHGet t) s) as Hrep. rewrite Hl in Hrep.
  assert (redis_repr (S n) (r_exec now (hashKey r p a) (CHGet t) s).2 A) as HR'
    by (apply (repr_read _ _ _ KData); try done; by intros [[[]?]|]).
  unfold RedisStore_Get, Client_HGet.
  destruct (r_exec now (hashKey r p a) (CHGet t) s) as [rp s1]. cbn [fst snd] in *.
  specialize (Hd t).
  destruct (r_lookup s (hashKey r p a)) as [[[b|h] ex]|]; try done; simpl in Hrep, Hd.
  - by destruct (h !! t) eqn:E; subst rp; simpl; rewrite <- Hd.
  - subst rp; simpl. by rewrite <- Hd.
Qed.

Lemma redis_get_time n now r p a t s A :
  (now < t1)%Z → no_colon r → no_colon p → no_colon a → redis_repr n s A →
  res_opt (RedisStore_GetTimestamp now r p a t s).1 = al_time A r p a t ∧
  redis_repr (S n) (RedisStore_GetTimestamp now r p a t s).2 A.
Proof.
  intros Hnow Hr Hp Ha HR. pose proof (rr_cell _ _ _ HR KTime r p a Hr Hp Ha) as Hc.
  change (key_of KTime r p a) with (timestampHashKey r p a) in Hc.
  pose proof (cell_live _ _ _ _ _ _ _ _ Hnow Hc) as Hl. destruct Hc as [Hh Hd].
  pose proof (r_exec_reply now (timestampHashKey r p a) (CHGet t) s) as Hrep.
  rewrite Hl in Hrep.
  assert (redis_repr (S n) (r_exec now (timestampHashKey r p a) (CHGet t) s).2 A) as HR'
    by (apply (repr_read _ _ _ KTime); try done; by intros [[[]?]|]).
  unfold RedisStore_GetTimestamp, Client_HGet.
  destruct (r_exec now (timestampHashKey r p a) (CHGet t) s) as [rp s1]. cbn [fst snd] in *.
  specialize (Hd t).
  destruct (r_lookup s (timestampHashKey r p a)) as [[[b|h] ex]|]; try done; simpl in Hrep, Hd.
  - destruct (h !! t) as [b|] eqn:E; subst rp; simpl; [|by rewrite Hd].
    destruct Hd as (z & Hz & ->). by rewrite Hz.
  - subst rp; simpl. by rewrite Hd.
Qed.

Lemma redis_get_multi n now r p a ts s A :
  (now < t1)%Z → no_colon r → no_colon p → no_colon a → redis_repr n s A →
  (∀ t, default ∅ (res_opt (RedisStore_GetMulti now r p a ts s).1) !! t =
     if decide (t ∈ ts) then al_data A r p a t else None) ∧
  redis_repr (S n) (RedisStore_GetMulti now r p a ts s).2 A.
Proof.
  intros Hnow Hr Hp Ha HR. pose proof (rr_cell _ _ _ HR KData r p a Hr Hp Ha) as Hc.
  change (key_of KData r p a) with (hashKey r p a) in Hc.
  pose proof (cell_live _ _ _ _ _ _ _ _ Hnow Hc) as Hl. destruct Hc as [Hh Hd].
  unfold RedisStore_GetMulti. destruct ts as [|t1' ts'].
  { split; [|by apply redis_repr_S]. intros t. simpl. apply lookup_empty. }
  set (ts := t1' :: ts'). clearbody ts.
  pose proof (r_exec_reply now (hashKey r p a) (CHMGet ts) s) as Hrep. rewrite Hl in Hrep.
  assert (redis_repr (S n) (r_exec now (hashKey r p a) (CHMGet ts) s).2 A) as HR'
    by (apply (repr_read _ _ _ KData); try done; by intros [[[]?]|]).
  unfold Client_HMGet.
  destruct (r_exec now (hashKey r p a) (CHMGet ts) s) as [rp s1]. cbn [fst snd] in *.
  assert (rp = ReplyMulti (map (λ f, hash_of (r_lookup s (hashKey r p a)) !! f) ts)) as ->.
  { rewrite Hrep. destruct (r_lookup s (hashKey r p a)) as [[[b|h] ex]|]; try done. }
  split; [|done]. intros t. simpl res_opt. cbn [default]. unfold id.
  rewrite (collect_found_lookup (λ f, hash_of (r_lookup s (hashKey r p a)) !! f)).
  rewrite lookup_empty, Hd.
  case_decide; [by destruct (al_data A r p a t)|done].
Qed.

Lemma redis_list n now r p a s A :
  (now < t1)%Z → no_colon r → no_colon p → no_colon a → redis_repr n s A →
  (∀ t, t ∈ default [] (res_opt (RedisStore_ListTxnIDs now r p a s).1) ↔ al_time A r p a t ≠ None) ∧
  redis_repr (S n) (RedisStore_ListTxnIDs now r p a s).2 A.
Proof.
  intros Hnow Hr Hp Ha HR. pose proof (rr_cell _ _ _ HR KTime r p a Hr Hp Ha) as Hc.
  change (key_of KTime r p a) with (timestampHashKey r p a) in Hc.
  pose proof (cell_live _ _ _ _ _ _ _ _ Hnow Hc) as Hl. destruct Hc as [Hh Hd].
  pose proof (r_exec_reply now (timestampHashKey r p a) CHGetAll s) as Hrep. rewrite Hl in Hrep.
  assert (redis_repr (S n) (r_exec now (timestampHashKey r p a) CHGetAll s).2 A) as HR'
    by (apply (repr_read _ _ _ KTime); try done; by intros [[[]?]|]).
  unfold RedisStore_ListTxnIDs, Client_HGetAll.
  destruct (r_exec now (timestampHashKey r p a) CHGetAll s) as [rp s1]. cbn [fst snd] in *.
  assert (rp = ReplyHash (hash_of (r_lookup s (timestampHashKey r p a)))) as ->.
  { rewrite Hrep. by destruct (r_lookup s (timestampHashKey r p a)) as [[[b|h] ex]|]. }
  split; [|done]. intros t. specialize (Hd t). simpl.
  rewrite list_elem_of_fmap. split.
  - intros ([t' b] & -> & Hin%elem_of_map_to_list). simpl in *. rewrite Hin in Hd.
    by destruct Hd as (z & _ & ->).
  - intros Hne. destruct (hash_of _ !! t) as [b|] eqn:E; [|done].
    exists (t, b). split; [done|]. by apply elem_of_map_to_list.
Qed.

Lemma redis_count n now r p a s A :
  (now < t1)%Z → no_colon r → no_colon p → no_colon a → redis_repr n s A →
  res_opt (RedisStore_Count now r p a s).1 = Some (al_count A r p a) ∧
  redis_repr (S n) (RedisStore_Count now r p a s).2 A.
Proof.
  intros Hnow Hr Hp Ha HR. pose proof (rr_cell _ _ _ HR KCount r p a Hr Hp Ha) as Hc.
  change (key_of KCount r p a) with (counterKey r p a) in Hc.
  pose proof (cell_live _ _ _ _ _ _ _ _ Hnow Hc) as Hl. destruct Hc as [Hh Hd].
  pose proof (r_exec_reply now (counterKey r p a) CGet s) as Hrep. rewrite Hl in Hrep.
  assert (redis_repr (S n) (r_exec now (counterKey r p a) CGet s).2 A) as HR'
    by (apply (repr_read _ _ _ KCount); try done; by intros [[[]?]|]).
  unfold RedisStore_Count, Client_Get.
  destruct (r_exec now (counterKey r p a) CGet s) as [rp s1]. cbn [fst snd] in *.
  destruct (r_lookup s (counterKey r p a)) as [[[b|h] [ex|]]|]; try done; simpl in Hrep; subst rp.
  - destruct Hd as [Hd _]. simpl. by rewrite Hd.
  - simpl. by rewrite Hd.
Qed.

Lemma redis_cleanup n now r s A :
  (now < t1)%Z → no_colon r → redis_repr n s A →
  redis_repr (S n) (RedisStore_Cleanup now r s) (alog_next (Cleanup r) A).
Proof.
  intros Hnow Hr HR. apply redis_repr_S. destruct HR as [Hcell Hkeys]. unfold RedisStore_Cleanup.
  split.
  - intros k r' p a Hr' Hp Ha. specialize (Hcell k r' p a Hr' Hp Ha).
    rewrite DelPattern_lookup, key_of_run by done. unfold view.
    rewrite (cell_live _ _ _ _ _ _ _ _ Hnow Hcell).
    case_bool_decide as E; [subst r'|].
    + assert (match r_lookup s (key_of k r p a) with
              | Some _ => None | None => r_lookup s (key_of k r p a) end = None) as ->
        by by destruct (r_lookup s (key_of k r p a)).
      destruct k; simpl; rewrite String.eqb_refl; 
        (split; [done || lia|intros; rewrite ?lookup_empty; done]).
    + assert ((r' =? r) = false) as E' by (apply String.eqb_neq; congruence).
      destruct k; simpl in *; by rewrite E'.
  - intros key Hkey Hne. rewrite DelPattern_lookup in Hne. apply Hkeys; [done|].
    revert Hne. destruct (has_prefix ("runlog:" ++ r ++ ":") key), (view now key s); intros Hne;
      first [exact Hne | by destruct Hne].
Qed.

Lemma redis_repr_new : redis_repr 0 r_empty alog_empty.
Proof.
  split.
  - intros k r p a _ _ _. rewrite r_lookup_empty.
    destruct k; simpl; (split; [done || lia|intros; rewrite ?lookup_empty; done]).
  - intros key _ Hne. by rewrite r_lookup_empty in Hne.
Qed.
End Repr.

(** ** Exported entries *)

Lemma split_key_of k r p a :
  no_colon r → no_colon p → no_colon a →
  split colon (key_of k r p a) =
    match k with
    | KData => ["runlog"; r; p; a]
    | KTime => ["runlog"; r; "ts"; p; a]
    | KCount => ["runlog"; r; "count"; p; a]
    end.
Proof.
  intros Hr Hp Ha. destruct k; cbn [key_of].
  - change (hashKey r p a)
      with ("runlog" ++ String colon (r ++ String colon (p ++ String colon a))).
    by rewrite !split_cons, split_none by done.
  - change (timestampHashKey r p a) with ("runlog" ++ String colon (r ++ String colon
      ("ts" ++ String colon (p ++ String colon a)))).
    by rewrite !split_cons, split_none by done.
  - change (counterKey r p a) with ("runlog" ++ String colon (r ++ String colon
      ("count" ++ String colon (p ++ String colon a)))).
    by rewrite !split_cons, split_none by done.
Qed.

Lemma HGetAll_hash {B} `{Bytes B} {R} `{!RedisServer B R} t1 now key (s : R) :
  (now < t1)%Z → hash_ok t1 (r_lookup s key) →
  (Client_HGetAll now key s).1 = Ok (hash_of (r_lookup s key)).
Proof.
  intros Hn Hok. unfold Client_HGetAll.
  pose proof (r_exec_reply now key CHGetAll s) as Hrep.
  rewrite (hash_ok_live t1 now _ Hn Hok) in Hrep.
  destruct (r_exec now key CHGetAll s) as [rp s1]. simpl in *. subst rp.
  by destruct (r_lookup s key) as [[[b|h] [ex|]]|].
Qed.

Lemma redis_entries_spec {B} `{Bytes B} {R} `{!RedisServer B R} t1 now n r (s : R) A p a t b :
  (now < t1)%Z → no_colon r → redis_repr t1 n s A →
  (p, a, t, b) ∈ RedisStore_entries now r s ↔
    no_colon p ∧ no_colon a ∧ p ≠ "" ∧ a ≠ "" ∧ al_data A r p a t = Some b.
Proof.
  intros Hnow Hr HR. unfold RedisStore_entries. rewrite list_elem_of_In, in_flat_map. split.
  - intros (key & Hin%list_elem_of_In%list_elem_of_filter & Hv). destruct Hin as [_ Hin].
    apply Client_Keys_spec in Hin as [Hpre Hlive].
    destruct (rr_keys _ _ _ _ HR key) as (k & r' & p' & a' & Hr' & Hp' & Ha' & ->).
    + apply has_prefix_true in Hpre as [u ->]. rewrite !app_assoc_str. apply has_prefix_app.
    + intros E. by rewrite E in Hlive.
    + rewrite key_of_run in Hpre by done. case_bool_decide; [subst r'|done].
      rewrite split_key_of in Hv by done. destruct k; try done.
      destruct (String.eqb_spec r r); [|done]. cbn [negb orb] in Hv.
      destruct (String.eqb_spec p' ""), (String.eqb_spec a' ""); try done. cbn [orb] in Hv.
      pose proof (rr_cell _ _ _ _ HR KData r p' a' Hr Hp' Ha') as [Hok Hd].
      rewrite (HGetAll_hash t1) in Hv by done.
      apply in_map_iff in Hv as ([t' b'] & [= -> -> -> ->] & Hv).
      apply list_elem_of_In, elem_of_map_to_list in Hv. cbn [key_of] in Hd.
      split_and!; try done. by rewrite <- Hd.
  - intros (Hp & Ha & Hpe & Hae & Hv).
    pose proof (rr_cell _ _ _ _ HR KData r p a Hr Hp Ha) as [Hok Hd]. rewrite <- Hd in Hv.
    exists (key_of KData r p a). split.
    + apply list_elem_of_In, list_elem_of_filter. split.
      * change (key_of KData r p a) with ("runlog:" ++ (r ++ (":" ++ (p ++ String colon a)))).
        replace ("runlog:" ++ (r ++ (":" ++ (p ++ String colon a))))
          with (("runlog:" ++ r ++ ":") ++ (p ++ String colon a)) by (by rewrite !app_assoc_str).
        by rewrite trim_prefix_app, cut_app.
      * apply Client_Keys_spec. split; [rewrite key_of_run by done; by apply bool_decide_eq_true|].
        rewrite (hash_ok_live t1) by done. intros E. rewrite E in Hv. simpl in Hv.
        by rewrite lookup_empty in Hv.
    + rewrite split_key_of by done. destruct (String.eqb_spec r r); [|done]. cbn [negb orb].
      destruct (String.eqb_spec p ""), (String.eqb_spec a ""); try done. cbn [orb].
      cbn [key_of] in *. rewrite (HGetAll_hash t1) by done.
      apply in_map_iff. exists (t, b). split; [done|]. by apply list_elem_of_In, elem_of_map_to_list.
Qed.

#[export] Instance redis_refines {B} `{Bytes B} {R} `{!RedisServer B R} ttl t0 t1 :
  TCEq (t1 <=? t0 + ttl)%Z true →
  RunLogRefines B (redis_log R ttl) t0 t1.
Proof.
  intros Hspan%TCEq_eq%Z.leb_le.
  refine {| log_repr n s A := redis_repr t1 n (rlog_state s) A |}.
  - apply redis_repr_new.
  - intros n now o [s] A Hn [Hnow1 Hnow2] Ho HR. cbn [rlog_state] in HR.
    pose proof (conj Hnow1 Hnow2) as Hnow.
    cbn [log_call redis_log_store rlog_state].
    destruct o as [r p a t b|r p a t z|r p a t|r p a ts|r p a|r p a t|r p a|r];
      simpl in Ho; rewrite ?name_ok_colon in Ho; split_hyps; cbn [redis_log_call alog_next].
    + destruct (redis_record ttl t0 t1 Hspan n now r p a t b s A) as [E1 E2]; try done.
    + destruct (redis_time ttl t0 t1 Hspan n now r p a t z s A) as [E1 E2]; try done.
    + destruct (redis_get t1 n now r p a t s A) as [E1 E2]; try done.
      destruct (RedisStore_Get now r p a t s). done.
    + destruct (redis_get_multi t1 n now r p a ts s A) as [E1 E2]; try done.
      destruct (RedisStore_GetMulti now r p a ts s). done.
    + destruct (redis_count t1 n now r p a s A) as [E1 E2]; try done.
      destruct (RedisStore_Count now r p a s). done.
    + destruct (redis_get_time t1 n now r p a t s A) as [E1 E2]; try done.
      destruct (RedisStore_GetTimestamp now r p a t s). done.
    + destruct (redis_list t1 n now r p a s A) as [E1 E2]; try done.
      destruct (RedisStore_ListTxnIDs now r p a s). cbn. split; [|done].
      intros t. rewrite elem_of_list_to_set. apply E1.
    + split; [done|]. by apply redis_cleanup.
  - intros n now r [s] A p a t b [_ Hnow] Hr HR. rewrite !name_ok_colon in *.
    cbn [log_export redis_log_store rlog_state] in *.
    rewrite (redis_entries_spec t1 now n r s A) by done. tauto.
Defined.

(** ** Theorems *)

(** The in-memory store implements the abstract log: every answer of
    every session of calls on a new [MemoryStore] ([Record], [Get],
    [GetMulti], [Count], [RecordTimestamp], [GetTimestamp], [ListTxnIDs],
    [Cleanup], on names without [':']) is that of the abstract log, in which
    buckets do not mix, counts are exact and a clean-up forgets its run and
    nothing else. *)
Theorem memory_store_refines {B} (cs : list (Z * op B)) t0 t1 :
  calls_ok t0 t1 cs → alog_answers cs alog_empty (log_calls cs (NewMemoryStore (B:=B))).1.
Proof.
  intros [Hn Hok]. by apply (log_calls_answers (t0:=t0) (t1:=t1) cs 0);
    [..|apply (log_repr_new (RunLogRefines:=memory_refines t0 t1))].
Qed.

(** C9: The two stores are interchangeable: on any Redis server and while no
    more than the expiry passes, a session of calls on a new [RedisStore] has
    the answers it has on a new [MemoryStore]. *)
Theorem stores_interchangeable {B} `{Bytes B} {R} `{!RedisServer B R} (cs : list (Z * op B))
  ttlSeconds t0 :
  calls_ok t0 (t0 + store_ttl ttlSeconds) cs →
  (log_calls cs (mkRedisLog r_empty : redis_log R (store_ttl ttlSeconds))).1 =
  (log_calls cs (NewMemoryStore (B:=B))).1.
Proof.
  intros [Hn Hok].
  assert (TCEq (t0 + store_ttl ttlSeconds <=? t0 + store_ttl ttlSeconds)%Z true) as Hs
    by (rewrite Z.leb_refl; constructor).
  pose (R1 := redis_refines (R:=R) (store_ttl ttlSeconds) t0 _ Hs).
  pose (R2 := memory_refines (B:=B) t0 (t0 + store_ttl ttlSeconds)).
  exact (stores_agree (R1:=R1) (R2:=R2) cs 0 _ _ alog_empty Hn Hok
    (log_repr_new (RunLogRefines:=R1)) (log_repr_new (RunLogRefines:=R2))).
Qed.

(** A session on two runs, one of them cleaned up. *)
Definition demo_session : list (Z * op string) :=
  [(0, RecordTimestamp "r1" "pipeline_b" "select" "t1" 1700000000000000000);
   (1, RecordPayload "r1" "pipeline_b" "select" "t1" "req");
   (2, RecordPayload "r1" "pipeline_b" "select" "t1" "retry");
   (3, RecordPayload "r2" "pipeline_b" "select" "t1" "other");
   (4, Get "r1" "pipeline_b" "select" "t1");
   (5, Count "r1" "pipeline_b" "select");
   (6, GetTimestamp "r1" "pipeline_b" "select" "t1");
   (7, GetTimestamp "r1" "pipeline_b" "init" "t1");
   (8, Cleanup "r1");
   (9, Get "r1" "pipeline_b" "select" "t1");
   (10, Get "r2" "pipeline_b" "select" "t1")]%Z.

Definition demo_answers : list (obs string) :=
  [OUnit true; OUnit true; OUnit true; OUnit true; OData (Some "retry"); OCount (Some 2%Z);
   OTime (Some 1700000000000000000%Z); OTime None; OUnit true; OData None; OData (Some "other")].

Lemma demo_session_ok : calls_ok 0 600000000000 demo_session.
Proof.
  split; [reflexivity|].
  repeat (apply Forall_cons; split; [|]); try apply Forall_nil;
    vm_compute; repeat split; discriminate.
Qed.

(** The witnesses evaluate maps. *)
#[local] Transparent gmap_empty.

Lemma memory_store_refines_witness :
  (log_calls demo_session (NewMemoryStore (B:=string))).1 = demo_answers ∧
  alog_answers demo_session alog_empty demo_answers.
Proof.
  assert ((log_calls demo_session (NewMemoryStore (B:=string))).1 = demo_answers) as E
    by reflexivity.
  split; [exact E|]. rewrite <- E.
  exact (memory_store_refines demo_session 0 600000000000 demo_session_ok).
Defined.

Lemma stores_interchangeable_witness :
  (log_calls demo_session (mkRedisLog r_empty : redis_log (redis_map string) (store_ttl 0))).1
  = demo_answers.
Proof.
  rewrite (stores_interchangeable demo_session 0 0 demo_session_ok). reflexivity.
Defined.

(** [Export] visits exactly the payloads recorded under the run: after
    any session, the entries handed to the callback by either store are the
    recorded ones, each with its pipeline, action and transaction. *)
Theorem export_exact {B} `{Bytes B} {R} `{!RedisServer B R} (cs : list (Z * op B))
  ttlSeconds t0 now r p a t b :
  calls_ok t0 (t0 + store_ttl ttlSeconds) cs → no_colon r →
  (t0 ≤ now < t0 + store_ttl ttlSeconds)%Z →
  let m := (log_calls cs (NewMemoryStore (B:=B))).2 in
  let s := rlog_state (log_calls cs (mkRedisLog r_empty : redis_log R (store_ttl ttlSeconds))).2 in
  let recorded := no_colon p ∧ no_colon a ∧ al_data (alog_run cs alog_empty) r p a t = Some b in
  ((p, a, t, b) ∈ MemoryStore_entries r m ↔ recorded) ∧
  ((p, a, t, b) ∈ RedisStore_entries now r s ↔ recorded).
Proof.
  intros [Hn Hok] Hr Hnow m s recorded.
  assert (TCEq (t0 + store_ttl ttlSeconds <=? t0 + store_ttl ttlSeconds)%Z true) as Hs
    by (rewrite Z.leb_refl; constructor).
  split.
  - apply (memory_entries_spec (0 + length cs)); [done|].
    apply (log_calls_repr (RunLogRefines0:=memory_refines t0 (t0 + store_ttl ttlSeconds)) cs);
      [done..|]. apply (log_repr_new (RunLogRefines:=memory_refines t0 _)).
  - rewrite (redis_entries_spec (t0 + store_ttl ttlSeconds) now (0 + length cs) r s
      (alog_run cs alog_empty)); [|lia|done|].
    + split; [intros (?&?&?&?&?); by repeat split|]. intros (Hp & Ha & Hd).
      pose proof (alog_run_nonempty cs alog_empty ltac:(done) _ _ _ _ _ Hd) as He.
      unfold some_empty in He. by bool_hyps; repeat split.
    + apply (log_calls_repr
        (RunLogRefines0:=redis_refines (store_ttl ttlSeconds) t0 _ Hs) cs); [done..|].
      apply (log_repr_new (RunLogRefines:=redis_refines (store_ttl ttlSeconds) t0 _ Hs)).
Qed.

Lemma export_exact_witness :
  ("pipeline_b", "select", "t1", "other") ∈
    MemoryStore_entries "r2" (log_calls demo_session (NewMemoryStore (B:=string))).2 ∧
  ("pipeline_b", "select", "t1", "other") ∈ RedisStore_entries 11 "r2"
    (rlog_state (log_calls demo_session
      (mkRedisLog r_empty : redis_log (redis_map string) (store_ttl 0))).2).
Proof.
  destruct (export_exact (R:=redis_map string) demo_session 0 0 11 "r2" "pipeline_b" "select"
    "t1" "other" demo_session_ok eq_refl ltac:(split; [discriminate|reflexivity])) as [H1 H2].
  split; [apply H1|apply H2]; by repeat split.
Defined.

(** [FlushToFilesystem] of the Redis store does not write where the run
    report reads: the directory of each action is named
    ["pipeline_b:<action>"], so none of its files is below
    ["<root>/<run>/pipeline_b/"], the only directory [GenerateRunReport]
    opens, while the in-memory store writes all pipeline_b files there. *)
Theorem flush_report_mismatch {B} `{Bytes B} {R} `{!RedisServer B R} now r root (s : R)
  (m : MemoryStore B) path b :
  ((path, b) ∈ RedisStore_FlushToFilesystem now r root s →
   has_prefix (root ++ "/" ++ r ++ "/pipeline_b:") path = true ∧
   has_prefix (root ++ "/" ++ r ++ "/pipeline_b/") path = false) ∧
  (∀ a t, ("pipeline_b", a, t, b) ∈ MemoryStore_entries r m →
   (run_file root r "pipeline_b" a t, b) ∈ MemoryStore_FlushToFilesystem r root m ∧
   has_prefix (root ++ "/" ++ r ++ "/pipeline_b/") (run_file root r "pipeline_b" a t) = true).
Proof.
  assert (∀ (q rest : string), has_prefix (root ++ "/" ++ r ++ "/" ++ q) (root ++ "/" ++ r ++ "/" ++ rest)
    = has_prefix q rest) as Hpre.
  { intros q rest.
    replace (root ++ "/" ++ r ++ "/" ++ q) with ((root ++ "/" ++ r ++ "/") ++ q)
      by (by rewrite !app_assoc_str).
    replace (root ++ "/" ++ r ++ "/" ++ rest) with ((root ++ "/" ++ r ++ "/") ++ rest)
      by (by rewrite !app_assoc_str).
    apply has_prefix_app_app. }
  split.
  - intros Hin. apply list_elem_of_In, in_flat_map in Hin as (pa & Hpa & Hin).
    destruct (Client_HGetAll _ _ _).1 as [all|e]; [|done].
    apply in_map_iff in Hin as (tv & [= <- <-] & _).
    change (root ++ "/" ++ r ++ "/pipeline_b:") with (root ++ "/" ++ r ++ "/" ++ "pipeline_b:").
    change (root ++ "/" ++ r ++ "/pipeline_b/") with (root ++ "/" ++ r ++ "/" ++ "pipeline_b/").
    rewrite !Hpre. simpl in Hpa.
    repeat (destruct Hpa as [<-|Hpa]; [by split|]). done.
  - intros a t Hin. split.
    + apply list_elem_of_fmap. by exists ("pipeline_b", a, t, b).
    + unfold run_file.
      change (root ++ "/" ++ r ++ "/pipeline_b/") with (root ++ "/" ++ r ++ "/" ++ "pipeline_b/").
      rewrite Hpre. change ("pipeline_b" ++ "/" ++ a ++ "/" ++ t ++ ".json")
        with ("pipeline_b/" ++ a ++ "/" ++ t ++ ".json"). apply has_prefix_app.
Qed.

Lemma flush_report_mismatch_witness :
  let s := (RedisStore_Record (store_ttl 0) 0 "r1" "pipeline_b" "select" "t1" "req"
              (∅ : redis_map string)).2 in
  RedisStore_FlushToFilesystem 0 "r1" "/runs" s =
    [("/runs/r1/pipeline_b:select/t1.json", "req")] ∧
  has_prefix "/runs/r1/pipeline_b/" "/runs/r1/pipeline_b:select/t1.json" = false.
Proof.
  intros s. assert (RedisStore_FlushToFilesystem 0 "r1" "/runs" s =
    [("/runs/r1/pipeline_b:select/t1.json", "req")]) as E by reflexivity.
  split; [exact E|].
  apply (flush_report_mismatch 0 "r1" "/runs" s NewMemoryStore
    "/runs/r1/pipeline_b:select/t1.json" "req"). rewrite E. by constructor.
Defined.
