(* ===== verification/Payloads.v ===== *)
(** * Building init and confirm requests from callbacks:
    [internal/domain/pipeline/init_confirm_from_callbacks.go],
    [init_confirm_batch.go]

    A request of the next stage is the callback of the previous one with its
    context stamped and the missing mandatory fields filled in.  Fresh UUIDs
    and the clock are supplied by the environment [Env], indexed by the
    iteration of the batch loop and by the call site in it; the example files
    by [readFile], [os.ReadFile]. *)
From stdpp Require Import prelude gmap list strings.
From S2P Require Import Prelude GoStrings GoTime Float64 Json ApiError.
Local Open Scope string_scope.

Class Env := mkEnv {
  env_uuid : nat → nat → string;   (* uuid.NewString() *)
  env_now : nat → nat → Z;         (* time.Now() *)
}.

(** [time.Now().UTC().Format(ondcTimestampLayout)]. *)
Definition nowONDCTimestamp `{Env} (i k : nat) : string := format_ms (env_now i k).

(** ** [enrichConfirm] *)
Section Confirm.
Context `{Env}.

(** The loop body over the fulfillments of a confirm. *)
Definition confirm_fulfillment (personName : string) (fm : obj) : obj :=
  let end_ := obj_or_new "end" fm in
  let person := obj_or_new "person" end_ in
  let person := default_str "name" personName person in
  let end_ := <["person" := JObj person]> end_ in
  let fm := <["end" := JObj end_]> fm in
  default_str "@ondc/org/TAT" "P2D" fm.

Definition valid_state (s : string) : bool :=
  (s =? "Created") || (s =? "Accepted") || (s =? "Cancelled").

(** [if v, _ := m[k].(string); v != "" { x = v }] after [x] was empty, then
    the fallback. *)
Definition str_or (o : option json) (fallback : string) : string :=
  if as_str o =? "" then fallback else as_str o.

Definition confirm_person (order : obj) : string :=
  match as_obj (order !! "billing") with
  | Some billing => str_or (billing !! "name") "Test Buyer"
  | None => "Test Buyer"
  end.

Definition confirm_price (k fallback : string) (order : obj) : string :=
  match as_obj (order !! "quote") with
  | Some quote =>
      match as_obj (quote !! "price") with
      | Some price => str_or (price !! k) fallback
      | None => fallback
      end
  | None => fallback
  end.

(** The payment block, lines 399-452. *)
Definition confirm_payment (i : nat) (order : obj) : obj :=
  let payment := obj_or_new "payment" order in
  let payment := default_str "uri" "https://example.com/payment" payment in
  let payment := default_str "tl_method" "http/get" payment in
  let params := obj_or_new "params" payment in
  let params := default_str "amount" (confirm_price "value" "0" order) params in
  let params := default_str "currency" (confirm_price "currency" "INR" order) params in
  let params := default_str "transaction_id" (env_uuid i 2) params in
  let payment := <["params" := JObj params]> payment in
  let payment := default_str "status" "PAID" payment in
  let payment := default_str "type" "ON-ORDER" payment in
  default_str "collected_by" "BAP" payment.

Definition confirm_order (i : nat) (ctxMap order : obj) : obj :=
  let now := nowONDCTimestamp i 1 in
  let order :=
    if as_str (order !! "id") =? ""
    then <["id" := JStr (str_or (ctxMap !! "transaction_id") (env_uuid i 1))]> order
    else order in
  let order :=
    if valid_state (as_str (order !! "state")) then order
    else <["state" := JStr "Created"]> order in
  let order := default_str "created_at" now order in
  let order := default_str "updated_at" now order in
  let personName := confirm_person order in
  let order :=
    match as_arr (order !! "fulfillments") with
    | Some fulf => <["fulfillments" := JArr (map_objs (confirm_fulfillment personName) fulf)]> order
    | None => order
    end in
  <["payment" := JObj (confirm_payment i order)]> order.

Definition enrichConfirm (i : nat) (ctxMap full : obj) : obj :=
  let msg := obj_or_new "message" full in
  let order := obj_or_new "order" msg in
  <["message" := JObj (<["order" := JObj (confirm_order i ctxMap order)]> msg)]> full.
End Confirm.

(** ** [enrichInit] *)
Section Init.
Context `{Env}.

(** Lines 117-145: quantities of the quote's breakup. *)
Definition breakup_count (counts : gmap string Z) (b : json) : gmap string Z :=
  match b with
  | JObj bm =>
      let id := as_str (bm !! "@ondc/org/item_id") in
      if id =? "" then counts
      else match as_obj (bm !! "@ondc/org/item_quantity") with
      | None => counts
      | Some qty =>
          match qty !! "count" with
          | Some (JNum v) =>
              if f64_ltb (f64_of_Z 0) v then <[id := f64_trunc v]> counts else counts
          | Some (JInt v) => if (0 <? v)%Z then <[id := v]> counts else counts
          | _ => counts
          end
      end
  | _ => counts
  end.

Definition item_counts (order : obj) : gmap string Z :=
  match as_obj (order !! "quote") with
  | Some quote =>
      match as_arr (quote !! "breakup") with
      | Some breakup => foldl breakup_count ∅ breakup
      | None => ∅
      end
  | None => ∅
  end.

(** Lines 147-172. *)
Definition init_item (counts : gmap string Z) (im : obj) : obj :=
  let id := as_str (im !! "id") in
  if id =? "" then im
  else
    let qty := obj_or_new "quantity" im in
    let c := match counts !! id with
             | Some c => if (0 <? c)%Z then c else 1%Z
             | None => 1%Z
             end in
    <["quantity" := JObj (default_key "count" (JInt c) qty)]> im.

(** Lines 174-186. *)
Definition default_billing (now : string) : obj :=
  {["name" := JStr "Test Buyer"; "phone" := JStr "9999999999"; "email" := JStr "test@example.com";
    "address" := JObj {[
      "name" := JStr "Test Buyer"; "building" := JStr "Test Building";
      "locality" := JStr "MG Road"; "city" := JStr "Bengaluru"; "state" := JStr "KA";
      "country" := JStr "IND"; "area_code" := JStr "560001" ]};
    "created_at" := JStr now; "updated_at" := JStr now ]}.

(** Lines 188-217: the location of the first fulfillment of the select
    request, decoded into a struct: a value of the wrong type anywhere on the
    path makes [json.Unmarshal] fail, [null] leaves the zero value. *)
Definition get_field (k : string) (j : json) : option json :=
  match j with
  | JObj m => Some (default JNull (struct_field k m))
  | JNull => Some JNull
  | _ => None
  end.
Definition get_string (k : string) (j : json) : option string :=
  match get_field k j with
  | Some (JStr s) => Some s
  | Some JNull => Some ""
  | _ => None
  end.

Definition location_of (f : json) : option (string * string) :=
  end_ ← get_field "end" f; loc ← get_field "location" end_;
  gps ← get_string "gps" loc; addr ← get_field "address" loc;
  area ← get_string "area_code" addr; Some (gps, area).

Definition select_location (sel : option json) : string * string :=
  match sel with
  | None => ("", "")
  | Some j =>
      match (msg ← get_field "message" j; order ← get_field "order" msg;
             get_field "fulfillments" order) with
      | Some (JArr (f0 :: fs)) =>
          match location_of f0, forallb (λ f, bool_decide (is_Some (location_of f))) fs with
          | Some l, true => l
          | _, _ => ("", "")
          end
      | _ => ("", "")
      end
  end.

(** The six fields copied from the billing address, lines 252-283. *)
Definition address_fields : list (string * string) :=
  [("name", "Test Buyer"); ("building", "Test Building"); ("locality", "MG Road");
   ("city", "Bengaluru"); ("state", "KA"); ("country", "IND")].

Definition from_billing (billingAddr : option obj) (addr : obj) : obj :=
  match billingAddr with
  | None => addr
  | Some ba =>
      foldl (λ addr kv, if as_str (ba !! kv.1) =? "" then addr
                        else default_str kv.1 (as_str (ba !! kv.1)) addr) addr address_fields
  end.

Definition fallback_address (addr : obj) : obj :=
  foldl (λ addr kv, default_str kv.1 kv.2 addr) addr address_fields.

Definition init_address (selectAreaCode : string) (billingAddr : option obj) (addr : obj) : obj :=
  let addr := default_str "area_code"
    (if selectAreaCode =? "" then "560001" else selectAreaCode) addr in
  fallback_address (from_billing billingAddr addr).

(** The loop body over the fulfillments of an init, lines 220-324. *)
Definition init_fulfillment (domain selectGPS selectAreaCode : string)
  (billingAddr : option obj) (fm : obj) : obj :=
  let end_ := obj_or_new "end" fm in
  let loc := obj_or_new "location" end_ in
  let loc := default_str "gps"
    (if selectGPS =? "" then "12.9716,77.5946" else selectGPS) loc in
  let addr := init_address selectAreaCode billingAddr (obj_or_new "address" loc) in
  let loc := <["address" := JObj addr]> loc in
  let end_ := <["location" := JObj loc]> end_ in
  let contact := default_str "phone" "9999999999" (obj_or_new "contact" end_) in
  let end_ := <["contact" := JObj contact]> end_ in
  let fm := <["end" := JObj end_]> fm in
  if domain =? "ONDC:RET13" then delete "@ondc/org/category" fm else fm.

(** [enrichInit]; [sel] is the decoded select request of the transaction, if
    the store has it and it is JSON. *)
Definition init_order (i : nat) (domain : string) (sel : option json) (order : obj) : obj :=
  let counts := item_counts order in
  let order :=
    match as_arr (order !! "items") with
    | Some items => <["items" := JArr (map_objs (init_item counts) items)]> order
    | None => order
    end in
  let '(billing, order) :=
    match as_obj (order !! "billing") with
    | Some b => (b, order)
    | None =>
        let b := default_billing (nowONDCTimestamp i 1) in (b, <["billing" := JObj b]> order)
    end in
  let billingAddr := as_obj (billing !! "address") in
  let '(gps, area) := select_location sel in
  match as_arr (order !! "fulfillments") with
  | Some fulf =>
      <["fulfillments" := JArr (map_objs (init_fulfillment domain gps area billingAddr) fulf)]> order
  | None => order
  end.

Definition enrichInit (i : nat) (sel : option json) (full : obj) : obj :=
  let domain := match as_obj (full !! "context") with
                | Some ctx => as_str (ctx !! "domain") | None => "" end in
  let msg := obj_or_new "message" full in
  let order := obj_or_new "order" msg in
  <["message" := JObj (<["order" := JObj (init_order i domain sel order)]> msg)]> full.
End Init.

(** ** Batches *)
Section Batch.
Context {B : Type} `{JsonCodec B} `{Env}.
(** The callbacks and requests of the run: [store.Get(runID, "pipeline_b",
    action, txnID)] where [err == nil && body != nil]. *)
Variable get : string → string → option B.

(** [status != "" && status != "ACK"]: the callback is a NACK. *)
Definition is_nack (full : obj) : bool :=
  match as_obj (full !! "message") with
  | Some msg =>
      match as_obj (msg !! "ack") with
      | Some ack => let status := as_str (ack !! "status") in
                    negb (status =? "") && negb (status =? "ACK")
      | None => false
      end
  | None => false
  end.

(** Lines 78-83. *)
Definition stamp (i : nat) (targetAction : string) (ctxMap : obj) : obj :=
  let ctxMap := <["action" := JStr targetAction]> ctxMap in
  let ctxMap := <["message_id" := JStr (env_uuid i 0)]> ctxMap in
  let ctxMap := <["timestamp" := JStr (nowONDCTimestamp i 0)]> ctxMap in
  default_key "ttl" (JStr "PT30S") ctxMap.

(** One iteration of the loop: [None] is [continue]. *)
Definition callback_payload (i : nat) (sourceAction targetAction txnID : string) : option B :=
  if txnID =? "" then None
  else
    body ← get sourceAction txnID;
    full ← mjoin (decode_map body);
    if is_nack full then None
    else
      ctxMap ← as_obj (full !! "context");
      let ctxMap := stamp i targetAction ctxMap in
      let full := <["context" := JObj ctxMap]> full in
      let full :=
        if targetAction =? "init" then
          enrichInit i (sel ← get "select" txnID; json_unmarshal sel) full
        else if targetAction =? "confirm" then enrichConfirm i ctxMap full
        else full in
      encode_map (Some full).

Fixpoint callback_batch (i : nat) (sourceAction targetAction : string) (txns : list string)
  : list B :=
  match txns with
  | [] => []
  | t :: txns' =>
      match callback_payload i sourceAction targetAction t with
      | Some b => b :: callback_batch (S i) sourceAction targetAction txns'
      | None => callback_batch (S i) sourceAction targetAction txns'
      end
  end.

Definition buildBatchFromCallbacks (runID sourceAction targetAction : string)
  (transactionIDs : list string) : result error (list B) :=
  if runID =? "" then Err (EText "runID required")
  else Ok (callback_batch 0 sourceAction targetAction transactionIDs).

Definition BuildInitBatchFromOnSelect (runID : string) (txns : list string) : result error (list B) :=
  buildBatchFromCallbacks runID "on_select" "init" txns.

Definition BuildConfirmBatchFromOnInit (runID : string) (txns : list string)
  : result error (list B) := buildBatchFromCallbacks runID "on_init" "confirm" txns.

Definition example_payload (i : nat) (action txnID : string) (clone : obj) : option B :=
  let clone :=
    match as_obj (clone !! "context") with
    | Some ctx =>
        let ctx := <["transaction_id" := JStr txnID]> ctx in
        let ctx := <["message_id" := JStr (env_uuid i 0)]> ctx in
        let ctx := <["timestamp" := JStr (nowONDCTimestamp i 0)]> ctx in
        let ctx := <["action" := JStr action]> ctx in
        <["context" := JObj (default_key "ttl" (JStr "PT30S") ctx)]> clone
    | None => clone
    end in
  encode_map (Some clone).

Fixpoint example_batch (i : nat) (action : string) (m : obj) (txns : list string)
  : result error (list B) :=
  match txns with
  | [] => Ok []
  | t :: txns' =>
      match example_payload i action t m with
      | None => Err (EText ("marshal " ++ action))
      | Some b =>
          match example_batch (S i) action m txns' with
          | Ok bs => Ok (b :: bs)
          | Err e => Err e
          end
      end
  end.

Definition buildBatchFromExample (readFile : string → result error B) (examplePath : string)
  (transactionIDs : list string) (action : string) : result error (list B) :=
  match transactionIDs with
  | [] => Ok []
  | _ =>
      match readFile examplePath with
      | Err e => Err (EWrap ("read example " ++ action) e)
      | Ok raw =>
          match decode_map raw with
          | None => Err (EText ("unmarshal example " ++ action))
          | Some m =>
              match as_obj (default ∅ m !! "context") with
              | None => Err (EText ("example " ++ action ++ ": missing context"))
              | Some _ => example_batch 0 action (default ∅ m) transactionIDs
              end
          end
      end
  end.

Definition BuildInitBatchFromExample (readFile : string → result error B) (examplePath : string)
  (txns : list string) : result error (list B) := buildBatchFromExample readFile examplePath txns "init".

Definition BuildConfirmBatchFromExample (readFile : string → result error B) (examplePath : string)
  (txns : list string) : result error (list B) := buildBatchFromExample readFile examplePath txns "confirm".
End Batch.

(** ** What a complete request is *)

(** A confirm: identified, in a valid state, dated, every fulfillment with a
    person and a turn-around time, and a payment with its parameters. *)
Definition confirm_fulfillment_ok (fm : obj) : Prop :=
  ∃ e p, as_obj (fm !! "end") = Some e ∧ as_obj (e !! "person") = Some p ∧
    is_str (p !! "name") = true ∧ is_str (fm !! "@ondc/org/TAT") = true.

Definition payment_strings : list string := ["uri"; "tl_method"; "status"; "type"; "collected_by"].
Definition param_strings : list string := ["amount"; "currency"; "transaction_id"].

Definition payment_ok (pay : obj) : Prop :=
  Forall (λ k, is_str (pay !! k) = true) payment_strings ∧
  ∃ ps, as_obj (pay !! "params") = Some ps ∧ Forall (λ k, is_str (ps !! k) = true) param_strings.

Definition confirm_order_ok (order : obj) : Prop :=
  as_str (order !! "id") ≠ "" ∧ valid_state (as_str (order !! "state")) = true ∧
  is_str (order !! "created_at") = true ∧ is_str (order !! "updated_at") = true ∧
  (∀ fulf fm, as_arr (order !! "fulfillments") = Some fulf → JObj fm ∈ fulf →
     confirm_fulfillment_ok fm) ∧
  ∃ pay, as_obj (order !! "payment") = Some pay ∧ payment_ok pay.

Section ConfirmLemmas.
Context `{Env}.

Lemma confirm_fulfillment_complete nm fm : confirm_fulfillment_ok (confirm_fulfillment nm fm).
Proof.
  unfold confirm_fulfillment, confirm_fulfillment_ok.
  set (p := default_str "name" nm _). set (e := <["person" := JObj p]> (obj_or_new "end" fm)).
  exists e, p. split_and!.
  - rewrite default_str_ne by done. apply as_obj_insert.
  - apply as_obj_insert.
  - apply default_str_is_str.
  - apply default_str_is_str.
Qed.

Lemma confirm_fulfillment_stable nm fm :
  confirm_fulfillment_ok fm → confirm_fulfillment nm fm = fm.
Proof.
  intros (e & p & He & Hp & Hn & Ht). unfold confirm_fulfillment.
  rewrite (obj_or_new_Some "end" fm e), (obj_or_new_Some "person" e p) by done.
  rewrite (default_str_id "name"), (insert_obj_id "person"), (insert_obj_id "end") by done.
  by apply default_str_id.
Qed.

Lemma confirm_payment_complete i order : payment_ok (confirm_payment i order).
Proof.
  unfold confirm_payment. set (ps := default_str "transaction_id" _ _). split.
  - by repeat apply Forall_cons_2; field.
  - exists ps. split; [field|]. by repeat apply Forall_cons_2; unfold ps; field.
Qed.

Lemma confirm_payment_stable i order pay :
  as_obj (order !! "payment") = Some pay → payment_ok pay → confirm_payment i order = pay.
Proof.
  intros Hpay [Hs (ps & Hps & Hq)]. unfold confirm_payment.
  rewrite (obj_or_new_Some "payment" order pay) by done.
  repeat (apply Forall_cons in Hs as [? Hs]). repeat (apply Forall_cons in Hq as [? Hq]).
  rewrite (default_str_id "uri"), (default_str_id "tl_method") by done.
  rewrite (obj_or_new_Some "params" pay ps) by done.
  rewrite (default_str_id "amount"), (default_str_id "currency"),
    (default_str_id "transaction_id"), (insert_obj_id "params") by done.
  by rewrite (default_str_id "status"), (default_str_id "type"),
    (default_str_id "collected_by") by done.
Qed.

Lemma str_or_nonempty o d : d ≠ "" → str_or o d ≠ "".
Proof. unfold str_or. intros Hd. by destruct (String.eqb_spec (as_str o) ""). Qed.

Lemma confirm_order_complete i ctxMap order :
  env_uuid i 1 ≠ "" → confirm_order_ok (confirm_order i ctxMap order).
Proof.
  intros Hu. unfold confirm_order.
  set (o1 := if as_str (order !! "id") =? "" then _ else order).
  assert (as_str (o1 !! "id") ≠ "") as H1.
  { unfold o1. destruct (String.eqb_spec (as_str (order !! "id")) ""); [|done].
    rewrite lookup_insert_eq. by apply str_or_nonempty. }
  set (o2 := if valid_state _ then o1 else _).
  assert (as_str (o2 !! "id") ≠ "" ∧ valid_state (as_str (o2 !! "state")) = true) as [H2 H3].
  { unfold o2. destruct (valid_state (as_str (o1 !! "state"))) eqn:E; [by split|].
    rewrite lookup_insert_ne, lookup_insert_eq by done. by split. }
  set (o3 := default_str "updated_at" _ _).
  assert (as_str (o3 !! "id") ≠ "" ∧ valid_state (as_str (o3 !! "state")) = true ∧
    is_str (o3 !! "created_at") = true ∧ is_str (o3 !! "updated_at") = true) as (H4 & H5 & H6 & H7).
  { unfold o3. rewrite !(default_str_ne _ "id"), !(default_str_ne _ "state") by done.
    split_and!; try done; field. }
  set (o4 := match as_arr _ with Some _ => _ | None => _ end).
  assert (∀ k, k ≠ "fulfillments" → o4 !! k = o3 !! k) as H8.
  { intros k Hk. unfold o4. case_match; [|done]. by rewrite lookup_insert_ne. }
  unfold confirm_order_ok. rewrite !(lookup_insert_ne _ "payment") by done. rewrite !H8 by done.
  split_and!; try done.
  - intros fulf fm Hf Hin. unfold o4 in Hf. destruct (as_arr (o3 !! "fulfillments")) as [l|] eqn:E.
    + rewrite lookup_insert_eq in Hf. simpl in Hf. simplify_eq.
      eapply (map_objs_forall confirm_fulfillment_ok); [|done]. apply confirm_fulfillment_complete.
    + by rewrite E in Hf.
  - exists (confirm_payment i o4). split; [apply as_obj_insert|apply confirm_payment_complete].
Qed.

Lemma confirm_order_stable i ctxMap order :
  confirm_order_ok order → confirm_order i ctxMap order = order.
Proof.
  intros (H1 & H2 & H3 & H4 & H5 & pay & H6 & H7). unfold confirm_order.
  rewrite (proj2 (String.eqb_neq _ _) H1), H2.
  rewrite (default_str_id "created_at"), (default_str_id "updated_at") by done.
  assert ((match as_arr (order !! "fulfillments") with
    | Some fulf => <["fulfillments" := JArr (map_objs (confirm_fulfillment (confirm_person order)) fulf)]> order
    | None => order end) = order) as ->.
  { destruct (as_arr (order !! "fulfillments")) as [l|] eqn:E; [|done].
    rewrite map_objs_id; [apply insert_id; by apply as_arr_Some|].
    intros m Hm. apply confirm_fulfillment_stable. by eapply H5. }
  rewrite (confirm_payment_stable i order pay) by done. by apply insert_obj_id.
Qed.
End ConfirmLemmas.

(** An init: a billing block, a quantity on every item that has an id, and a
    complete delivery location and contact on every fulfillment. *)
Definition address_strings : list string := "area_code" :: address_fields.*1.

Definition init_fulfillment_ok (domain : string) (fm : obj) : Prop :=
  ∃ e loc addr contact,
    as_obj (fm !! "end") = Some e ∧ as_obj (e !! "location") = Some loc ∧
    as_obj (loc !! "address") = Some addr ∧ as_obj (e !! "contact") = Some contact ∧
    is_str (loc !! "gps") = true ∧ Forall (λ k, is_str (addr !! k) = true) address_strings ∧
    is_str (contact !! "phone") = true ∧
    (domain = "ONDC:RET13" → fm !! "@ondc/org/category" = None).

Definition init_item_ok (im : obj) : Prop :=
  as_str (im !! "id") = "" ∨
  ∃ qty, as_obj (im !! "quantity") = Some qty ∧ is_Some (qty !! "count").

Definition init_order_ok (domain : string) (order : obj) : Prop :=
  is_Some (as_obj (order !! "billing")) ∧
  (∀ items im, as_arr (order !! "items") = Some items → JObj im ∈ items → init_item_ok im) ∧
  (∀ fulf fm, as_arr (order !! "fulfillments") = Some fulf → JObj fm ∈ fulf →
     init_fulfillment_ok domain fm).

Section InitLemmas.
Context `{Env}.

Lemma from_billing_stable ba addr :
  Forall (λ k, is_str (addr !! k) = true) address_strings → from_billing ba addr = addr.
Proof.
  intros Hs. destruct ba as [ba|]; [|done]. unfold from_billing, address_strings in *.
  apply Forall_cons in Hs as [_ Hs]. induction address_fields as [|kv l IH]; simpl in *; [done|].
  apply Forall_cons in Hs as [Hk Hs]. rewrite (default_str_id kv.1) by done.
  case_match; by apply IH.
Qed.

Lemma fallback_address_stable addr :
  Forall (λ k, is_str (addr !! k) = true) address_strings → fallback_address addr = addr.
Proof.
  intros Hs. unfold fallback_address, address_strings in *.
  apply Forall_cons in Hs as [_ Hs]. induction address_fields as [|kv l IH]; simpl in *; [done|].
  apply Forall_cons in Hs as [Hk Hs]. rewrite (default_str_id kv.1) by done. by apply IH.
Qed.

Lemma from_billing_mono ba addr k :
  is_str (addr !! k) = true → is_str (from_billing ba addr !! k) = true.
Proof.
  destruct ba as [ba|]; [|done]. unfold from_billing. revert addr.
  induction address_fields as [|kv l IH]; intros addr Hk; simpl; [done|]. apply IH.
  case_match; [done|]. by apply default_str_mono.
Qed.

Lemma init_address_complete area ba addr :
  Forall (λ k, is_str (init_address area ba addr !! k) = true) address_strings.
Proof.
  unfold init_address. set (a1 := from_billing _ _).
  assert (is_str (a1 !! "area_code") = true) as H1
    by (apply from_billing_mono, default_str_is_str).
  unfold fallback_address, address_strings, address_fields.
  cbn [foldl fst snd fmap list_fmap].
  repeat apply Forall_cons_2; [..|apply Forall_nil_2]; field; done.
Qed.

Lemma init_address_stable area ba addr :
  Forall (λ k, is_str (addr !! k) = true) address_strings → init_address area ba addr = addr.
Proof.
  intros Hs. unfold init_address. pose proof Hs as Hs'. apply Forall_cons in Hs' as [Ha _].
  rewrite (default_str_id "area_code") by done.
  by rewrite from_billing_stable, fallback_address_stable.
Qed.

Lemma init_fulfillment_complete domain gps area ba fm :
  init_fulfillment_ok domain (init_fulfillment domain gps area ba fm).
Proof.
  unfold init_fulfillment, init_fulfillment_ok.
  set (loc0 := default_str "gps" _ _). set (addr := init_address _ _ _).
  set (loc := <["address" := JObj addr]> loc0). set (e0 := <["location" := JObj loc]> _).
  set (contact := default_str "phone" _ _). set (e := <["contact" := JObj contact]> e0).
  exists e, loc, addr, contact.
  assert (∀ fm1 : obj, as_obj ((if domain =? "ONDC:RET13" then delete "@ondc/org/category" fm1
    else fm1) !! "end") = as_obj (fm1 !! "end")) as Hend.
  { intros fm1. case_match; [|done]. by rewrite lookup_delete_ne. }
  split_and!.
  - rewrite Hend. apply as_obj_insert.
  - unfold e, e0. field.
  - unfold loc. field.
  - unfold e. field.
  - unfold loc, loc0. field.
  - apply init_address_complete.
  - apply default_str_is_str.
  - intros ->. simpl. by rewrite lookup_delete_eq.
Qed.

Lemma init_fulfillment_stable domain gps area ba fm :
  init_fulfillment_ok domain fm → init_fulfillment domain gps area ba fm = fm.
Proof.
  intros (e & loc & addr & contact & H1 & H2 & H3 & H4 & H5 & H6 & H7 & H8).
  unfold init_fulfillment.
  rewrite (obj_or_new_Some "end" fm e), (obj_or_new_Some "location" e loc) by done.
  rewrite (default_str_id "gps"), (obj_or_new_Some "address" loc addr) by done.
  rewrite init_address_stable, (insert_obj_id "address"), (insert_obj_id "location") by done.
  rewrite (obj_or_new_Some "contact" e contact), (default_str_id "phone"),
    (insert_obj_id "contact"), (insert_obj_id "end") by done.
  destruct (String.eqb_spec domain "ONDC:RET13"); [|done]. apply delete_id. auto.
Qed.

Lemma init_item_complete counts im : init_item_ok (init_item counts im).
Proof.
  unfold init_item, init_item_ok. destruct (String.eqb_spec (as_str (im !! "id")) ""); [by left|].
  right. eexists. split; [apply as_obj_insert|]. apply default_key_is_Some.
Qed.

Lemma init_item_stable counts im : init_item_ok im → init_item counts im = im.
Proof.
  unfold init_item. intros [->|(qty & Hq & [c Hc])]; [done|]. case_match; [done|].
  rewrite (obj_or_new_Some _ _ qty) by done.
  unfold default_key at 1. rewrite Hc. by apply insert_obj_id.
Qed.

Lemma init_order_complete i domain sel order : init_order_ok domain (init_order i domain sel order).
Proof.
  unfold init_order. set (o1 := match as_arr (order !! "items") with Some _ => _ | None => _ end).
  assert (∀ items im, as_arr (o1 !! "items") = Some items → JObj im ∈ items → init_item_ok im) as H1.
  { intros items im. unfold o1. destruct (as_arr (order !! "items")) as [l|] eqn:E.
    - rewrite lookup_insert_eq. simpl. intros [= <-]. apply map_objs_forall, init_item_complete.
    - by rewrite E. }
  assert (∃ b o2, match as_obj (o1 !! "billing") with
    | Some b => (b, o1) | None => (default_billing (nowONDCTimestamp i 1),
        <["billing" := JObj (default_billing (nowONDCTimestamp i 1))]> o1) end = (b, o2) ∧
    is_Some (as_obj (o2 !! "billing")) ∧ o2 !! "items" = o1 !! "items") as (b & o2 & -> & H2 & H3).
  { destruct (as_obj (o1 !! "billing")) as [b|] eqn:E; eexists _, _; (split; [done|]).
    - by rewrite E.
    - rewrite lookup_insert_eq, lookup_insert_ne by done. eauto. }
  destruct (select_location sel) as [gps area].
  destruct (as_arr (o2 !! "fulfillments")) as [l|] eqn:E; unfold init_order_ok.
  - rewrite !(lookup_insert_ne o2) by done. rewrite H3. split_and!; try done.
    rewrite lookup_insert_eq. intros fulf fm [= <-].
    apply map_objs_forall, init_fulfillment_complete.
  - rewrite H3, E. by split_and!.
Qed.

Lemma init_order_stable i domain sel order :
  init_order_ok domain order → init_order i domain sel order = order.
Proof.
  intros ([b Hb] & Hi & Hf). unfold init_order.
  assert ((match as_arr (order !! "items") with
    | Some items => <["items" := JArr (map_objs (init_item (item_counts order)) items)]> order
    | None => order end) = order) as ->.
  { destruct (as_arr (order !! "items")) as [l|] eqn:E; [|done].
    rewrite map_objs_id; [apply insert_id; by apply as_arr_Some|].
    intros m Hm. apply init_item_stable. by eapply Hi. }
  rewrite Hb. destruct (select_location sel) as [gps area].
  destruct (as_arr (order !! "fulfillments")) as [l|] eqn:E; [|done].
  rewrite map_objs_id; [apply insert_id; by apply as_arr_Some|].
  intros m Hm. apply init_fulfillment_stable. by eapply Hf.
Qed.
End InitLemmas.

(** ** Theorems *)
Section Theorems.
Context `{Env}.

(** The order inside a payload, as both functions find or create it. *)
Definition order_of (full : obj) : obj := obj_or_new "order" (obj_or_new "message" full).

(** The order rewritten in place. *)
Definition set_order (order full : obj) : obj :=
  <["message" := JObj (<["order" := JObj order]> (obj_or_new "message" full))]> full.

Lemma order_of_set order full : order_of (set_order order full) = order.
Proof.
  unfold order_of, set_order. rewrite (obj_or_new_Some "message" _ _ (as_obj_insert _ _ _)).
  by rewrite (obj_or_new_Some "order" _ _ (as_obj_insert _ _ _)).
Qed.

Lemma set_order_set o1 o2 full : set_order o2 (set_order o1 full) = set_order o2 full.
Proof.
  unfold set_order. rewrite (obj_or_new_Some "message" _ _ (as_obj_insert _ _ _)).
  by rewrite !insert_insert_eq.
Qed.

Lemma set_order_other order full k : k ≠ "message" → set_order order full !! k = full !! k.
Proof. intros. unfold set_order. by rewrite lookup_insert_ne. Qed.

Lemma enrichInit_order i sel full :
  enrichInit i sel full = set_order (init_order i
    (match as_obj (full !! "context") with Some c => as_str (c !! "domain") | None => "" end)
    sel (order_of full)) full.
Proof. reflexivity. Qed.

Lemma init_order_other i domain sel order k :
  k ∉ ["items"; "billing"; "fulfillments"] → init_order i domain sel order !! k = order !! k.
Proof.
  intros Hk. assert (k ≠ "items" ∧ k ≠ "billing" ∧ k ≠ "fulfillments") as (H1 & H2 & H3)
    by (split_and!; intros ->; set_solver).
  unfold init_order. destruct (select_location sel) as [gps area].
  destruct (as_arr (order !! "items")); case_match; simplify_eq;
    repeat case_match; simplify_eq; rewrite ?lookup_insert_ne by done; done.
Qed.

Lemma confirm_order_other i ctxMap order k :
  k ∉ ["id"; "state"; "created_at"; "updated_at"; "fulfillments"; "payment"] →
  confirm_order i ctxMap order !! k = order !! k.
Proof.
  intros Hk. assert (k ≠ "id" ∧ k ≠ "state" ∧ k ≠ "created_at" ∧ k ≠ "updated_at" ∧
    k ≠ "fulfillments" ∧ k ≠ "payment") as (H1 & H2 & H3 & H4 & H5 & H6)
    by (split_and!; intros ->; set_solver).
  unfold confirm_order. rewrite lookup_insert_ne by done.
  set (o3 := default_str "updated_at" _ _).
  assert (o3 !! k = order !! k) as E3.
  { unfold o3. rewrite !default_str_ne by done. repeat case_match; by rewrite ?lookup_insert_ne. }
  destruct (as_arr (o3 !! "fulfillments")); [|done]. by rewrite lookup_insert_ne.
Qed.
End Theorems.

(** [enrichConfirm] turns any [on_init] callback into a complete confirm:
    the order gets an id, a valid state, its dates, a person and a
    turn-around time on every fulfillment, and a payment with all its fields
    and parameters; nothing else of the payload changes; and a confirm that
    is complete already is left as it is, so enriching twice is enriching
    once. *)
Theorem enrichConfirm_completes `{Env} i j ctxMap ctxMap' full :
  env_uuid i 1 ≠ "" →
  let out := enrichConfirm i ctxMap full in
  confirm_order_ok (order_of out) ∧
  (∀ k, k ≠ "message" → out !! k = full !! k) ∧
  (∀ k, k ∉ ["id"; "state"; "created_at"; "updated_at"; "fulfillments"; "payment"] →
    order_of out !! k = order_of full !! k) ∧
  enrichConfirm j ctxMap' out = out.
Proof.
  intros Hu out. change out with (set_order (confirm_order i ctxMap (order_of full)) full).
  pose proof (confirm_order_complete i ctxMap (order_of full) Hu) as Hok.
  split_and!.
  - by rewrite order_of_set.
  - apply set_order_other.
  - intros k Hk. rewrite order_of_set. by apply confirm_order_other.
  - set (o := confirm_order i ctxMap (order_of full)) in *.
    change (set_order (confirm_order j ctxMap' (order_of (set_order o full))) (set_order o full)
            = set_order o full).
    by rewrite order_of_set, set_order_set, confirm_order_stable.
Qed.

(** [enrichInit] turns any [on_select] callback into a complete init,
    whatever the select request of the transaction was: a billing block, a
    quantity on every item with an id, a location with coordinates and a full
    address and a contact on every fulfillment (and no category in RET13);
    nothing else changes; and enriching twice is enriching once. *)
Theorem enrichInit_completes `{Env} i j sel sel' full :
  let domain := match as_obj (full !! "context") with
                | Some c => as_str (c !! "domain") | None => "" end in
  let out := enrichInit i sel full in
  init_order_ok domain (order_of out) ∧
  (∀ k, k ≠ "message" → out !! k = full !! k) ∧
  (∀ k, k ∉ ["items"; "billing"; "fulfillments"] → order_of out !! k = order_of full !! k) ∧
  enrichInit j sel' out = out.
Proof.
  intros domain out. unfold out. rewrite !enrichInit_order. fold domain.
  pose proof (init_order_complete i domain sel (order_of full)) as Hok.
  split_and!.
  - by rewrite order_of_set.
  - apply set_order_other.
  - intros k Hk. rewrite order_of_set. by apply init_order_other.
  - set (o := init_order i domain sel (order_of full)) in *.
    rewrite set_order_other by done. fold domain.
    by rewrite order_of_set, set_order_set, init_order_stable.
Qed.

(** An environment with recognisable values. *)
Definition demo_env : Env :=
  {| env_uuid i n := "uuid"; env_now i n := 0%Z |}.

Lemma enrichConfirm_completes_witness :
  let out := enrichConfirm (H:=demo_env) 0 {["transaction_id" := JStr "t1"]} ∅ in
  as_str (order_of out !! "id") = "t1" ∧ confirm_order_ok (order_of out).
Proof.
  split.
  - reflexivity.
  - refine (proj1 (enrichConfirm_completes (H:=demo_env) 0 0 {["transaction_id" := JStr "t1"]} ∅ ∅ _)).
    discriminate.
Defined.

Section BatchTheorems.
Context {B : Type} `{JsonCodec B} `{Env}.
Variable get : string → string → option B.

Lemma callback_payload_sound i src tgt t b :
  callback_payload get i src tgt t = Some b →
  ∃ body full ctx out, t ≠ "" ∧ get src t = Some body ∧ decode_map body = Some (Some full) ∧
    is_nack full = false ∧ as_obj (full !! "context") = Some ctx ∧
    json_marshal (JObj out) = Some b ∧
    let full' := <["context" := JObj (stamp i tgt ctx)]> full in
    (tgt = "init" → ∃ sel, out = enrichInit i sel full') ∧
    (tgt = "confirm" → out = enrichConfirm i (stamp i tgt ctx) full').
Proof.
  unfold callback_payload. intros Hb. destruct (String.eqb_spec t "") as [|Ht]; [done|].
  apply bind_Some in Hb as (body & Hbody & Hb).
  apply bind_Some in Hb as (full & Hfull & Hb).
  destruct (is_nack full) eqn:Hn; [done|]. apply bind_Some in Hb as (ctx & Hctx & Hb).
  exists body, full, ctx. eexists. split_and!; [done|done| |done|done|exact Hb|..].
  - destruct (decode_map body) as [[m|]|]; by simplify_eq/=.
  - intros ->. simpl. eauto.
  - intros ->. done.
Qed.

Lemma callback_batch_sound src tgt txns b : ∀ i,
  b ∈ callback_batch get i src tgt txns →
  ∃ n t, txns !! n = Some t ∧ callback_payload get (i + n) src tgt t = Some b.
Proof.
  induction txns as [|t txns IH]; intros i Hb; simpl in Hb; [by apply elem_of_nil in Hb|].
  destruct (callback_payload get i src tgt t) as [b0|] eqn:E.
  - apply elem_of_cons in Hb as [->|Hb].
    + exists 0, t. by rewrite Nat.add_0_r.
    + destruct (IH _ Hb) as (n & t' & H1 & H2). exists (S n), t'. by rewrite Nat.add_succ_r.
  - destruct (IH _ Hb) as (n & t' & H1 & H2). exists (S n), t'. by rewrite Nat.add_succ_r.
Qed.
End BatchTheorems.

(** C31: The next stage's batch is built from acknowledged callbacks only:
    each request of [BuildInitBatchFromOnSelect] and
    [BuildConfirmBatchFromOnInit] comes from the stored callback of one of
    the given transactions, which is not a NACK; it keeps the callback's
    context, transaction id included, but for the action, the message id, the
    timestamp and a missing ttl; and its order is complete for its stage. *)
Theorem callback_batch_from_acks {B} `{JsonCodec B} `{Env} (get : string → string → option B)
  runID txns bs b (init : bool) :
  (∀ i n, env_uuid i n ≠ "") →
  (if init then BuildInitBatchFromOnSelect get runID txns
   else BuildConfirmBatchFromOnInit get runID txns) = Ok bs → b ∈ bs →
  ∃ i t body full ctx out,
    t ∈ txns ∧ t ≠ "" ∧ get (if init then "on_select" else "on_init") t = Some body ∧
    decode_map body = Some (Some full) ∧ is_nack full = false ∧
    as_obj (full !! "context") = Some ctx ∧ json_unmarshal b = Some (norm (JObj out)) ∧
    (∀ k, k ∉ ["action"; "message_id"; "timestamp"; "ttl"] →
       stamp i (if init then "init" else "confirm") ctx !! k = ctx !! k) ∧
    as_obj (out !! "context") = Some (stamp i (if init then "init" else "confirm") ctx) ∧
    (if init then init_order_ok (as_str (ctx !! "domain")) (order_of out)
     else confirm_order_ok (order_of out)).
Proof.
  intros Hu Hbs Hb.
  assert (bs = callback_batch get 0 (if init then "on_select" else "on_init")
    (if init then "init" else "confirm") txns) as ->.
  { destruct init; unfold BuildInitBatchFromOnSelect, BuildConfirmBatchFromOnInit,
      buildBatchFromCallbacks in Hbs; destruct (runID =? ""); by simplify_eq/=. }
  apply callback_batch_sound in Hb as (i & t & Ht & Hb).
  apply callback_payload_sound in Hb
    as (body & full & ctx & out & Hne & Hbody & Hfull & Hn & Hctx & Hm & Hinit & Hconf).
  set (ctx' := stamp _ _ ctx) in *. set (full' := <["context" := JObj ctx']> full) in *.
  assert (as_obj (full' !! "context") = Some ctx') as Hctx' by apply as_obj_insert.
  exists i, t, body, full, ctx, out. fold ctx'.
  split; [by eapply list_elem_of_lookup_2|]. do 5 (split; [done|]).
  split; [by apply json_roundtrip|].
  split.
  { intros k Hk. assert (k ≠ "action" ∧ k ≠ "message_id" ∧ k ≠ "timestamp" ∧ k ≠ "ttl")
      as (H1 & H2 & H3 & H4) by (split_and!; intros ->; set_solver).
    unfold ctx', stamp. rewrite default_key_ne by done. by rewrite !lookup_insert_ne. }
  destruct init.
  - destruct (Hinit eq_refl) as [sel ->]. rewrite enrichInit_order, set_order_other, order_of_set, Hctx'
      by done. split; [done|].
    replace (as_str (ctx !! "domain")) with (as_str (ctx' !! "domain"));
      [apply init_order_complete|].
    unfold ctx', stamp. rewrite default_key_ne by done. by rewrite !lookup_insert_ne.
  - rewrite (Hconf eq_refl).
    change (enrichConfirm (0 + i) ctx' full')
      with (set_order (confirm_order i ctx' (order_of full')) full').
    rewrite set_order_other, order_of_set by done. split; [done|]. by apply confirm_order_complete.
Qed.

(** Two callbacks, the second a NACK. *)
Definition demo_callbacks (action t : string) : option json :=
  if t =? "t1" then Some (JObj {["context" := JObj {["transaction_id" := JStr "t1"]}]})
  else if t =? "t2" then Some (JObj {["context" := JObj {["transaction_id" := JStr "t2"]};
    "message" := JObj {["ack" := JObj {["status" := JStr "NACK"]}]}]})
  else None.

Lemma callback_batch_from_acks_witness :
  ∃ b i t, BuildConfirmBatchFromOnInit (H0:=demo_env) demo_callbacks "r1" ["t2"; "t1"] = Ok [b] ∧
    t ∈ ["t2"; "t1"] ∧ ∃ out, json_unmarshal b = Some (norm (JObj out)) ∧
    confirm_order_ok (order_of out) ∧ env_uuid (Env:=demo_env) i 0 = "uuid".
Proof.
  assert (∃ b, BuildConfirmBatchFromOnInit (H0:=demo_env) demo_callbacks "r1" ["t2"; "t1"] = Ok [b])
    as [b Hb] by (eexists; reflexivity).
  destruct (callback_batch_from_acks (H0:=demo_env) demo_callbacks "r1" ["t2"; "t1"] [b] b false)
    as (i & t & body & full & ctx & out & Ht & _ & _ & _ & _ & _ & Hdec & _ & _ & Hok);
    [intros ? ?; discriminate|exact Hb|set_solver|].
  exists b, i, t. split; [exact Hb|]. split; [exact Ht|]. exists out. split; [exact Hdec|]. by split.
Defined.
