(* ===== verification/SelectBatch.v ===== *)
(** * Building select requests: [internal/domain/pipeline/select_batch.go]

    Batches are generated from an example file or from an [on_search]
    catalog.  A Go struct decoded from JSON is modelled by the values of its
    fields ([struct_field] of [Json.v]): a missing field or [null] is the zero
    value, a value of another type is a decoding error.  Fresh UUIDs and the
    clock come from [Env], the example file from [readFile]; what is not
    determined by the code (two random choices for each order, and the order
    in which a set of fulfillments is visited) is in [Rand].  The pool of
    orders [saveSelectPool] writes, which nothing reads, is in [Artefacts.v]. *)
From stdpp Require Import prelude gmap list strings.
From S2P Require Import Prelude GoStrings Json ApiError Payloads.
Local Open Scope string_scope.

Definition get_arr (k : string) (j : json) : option (list json) :=
  match get_field k j with
  | Some (JArr l) => Some l
  | Some JNull => Some []
  | _ => None
  end.

(** ** [ExtractTransactionIDs] *)
Section Extract.
Context {B : Type} `{JsonCodec B} `{Sprint}.

Definition payload_txn (p : B) : option string :=
  full ← mjoin (decode_map p);
  ctxMap ← as_obj (full !! "context");
  if is_nil (ctxMap !! "transaction_id") then None
  else let txnID := sprint (ctxMap !! "transaction_id") in
       if txnID =? "" then None else Some txnID.

Definition ExtractTransactionIDs (selects : list B) : list string := omap payload_txn selects.
End Extract.

(** ** [normalizeSelectPayload] *)
Section Normalize.
Context `{Sprint}.

Definition type_tags : json :=
  JArr [JObj {["code" := JStr "type";
               "list" := JArr [JObj {["code" := JStr "type"; "value" := JStr "item"]}]]}].

(** Lines 140-157. *)
Definition select_fulfillment1 (fm : obj) : obj :=
  let fm := default_nil "type" (JStr "Delivery") fm in
  match as_obj (fm !! "state") with
  | Some _ => fm
  | None =>
      <["state" := JObj {["descriptor" := JObj {["code" := JStr "Serviceable"]}]}]> fm
  end.

(** The first id collected, if any. *)
Fixpoint first_fulfillment_id (l : list json) : option string :=
  match l with
  | [] => None
  | JObj fm :: l' =>
      if as_str (fm !! "id") =? "" then first_fulfillment_id l' else Some (as_str (fm !! "id"))
  | _ :: l' => first_fulfillment_id l'
  end.

(** Lines 159-178. *)
Definition select_item (fid : option string) (im : obj) : obj :=
  let im := match fid with
            | Some f => default_nil "fulfillment_id" (JStr f) im
            | None => im
            end in
  <["tags" := type_tags]> im.

(** Lines 181-223. *)
Definition select_fulfillment2 (fm : obj) : result error obj :=
  let fm := default_nil "type" (JStr "Delivery") fm in
  let state := obj_or_new "state" fm in
  let descriptor := obj_or_new "descriptor" state in
  let descriptor :=
    if is_nil (descriptor !! "code") || (sprint (descriptor !! "code") =? "")
    then <["code" := JStr "Serviceable"]> descriptor else descriptor in
  let fm := <["state" := JObj (<["descriptor" := JObj descriptor]> state)]> fm in
  match as_obj (fm !! "end") with
  | None => Err (EText "select fulfillment end missing")
  | Some end_ =>
      match as_obj (end_ !! "location") with
      | None => Err (EText "select fulfillment end.location missing")
      | Some loc =>
          if sprint (loc !! "gps") =? ""
          then Err (EText "select fulfillment end.location.gps missing")
          else match as_obj (loc !! "address") with
          | None => Err (EText "select fulfillment end.location.address missing")
          | Some addr =>
              if sprint (addr !! "area_code") =? ""
              then Err (EText "select fulfillment end.location.address.area_code missing")
              else Ok fm
          end
      end
  end.

(** The loop stops at the first error. *)
Fixpoint select_fulfillments (l : list json) : result error (list json) :=
  match l with
  | [] => Ok []
  | j :: l' =>
      match (match j with
             | JObj fm => match select_fulfillment2 fm with Ok fm' => Ok (JObj fm') | Err e => Err e end
             | _ => Ok j
             end) with
      | Err e => Err e
      | Ok j' => match select_fulfillments l' with Ok r => Ok (j' :: r) | Err e => Err e end
      end
  end.

Definition select_order (order : obj) : result error obj :=
  let fulf1 := map_objs select_fulfillment1 <$> as_arr (order !! "fulfillments") in
  let fid := first_fulfillment_id (default [] fulf1) in
  let order := match as_arr (order !! "items") with
               | Some items => <["items" := JArr (map_objs (select_item fid) items)]> order
               | None => order
               end in
  match fulf1 with
  | None => Ok order
  | Some l =>
      match select_fulfillments l with
      | Ok l' => Ok (<["fulfillments" := JArr l']> order)
      | Err e => Err e
      end
  end.

Definition select_context (ctx : obj) : obj :=
  if as_str (ctx !! "ttl") =? "" then <["ttl" := JStr "PT30S"]> ctx else ctx.

(** On the decoded map; the early returns leave it with the context only. *)
Definition normalize_select (m : obj) : result error obj :=
  let m := match as_obj (m !! "context") with
           | Some ctx => <["context" := JObj (select_context ctx)]> m
           | None => m
           end in
  match as_obj (m !! "message") with
  | None => Ok m
  | Some msg =>
      match as_obj (msg !! "order") with
      | None => Ok m
      | Some order =>
          match select_order order with
          | Ok order' => Ok (<["message" := JObj (<["order" := JObj order']> msg)]> m)
          | Err e => Err e
          end
      end
  end.

Context {B : Type} `{JsonCodec B}.

Definition marshal_error : error := EText "json: unsupported value".

Definition normalizeSelectPayload (payload : B) : result error B :=
  match decode_map payload with
  | None => Err (EText "json: cannot unmarshal")
  | Some None =>
      match encode_map None with Some b => Ok b | None => Err marshal_error end
  | Some (Some m) =>
      match normalize_select m with
      | Err e => Err e
      | Ok m' => match encode_map (Some m') with Some b => Ok b | None => Err marshal_error end
      end
  end.
End Normalize.

(** ** [ondcEnvelope] *)

(** The thirteen string fields of [ondcContext], as an object with exactly
    these keys. *)
Definition ondc_fields : list string :=
  ["domain"; "country"; "city"; "action"; "core_version"; "bap_id"; "bap_uri"; "bpp_uri";
   "transaction_id"; "message_id"; "timestamp"; "bpp_id"; "ttl"].

Fixpoint decode_fields (fields : list string) (j : json) : option obj :=
  match fields with
  | [] => Some ∅
  | k :: fields' =>
      v ← get_string k j; rest ← decode_fields fields' j; Some (<[k := JStr v]> rest)
  end.

Record ondcEnvelope := mkEnvelope {
  env_Context : obj;
  env_Message : option json;   (* nil when the field is absent *)
}.

Definition decode_envelope (j : json) : option ondcEnvelope :=
  c ← get_field "context" j; ctx ← decode_fields ondc_fields c;
  Some (mkEnvelope ctx (match j with JObj m => struct_field "message" m | _ => None end)).

Definition envelope_json (e : ondcEnvelope) : json :=
  JObj {["context" := JObj (env_Context e); "message" := default JNull (env_Message e)]}.

(** The context of the [i]-th select: lines 98-104 and 282-293. *)
Definition select_stamp `{Env} (i : nat) (txnID : string) (ctx : obj) : obj :=
  let ctx := <["action" := JStr "select"]> ctx in
  let ctx := <["transaction_id" := JStr txnID]> ctx in
  let ctx := <["message_id" := JStr (env_uuid i 1)]> ctx in
  let ctx := <["timestamp" := JStr (nowONDCTimestamp i 0)]> ctx in
  select_context ctx.

Section Batch.
Context `{Sprint} {B : Type} `{JsonCodec B} `{Env}.

(** Marshalling, normalising, appending: the end of both loops. *)
Definition finish_select (what : string) (e : ondcEnvelope) : result error B :=
  match json_marshal (envelope_json e) with
  | None => Err (EText ("marshal generated select" ++ what))
  | Some payload =>
      match normalizeSelectPayload payload with
      | Err err => Err (EWrap "normalize select" err)
      | Ok p => Ok p
      end
  end.

(** [for i := 0; i < batchSize; i++], stopping at the first error. *)
Fixpoint batch_loop (i n : nat) (body : nat → result error B) : result error (list B) :=
  match n with
  | O => Ok []
  | S n' =>
      match body i with
      | Err e => Err e
      | Ok b => match batch_loop (S i) n' body with Ok bs => Ok (b :: bs) | Err e => Err e end
      end
  end.

Definition GenerateBatchFromExample (readFile : string → result error B) (examplePath : string)
  (batchSize : Z) : result error (list B) :=
  if (batchSize <=? 0)%Z then Ok []
  else match readFile examplePath with
  | Err e => Err (EWrap "read example select" e)
  | Ok raw =>
      match (j ← json_unmarshal raw; decode_envelope j) with
      | None => Err (EText "unmarshal example select")
      | Some env =>
          batch_loop 0 (Z.to_nat batchSize) (λ i, finish_select ""
            (mkEnvelope (select_stamp i (env_uuid i 0) (env_Context env)) (env_Message env)))
      end
  end.

(** [orders[i%len(orders)]]; a nil map is encoded as [null]. *)
Definition buildSelectPayloads (baseCtx : obj) (orders : list (option obj)) (batchSize : Z)
  (fixedTxnID : string) : result error (list B) :=
  batch_loop 0 (Z.to_nat batchSize) (λ i,
    let txn := if fixedTxnID =? "" then env_uuid i 0 else fixedTxnID in
    let order := mjoin (orders !! (i mod length orders)) in
    finish_select " from on_search"
      (mkEnvelope (select_stamp i txn baseCtx)
         (Some (JObj {["order" := match order with Some o => JObj o | None => JNull end]})))).
End Batch.

(** ** The catalog *)

Record catalogItem := mkItem {
  ci_ID : string; ci_LocationID : string; ci_FulfillmentID : string; ci_ParentItemID : string;
}.
Record catalogProvider := mkProvider {
  cp_ID : string;
  cp_Fulfillments : list (string * string);   (* id, type *)
  cp_Locations : list string;
  cp_Items : list catalogItem;
}.

(** The tags are decoded, and dropped: no order uses them. *)
Definition decode_tags (j : json) : option unit :=
  tags ← get_arr "tags" j;
  _ ← mapM (λ t, _ ← get_string "code" t; l ← get_arr "list" t;
              mapM (λ v, _ ← get_string "code" v; get_string "value" v) l) tags;
  Some ().

Definition decode_item (j : json) : option catalogItem :=
  id ← get_string "id" j; loc ← get_string "location_id" j; f ← get_string "fulfillment_id" j;
  p ← get_string "parent_item_id" j; _ ← decode_tags j; Some (mkItem id loc f p).

Definition decode_provider (j : json) : option catalogProvider :=
  id ← get_string "id" j;
  fs ← get_arr "fulfillments" j;
  fs ← mapM (λ f, i ← get_string "id" f; t ← get_string "type" f; Some (i, t)) fs;
  ls ← get_arr "locations" j; ls ← mapM (get_string "id") ls;
  its ← get_arr "items" j; its ← mapM decode_item its;
  Some (mkProvider id fs ls its).

Definition decode_catalog (j : json) : option (list catalogProvider) :=
  msg ← get_field "message" j; cat ← get_field "catalog" msg;
  ps ← get_arr "bpp/providers" cat; mapM decode_provider ps.

(** Lines 405-421. *)
Definition default_fulfillment (p : catalogProvider) : string :=
  default "" (head (filter (λ s, s ≠ "") (cp_Fulfillments p).*1)).
Definition fulfillment_type (p : catalogProvider) (id : string) : string :=
  let types := foldl (λ m kv, if (kv.1 =? "") || (kv.2 =? "") then m else <[kv.1 := kv.2]> m)
                 (∅ : gmap string string) (cp_Fulfillments p) in
  let t := default "" (types !! id) in
  if t =? "" then "Delivery" else t.
Definition provider_location (p : catalogProvider) : string := default "" (head (cp_Locations p)).

(** The location and the fulfillment an item of the order is given. *)
Definition item_location (p : catalogProvider) (it : catalogItem) : string :=
  if provider_location p =? "" then ci_LocationID it else provider_location p.
Definition item_fulfillment (p : catalogProvider) (it : catalogItem) : string :=
  if ci_FulfillmentID it =? "" then default_fulfillment p else ci_FulfillmentID it.

(** Lines 504-532; [count] is a Go [int]. *)
Definition order_item (p : catalogProvider) (it : catalogItem) : obj :=
  let im : obj :=
    {["id" := JStr (ci_ID it); "location_id" := JStr (item_location p it);
      "fulfillment_id" := JStr (item_fulfillment p it); "tags" := type_tags;
      "quantity" := JObj {["count" := JInt 2]}]} in
  if ci_ParentItemID it =? "" then im else <["parent_item_id" := JStr (ci_ParentItemID it)]> im.

(** The set [fulfillmentIDs] and [chosenLocationID]. *)
Definition used_fulfillments (p : catalogProvider) (its : list catalogItem) : gset string :=
  list_to_set (filter (λ s, s ≠ "") (item_fulfillment p <$> its)).
Definition chosen_location (p : catalogProvider) (its : list catalogItem) : string :=
  default "" (head (filter (λ s, s ≠ "") (item_location p <$> its))).

(** Lines 553-564. *)
Definition order_fulfillment (p : catalogProvider) (template : obj) (id : string) : obj :=
  <["type" := JStr (fulfillment_type p id)]> (<["id" := JStr id]> template).

(** The base order and its first fulfillment are copied through JSON, which
    [norm] is the effect of. *)
Definition norm_obj (m : obj) : obj := norm <$> m.
Definition base_template (baseOrder : obj) : obj :=
  match as_arr (baseOrder !! "fulfillments") with
  | Some (JObj fm :: _) => norm_obj fm
  | _ => ∅
  end.

(** What the code leaves open for the [i]-th order: [r.Intn(k)], [r.Perm(n)],
    and the order in which the set [fulfillmentIDs] is visited. *)
Class Rand := mkRand {
  rand_Intn : nat → nat → nat;
  rand_Perm : nat → nat → list nat;
  rand_range : nat → gset string → list string;
}.

(** One order from the chosen items: lines 480-569. *)
Definition build_order `{Rand} (i : nat) (p : catalogProvider) (baseOrder : obj)
  (its : list catalogItem) : obj :=
  let order := norm_obj baseOrder in
  let order := <["items" := JArr (JObj <$> (order_item p <$> its))]> order in
  let order :=
    match as_obj (order !! "provider") with
    | Some prov =>
        let prov := <["id" := JStr (cp_ID p)]> prov in
        let prov := if chosen_location p its =? "" then prov
          else <["locations" := JArr [JObj {["id" := JStr (chosen_location p its)]}]]> prov in
        <["provider" := JObj prov]> order
    | None => order
    end in
  if bool_decide (used_fulfillments p its = ∅) then order
  else
    let ids := rand_range i (used_fulfillments p its) in
    <["fulfillments" := JArr
       (JObj <$> (order_fulfillment p (norm_obj (base_template baseOrder)) <$> ids))]> order.

Definition max_items (n : nat) : nat := if (n <? 5)%nat then n else 5.

Definition chosen_items `{Rand} (i : nat) (items : list catalogItem) : list catalogItem :=
  let n := S (rand_Intn i (max_items (length items))) in
  let n := if (length items <? n)%nat then length items else n in
  omap (λ idx, items !! idx) (take n (rand_Perm i (length items))).

(** [buildDistinctOrdersFromOnSearch], of which the errors are all nil.  The
    copies of a nil base order are nil maps: the first assignment to one
    panics. *)
Definition buildDistinctOrdersFromOnSearch `{Rand} (onSearch : option json) (baseOrder : option obj)
  (distinctCount : Z) : outcome (list obj) :=
  if (distinctCount <=? 0)%Z then Done []
  else match (j ← onSearch; decode_catalog j) with
  | None | Some [] => Done []
  | Some (p :: _) =>
      match cp_Items p with
      | [] => Done []
      | items =>
          match baseOrder with
          | None => Panic
          | Some baseOrder =>
              let n := Nat.min (Z.to_nat distinctCount) (length items) in
              Done ((λ i, build_order i p baseOrder (chosen_items i items)) <$> seq 0 n)
          end
      end
  end.

(** [json.Unmarshal] into [orderWrapper]: [Some None] is the nil map. *)
Definition decode_order (message : option json) : option (option obj) :=
  m ← message;
  match get_field "order" m with
  | Some (JObj base) => Some (Some base)
  | Some JNull => Some None
  | _ => None
  end.

Section Service.
Context `{Sprint} {B : Type} `{JsonCodec B} `{Env} `{Rand}.
Variable readFile : string → result error B.

(** [onSearch]: [None] when it has length zero. *)
Definition generateFromOnSearch (onSearch : option B) (examplePath : string) (batchSize : Z)
  (fixedTxnID : string) : outcome (result error (list B)) :=
  match onSearch with
  | None => Done (Ok [])
  | Some os =>
      if (batchSize <=? 0)%Z then Done (Ok [])
      else match (j ← json_unmarshal os; decode_envelope j) with
      | None => Done (Err (EText "unmarshal on_search"))
      | Some onEnv =>
          match readFile examplePath with
          | Err e => Done (Err (EWrap "read example select" e))
          | Ok raw =>
              match (j ← json_unmarshal raw; decode_envelope j) with
              | None => Done (Err (EText "unmarshal example select"))
              | Some tmpl =>
                  match decode_order (env_Message tmpl) with
                  | None => Done (Err (EText "unmarshal example select order"))
                  | Some base =>
                      match buildDistinctOrdersFromOnSearch (json_unmarshal os) base 12 with
                      | Panic => Panic
                      | Done orders =>
                          Done (buildSelectPayloads (env_Context onEnv)
                            (match orders with [] => [base] | _ => Some <$> orders end)
                            batchSize fixedTxnID)
                      end
                  end
              end
          end
      end
  end.

Definition GenerateBatchFromOnSearch (onSearch : option B) (examplePath : string) (batchSize : Z) :=
  generateFromOnSearch onSearch examplePath batchSize "".

Definition GenerateBatchFromOnSearchWithTxnID (onSearch : option B) (examplePath : string)
  (batchSize : Z) (txnID : string) := generateFromOnSearch onSearch examplePath batchSize txnID.
End Service.

(** ** [normalizeProviderID] *)
Definition provider_char (c : Ascii.ascii) : bool :=
  let n := Ascii.nat_of_ascii c in
  (((48 <=? n) && (n <=? 57)) || ((97 <=? n) && (n <=? 122)) || ((65 <=? n) && (n <=? 90))
  || (n =? 47) || (n =? 45) || (n =? 95))%nat.

Fixpoint filter_string (p : Ascii.ascii → bool) (s : string) : string :=
  match s with
  | EmptyString => EmptyString
  | String c s' => if p c then String c (filter_string p s') else filter_string p s'
  end.

Definition normalizeProviderID (s : string) : string :=
  String.substring 0 36 (filter_string provider_char s).

(** ** Lemmas *)

Lemma norm_lookup (m : obj) k : norm_obj m !! k = norm <$> m !! k.
Proof. apply lookup_fmap. Qed.

Lemma select_context_other ctx k : k ≠ "ttl" → select_context ctx !! k = ctx !! k.
Proof. intros. unfold select_context. case_match; [|done]. by rewrite lookup_insert_ne. Qed.

Section BatchLemmas.
Context `{Sprint} {B : Type} `{JsonCodec B} `{Env}.

Lemma decode_map_marshal m (b : B) :
  json_marshal (JObj m) = Some b → decode_map b = Some (Some (norm_obj m)).
Proof. intros Hb%json_roundtrip. unfold decode_map. by rewrite Hb. Qed.

(** Normalising leaves the context alone, the ttl apart. *)
Lemma normalize_select_context m m' ctx k :
  normalize_select m = Ok m' → as_obj (m !! "context") = Some ctx → k ≠ "ttl" →
  ∃ ctx', as_obj (m' !! "context") = Some ctx' ∧ ctx' !! k = ctx !! k.
Proof.
  unfold normalize_select. intros Hm Hctx Hk. rewrite Hctx in Hm.
  exists (select_context ctx). split; [|by apply select_context_other].
  set (m1 := <["context" := JObj (select_context ctx)]> m) in *.
  assert (as_obj (m1 !! "context") = Some (select_context ctx)) as E1 by apply as_obj_insert.
  destruct (as_obj (m1 !! "message")) as [msg|]; [|by simplify_eq].
  destruct (as_obj (msg !! "order")) as [order|]; [|by simplify_eq].
  destruct (select_order order); simplify_eq. by rewrite lookup_insert_ne.
Qed.

(** The transaction a finished select belongs to. *)
Lemma finish_select_txn what e b txn :
  finish_select what e = Ok b → env_Context e !! "transaction_id" = Some (JStr txn) → txn ≠ "" →
  payload_txn b = Some txn.
Proof.
  unfold finish_select. intros Hb Hctx Htxn.
  destruct (json_marshal (envelope_json e)) as [p|] eqn:Hp; [|done].
  apply decode_map_marshal in Hp. unfold normalizeSelectPayload in Hb. rewrite Hp in Hb.
  set (m0 := norm_obj _) in *.
  assert (as_obj (m0 !! "context") = Some (norm_obj (env_Context e))) as Hm0.
  { unfold m0. by rewrite norm_lookup. }
  destruct (normalize_select m0) as [m1|] eqn:Hm1; [|done].
  destruct (encode_map (Some m1)) as [b'|] eqn:Hb'; simplify_eq.
  destruct (normalize_select_context _ _ _ "transaction_id" Hm1 Hm0) as (ctx1 & E1 & E2); [done|].
  apply decode_map_marshal in Hb'. unfold payload_txn. rewrite Hb'. simpl.
  rewrite norm_lookup. apply as_obj_Some in E1. rewrite E1. simpl.
  change (norm <$> ctx1) with (norm_obj ctx1).
  rewrite norm_lookup, E2, norm_lookup, Hctx. simpl.
  by rewrite (proj2 (String.eqb_neq _ _)).
Qed.

Lemma batch_loop_spec (body : nat → result error B) n : ∀ i bs,
  batch_loop i n body = Ok bs →
  length bs = n ∧ ∀ j b, bs !! j = Some b → body (i + j) = Ok b.
Proof.
  induction n as [|n IH]; intros i bs; simpl; [by intros [= <-]|].
  destruct (body i) as [b|] eqn:Hb; [|done]. destruct (batch_loop (S i) n body) as [bs'|] eqn:E; [|done].
  intros [= <-]. destruct (IH _ _ E) as [Hl Hn]. split; [simpl; congruence|].
  intros [|j] b'; simpl; [intros [= <-]; by rewrite Nat.add_0_r|].
  intros Hj%Hn. by rewrite Nat.add_succ_r.
Qed.

Lemma select_stamp_txn i txn ctx : select_stamp i txn ctx !! "transaction_id" = Some (JStr txn).
Proof. unfold select_stamp. rewrite select_context_other by done. field; done. Qed.

(** [ExtractTransactionIDs] of a batch whose i-th select has transaction
    [txn i]. *)
Lemma batch_loop_txns what (txn : nat → string) (ctx : nat → obj) msg n bs :
  (∀ i, txn i ≠ "") →
  batch_loop 0 n (λ i, finish_select what (mkEnvelope (select_stamp i (txn i) (ctx i)) (msg i))) = Ok bs →
  ExtractTransactionIDs bs = txn <$> seq 0 n.
Proof.
  intros Htxn Hbs. apply batch_loop_spec in Hbs as [Hl Hj]. unfold ExtractTransactionIDs.
  assert (∀ l k, (∀ j b, l !! j = Some b → payload_txn b = Some (txn (k + j))) →
    omap payload_txn l = txn <$> seq k (length l)) as Hall.
  { induction l as [|b l IH]; intros k Hk; simpl; [done|].
    rewrite (Hk 0 b) by done. rewrite Nat.add_0_r. f_equal. apply (IH (S k)).
    intros j b' Hb'. rewrite (Hk (S j) b' Hb'). do 2 f_equal. lia. }
  rewrite <- Hl. apply Hall. intros j b Hb. eapply finish_select_txn; [by eapply Hj| |done].
  apply select_stamp_txn.
Qed.
End BatchLemmas.

(** ** Theorems *)

(** The transaction ids of a generated batch can be recovered: whenever
    [GenerateBatchFromOnSearch] succeeds on orders of the catalog, the batch
    has [batchSize] payloads and [ExtractTransactionIDs] returns, in order,
    the ids that were assigned: the fixed id, or one fresh UUID per select.
    The same holds of [GenerateBatchFromExample]. *)
Theorem select_batch_txn_ids `{Sprint} {B} `{JsonCodec B} `{Env} `{Rand}
  readFile (onSearch : option B) path n fixedTxnID bs :
  (∀ i k, env_uuid i k ≠ "") → (0 < n)%Z →
  (generateFromOnSearch readFile onSearch path n fixedTxnID = Done (Ok bs) → onSearch ≠ None →
   length bs = Z.to_nat n ∧
   ExtractTransactionIDs bs =
     (λ i, if fixedTxnID =? "" then env_uuid i 0 else fixedTxnID) <$> seq 0 (Z.to_nat n)) ∧
  (GenerateBatchFromExample readFile path n = Ok bs →
   length bs = Z.to_nat n ∧
   ExtractTransactionIDs bs = (λ i, env_uuid i 0) <$> seq 0 (Z.to_nat n)).
Proof.
  intros Hu Hn.
  assert (∀ i, (if fixedTxnID =? "" then env_uuid i 0 else fixedTxnID) ≠ "") as Htxn.
  { intros i. destruct (String.eqb_spec fixedTxnID ""); [apply Hu|done]. }
  assert ((n <=? 0)%Z = false) as Hn0 by (apply Z.leb_gt; lia).
  assert (∀ ctx orders, buildSelectPayloads ctx orders n fixedTxnID = Ok bs →
    length bs = Z.to_nat n ∧ ExtractTransactionIDs bs =
     (λ i, if fixedTxnID =? "" then env_uuid i 0 else fixedTxnID) <$> seq 0 (Z.to_nat n)) as Hb.
  { intros ctx orders Hb. unfold buildSelectPayloads in Hb. cbv zeta in Hb.
    split; [by destruct (batch_loop_spec _ _ _ _ Hb)|].
    exact (batch_loop_txns _ _ (λ _, ctx) _ _ _ Htxn Hb). }
  split.
  - unfold generateFromOnSearch. destruct onSearch as [os|]; [|done]. rewrite Hn0.
    intros Hbs _. repeat (case_match; try done); injection Hbs as Hbs; by apply Hb in Hbs.
  - unfold GenerateBatchFromExample. rewrite Hn0. destruct (readFile path) as [raw|]; [|done].
    destruct (_ ≫= _) as [e|]; [|done]. intros Hbs. split; [by destruct (batch_loop_spec _ _ _ _ Hbs)|].
    exact (batch_loop_txns _ (λ i, env_uuid i 0) (λ _, env_Context e) (λ _, env_Message e) _ _
      (λ i, Hu i 0) Hbs).
Qed.

(** A catalog with one item, a template, and recognisable choices. *)
Definition demo_sprint : Sprint := λ _, "?".
Definition demo_rand : Rand :=
  {| rand_Intn _ _ := 0; rand_Perm _ n := seq 0 n; rand_range _ X := elements X |}.
Definition demo_onsearch : json := JObj {[
  "context" := JObj {["bpp_id" := JStr "bpp.example"]};
  "message" := JObj {["catalog" := JObj {["bpp/providers" := JArr [JObj {[
    "id" := JStr "p1"; "fulfillments" := JArr [JObj {["id" := JStr "f1"]}];
    "items" := JArr [JObj {["id" := JStr "i1"; "fulfillment_id" := JStr "f1"]}] ]}]]}]} ]}.
Definition demo_template : json := JObj {[
  "context" := JObj ∅;
  "message" := JObj {["order" := JObj {["fulfillments" := JArr [JObj {["end" := JObj {[
    "location" := JObj {["gps" := JStr "12.9,77.5"; "address" := JObj {["area_code" := JStr "560001"]}]}
    ]}]}]]}]} ]}.

(** The witnesses evaluate maps. *)
#[local] Transparent gmap_empty.

Lemma select_batch_txn_ids_witness :
  ∃ bs, generateFromOnSearch (H:=demo_sprint) (H1:=demo_env) (H2:=demo_rand)
    (λ _, Ok demo_template) (Some demo_onsearch) "select.json" 2 "t1" = Done (Ok bs) ∧ length bs = 2 ∧
    ExtractTransactionIDs (H0:=demo_sprint) bs = ["t1"; "t1"].
Proof.
  destruct (done_ok_Done (generateFromOnSearch (H:=demo_sprint) (H1:=demo_env) (H2:=demo_rand)
    (λ _, Ok demo_template) (Some demo_onsearch) "select.json" 2 "t1")) as [bs Hbs]; [reflexivity|].
  exists bs. split; [exact Hbs|].
  apply (select_batch_txn_ids (H:=demo_sprint) (H1:=demo_env) (H2:=demo_rand)
    (λ _, Ok demo_template) (Some demo_onsearch) "select.json" 2 "t1" bs);
    [intros ? ?; discriminate|reflexivity|exact Hbs|discriminate].
Defined.

(** The positions chosen for an order. *)
Lemma chosen_items_spec `{Rand} i items :
  items ≠ [] → (∀ i k, 0 < k → rand_Intn i k < k)%nat → (∀ i n, rand_Perm i n ≡ₚ seq 0 n) →
  ∃ idxs, NoDup idxs ∧ (∀ j, j ∈ idxs → j < length items)%nat ∧
    chosen_items i items = omap (λ j, items !! j) idxs ∧
    (1 ≤ length (chosen_items i items) ≤ 5)%nat.
Proof.
  intros Hne HI HP. set (n := length items).
  assert (0 < n)%nat as Hn by (unfold n; destruct items; [done|simpl; lia]).
  assert (0 < max_items n ≤ 5)%nat as Hm.
  { unfold max_items. destruct (Nat.ltb_spec n 5); lia. }
  assert (max_items n ≤ n)%nat as Hm2.
  { unfold max_items. destruct (Nat.ltb_spec n 5); lia. }
  specialize (HI i (max_items n) (proj1 Hm)).
  unfold chosen_items. fold n.
  destruct (Nat.ltb_spec n (S (rand_Intn i (max_items n)))) as [|_]; [lia|].
  set (k := S (rand_Intn i (max_items n))) in *. specialize (HP i n).
  assert (∀ j, j ∈ take k (rand_Perm i n) → j < n)%nat as Hlt.
  { intros j Hj. assert (j ∈ rand_Perm i n) as Hj'.
    { rewrite <- (take_drop k (rand_Perm i n)). apply elem_of_app. by left. }
    rewrite HP in Hj'. apply elem_of_seq in Hj'. lia. }
  exists (take k (rand_Perm i n)). split_and!; try done.
  - apply (sublist_NoDup _ (rand_Perm i n)); [rewrite HP; apply NoDup_seq|apply sublist_take].
  - rewrite omap_lookup_length by done. rewrite length_take, HP, length_seq. lia.
  - rewrite omap_lookup_length by done. rewrite length_take, HP, length_seq. lia.
Qed.

Lemma build_order_items `{Rand} i p base its :
  as_arr (build_order i p base its !! "items") = Some (JObj <$> (order_item p <$> its)).
Proof.
  unfold build_order. set (o1 := <["items" := _]> (norm_obj base)).
  assert (as_arr (o1 !! "items") = Some (JObj <$> (order_item p <$> its))) as H1
    by (unfold o1; by rewrite lookup_insert_eq).
  destruct (as_obj (o1 !! "provider")); case_bool_decide;
    rewrite ?lookup_insert_ne by done; exact H1.
Qed.

Lemma build_order_fulfillment `{Rand} i p base its it :
  (∀ i X, rand_range i X ≡ₚ elements X) → it ∈ its → item_fulfillment p it ≠ "" →
  ∃ fulf fm, as_arr (build_order i p base its !! "fulfillments") = Some fulf ∧ JObj fm ∈ fulf ∧
    fm !! "id" = Some (JStr (item_fulfillment p it)).
Proof.
  intros HR Hit Hne. assert (item_fulfillment p it ∈ used_fulfillments p its) as Hin.
  { apply elem_of_list_to_set, list_elem_of_filter. split; [done|].
    by apply list_elem_of_fmap_2. }
  unfold build_order. rewrite bool_decide_false by set_solver.
  eexists _, (order_fulfillment p (norm_obj (base_template base)) (item_fulfillment p it)).
  split; [by rewrite lookup_insert_eq|]. split.
  - apply list_elem_of_fmap_2, list_elem_of_fmap_2. by rewrite HR, elem_of_elements.
  - unfold order_fulfillment. by rewrite lookup_insert_ne, lookup_insert_eq.
Qed.

(** C33: The orders generated from a catalog are well formed, given what
    [math/rand] promises: as many as asked for or as the first provider has
    items; each orders one to five distinct items of that provider, and every
    item refers to a fulfillment the order contains and, if the provider has
    a location, to that location. *)
Theorem distinct_orders_wf `{Rand} onSearch base n p ps :
  (∀ i k, 0 < k → rand_Intn i k < k)%nat → (∀ i k, rand_Perm i k ≡ₚ seq 0 k) →
  (∀ i X, rand_range i X ≡ₚ elements X) →
  (j ← onSearch; decode_catalog j) = Some (p :: ps) →
  ∃ orders, buildDistinctOrdersFromOnSearch onSearch (Some base) n = Done orders ∧
  length orders = Nat.min (Z.to_nat n) (length (cp_Items p)) ∧
  ∀ o, o ∈ orders → ∃ idxs its,
    NoDup idxs ∧ its = omap (λ j, cp_Items p !! j) idxs ∧ (1 ≤ length its ≤ 5)%nat ∧
    as_arr (o !! "items") = Some (JObj <$> (order_item p <$> its)) ∧
    ∀ it, it ∈ its →
      (provider_location p ≠ "" →
       order_item p it !! "location_id" = Some (JStr (provider_location p))) ∧
      order_item p it !! "fulfillment_id" = Some (JStr (item_fulfillment p it)) ∧
      (item_fulfillment p it ≠ "" → ∃ fulf fm,
        as_arr (o !! "fulfillments") = Some fulf ∧ JObj fm ∈ fulf ∧
        fm !! "id" = Some (JStr (item_fulfillment p it))).
Proof.
  intros HI HP HR Hcat. unfold buildDistinctOrdersFromOnSearch. rewrite Hcat.
  destruct (Z.leb_spec n 0).
  { exists []. simpl. split_and!; [done|lia|]. intros o Ho. by apply elem_of_nil in Ho. }
  destruct (cp_Items p) as [|x items] eqn:Hitems.
  { exists []. simpl. split_and!; [done|lia|]. intros o Ho. by apply elem_of_nil in Ho. }
  eexists. split; [done|]. split; [by rewrite length_fmap, length_seq|].
  intros o (i & -> & _)%list_elem_of_fmap.
  destruct (chosen_items_spec i (x :: items)) as (idxs & Hnd & Hlt & Hch & Hlen); [done..|].
  exists idxs, (chosen_items i (x :: items)). split_and!; try done; try lia.
  { apply build_order_items. }
  intros it Hit. split_and!.
  - intros Hloc. unfold order_item, item_location.
    rewrite (proj2 (String.eqb_neq _ _) Hloc). case_match; by field.
  - unfold order_item. case_match; by field.
  - intros Hf. by apply build_order_fulfillment.
Qed.

Lemma distinct_orders_wf_witness :
  ∃ orders, buildDistinctOrdersFromOnSearch (H:=demo_rand) (Some demo_onsearch) (Some ∅) 12 = Done orders ∧
  length orders = 1 ∧ (decode_catalog demo_onsearch) =
    Some [mkProvider "p1" [("f1", "")] [] [mkItem "i1" "" "f1" ""]].
Proof.
  assert (decode_catalog demo_onsearch =
    Some [mkProvider "p1" [("f1", "")] [] [mkItem "i1" "" "f1" ""]]) as E by reflexivity.
  destruct (distinct_orders_wf (H:=demo_rand) (Some demo_onsearch) ∅ 12
    (mkProvider "p1" [("f1", "")] [] [mkItem "i1" "" "f1" ""]) []) as (orders & Ho & Hl & _).
  - intros i k Hk. exact Hk.
  - intros i k. reflexivity.
  - intros i X. reflexivity.
  - exact E.
  - exists orders. split_and!; [exact Ho|exact Hl|exact E].
Defined.
