(* ===== verification/Coordinator.v ===== *)
(** * Running a stage: [internal/domain/pipeline/coordinator.go]

    [BCoordinator] prepares each payload of a stage (addressing, the optional
    corruption of schema-error injection), links its transaction to the run,
    records it in the run log and sends it to the seller, through the
    concurrent dispatcher.

    The coordinator is one object shared by all runs, and the goroutines of a
    stage read its fields when they run: the [c] of [preparePayload] is the
    coordinator as the call finds it.  What a call does to the outside (the
    link, the two calls of the run log, the request) is its list of
    [effect]s, in program order. *)
From stdpp Require Import prelude gmap list strings.
From S2P Require Import Prelude GoStrings Json ApiError Dispatcher RunLog Payloads SelectBatch.
Local Open Scope string_scope.

(** The three fields of [config.Config] the coordinator reads. *)
Record bap_config := mkBap { cfg_BAPURI : string; cfg_BAPID : string; cfg_CoreVersion : string }.

(** What the closure given to [SetTxnLinker] captures: the session and its
    verification flag. *)
Record linker := mkLinker { lk_session : string; lk_verification : bool }.

Record BCoordinator := mkCoord {
  bc_cfg : bap_config;
  bc_linkTxn : option linker;       (* [None]: the initial closure, which does nothing *)
  bc_throttle : option Z;           (* the target rate of the pacing throttle *)
  bc_sessionID : string;
  bc_coreVersion : string;
  bc_errorInjectEnabled : bool;
  bc_errorInjectRPS : Z;
}.

Definition NewBCoordinator (cfg : bap_config) : BCoordinator :=
  mkCoord cfg None None "" "" false 0.

Definition SetTxnLinker (fn : option linker) (c : BCoordinator) : BCoordinator :=
  match fn with
  | Some _ => mkCoord (bc_cfg c) fn (bc_throttle c) (bc_sessionID c) (bc_coreVersion c)
                (bc_errorInjectEnabled c) (bc_errorInjectRPS c)
  | None => c
  end.
Definition SetThrottle (t : option Z) (sessionID : string) (c : BCoordinator) : BCoordinator :=
  mkCoord (bc_cfg c) (bc_linkTxn c) t sessionID (bc_coreVersion c)
    (bc_errorInjectEnabled c) (bc_errorInjectRPS c).
Definition SetCoreVersion (v : string) (c : BCoordinator) : BCoordinator :=
  mkCoord (bc_cfg c) (bc_linkTxn c) (bc_throttle c) (bc_sessionID c) v
    (bc_errorInjectEnabled c) (bc_errorInjectRPS c).
Definition SetErrorInjection (enabled : bool) (rps : Z) (c : BCoordinator) : BCoordinator :=
  mkCoord (bc_cfg c) (bc_linkTxn c) (bc_throttle c) (bc_sessionID c) (bc_coreVersion c)
    enabled rps.

(** ** The batches of selects *)
Section Batches.
Context `{Sprint} {B : Type} `{JsonCodec B} `{Env} `{Rand}.
Variable readFile : string → result error B.

Definition select_path : string := "examples/payloads/select/select.json".

Definition SelectBatchFromExample (batchSize : Z) : result error (list B) :=
  GenerateBatchFromExample readFile select_path batchSize.

Definition SelectBatchFromOnSearch (onSearch : option B) (batchSize : Z)
  : outcome (result error (list B)) := GenerateBatchFromOnSearch readFile onSearch select_path batchSize.

Definition SelectBatchFromOnSearchWithTxnID (onSearch : option B) (batchSize : Z) (txnID : string)
  : outcome (result error (list B)) :=
  GenerateBatchFromOnSearchWithTxnID readFile onSearch select_path batchSize txnID.
End Batches.

(** ** [shouldCorrupt] *)

Definition wrong_count (rps : Z) : Z := if (10 <=? rps)%Z then (rps / 10)%Z else 1%Z.

Definition shouldCorrupt (c : BCoordinator) (idx : nat) : bool :=
  if negb (bc_errorInjectEnabled c) || (bc_errorInjectRPS c <=? 1)%Z then false
  else (Z.of_nat idx mod bc_errorInjectRPS c <? wrong_count (bc_errorInjectRPS c))%Z.

(** ** [corruptForStage] *)

(** [l, _ := o.([]any)], its first element as an object, and the rest. *)
Definition first_obj (missing invalid : string) (o : option json)
  : result error (obj * list json) :=
  match default [] (as_arr o) with
  | [] => Err (EText missing)
  | JObj m :: rest => Ok (m, rest)
  | _ :: _ => Err (EText invalid)
  end.

Definition set_id (id : string) (m : obj) : obj := <["id" := JStr id]> m.

Section Corrupt.
Local Open Scope go_scope.

(** The [switch] on the action. *)
Definition corrupt_order (action : string) (idx : nat) (order : obj) : result error obj :=
  if action =? "select" then
    try (item0, items) <- first_obj "corrupt select payload: items missing"
      "corrupt select payload: first item invalid" (order !! "items") ;;
    match as_obj (order !! "provider") with
    | None => Err (EText "corrupt select payload: provider missing")
    | Some provider =>
        let order := <["items" := JArr (JObj (set_id "wrong-item-id" item0) :: items)]> order in
        Ok (<["provider" := JObj (set_id "wrong-provider-id" provider)]> order)
    end
  else if action =? "init" then
    try (item0, items) <- first_obj "corrupt init payload: items missing"
      "corrupt init payload: first item invalid" (order !! "items") ;;
    try (f0, fs) <- first_obj "corrupt init payload: fulfillments missing"
      "corrupt init payload: first fulfillment invalid" (order !! "fulfillments") ;;
    let order := <["items" := JArr (JObj (set_id "wrong-item-id" item0) :: items)]> order in
    Ok (<["fulfillments" := JArr (JObj (set_id "wrong-fulfillment-id" f0) :: fs)]> order)
  else if action =? "confirm" then
    try (f0, fs) <- first_obj "corrupt confirm payload: fulfillments missing"
      "corrupt confirm payload: first fulfillment invalid" (order !! "fulfillments") ;;
    let order := <["state" := JStr ("xyz-" ++ FormatInt (Z.of_nat idx))]> order in
    Ok (<["fulfillments" := JArr (JObj (set_id "wrong-fulfillment-id" f0) :: fs)]> order)
  else Ok order.

(** For another action the two assignments change nothing. *)
Definition corruptForStage (action : string) (idx : nat) (env : obj) : result error obj :=
  match as_obj (env !! "message") with
  | None => Err (EText ("corrupt " ++ action ++ " payload: message missing"))
  | Some msg =>
      match as_obj (msg !! "order") with
      | None => Err (EText ("corrupt " ++ action ++ " payload: order missing"))
      | Some order =>
          try order' <- corrupt_order action idx order ;;
          Ok (<["message" := JObj (<["order" := JObj order']> msg)]> env)
      end
  end.
End Corrupt.

(** ** [preparePayload] *)
Section Prepare.
Context {B : Type} `{JsonCodec B} `{Sprint}.

Definition txn_of (ctxMap : obj) : string :=
  if is_nil (ctxMap !! "transaction_id") then "" else sprint (ctxMap !! "transaction_id").

(** [if v != "" { m[k] = v }]. *)
Definition set_nonempty (k v : string) (m : obj) : obj :=
  if v =? "" then m else <[k := JStr v]> m.

Definition prepare_context (c : BCoordinator) (ctxMap : obj) : obj :=
  let ctxMap := set_nonempty "bap_uri" (cfg_BAPURI (bc_cfg c)) ctxMap in
  let ctxMap := set_nonempty "bap_id" (cfg_BAPID (bc_cfg c)) ctxMap in
  if bc_coreVersion c =? "" then set_nonempty "core_version" (cfg_CoreVersion (bc_cfg c)) ctxMap
  else <["core_version" := JStr (bc_coreVersion c)]> ctxMap.

(** [(toSend, err)] and [txnID], which is returned with an error too. *)
Definition preparePayload (c : BCoordinator) (action : string) (idx : nat) (raw : B)
  : result error B * string :=
  match decode_map raw with
  | None => (Err (EText ("decode " ++ action ++ " envelope")), "")
  | Some None => (Ok raw, "")
  | Some (Some env) =>
      match as_obj (env !! "context") with
      | None => (Ok raw, "")
      | Some ctxMap =>
          let txnID := txn_of ctxMap in
          let env := <["context" := JObj (prepare_context c ctxMap)]> env in
          match (if shouldCorrupt c idx then corruptForStage action idx env else Ok env) with
          | Err e => (Err e, txnID)
          | Ok env =>
              match encode_map (Some env) with
              | Some updated => (Ok updated, txnID)
              | None => (Err (EText ("encode " ++ action ++ " envelope")), txnID)
              end
          end
      end
  end.

(** ** The three stages *)

Inductive effect :=
  | ELink (l : option linker) (runID txnID : string)
  | ELog (o : op B)
  | ESend (action baseURL : string) (payload : B).

(** The seller's answer to the request of an index, and the clock. *)
Variable seller : string → nat → B → option error.
Variable now : nat → Z.

Definition record_effects (runID action txnID : string) (idx : nat) (toSend : B) : list effect :=
  [ELog (RecordPayload runID "pipeline_b" action txnID toSend);
   ELog (RecordTimestamp runID "pipeline_b" action txnID (now idx))].

(** The [sendFn] of [RunSelectStage]. *)
Definition send_select (runID baseURL : string) (c : BCoordinator) (idx : nat) (raw : B)
  : list effect * DispatchResult :=
  match preparePayload c "select" idx raw with
  | (Err e, txnID) => ([], mkResult idx txnID (Some e))
  | (Ok toSend, txnID) =>
      if txnID =? "" then ([], mkResult idx "" None)
      else (ELink (bc_linkTxn c) runID txnID :: record_effects runID "select" txnID idx toSend
              ++ [ESend "select" baseURL toSend],
            mkResult idx txnID (seller "select" idx toSend))
  end.

(** The [sendFn]s of [RunInitStage] and [RunConfirmStage]. *)
Definition send_later (action runID baseURL : string) (c : BCoordinator) (idx : nat) (raw : B)
  : list effect * DispatchResult :=
  match preparePayload c action idx raw with
  | (Err e, txnID) => ([], mkResult idx txnID (Some e))
  | (Ok toSend, txnID) =>
      (((if txnID =? "" then [] else record_effects runID action txnID idx toSend)
         ++ [ESend action baseURL toSend])%list,
       mkResult idx txnID (seller action idx toSend))
  end.

Definition send_stage (action runID baseURL : string)
  : BCoordinator → nat → B → list effect * DispatchResult :=
  if action =? "select" then send_select runID baseURL else send_later action runID baseURL.

(** A stage: the dispatcher on this [sendFn]; [cs i] is the coordinator call
    [i] reads, [c0] the one read when the stage starts. *)
Definition RunStage (action runID baseURL : string) (batch : list B) (maxInFlight : Z)
  (c0 : BCoordinator) (cs : nat → BCoordinator) : choice → dstate → option dstate :=
  exec batch maxInFlight (bool_decide (bc_throttle c0 ≠ None))
    (λ i b, (send_stage action runID baseURL (cs i) i b).2).

Definition RunSelectStage := RunStage "select".
Definition RunInitStage := RunStage "init".
Definition RunConfirmStage := RunStage "confirm".

(** What the calls made so far did, one list per call. *)
Definition stage_effects (action runID baseURL : string) (batch : list B)
  (cs : nat → BCoordinator) (s : dstate) : list (list effect) :=
  (λ i, match batch !! i with
        | Some b => (send_stage action runID baseURL (cs i) i b).1
        | None => []
        end) <$> d_calls s.

(** The run log after a sequence of effects. *)
Definition log_effect (A : alog B) (e : effect) : alog B :=
  match e with ELog o => alog_next o A | _ => A end.
Definition is_send (e : effect) : bool := match e with ESend _ _ _ => true | _ => false end.
End Prepare.
Arguments effect B : clear implicits.

(** What [startPreorder] does to the shared coordinator before it starts the
    goroutine of a run. *)
Definition configure_run (sessionID : string) (verification : bool) (coreVersion : string)
  (inject : bool) (rps : Z) (c : BCoordinator) : BCoordinator :=
  let c := SetTxnLinker (Some (mkLinker sessionID verification)) c in
  let c := SetThrottle (Some rps) sessionID c in
  let c := SetCoreVersion coreVersion c in
  SetErrorInjection inject rps c.

(** ** Lemmas: the corruption window *)
Section Window.
Local Open Scope Z_scope.

Lemma countb_seq_lt w n :
  countb (λ i, Z.of_nat i <? w) (seq 0 n) = Nat.min (Z.to_nat w) n.
Proof.
  induction n as [|n IH]; [by rewrite Nat.min_0_r|].
  rewrite seq_S, countb_app, IH. simpl. destruct (Z.ltb_spec (Z.of_nat n) w); lia.
Qed.

(** A window of [r] consecutive numbers has each residue once. *)
Lemma countb_window r w start :
  0 < r → 0 ≤ w ≤ r →
  countb (λ i, Z.of_nat i mod r <? w) (seq start (Z.to_nat r)) = Z.to_nat w.
Proof.
  intros Hr Hw. induction start as [|start IH].
  - rewrite (countb_ext _ (λ i, Z.of_nat i <? w)).
    + rewrite countb_seq_lt. lia.
    + intros i Hi%elem_of_seq. rewrite Z.mod_small; [done|lia].
  - rewrite <- IH. destruct (Z.to_nat r) as [|n] eqn:En; [done|].
    rewrite (seq_S n (S start)), countb_app. simpl.
    replace (Z.of_nat (S (start + n))) with (Z.of_nat start + 1 * r) by lia.
    rewrite Z.mod_add by lia. lia.
Qed.
End Window.

Lemma wrong_count_bound rps : (1 < rps)%Z → (1 ≤ wrong_count rps ≤ rps)%Z.
Proof.
  intros. unfold wrong_count. destruct (Z.leb_spec 10 rps); [|lia].
  split; [apply Z.div_le_lower_bound|apply Z.div_le_upper_bound]; lia.
Qed.

(** Schema-error injection corrupts exactly the documented share of the
    requests: among any [rps] consecutive payloads of a stage, none when it
    is disabled or [rps <= 1], one when [rps] is below ten, and
    [floor (rps / 10)] from ten on. *)
Theorem error_injection_rate c start :
  countb (shouldCorrupt c) (seq start (Z.to_nat (bc_errorInjectRPS c))) =
    if bc_errorInjectEnabled c && (2 <=? bc_errorInjectRPS c)%Z
    then if (bc_errorInjectRPS c <? 10)%Z then 1 else Z.to_nat (bc_errorInjectRPS c / 10)
    else 0.
Proof.
  destruct (bc_errorInjectEnabled c && _) eqn:E; unfold shouldCorrupt.
  - bool_hyps. rewrite H. simpl.
    rewrite (countb_ext _ (λ i, (Z.of_nat i mod bc_errorInjectRPS c
      <? wrong_count (bc_errorInjectRPS c))%Z)).
    + rewrite countb_window; [|lia|pose proof (wrong_count_bound (bc_errorInjectRPS c)); lia].
      unfold wrong_count. destruct (Z.leb_spec 10 (bc_errorInjectRPS c)), (Z.ltb_spec
        (bc_errorInjectRPS c) 10); lia.
    + intros i _. destruct (Z.leb_spec (bc_errorInjectRPS c) 1); [lia|done].
  - rewrite (countb_ext _ (λ _, false)).
    + clear. generalize (Z.to_nat (bc_errorInjectRPS c)). intros n. revert start.
      induction n as [|n IH]; intros start; simpl; [done|]. apply IH.
    + intros i _. destruct (bc_errorInjectEnabled c); [simpl in *; bool_hyps|done].
      destruct (Z.leb_spec (bc_errorInjectRPS c) 1); [done|lia].
Qed.

(** ** Lemmas: what [preparePayload] changes *)

(** The first element of an array field. *)
Definition first_elem (k : string) (o : obj) : option json := head (default [] (as_arr (o !! k))).

(** The object [b] is [a] with another id. *)
Definition only_id (id : string) (a b : option json) : Prop :=
  ∃ m, a = Some (JObj m) ∧ b = Some (JObj (<["id" := JStr id]> m)).

(** The rest of an array field is the same. *)
Definition same_tail (k : string) (o o' : obj) : Prop :=
  tail (default [] (as_arr (o' !! k))) = tail (default [] (as_arr (o !! k))).

(** How the order of a corrupted request differs from the one it was made
    from: two wrong ids, or a wrong id and a wrong state. *)
Definition corrupted (action : string) (idx : nat) (o o' : obj) : Prop :=
  if action =? "select" then
    only_id "wrong-item-id" (first_elem "items" o) (first_elem "items" o') ∧
    same_tail "items" o o' ∧
    only_id "wrong-provider-id" (o !! "provider") (o' !! "provider") ∧
    ∀ k, k ∉ ["items"; "provider"] → o' !! k = o !! k
  else if action =? "init" then
    only_id "wrong-item-id" (first_elem "items" o) (first_elem "items" o') ∧
    same_tail "items" o o' ∧
    only_id "wrong-fulfillment-id" (first_elem "fulfillments" o) (first_elem "fulfillments" o') ∧
    same_tail "fulfillments" o o' ∧
    ∀ k, k ∉ ["items"; "fulfillments"] → o' !! k = o !! k
  else if action =? "confirm" then
    only_id "wrong-fulfillment-id" (first_elem "fulfillments" o) (first_elem "fulfillments" o') ∧
    same_tail "fulfillments" o o' ∧
    o' !! "state" = Some (JStr ("xyz-" ++ FormatInt (Z.of_nat idx))) ∧
    ∀ k, k ∉ ["fulfillments"; "state"] → o' !! k = o !! k
  else o' = o.

Lemma first_obj_Ok e1 e2 o m rest :
  first_obj e1 e2 o = Ok (m, rest) → o = Some (JArr (JObj m :: rest)).
Proof.
  unfold first_obj. intros E. destruct o as [[]|]; simplify_eq/=.
  destruct l as [|[] l]; by simplify_eq.
Qed.

Lemma first_elem_insert k l (o : obj) : first_elem k (<[k := JArr l]> o) = head l.
Proof. unfold first_elem. by rewrite lookup_insert_eq. Qed.

Lemma first_elem_ne k k' v (o : obj) : k ≠ k' → first_elem k' (<[k := v]> o) = first_elem k' o.
Proof. intros. unfold first_elem. by rewrite lookup_insert_ne. Qed.

Lemma corrupt_order_spec action idx o o' :
  corrupt_order action idx o = Ok o' → corrupted action idx o o'.
Proof.
  unfold corrupt_order, corrupted, only_id, same_tail, set_id.
  destruct (action =? "select"); [|destruct (action =? "init");
    [|destruct (action =? "confirm"); [|by intros [= ->]]]].
  - destruct (first_obj _ _ _) as [[m l]|] eqn:E1; [|done]. apply first_obj_Ok in E1. simpl.
    destruct (as_obj (o !! "provider")) as [p|] eqn:E2; [|done]. apply as_obj_Some in E2.
    intros [= <-]. unfold first_elem. rewrite E1, E2. field.
    split_and!; [by exists m|done|by exists p|].
    intros k Hk. rewrite !lookup_insert_ne by set_solver. done.
  - destruct (first_obj _ _ _) as [[m l]|] eqn:E1; [|done]. apply first_obj_Ok in E1. simpl.
    destruct (first_obj _ _ _) as [[f fs]|] eqn:E2; [|done]. apply first_obj_Ok in E2. simpl.
    intros [= <-]. unfold first_elem. rewrite E1, E2. field.
    split_and!; [by exists m|done|by exists f|done|].
    intros k Hk. rewrite !lookup_insert_ne by set_solver. done.
  - destruct (first_obj _ _ _) as [[f fs]|] eqn:E2; [|done]. apply first_obj_Ok in E2. simpl.
    intros [= <-]. unfold first_elem. rewrite E2. field.
    split_and!; [by exists f|done|done|].
    intros k Hk. rewrite !lookup_insert_ne by set_solver. done.
Qed.

Lemma corruptForStage_spec action idx env env' :
  corruptForStage action idx env = Ok env' →
  corrupted action idx (order_of env) (order_of env') ∧
  ∀ k, k ≠ "message" → env' !! k = env !! k.
Proof.
  unfold corruptForStage. destruct (as_obj (env !! "message")) as [msg|] eqn:E1; [|done].
  destruct (as_obj (msg !! "order")) as [order|] eqn:E2; [|done].
  destruct (corrupt_order _ _ _) as [o'|] eqn:E3; [|done]. simpl. intros [= <-].
  assert (order_of env = order) as ->.
  { unfold order_of. rewrite (obj_or_new_Some _ _ _ E1). by apply obj_or_new_Some. }
  assert (<["message" := JObj (<["order" := JObj o']> msg)]> env = set_order o' env) as ->.
  { unfold set_order. by rewrite (obj_or_new_Some _ _ _ E1). }
  rewrite order_of_set. split; [by apply corrupt_order_spec|].
  intros k Hk. by apply set_order_other.
Qed.

Lemma prepare_context_other c ctxMap k :
  k ∉ ["bap_uri"; "bap_id"; "core_version"] → prepare_context c ctxMap !! k = ctxMap !! k.
Proof.
  intros Hk. unfold prepare_context, set_nonempty.
  repeat case_match; rewrite ?lookup_insert_ne by set_solver; done.
Qed.

Lemma decode_encode_map {B} `{JsonCodec B} (m : obj) b :
  encode_map (Some m) = Some b → decode_map b = Some (Some (norm <$> m)).
Proof. unfold encode_map, decode_map. intros E%json_roundtrip. by rewrite E. Qed.

Lemma prepare_spec {B} `{JsonCodec B} `{Sprint} c action idx (raw b : B) t env ctx :
  decode_map raw = Some (Some env) → as_obj (env !! "context") = Some ctx →
  preparePayload c action idx raw = (Ok b, t) →
  t = txn_of ctx ∧
  ∃ env', decode_map b = Some (Some (norm <$> env')) ∧
    as_obj (env' !! "context") = Some (prepare_context c ctx) ∧
    (∀ k, k ∉ ["bap_uri"; "bap_id"; "core_version"] → prepare_context c ctx !! k = ctx !! k) ∧
    (cfg_BAPURI (bc_cfg c) ≠ "" →
      prepare_context c ctx !! "bap_uri" = Some (JStr (cfg_BAPURI (bc_cfg c)))) ∧
    (bc_coreVersion c ≠ "" →
      prepare_context c ctx !! "core_version" = Some (JStr (bc_coreVersion c))) ∧
    (∀ k, k ≠ "context" → k ≠ "message" → env' !! k = env !! k) ∧
    if shouldCorrupt c idx then corrupted action idx (order_of env) (order_of env')
    else env' !! "message" = env !! "message".
Proof.
  intros Hraw Hctx. unfold preparePayload. rewrite Hraw, Hctx. intros Hp.
  set (env1 := <["context" := _]> env) in Hp.
  assert (order_of env1 = order_of env) as Ho.
  { unfold order_of, env1, obj_or_new. by rewrite lookup_insert_ne. }
  destruct (if shouldCorrupt c idx then _ else _) as [env2|] eqn:E; [|done].
  destruct (encode_map (Some env2)) as [b'|] eqn:Eb; simplify_eq.
  split; [done|]. exists env2. split; [by apply decode_encode_map|].
  assert (as_obj (env2 !! "context") = Some (prepare_context c ctx) ∧
    (∀ k, k ≠ "context" → k ≠ "message" → env2 !! k = env !! k) ∧
    if shouldCorrupt c idx then corrupted action idx (order_of env) (order_of env2)
    else env2 !! "message" = env !! "message") as (Hc & Hother & Hm).
  { destruct (shouldCorrupt c idx).
    - apply corruptForStage_spec in E as [HC Hk]. rewrite Ho in HC. unfold env1 in Hk.
      rewrite Hk by done. split_and!; [apply as_obj_insert| |done].
      intros k ??. rewrite Hk by done. by rewrite lookup_insert_ne.
    - injection E as <-. unfold env1. split_and!; [apply as_obj_insert| |by rewrite lookup_insert_ne].
      intros k ??. by rewrite lookup_insert_ne. }
  split_and!; [done|apply prepare_context_other| | |done|done]; intros Hne;
    unfold prepare_context, set_nonempty.
  - rewrite (proj2 (String.eqb_neq _ _) Hne).
    repeat case_match; rewrite ?lookup_insert_ne by done; by rewrite lookup_insert_eq.
  - rewrite (proj2 (String.eqb_neq _ _) Hne). by rewrite lookup_insert_eq.
Qed.

(** A prepared request is the payload of the batch, re-addressed: in its
    context only the buyer app's URI and id and the core version may change,
    the transaction id is the one the call reports, and everything else of
    the envelope is untouched, except that a request chosen for error
    injection has exactly the two wrong values of its stage in its order. *)
Theorem prepare_payload_exact {B} `{JsonCodec B} `{Sprint} c action idx (raw b : B) t env ctx :
  decode_map raw = Some (Some env) → as_obj (env !! "context") = Some ctx →
  preparePayload c action idx raw = (Ok b, t) →
  t = txn_of ctx ∧
  ∃ env', decode_map b = Some (Some (norm <$> env')) ∧
    as_obj (env' !! "context") = Some (prepare_context c ctx) ∧
    (∀ k, k ∉ ["bap_uri"; "bap_id"; "core_version"] → prepare_context c ctx !! k = ctx !! k) ∧
    (cfg_BAPURI (bc_cfg c) ≠ "" →
      prepare_context c ctx !! "bap_uri" = Some (JStr (cfg_BAPURI (bc_cfg c)))) ∧
    (bc_coreVersion c ≠ "" →
      prepare_context c ctx !! "core_version" = Some (JStr (bc_coreVersion c))) ∧
    (∀ k, k ≠ "context" → k ≠ "message" → env' !! k = env !! k) ∧
    if shouldCorrupt c idx then corrupted action idx (order_of env) (order_of env')
    else env' !! "message" = env !! "message".
Proof. apply prepare_spec. Qed.

(** ** Lemmas: the run log after a stage *)
Section Stage.
Context {B : Type} `{JsonCodec B} `{Sprint}.
Variables (run action url : string).
Implicit Types (A : alog B) (tr : list (effect B)).

Definition is_record (e : effect B) : bool :=
  match e with ELog (RecordPayload _ _ _ _ _) => true | _ => false end.

(** The log operations of a stage. *)
Definition stage_eff (e : effect B) : Prop :=
  match e with
  | ELink _ r _ => r = run
  | ESend a u _ => a = action ∧ u = url
  | ELog (RecordPayload r p a t _) | ELog (RecordTimestamp r p a t _) =>
      r = run ∧ p = "pipeline_b" ∧ a = action ∧ t ≠ ""
  | ELog _ => False
  end.

Hypothesis Hrun : run ≠ "".
Hypothesis Haction : action ≠ "".

Lemma some_empty_run t : t ≠ "" → some_empty run "pipeline_b" action t = false.
Proof.
  intros Ht. unfold some_empty.
  by rewrite (proj2 (String.eqb_neq _ _) Hrun), (proj2 (String.eqb_neq _ _) Haction),
    (proj2 (String.eqb_neq _ _) Ht).
Qed.

Lemma eqb3_refl r p a : eqb3 r p a r p a = true.
Proof. unfold eqb3. by rewrite !String.eqb_refl. Qed.

Lemma log_effects_count tr A :
  Forall stage_eff tr →
  al_count (foldl log_effect A tr) run "pipeline_b" action =
    (al_count A run "pipeline_b" action + Z.of_nat (countb is_record tr))%Z.
Proof.
  intros Hf. revert A. induction Hf as [|e tr He Hf IH]; intros A; cbn [foldl countb]; [lia|].
  rewrite IH. destruct e as [|[]|]; try done; cbn [is_record log_effect alog_next]; try lia;
    destruct He as (-> & -> & -> & Ht); rewrite some_empty_run by done; simpl; [|lia].
  rewrite eqb3_refl. lia.
Qed.

Lemma log_effects_data tr A t p :
  Forall stage_eff tr →
  al_data (foldl log_effect A tr) run "pipeline_b" action t = Some p →
  al_data A run "pipeline_b" action t = Some p ∨
  ELog (RecordPayload run "pipeline_b" action t p) ∈ tr.
Proof.
  intros Hf. revert A. induction Hf as [|e tr He Hf IH]; intros A; cbn [foldl]; [by left|].
  intros [Hd|Hin]%IH; [|right; by constructor].
  destruct e as [|[]|]; try done; try (by left); cbn [log_effect alog_next] in Hd;
    destruct He as (-> & -> & -> & Ht); rewrite some_empty_run in Hd by done; simpl in Hd;
    [|by left].
  rewrite eqb3_refl in Hd. simpl in Hd. destruct (String.eqb_spec t txn) as [<-|]; [|by left].
  simplify_eq. right. constructor.
Qed.

Lemma log_effects_recorded tr A t p :
  Forall stage_eff tr →
  is_Some (al_data A run "pipeline_b" action t) ∨
    ELog (RecordPayload run "pipeline_b" action t p) ∈ tr →
  is_Some (al_data (foldl log_effect A tr) run "pipeline_b" action t).
Proof.
  intros Hf. revert A. induction Hf as [|e tr He Hf IH]; intros A; cbn [foldl].
  { intros [?|[]%elem_of_nil]; done. }
  intros Hor. apply IH. clear IH.
  assert (is_Some (al_data A run "pipeline_b" action t) →
    is_Some (al_data (log_effect A e) run "pipeline_b" action t)) as Hkeep.
  { intros HA. destruct e as [|[]|]; try done; cbn [log_effect alog_next];
      destruct He as (-> & -> & -> & Ht); rewrite some_empty_run by done; simpl; [|done].
    rewrite eqb3_refl. simpl. case_match; [eauto|done]. }
  destruct Hor as [HA|[<-|Hin]%elem_of_cons]; [left; by apply Hkeep| |by right].
  left. destruct He as (_ & _ & _ & Ht). cbn [log_effect alog_next].
  rewrite some_empty_run by done. simpl. rewrite eqb3_refl, String.eqb_refl. eauto.
Qed.
End Stage.

(** ** One call *)
Section Call.
Context {B : Type} `{JsonCodec B} `{Sprint}.
Variables (seller : string → nat → B → option error) (now : nat → Z).
Variables (action run url : string).

(** What a call makes of a payload. *)
Lemma send_stage_eff c idx raw :
  Forall (stage_eff run action url) (send_stage seller now action run url c idx raw).1.
Proof.
  unfold send_stage, send_select, send_later, record_effects.
  destruct (String.eqb_spec action "select") as [Ha|Ha];
    destruct (preparePayload _ _ _ _) as [[b|e] t]; try by constructor.
  all: destruct (String.eqb_spec t "") as [Ht|Ht]; subst; repeat constructor; done.
Qed.

(** In a call the link comes before the record, and the record before the
    request. *)
Definition announces (e f : effect B) : Prop :=
  match f with
  | ESend a u p => ∃ t, t ≠ "" ∧ e = ELog (RecordPayload run "pipeline_b" a t p)
  | ELog (RecordPayload r p a t _) => ∃ l, e = ELink l run t
  | _ => True
  end.

Definition is_announced (e : effect B) : Prop := is_send e || is_record e = true.

Lemma send_select_preceded c idx raw :
  preceded is_announced announces [] (send_select seller now run url c idx raw).1.
Proof.
  intros l1 y l2 E Hy. unfold send_select, record_effects in E.
  destruct (preparePayload _ _ _ _) as [[b|e] t]; [|by destruct l1].
  destruct (String.eqb_spec t "") as [|Ht]; [by destruct l1|].
  destruct l1 as [|e1 [|e2 [|e3 [|e4 [|? ?]]]]]; simplify_eq/=; try done.
  - eexists. split; [|by exists (bc_linkTxn c)]. set_solver.
  - eexists. split; [|exists t; split; [done|reflexivity]]. set_solver.
Qed.

Lemma send_select_counts c idx raw :
  countb is_record (send_select seller now run url c idx raw).1 =
    countb is_send (send_select seller now run url c idx raw).1 ∧
  (countb is_send (send_select seller now run url c idx raw).1 ≤ 1)%nat.
Proof.
  unfold send_select, record_effects.
  destruct (preparePayload _ _ _ _) as [[b|e] t]; simpl; [|lia].
  destruct (t =? ""); simpl; lia.
Qed.
End Call.

(** ** The stages *)
Section Stages.
Context {B : Type} `{JsonCodec B} `{Sprint}.
Variables (seller : string → nat → B → option error) (now : nat → Z).
Variables (run url : string) (batch : list B) (mx : Z).
Variables (c0 : BCoordinator) (cs : nat → BCoordinator).

Abbreviation effects action s := (stage_effects seller now action run url batch cs s).

(** A property of the effects of every call, and of no effects, holds of each
    list. *)
Lemma stage_effects_all action s (P : list (effect B) → Prop) :
  P [] → (∀ j b, P (send_stage seller now action run url (cs j) j b).1) →
  ∀ l, l ∈ effects action s → P l.
Proof.
  intros Hnil Hc l (j & -> & _)%list_elem_of_fmap. by destruct (batch !! j).
Qed.

Lemma stage_effects_eff action s :
  Forall (stage_eff run action url) (concat (effects action s)).
Proof.
  apply Forall_concat, Forall_forall. apply stage_effects_all; [done|].
  intros. apply send_stage_eff.
Qed.

Lemma select_effects_counts s :
  countb is_record (concat (effects "select" s)) = countb is_send (concat (effects "select" s)) ∧
  (countb is_send (concat (effects "select" s)) ≤ length (d_calls s))%nat.
Proof.
  unfold stage_effects. induction (d_calls s) as [|j l [IH1 IH2]]; [done|]. cbn [fmap list_fmap concat length].
  rewrite !countb_app. destruct (batch !! j) as [b|]; [|simpl; lia].
  destruct (send_select_counts seller now run url (cs j) j b).
  unfold send_stage at 1 3 5. simpl. lia.
Qed.

Lemma calls_le_batch action s :
  reachable (RunStage seller now action run url batch mx c0 cs) (d_init batch) s →
  (length (d_calls s) ≤ length batch)%nat.
Proof.
  intros HI%Inv_reachable. rewrite <- (length_seq (length batch) 0).
  apply submseteq_length, NoDup_submseteq; [apply (inv_nodup _ _ _ _ _ HI)|].
  intros j Hj%(inv_calls _ _ _ _ _ HI). apply elem_of_seq. lia.
Qed.
End Stages.

(** A call that reports a transaction found a context. *)
Lemma prepare_txn {B} `{JsonCodec B} `{Sprint} c action idx (raw b : B) t :
  preparePayload c action idx raw = (Ok b, t) → t ≠ "" →
  ∃ env ctx, decode_map raw = Some (Some env) ∧ as_obj (env !! "context") = Some ctx.
Proof.
  unfold preparePayload. destruct (decode_map raw) as [[env|]|]; [|by intros [= <- <-]|done].
  destruct (as_obj (env !! "context")) as [ctx|] eqn:E; [|by intros [= <- <-]]. eauto.
Qed.

(** C29: Whatever the interleaving of the calls of a select stage, at any
    point of it: the run log has counted exactly the requests sent, at most
    one per payload of the batch; before a request leaves, its payload has
    been recorded under a transaction that was linked to the run before that,
    so a callback that arrives at once finds both; and the log holds no
    payload under the run but those sent and those it had. *)
Theorem select_stage_recorded {B} `{JsonCodec B} `{Sprint} seller now run url (batch : list B)
    mx c0 cs s tr (A : alog B) :
  run ≠ "" →
  reachable (RunStage seller now "select" run url batch mx c0 cs) (d_init batch) s →
  interleave (stage_effects seller now "select" run url batch cs s) tr →
  let A' := foldl log_effect A tr in
  al_count A' run "pipeline_b" "select" =
    (al_count A run "pipeline_b" "select" + Z.of_nat (countb is_send tr))%Z ∧
  (countb is_send tr ≤ length batch)%nat ∧
  (∀ a u p tr1 tr2, (tr = tr1 ++ ESend a u p :: tr2)%list →
    a = "select" ∧ u = url ∧
    ∃ t l, t ≠ "" ∧ ELog (RecordPayload run "pipeline_b" a t p) ∈ tr1 ∧ ELink l run t ∈ tr1 ∧
      is_Some (al_data A' run "pipeline_b" "select" t)) ∧
  (∀ t p, al_data A' run "pipeline_b" "select" t = Some p →
    al_data A run "pipeline_b" "select" t = Some p ∨
    ELog (RecordPayload run "pipeline_b" "select" t p) ∈ tr).
Proof.
  intros Hrun Hs Htr A'. pose proof (interleave_perm _ _ Htr) as Hp.
  assert (Forall (stage_eff run "select" url) tr) as Heff
    by (rewrite Hp; apply stage_effects_eff).
  assert (preceded is_announced (announces run) [] tr) as Hpre.
  { eapply interleave_preceded; [done|]. apply stage_effects_all.
    - intros l1 y l2 E. by destruct l1.
    - intros j b. apply send_select_preceded. }
  destruct (select_effects_counts seller now run url batch cs s) as [Hcnt Hle].
  split_and!.
  - unfold A'. rewrite (log_effects_count _ _ url) by done.
    by rewrite (countb_perm is_record _ _ Hp), (countb_perm is_send _ _ Hp), Hcnt.
  - rewrite (countb_perm is_send _ _ Hp). etrans; [done|]. by eapply calls_le_batch.
  - intros a u p tr1 tr2 ->. assert (a = "select" ∧ u = url) as [-> ->].
    { rewrite Forall_forall in Heff. apply (Heff (ESend a u p)). set_solver. }
    split_and!; [done..|].
    destruct (Hpre _ _ _ eq_refl) as (z & Hz & t & Ht & ->); [done|]. simpl in Hz.
    apply list_elem_of_split in Hz as (k1 & k2 & ->).
    destruct (Hpre k1 (ELog (RecordPayload run "pipeline_b" "select" t p))
      (k2 ++ ESend "select" url p :: tr2)%list) as (z & Hz & l & ->);
      [by rewrite <- app_assoc|done|].
    exists t, l. split_and!; [done|set_solver|set_solver|].
    unfold A'. apply (log_effects_recorded _ _ url) with p; [done|done|done|]. right.
    rewrite !elem_of_app, elem_of_cons. auto.
  - intros t p. by apply (log_effects_data _ _ url).
Qed.

(** The coordinator is one object for all runs.  When a second session
    starts a run, the selects of the first run sent from then on are linked
    to the second session and carry its core version; whether one is
    corrupted is decided by the second session's flag and rate. *)
Theorem shared_coordinator_leaks {B} `{JsonCodec B} `{Sprint} seller now c
    s1 v1 core1 inj1 rps1 s2 v2 core2 inj2 rps2 run url idx (raw : B) e :
  let c2 := configure_run s2 v2 core2 inj2 rps2 (configure_run s1 v1 core1 inj1 rps1 c) in
  e ∈ (send_select seller now run url c2 idx raw).1 →
  c2 = configure_run s2 v2 core2 inj2 rps2 c ∧
  match e with
  | ELink l r _ => l = Some (mkLinker s2 v2) ∧ r = run
  | ESend _ _ p =>
      core2 ≠ "" → ∃ env ctx, decode_map p = Some (Some env) ∧
        as_obj (env !! "context") = Some ctx ∧ ctx !! "core_version" = Some (JStr core2)
  | _ => True
  end.
Proof.
  intros c2 He. assert (c2 = configure_run s2 v2 core2 inj2 rps2 c) as Hc by done.
  split; [done|]. unfold send_select, record_effects in He.
  destruct (preparePayload c2 "select" idx raw) as [[b|er] t] eqn:Ep;
    [|by apply elem_of_nil in He].
  destruct (String.eqb_spec t "") as [->|Ht]; [by apply elem_of_nil in He|].
  simpl in He. rewrite !elem_of_cons in He.
  destruct He as [->|[->|[->|[->|[]%elem_of_nil]]]]; [done..|].
  intros Hcore. destruct (prepare_txn _ _ _ _ _ _ Ep Ht) as (env & ctx & E1 & E2).
  destruct (prepare_spec _ _ _ _ _ _ _ _ E1 E2 Ep) as (_ & env' & Hd & Hctx & _ & _ & Hv & _).
  apply as_obj_Some in Hctx.
  exists (norm <$> env'), (norm <$> prepare_context c2 ctx). split_and!; [done| |].
  - by rewrite lookup_fmap, Hctx.
  - rewrite lookup_fmap. change core2 with (bc_coreVersion c2). by rewrite Hv.
Qed.

(** ** Witnesses *)

Definition demo_bap : bap_config := mkBap "https://bap.example" "bap.example" "1.2.0".
Definition demo_coord : BCoordinator :=
  configure_run "s1" false "1.2.5" true 5 (NewBCoordinator demo_bap).
Definition demo_context : obj := {["transaction_id" := JStr "t1"; "bap_id" := JStr "old"]}.
Definition demo_order : obj := {["items" := JArr [JObj {["id" := JStr "i1"]}];
  "provider" := JObj {["id" := JStr "p1"]}]}.
Definition demo_envelope : obj :=
  {["context" := JObj demo_context; "message" := JObj {["order" := JObj demo_order]}]}.
Definition demo_seller : string → nat → json → option error := λ _ _ _, None.

#[local] Transparent gmap_empty.

(** The first request of five is corrupted. *)
Lemma prepare_payload_exact_witness :
  shouldCorrupt demo_coord 0 = true ∧
  ∃ b env', decode_map b = Some (Some (norm <$> env')) ∧
    corrupted "select" 0 (order_of demo_envelope) (order_of env').
Proof.
  split; [reflexivity|].
  destruct (is_ok_Ok (preparePayload (H0:=demo_sprint) demo_coord "select" 0
    (JObj demo_envelope)).1) as [b Hb]; [reflexivity|].
  destruct (prepare_payload_exact (H0:=demo_sprint) demo_coord "select" 0 (JObj demo_envelope) b
    "t1" demo_envelope demo_context) as (_ & env' & Hd & _ & _ & _ & _ & _ & Hc);
    [reflexivity|reflexivity| |].
  - transitivity ((preparePayload (H0:=demo_sprint) demo_coord "select" 0 (JObj demo_envelope)).1,
      "t1"); [reflexivity|by rewrite Hb].
  - exists b, env'. split; [exact Hd|exact Hc].
Defined.

Definition demo_stage : list choice :=
  [CMain true false; CMain true false; CMain true false; CMain true false; CGoroutine 0].
Definition demo_step : choice → dstate → option dstate :=
  RunStage (H0:=demo_sprint) demo_seller (λ _, 7%Z) "select" "r1" "http://bpp" [JObj demo_envelope]
    4 demo_coord (λ _, demo_coord).
Definition demo_state : dstate := run_to demo_step demo_stage (d_init [JObj demo_envelope]).

(** One request, sent, recorded and linked. *)
Lemma select_stage_recorded_witness :
  ∃ tr : list (effect json), length tr = 4 ∧
    al_count (foldl log_effect alog_empty tr) "r1" "pipeline_b" "select" =
      Z.of_nat (countb is_send tr) ∧ (countb is_send tr ≤ 1)%nat.
Proof.
  pose (call := (send_select (H0:=demo_sprint) demo_seller (λ _, 7%Z) "r1" "http://bpp" demo_coord 0
    (JObj demo_envelope)).1).
  destruct (select_stage_recorded (H0:=demo_sprint) demo_seller (λ _, 7%Z) "r1" "http://bpp"
    [JObj demo_envelope] 4 demo_coord (λ _, demo_coord) demo_state call alog_empty)
    as (Hc & Hl & _).
  - discriminate.
  - apply (run_to_reachable demo_step demo_stage). reflexivity.
  - change (stage_effects _ _ _ _ _ _ _ demo_state) with [call].
    assert (∀ l : list (effect json), interleave [l] l) as Hone.
    { intros l. induction l as [|x l IH]; [repeat constructor|].
      by apply (interleave_step _ 0 x l). }
    apply Hone.
  - exists call. split; [reflexivity|]. split; [exact Hc|exact Hl].
Defined.

Lemma shared_coordinator_leaks_witness :
  ∃ l, ELink l "r1" "t1" ∈ (send_select (H0:=demo_sprint) demo_seller (λ _, 7%Z) "r1" "http://bpp"
    (configure_run "s2" true "1.2.0" false 9 demo_coord) 1 (JObj demo_envelope)).1 ∧
    l = Some (mkLinker "s2" true).
Proof.
  pose (l := Some (mkLinker "s2" true)).
  assert (ELink l "r1" "t1" ∈ (send_select (H0:=demo_sprint) demo_seller (λ _, 7%Z) "r1" "http://bpp"
    (configure_run "s2" true "1.2.0" false 9 demo_coord) 1 (JObj demo_envelope)).1) as He.
  { apply (list_elem_of_lookup_2 _ 0). reflexivity. }
  exists l. split; [exact He|].
  destruct (shared_coordinator_leaks (H0:=demo_sprint) demo_seller (λ _, 7%Z)
    (NewBCoordinator demo_bap) "s1" false "1.2.5" true 5%Z "s2" true "1.2.0" false 9%Z "r1"
    "http://bpp" 1 (JObj demo_envelope) (ELink l "r1" "t1") He) as [_ [E _]]. exact E.
Defined.
