(* ===== verification/SessionTypes.v ===== *)
(** * Sessions and runs: [internal/domain/session/types.go],
    [validation.go], and the journey metrics of [manager.go]

    The records the session stores keep.  Times are nanoseconds since the
    Unix epoch, [0001-01-01] (Go's zero time) is [zero_time]; the named
    string types are enumerations where the program only uses its constants
    and strings where it takes them from a caller (the status of a run). *)
From stdpp Require Import prelude strings.
From S2P Require Import Prelude GoStrings Float64.
Local Open Scope string_scope.

Inductive SessionStatus := SessionActive | SessionExpired.
Inductive CatalogStatus := CatalogNone | CatalogPending | CatalogReady | CatalogFailed.
Inductive PreorderStatus := PreorderIdle | PreorderRunning | PreorderStopping.

#[export] Instance SessionStatus_eq_dec : EqDecision SessionStatus.
Proof. solve_decision. Defined.
#[export] Instance CatalogStatus_eq_dec : EqDecision CatalogStatus.
Proof. solve_decision. Defined.
#[export] Instance PreorderStatus_eq_dec : EqDecision PreorderStatus.
Proof. solve_decision. Defined.

Definition zero_time : Z := (-62135596800 * 1000000000)%Z.

Record Session := mkSession {
  s_ID : string;
  s_BPPID : string;
  s_BPPURI : string;
  s_Status : SessionStatus;
  s_CreatedAt : Z;
  s_ExpiresAt : Z;
  s_CoreVersion : string;
  s_Domain : string;
  s_VerificationEnabled : bool;
  s_ErrorInjectionEnabled : bool;
}.

Record CatalogState := mkCatalogState {
  cs_Status : CatalogStatus;
  cs_OnSearchID : string;
  cs_UpdatedAt : Z;
}.

Record PreorderState := mkPreorderState {
  ps_Status : PreorderStatus;
  ps_ActiveRunID : string;
}.

Record ActionMetrics := mkAction {
  am_Sent : Z; am_Success : Z; am_Failure : Z; am_Timeout : Z;
  am_AvgMS : float64; am_P90MS : float64; am_P95MS : float64; am_P99MS : float64;
}.

Record RunMetrics := mkMetrics {
  rm_Select : ActionMetrics; rm_OnSelect : ActionMetrics;
  rm_Init : ActionMetrics; rm_OnInit : ActionMetrics;
  rm_Confirm : ActionMetrics; rm_OnConfirm : ActionMetrics;
}.

Record JourneyActionMetrics := mkJourney {
  ja_Sent : Z; ja_Received : Z; ja_Success : Z; ja_Failure : Z; ja_Timeout : Z;
  ja_AvgMS : float64; ja_P90MS : float64; ja_P95MS : float64; ja_P99MS : float64;
  ja_SuccessPct : float64;
}.

Record RunJourneyMetrics := mkJourneys {
  rj_Select : JourneyActionMetrics;
  rj_Init : JourneyActionMetrics;
  rj_Confirm : JourneyActionMetrics;
}.

Record ThrottleMetrics := mkThrottleMetrics {
  tm_TargetRPS : Z; tm_AcquireCalls : Z; tm_Allowed : Z; tm_Retries : Z;
  tm_DenyGlobal : Z; tm_DenySession : Z; tm_DenyOther : Z;
  tm_WaitTotalMS : Z; tm_WaitMaxMS : Z;
}.

Record Run := mkRun {
  r_ID : string;
  r_SessionID : string;
  r_BPPID : string;
  r_RPS : Z;
  r_DurationSec : Z;
  r_Status : string;
  r_Metrics : RunMetrics;
  r_SystemMetrics : ThrottleMetrics;
  r_JourneyMetrics : RunJourneyMetrics;
  r_StartedAt : Z;
  r_CompletedAt : Z;
}.

(** The zero values. *)
Definition f64_zero : float64 := f64_of_Z 0.
Definition action0 : ActionMetrics := mkAction 0 0 0 0 f64_zero f64_zero f64_zero f64_zero.
Definition metrics0 : RunMetrics := mkMetrics action0 action0 action0 action0 action0 action0.
Definition journey0 : JourneyActionMetrics :=
  mkJourney 0 0 0 0 0 f64_zero f64_zero f64_zero f64_zero f64_zero.
Definition journeys0 : RunJourneyMetrics := mkJourneys journey0 journey0 journey0.
Definition throttle0 : ThrottleMetrics := mkThrottleMetrics 0 0 0 0 0 0 0 0 0.

(** Assignments to fields. *)
Definition set_session_status (st : SessionStatus) (s : Session) : Session :=
  mkSession (s_ID s) (s_BPPID s) (s_BPPURI s) st (s_CreatedAt s) (s_ExpiresAt s) (s_CoreVersion s)
    (s_Domain s) (s_VerificationEnabled s) (s_ErrorInjectionEnabled s).
Definition set_verification (b : bool) (s : Session) : Session :=
  mkSession (s_ID s) (s_BPPID s) (s_BPPURI s) (s_Status s) (s_CreatedAt s) (s_ExpiresAt s)
    (s_CoreVersion s) (s_Domain s) b (s_ErrorInjectionEnabled s).
Definition set_error_injection (b : bool) (s : Session) : Session :=
  mkSession (s_ID s) (s_BPPID s) (s_BPPURI s) (s_Status s) (s_CreatedAt s) (s_ExpiresAt s)
    (s_CoreVersion s) (s_Domain s) (s_VerificationEnabled s) b.
Definition set_run_status (st : string) (r : Run) : Run :=
  mkRun (r_ID r) (r_SessionID r) (r_BPPID r) (r_RPS r) (r_DurationSec r) st (r_Metrics r)
    (r_SystemMetrics r) (r_JourneyMetrics r) (r_StartedAt r) (r_CompletedAt r).
Definition set_run_completed (t : Z) (r : Run) : Run :=
  mkRun (r_ID r) (r_SessionID r) (r_BPPID r) (r_RPS r) (r_DurationSec r) (r_Status r) (r_Metrics r)
    (r_SystemMetrics r) (r_JourneyMetrics r) (r_StartedAt r) t.
Definition set_run_metrics (m : RunMetrics) (r : Run) : Run :=
  mkRun (r_ID r) (r_SessionID r) (r_BPPID r) (r_RPS r) (r_DurationSec r) (r_Status r) m
    (r_SystemMetrics r) (r_JourneyMetrics r) (r_StartedAt r) (r_CompletedAt r).
Definition set_run_system (sys : ThrottleMetrics) (r : Run) : Run :=
  mkRun (r_ID r) (r_SessionID r) (r_BPPID r) (r_RPS r) (r_DurationSec r) (r_Status r) (r_Metrics r)
    sys (r_JourneyMetrics r) (r_StartedAt r) (r_CompletedAt r).
Definition set_run_journey (j : RunJourneyMetrics) (r : Run) : Run :=
  mkRun (r_ID r) (r_SessionID r) (r_BPPID r) (r_RPS r) (r_DurationSec r) (r_Status r) (r_Metrics r)
    (r_SystemMetrics r) j (r_StartedAt r) (r_CompletedAt r).

(** ** [validation.go] *)

Definition allowedCoreVersions : list string := ["1.2.0"; "1.2.5"].
Definition allowedDomains : list string :=
  ["ONDC:RET10"; "ONDC:RET11"; "ONDC:RET12"; "ONDC:RET13"; "ONDC:RET14"; "ONDC:RET15";
   "ONDC:RET16"; "ONDC:RET18"].

Definition IsValidCoreVersion (v : string) : bool :=
  let v := trim_space v in
  if v =? "" then false else bool_decide (v ∈ allowedCoreVersions).
Definition IsValidDomain (v : string) : bool :=
  let v := trim_space v in
  if v =? "" then false else bool_decide (v ∈ allowedDomains).

(** ** [buildRunJourneyMetrics] *)

Definition build_journey (req cb : ActionMetrics) : JourneyActionMetrics :=
  let received := wrap64 (wrap64 (am_Success cb + am_Failure cb) + am_Timeout cb) in
  let successPct :=
    if (0 <? am_Sent req)%Z
    then f64_mul (f64_div (f64_of_Z (am_Success cb)) (f64_of_Z (am_Sent req))) (f64_of_Z 100)
    else f64_zero in
  mkJourney (am_Sent req) received (am_Success cb) (am_Failure cb) (am_Timeout cb)
    (am_AvgMS cb) (am_P90MS cb) (am_P95MS cb) (am_P99MS cb) successPct.

Definition buildRunJourneyMetrics (m : RunMetrics) : RunJourneyMetrics :=
  mkJourneys (build_journey (rm_Select m) (rm_OnSelect m))
    (build_journey (rm_Init m) (rm_OnInit m))
    (build_journey (rm_Confirm m) (rm_OnConfirm m)).
