(* ===== verification/Pacing.v ===== *)
(** * Pacing: [pacingThrottle] in [internal/handlers/testing/routes.go]

    A run sends at the requested rate: [Acquire] waits until the next slot,
    asks the rate limiter, and on a grant puts the next slot one interval
    later.  A throttle is called from the dispatch loop of one stage at a time
    of the run that made it; but the coordinator has one throttle for all runs,
    so the loops of several runs may call the same one.  The mutex is held
    while the slot is read and while it is written, not between the two.
    [pace] has any number of loops calling a throttle, each step of theirs at a
    time of its own, in any order; [Acquire] is one call, with what the passes
    of its loop meet, and [Acquire_paces] shows that it is a run of [pace].
    The clock is the monotonic one of the process.  The counters are atomic
    and only added up, so each changes with the step it belongs to. *)
From stdpp Require Import prelude list strings.
From S2P Require Import Prelude GoTime SessionTypes.
Local Open Scope Z_scope.

(** [t.next] is the zero time until the first call.  The counters count
    events of one run and stay far below 2^63. *)
Record pacingThrottle := mkPacing {
  pt_base : bool;          (* t.base != nil *)
  pt_interval : Z;
  pt_next : option Z;
  pt_acquireCalls : Z;
  pt_allowedCalls : Z;
  pt_retryCount : Z;
  pt_waitTotalMs : Z;
  pt_waitMaxMs : Z;
  pt_denyGlobal : Z;
  pt_denySession : Z;
  pt_denyOther : Z;
}.

(** [time.Second / time.Duration(rps)]. *)
Definition newPacingThrottle (base : bool) (rps : Z) : pacingThrottle :=
  mkPacing base (if negb base || (rps <=? 0) then 0 else Z.quot second rps) None 0 0 0 0 0 0 0 0.

Definition slot (t : pacingThrottle) (now : Z) : Z := default now (pt_next t).
Definition wait (t : pacingThrottle) (now : Z) : Z :=
  if now <? slot t now then slot t now - now else 0.

(** The counters and the slot at the start of a pass. *)
Definition begin_pass (t : pacingThrottle) (now : Z) : pacingThrottle :=
  let ms := Milliseconds (wait t now) in
  mkPacing (pt_base t) (pt_interval t) (Some (slot t now)) (pt_acquireCalls t + 1) (pt_allowedCalls t)
    (pt_retryCount t)
    (if 0 <? wait t now then pt_waitTotalMs t + ms else pt_waitTotalMs t)
    (if (0 <? wait t now) && negb (ms <=? pt_waitMaxMs t) then ms else pt_waitMaxMs t)
    (pt_denyGlobal t) (pt_denySession t) (pt_denyOther t).

(** The limiter grants the pass; then the next slot is put off. *)
Definition grant (t : pacingThrottle) : pacingThrottle :=
  mkPacing (pt_base t) (pt_interval t) (pt_next t) (pt_acquireCalls t)
    (pt_allowedCalls t + 1) (pt_retryCount t) (pt_waitTotalMs t) (pt_waitMaxMs t)
    (pt_denyGlobal t) (pt_denySession t) (pt_denyOther t).
Definition put_off (t : pacingThrottle) (now : Z) : pacingThrottle :=
  mkPacing (pt_base t) (pt_interval t) (Some (now + pt_interval t)) (pt_acquireCalls t)
    (pt_allowedCalls t) (pt_retryCount t) (pt_waitTotalMs t) (pt_waitMaxMs t)
    (pt_denyGlobal t) (pt_denySession t) (pt_denyOther t).

(** It denies the pass, for this reason (of a reasonAwareThrottle, else
    empty). *)
Definition deny (t : pacingThrottle) (reason : string) : pacingThrottle :=
  let one r := if (reason =? r)%string then 1 else 0 in
  mkPacing (pt_base t) (pt_interval t) (pt_next t) (pt_acquireCalls t) (pt_allowedCalls t)
    (pt_retryCount t + 1) (pt_waitTotalMs t) (pt_waitMaxMs t)
    (pt_denyGlobal t + one "global"%string) (pt_denySession t + one "session"%string)
    (pt_denyOther t + (1 - one "global"%string - one "session"%string)).

(** [Snapshot], for the metrics of the run. *)
Definition Snapshot (targetRPS : Z) (t : pacingThrottle) : ThrottleMetrics :=
  mkThrottleMetrics targetRPS (pt_acquireCalls t) (pt_allowedCalls t) (pt_retryCount t)
    (pt_denyGlobal t) (pt_denySession t) (pt_denyOther t) (pt_waitTotalMs t) (pt_waitMaxMs t).

(** ** Loops that call one throttle *)

(** [time.After(10 * time.Millisecond)]. *)
Definition retry_after : Z := 10 * millisecond.

(** Where a loop is: not in a call; at the start of a pass; waiting for the
    slot; asking the limiter; granted, the slot not yet put off; waiting to
    retry. *)
Inductive caller := Out | Top | Sleeping (until : Z) | Asking | Granted | Retrying (until : Z).
Inductive action := Call | Lock | Wake | Cancel | Answer (allowed : bool) (reason : string) | PutOff.

(** A step of a loop, and what its call returns if it ends; [None]: the step is
    not possible there. *)
Definition act (now : Z) (a : action) (t : pacingThrottle) (c : caller)
  : option (pacingThrottle * caller * option bool) :=
  match c, a with
  | Out, Call =>
      if negb (pt_base t) || (pt_interval t <=? 0) then Some (t, Out, Some true) else Some (t, Top, None)
  | Top, Lock =>
      Some (begin_pass t now, if 0 <? wait t now then Sleeping (slot t now) else Asking, None)
  | Sleeping u, Wake => if u <=? now then Some (t, Asking, None) else None
  | Sleeping _, Cancel => Some (t, Out, Some false)
  | Asking, Answer true _ => Some (grant t, Granted, None)
  | Asking, Answer false reason => Some (deny t reason, Retrying (now + retry_after), None)
  | Granted, PutOff => Some (put_off t now, Out, Some true)
  | Retrying u, Wake => if u <=? now then Some (t, Top, None) else None
  | Retrying _, Cancel => Some (t, Out, Some false)
  | _, _ => None
  end.

(** The throttle, the clock, the loops, and the calls that have returned: the
    loop, the answer and the time. *)
Record pacers := mkPacers {
  pc_throttle : pacingThrottle;
  pc_clock : Z;
  pc_callers : list caller;
  pc_returns : list (nat * bool * Z);
}.

Definition pace_step (i : nat) (now : Z) (a : action) (s : pacers) : option pacers :=
  if now <? pc_clock s then None
  else match pc_callers s !! i with
  | None => None
  | Some c =>
      match act now a (pc_throttle s) c with
      | None => None
      | Some (t, c, r) =>
          Some (mkPacers t now (<[i := c]> (pc_callers s))
            (pc_returns s ++ match r with Some ok => [(i, ok, now)] | None => [] end))
      end
  end.

Fixpoint pace (steps : list (nat * Z * action)) (s : pacers) : option pacers :=
  match steps with
  | [] => Some s
  | (i, now, a) :: steps' => match pace_step i now a s with Some s' => pace steps' s' | None => None end
  end.

(** [n] loops and a new throttle, at time [c]. *)
Definition pace_start (rps : Z) (n : nat) (c : Z) : pacers :=
  mkPacers (newPacingThrottle true rps) c (replicate n Out) [].

(** The times at which calls were granted: those of one loop, and all. *)
Definition granted_to (i : nat) (l : list (nat * bool * Z)) : list Z :=
  omap (λ x : nat * bool * Z, if x.1.2 && bool_decide (x.1.1 = i) then Some x.2 else None) l.
Definition granted (l : list (nat * bool * Z)) : list Z := omap (λ x : nat * bool * Z, if x.1.2 then Some x.2 else None) l.
Definition refused (l : list (nat * bool * Z)) : nat := countb (λ x : nat * bool * Z, negb x.1.2) l.

(** ** One call *)

(** What a pass through the loop meets. *)
Record pass := mkPass {
  ps_now : Z;              (* time.Now() at its start *)
  ps_wait_cancelled : bool;    (* ctx.Done() while waiting for the slot *)
  ps_acquire : Z;          (* the clock when the limiter has answered *)
  ps_allowed : bool;
  ps_reason : string;
  ps_granted : Z;          (* time.Now() after a grant *)
  ps_retry_cancelled : bool;   (* ctx.Done() while waiting to retry *)
}.

(** The answer, the time of the grant if there is one, the new state and the
    passes that are left; [None]: the call is still in its loop when the
    passes end. *)
Fixpoint Acquire (ps : list pass) (t : pacingThrottle)
  : option (bool * option Z * pacingThrottle * list pass) :=
  if negb (pt_base t) || (pt_interval t <=? 0) then Some (true, None, t, ps)
  else match ps with
  | [] => None
  | p :: ps' =>
      let t1 := begin_pass t (ps_now p) in
      if (0 <? wait t (ps_now p)) && ps_wait_cancelled p then Some (false, None, t1, ps')
      else if ps_allowed p then Some (true, Some (ps_granted p), put_off (grant t1) (ps_granted p), ps')
      else
        let t2 := deny t1 (ps_reason p) in
        if ps_retry_cancelled p then Some (false, None, t2, ps') else Acquire ps' t2
  end.

(** The passes of a call that begins at [c]: a timer never fires early, and
    the clock does not go back. *)
Fixpoint in_time (c : Z) (ps : list pass) (t : pacingThrottle) : Prop :=
  match ps with
  | [] => True
  | p :: ps' =>
      c ≤ ps_now p ∧ ps_now p + wait t (ps_now p) ≤ ps_acquire p ≤ ps_granted p ∧
      in_time (ps_acquire p + retry_after) ps' (deny (begin_pass t (ps_now p)) (ps_reason p))
  end.

Lemma pace_app l1 l2 s : pace (l1 ++ l2) s = match pace l1 s with Some s' => pace l2 s' | None => None end.
Proof.
  revert s. induction l1 as [|[[i now] a] l1 IH]; intros s; [done|]. cbn [app pace].
  by destruct (pace_step i now a s).
Qed.

(** A call is a run of a loop that is alone. *)
Lemma Acquire_paces ps : ∀ t c ok g t' ps' rs,
  pt_base t = true → 0 < pt_interval t → in_time c ps t → Acquire ps t = Some (ok, g, t', ps') →
  ∃ steps x, pace steps (mkPacers t c [Top] rs) = Some (mkPacers t' x [Out] (rs ++ [(0%nat, ok, x)])) ∧
    (ok = true → g = Some x).
Proof.
  induction ps as [|p ps IH]; intros t c ok g t' ps' rs Hb Hi Ht; cbn [Acquire];
    rewrite Hb, (proj2 (Z.leb_gt _ _) Hi); cbn [negb orb]; [done|].
  destruct Ht as (Hc & (Hw & Hg) & Hps). set (now := ps_now p) in *.
  assert (∀ x : Z, c ≤ x → pace_step 0 x Lock (mkPacers t c [Top] rs) = Some (mkPacers (begin_pass t x) x
    [if 0 <? wait t x then Sleeping (slot t x) else Asking] rs)) as Hlock.
  { intros x Hx. unfold pace_step. cbn. rewrite (proj2 (Z.ltb_ge _ _) Hx). by rewrite app_nil_r. }
  destruct ((0 <? wait t now) && ps_wait_cancelled p) eqn:Ecancel.
  { intros [= <- <- <- <-]. bool_hyps. exists [(0%nat, now, Lock); (0%nat, now, Cancel)], now. split; [|done].
    cbn [pace]. rewrite Hlock by done. rewrite (proj2 (Z.ltb_lt _ _)) by done.
    unfold pace_step. cbn. by rewrite Z.ltb_irrefl. }
  assert (∃ l, pace l (mkPacers t c [Top] rs) = Some (mkPacers (begin_pass t now) (ps_acquire p) [Asking] rs) ∨
    l = [(0%nat, now, Lock)] ∧ pace l (mkPacers t c [Top] rs) = Some (mkPacers (begin_pass t now) now [Asking] rs))
    as (l & Hl).
  { destruct (0 <? wait t now) eqn:E.
    - exists [(0%nat, now, Lock); (0%nat, ps_acquire p, Wake)]. left. cbn [pace]. rewrite Hlock, E by done.
      unfold pace_step. cbn. apply Z.ltb_lt in E.
      assert (slot t now ≤ ps_acquire p) as Hs by (unfold wait in *; destruct (now <? slot t now); lia).
      rewrite (proj2 (Z.ltb_ge _ _)), (proj2 (Z.leb_le _ _)) by (done || lia). by rewrite app_nil_r.
    - exists [(0%nat, now, Lock)]. right. split; [done|]. cbn [pace]. by rewrite Hlock, E. }
  assert (now ≤ ps_acquire p) as Hna by (unfold wait in Hw; destruct (now <? slot t now) eqn:E; lia).
  assert (∀ a t2 c2, act (ps_acquire p) a (begin_pass t now) Asking = Some (t2, c2, None) →
    pace (l ++ [(0%nat, ps_acquire p, a)]) (mkPacers t c [Top] rs) = Some (mkPacers t2 (ps_acquire p) [c2] rs)) as Hans.
  { intros a t2 c2 Ha. rewrite pace_app.
    destruct Hl as [->|[_ ->]]; cbn [pace]; unfold pace_step; cbn [pc_clock pc_callers pc_throttle lookup list_lookup];
      rewrite (proj2 (Z.ltb_ge _ _)) by lia; rewrite Ha; cbn; by rewrite app_nil_r. }
  destruct (ps_allowed p).
  { intros [= <- <- <- <-]. specialize (Hans (Answer true "") _ _ eq_refl).
    exists ((l ++ [(0%nat, ps_acquire p, Answer true "")]) ++ [(0%nat, ps_granted p, PutOff)])%list, (ps_granted p).
    split; [|done]. rewrite pace_app, Hans. cbn [pace]. unfold pace_step. cbn.
    by rewrite (proj2 (Z.ltb_ge _ _)) by lia. }
  specialize (Hans (Answer false (ps_reason p)) _ _ eq_refl).
  destruct (ps_retry_cancelled p).
  { intros [= <- <- <- <-].
    exists ((l ++ [(0%nat, ps_acquire p, Answer false (ps_reason p))]) ++ [(0%nat, ps_acquire p, Cancel)])%list, (ps_acquire p).
    split; [|done]. rewrite pace_app, Hans. cbn [pace]. unfold pace_step. cbn. by rewrite Z.ltb_irrefl. }
  intros HA. destruct (IH (deny (begin_pass t now) (ps_reason p)) _ _ _ _ _ rs Hb Hi Hps HA) as (steps & x & Hsteps & Hx).
  exists ((l ++ [(0%nat, ps_acquire p, Answer false (ps_reason p))]) ++
    (0%nat, ps_acquire p + retry_after, Wake) :: steps)%list, x.
  split; [|done]. rewrite pace_app, Hans. cbn [pace]. unfold pace_step at 1. cbn.
  rewrite (proj2 (Z.ltb_ge _ _)) by (unfold retry_after, millisecond; lia). rewrite Z.leb_refl, app_nil_r. exact Hsteps.
Qed.

(** ** The rate of a loop *)

(** Times at least [d] apart. *)
Fixpoint spaced (d : Z) (after : option Z) (l : list Z) : Prop :=
  match l with
  | [] => True
  | x :: l' => (∀ a, after = Some a → a ≤ x) ∧ spaced d (Some (x + d)) l'
  end.

Definition in_window (a T x : Z) : bool := (a <=? x) && (x <? a + T).

Lemma spaced_ge d b l : 0 ≤ d → spaced d (Some b) l → Forall (λ x, b ≤ x) l.
Proof.
  intros Hd. revert b. induction l as [|x l IH]; intros b; [done|]. intros [Hb Hl].
  specialize (Hb _ eq_refl). constructor; [done|]. apply IH in Hl.
  apply (Forall_impl _ _ _ Hl). simpl. lia.
Qed.

(** From a bound on: at most one per interval. *)
Lemma spaced_count d b T l :
  0 < d → - d < T → spaced d (Some b) l →
  Z.of_nat (countb (λ x, x <? b + T) l) * d < T + d.
Proof.
  intros Hd. revert b T. induction l as [|x l IH]; intros b T HT Hs; simpl; [lia|].
  destruct Hs as [Hb Hl]. specialize (Hb _ eq_refl).
  destruct (Z.ltb_spec x (b + T)).
  - specialize (IH (x + d) (T - (x + d - b)) ltac:(lia) Hl).
    replace (x + d + (T - (x + d - b))) with (b + T) in IH by lia. lia.
  - replace (countb (λ x0, x0 <? b + T) l) with 0%nat; [lia|].
    apply spaced_ge in Hl; [|lia]. clear -Hl H Hd. induction Hl as [|y l Hy Hl IH]; simpl; [done|].
    rewrite <- IH. destruct (Z.ltb_spec y (b + T)); [lia|done].
Qed.

Lemma spaced_window d after a T l :
  0 < d → - d < T → spaced d after l → Z.of_nat (countb (in_window a T) l) * d < T + d.
Proof.
  intros Hd HT. revert after. induction l as [|x l IH]; intros after Hs; simpl; [lia|].
  destruct Hs as [_ Hl]. unfold in_window at 1. destruct (Z.leb_spec a x); simpl; [|by eapply IH].
  destruct (Z.ltb_spec x (a + T)); [|by eapply IH].
  pose proof (spaced_count d (x + d) (T - (x + d - a)) l Hd ltac:(lia) Hl) as Hc.
  replace (x + d + (T - (x + d - a))) with (a + T) in Hc by lia.
  assert (countb (in_window a T) l ≤ countb (λ x0, (x0 <? a + T)%Z) l)%nat; [|nia].
  clear. unfold in_window. induction l as [|y l IH]; simpl; [lia|].
  destruct (a <=? y); simpl; [|destruct (y <? a + T)]; lia.
Qed.

Lemma spaced_snoc d after l x :
  spaced d after l → (∀ g, last l = Some g → g + d ≤ x) → (l = [] → ∀ a, after = Some a → a ≤ x) →
  spaced d after (l ++ [x]).
Proof.
  revert after. induction l as [|y l IH]; intros after Hs Hl Ha; cbn [app spaced] in *; [auto|].
  destruct Hs as [Hy Hs]. split; [done|]. apply IH; [done| |].
  - intros g Hg. apply Hl. by rewrite last_cons, Hg.
  - intros -> a [= <-]. by apply Hl.
Qed.

(** The facts on a step of a loop. *)
Definition not_before (b clock : Z) (c : caller) : Prop :=
  match c with Sleeping u => b ≤ u | Asking | Granted => b ≤ clock | _ => True end.

Lemma act_throttle now a t c t' c' r :
  act now a t c = Some (t', c', r) →
  pt_base t' = pt_base t ∧ pt_interval t' = pt_interval t ∧
  (∀ nx, pt_next t = Some nx → pt_next t' = Some nx ∨ pt_next t' = Some (now + pt_interval t)).
Proof.
  intros Ha. destruct c, a; cbn [act] in Ha; try done;
    repeat first [destruct (negb (pt_base t) || _) | destruct (_ <=? now) | destruct allowed];
    simplify_eq; split_and!; try done; cbn [pt_next begin_pass grant put_off deny]; intros nx E; auto.
  left. unfold slot. by rewrite E.
Qed.

Lemma act_not_before now a t c t' c' r b clock nx :
  act now a t c = Some (t', c', r) → clock ≤ now → pt_next t = Some nx → b ≤ nx →
  not_before b clock c → not_before b now c'.
Proof.
  intros Ha Hc E Hb. assert (slot t now = nx) as Hs by (unfold slot; by rewrite E).
  destruct c, a; cbn [act] in Ha; try done; cbn [not_before].
  - destruct (_ || _); by simplify_eq.
  - intros _. unfold wait in Ha. rewrite Hs in Ha.
    destruct (Z.ltb_spec now nx) as [Hlt|Hge]; [destruct (Z.ltb_spec 0 (nx - now))|]; simplify_eq; cbn; lia.
  - destruct (Z.leb_spec until now); simplify_eq. cbn. lia.
  - by simplify_eq.
  - destruct allowed; simplify_eq; cbn; lia.
  - by simplify_eq.
  - destruct (until <=? now); by simplify_eq.
  - by simplify_eq.
Qed.

(** A call that is granted has put the slot off. *)
Lemma act_granted now a t c t' c' :
  act now a t c = Some (t', c', Some true) → pt_base t = true → 0 < pt_interval t →
  c = Granted ∧ c' = Out ∧ pt_next t' = Some (now + pt_interval t).
Proof.
  intros Ha Hb Hi. destruct c, a; cbn [act] in Ha; try done.
  - rewrite Hb, (proj2 (Z.leb_gt _ _) Hi) in Ha. done.
  - by destruct (_ <=? _).
  - by destruct allowed.
  - by injection Ha as <- <-.
  - by destruct (_ <=? _).
Qed.

Lemma granted_to_app i l1 l2 : granted_to i (l1 ++ l2) = granted_to i l1 ++ granted_to i l2.
Proof. apply omap_app. Qed.
Lemma granted_app l1 l2 : granted (l1 ++ l2) = granted l1 ++ granted l2.
Proof. apply omap_app. Qed.

(** The grants of a loop are an interval apart, and its next one will be. *)
Record paced (d : Z) (i : nat) (s : pacers) : Prop := {
  pd_base : pt_base (pc_throttle s) = true;
  pd_interval : pt_interval (pc_throttle s) = d;
  pd_spaced : spaced d None (granted_to i (pc_returns s));
  pd_last g : last (granted_to i (pc_returns s)) = Some g →
    g ≤ pc_clock s ∧ (∃ nx, pt_next (pc_throttle s) = Some nx ∧ g + d ≤ nx) ∧
    ∀ c, pc_callers s !! i = Some c → not_before (g + d) (pc_clock s) c;
}.

Lemma pace_step_cases j now a s s' :
  pace_step j now a s = Some s' →
  pc_clock s ≤ now ∧ ∃ c t c' r, pc_callers s !! j = Some c ∧ act now a (pc_throttle s) c = Some (t, c', r) ∧
    s' = mkPacers t now (<[j := c']> (pc_callers s))
           (pc_returns s ++ match r with Some ok => [(j, ok, now)] | None => [] end).
Proof.
  unfold pace_step. destruct (Z.ltb_spec now (pc_clock s)); [done|].
  destruct (pc_callers s !! j) as [c|]; [|done].
  destruct (act now a (pc_throttle s) c) as [[[t c'] r]|] eqn:E; [|done]. intros [= <-]. split; [done|].
  by exists c, t, c', r.
Qed.

Lemma paced_step d i j now a s s' : 0 < d → pace_step j now a s = Some s' → paced d i s → paced d i s'.
Proof.
  intros Hd (Hclock & c & t & c' & r & Hj & Ha & ->)%pace_step_cases [Hb Hi Hsp Hlast].
  destruct (act_throttle _ _ _ _ _ _ _ Ha) as (Eb & Ei & Hnext).
  assert (∀ g, last (granted_to i (pc_returns s)) = Some g →
    g ≤ now ∧ (∃ nx, pt_next t = Some nx ∧ g + d ≤ nx) ∧
    ∀ x, <[j:=c']> (pc_callers s) !! i = Some x → not_before (g + d) now x) as Hkeep.
  { intros g Hg. destruct (Hlast g Hg) as (Hgc & (nx & Hnx & Hle) & Hc). split; [lia|]. split.
    - destruct (Hnext nx Hnx) as [->| ->]; eexists; (split; [done|]); lia.
    - intros x Hx. destruct (decide (i = j)) as [->|Hne].
      + rewrite list_lookup_insert_eq in Hx by (by eapply lookup_lt_Some). injection Hx as <-.
        eapply act_not_before; [exact Ha|exact Hclock|exact Hnx|exact Hle|by apply Hc].
      + rewrite list_lookup_insert_ne in Hx by done. specialize (Hc x Hx). destruct x; cbn in *; lia. }
  assert (r = Some true ∧ i = j ∨ granted_to i (pc_returns s ++ match r with Some ok => [(j, ok, now)] | None => [] end)
    = granted_to i (pc_returns s)) as [[-> <-]|E].
  { rewrite granted_to_app. destruct r as [[]|]; cbn; [|by right; rewrite app_nil_r..].
    case_bool_decide; [by left|right; by rewrite app_nil_r]. }
  - destruct (act_granted _ _ _ _ _ _ Ha Hb ltac:(lia)) as (-> & -> & Hput).
    assert (granted_to i (pc_returns s ++ [(i, true, now)]) = granted_to i (pc_returns s) ++ [now]) as E
      by (rewrite granted_to_app; cbn; by rewrite bool_decide_true).
    split; cbn [pc_throttle pc_clock pc_callers pc_returns]; rewrite ?E; [congruence..| |].
    + apply spaced_snoc; [done| |done]. intros g Hg. destruct (Hlast g Hg) as (_ & _ & Hc).
      specialize (Hc _ Hj). cbn in Hc. lia.
    + rewrite last_snoc. intros g [= <-]. split; [lia|]. split; [eexists; split; [exact Hput|lia]|].
      rewrite list_lookup_insert_eq by (by eapply lookup_lt_Some). by intros x [= <-].
  - split; cbn [pc_throttle pc_clock pc_callers pc_returns]; rewrite ?E; [congruence..|done|exact Hkeep].
Qed.

(** ** The counters *)

Definition in_pass (c : caller) : bool := match c with Sleeping _ | Asking => true | _ => false end.
Definition is_granted (c : caller) : bool := match c with Granted => true | _ => false end.
Definition waits (t : pacingThrottle) : Prop := 0 ≤ pt_waitMaxMs t ≤ pt_waitTotalMs t.

Record tallied (s : pacers) : Prop := {
  ta_allowed : pt_allowedCalls (pc_throttle s) =
    Z.of_nat (length (granted (pc_returns s)) + countb is_granted (pc_callers s));
  ta_retry : pt_retryCount (pc_throttle s) =
    pt_denyGlobal (pc_throttle s) + pt_denySession (pc_throttle s) + pt_denyOther (pc_throttle s);
  ta_calls :
    pt_allowedCalls (pc_throttle s) + pt_retryCount (pc_throttle s) + Z.of_nat (countb in_pass (pc_callers s))
      ≤ pt_acquireCalls (pc_throttle s) ≤
    pt_allowedCalls (pc_throttle s) + pt_retryCount (pc_throttle s) + Z.of_nat (countb in_pass (pc_callers s))
      + Z.of_nat (refused (pc_returns s));
  ta_wait : waits (pc_throttle s);
}.

Lemma begin_waits t now : waits t → waits (begin_pass t now).
Proof.
  unfold waits, begin_pass. cbn. intros Hw. destruct (Z.ltb_spec 0 (wait t now)); cbn; [|done].
  assert (0 ≤ Milliseconds (wait t now)) by (apply Z.quot_pos; unfold millisecond; lia).
  destruct (Z.leb_spec (Milliseconds (wait t now)) (pt_waitMaxMs t)); cbn; lia.
Qed.

Lemma deny_sum t r :
  pt_denyGlobal (deny t r) + pt_denySession (deny t r) + pt_denyOther (deny t r) =
  pt_denyGlobal t + pt_denySession t + pt_denyOther t + 1.
Proof. unfold deny. cbn. lia. Qed.

(** What a step adds: passes begun, granted and denied, by what becomes of the
    loop and of its call. *)
Lemma act_counts now a t c t' c' r :
  act now a t c = Some (t', c', r) → pt_base t = true → 0 < pt_interval t →
  let b2z (x : bool) := if x then 1 else 0 in
  let ok := b2z (match r with Some true => true | _ => false end) in
  let no := b2z (match r with Some false => true | _ => false end) in
  let dg := pt_allowedCalls t' - pt_allowedCalls t in
  let dr := pt_retryCount t' - pt_retryCount t in
  let da := pt_acquireCalls t' - pt_acquireCalls t in
  dg = ok + b2z (is_granted c') - b2z (is_granted c) ∧
  pt_denyGlobal t' + pt_denySession t' + pt_denyOther t' = pt_denyGlobal t + pt_denySession t + pt_denyOther t + dr ∧
  dg + dr + b2z (in_pass c') - b2z (in_pass c) ≤ da ≤ dg + dr + b2z (in_pass c') - b2z (in_pass c) + no ∧
  (waits t → waits t').
Proof.
  intros Ha Hb Hi. destruct c, a; cbn [act] in Ha; try done.
  - rewrite Hb, (proj2 (Z.leb_gt _ _) Hi) in Ha. injection Ha as <- <- <-. cbn. split_and!; try lia; done.
  - pose proof (begin_waits t now) as Hw. destruct (0 <? wait t now) eqn:E; injection Ha as <- <- <-;
      (split; [cbn; lia|]); (split; [cbn; lia|]); (split; [cbn; lia|exact Hw]).
  - destruct (_ <=? _); [|done]. injection Ha as <- <- <-. cbn. split_and!; try lia; done.
  - injection Ha as <- <- <-. cbn. split_and!; try lia; done.
  - destruct allowed; injection Ha as <- <- <-.
    + cbn. split_and!; try lia; done.
    + split; [cbn; lia|]. split; [rewrite deny_sum; cbn; lia|]. split; [cbn; lia|done].
  - injection Ha as <- <- <-. cbn. split_and!; try lia; done.
  - destruct (_ <=? _); [|done]. injection Ha as <- <- <-. cbn. split_and!; try lia; done.
  - injection Ha as <- <- <-. cbn. split_and!; try lia; done.
Qed.

Lemma tallied_step j now a s s' :
  pt_base (pc_throttle s) = true → 0 < pt_interval (pc_throttle s) →
  pace_step j now a s = Some s' → tallied s → tallied s'.
Proof.
  intros Hb Hi (_ & c & t & c' & r & Hj & Ha & ->)%pace_step_cases [H1 H2 H3 H4].
  destruct (act_counts _ _ _ _ _ _ _ Ha Hb Hi) as (Hg & Hd & Hc & Hw).
  pose proof (countb_insert is_granted _ _ _ c' Hj) as Cg. pose proof (countb_insert in_pass _ _ _ c' Hj) as Cp.
  assert (length (granted (pc_returns s ++ match r with Some ok => [(j, ok, now)] | None => [] end)) =
    length (granted (pc_returns s)) + (if match r with Some true => true | _ => false end then 1 else 0))%nat as Lg
    by (rewrite granted_app, length_app; by destruct r as [[]|]).
  assert (refused (pc_returns s ++ match r with Some ok => [(j, ok, now)] | None => [] end) =
    refused (pc_returns s) + (if match r with Some false => true | _ => false end then 1 else 0))%nat as Lr
    by (unfold refused; rewrite countb_app; by destruct r as [[]|]).
  split; cbn [pc_throttle pc_callers pc_returns]; rewrite ?Lg, ?Lr; [| | |by apply Hw];
    destruct (is_granted c), (is_granted c'), (in_pass c), (in_pass c'), r as [[]|]; cbn in *; lia.
Qed.

(** ** All loops together *)

Definition granted_below (n : nat) (l : list (nat * bool * Z)) : list Z :=
  omap (λ x : nat * bool * Z, if x.1.2 && (x.1.1 <? n)%nat then Some x.2 else None) l.

Lemma granted_below_cons n i ok x l :
  granted_below n ((i, ok, x) :: l) = (if ok && (i <? n)%nat then [x] else []) ++ granted_below n l.
Proof. unfold granted_below. cbn [omap list_omap fst snd]. by destruct (ok && _). Qed.
Lemma granted_to_cons n i ok x l :
  granted_to n ((i, ok, x) :: l) = (if ok && bool_decide (i = n) then [x] else []) ++ granted_to n l.
Proof. unfold granted_to. cbn [omap list_omap fst snd]. by destruct (ok && _). Qed.

Lemma granted_below_S w n l :
  countb w (granted_below (S n) l) = (countb w (granted_below n l) + countb w (granted_to n l))%nat.
Proof.
  induction l as [|[[i ok] x] l IH]; [done|]. rewrite !granted_below_cons, granted_to_cons, !countb_app, IH.
  destruct ok; cbn [andb]; [|done].
  destruct (Nat.ltb_spec i n), (Nat.ltb_spec i (S n)); try lia; case_bool_decide; try lia; cbn [countb]; lia.
Qed.

Lemma granted_below_all n l : Forall (λ x, x.1.1 < n)%nat l → granted_below n l = granted l.
Proof.
  induction 1 as [|[[i ok] x] l Hx _ IH]; [done|]. rewrite granted_below_cons, IH. cbn in Hx.
  apply Nat.ltb_lt in Hx. rewrite Hx. by destruct ok.
Qed.

Lemma granted_below_bound w n l d b :
  (∀ i, Z.of_nat (countb w (granted_to i l)) * d ≤ b) → Z.of_nat (countb w (granted_below n l)) * d ≤ Z.of_nat n * b.
Proof.
  intros Hi. induction n as [|n IH]; [|rewrite granted_below_S; specialize (Hi n); nia].
  replace (granted_below 0 l) with (@nil Z); [cbn; lia|].
  clear Hi. induction l as [|[[i ok] x] l IH]; [done|]. by rewrite granted_below_cons, <- IH, andb_false_r.
Qed.

Record pacing_inv (d : Z) (n : nat) (s : pacers) : Prop := {
  pi_paced i : paced d i s;
  pi_tallied : tallied s;
  pi_callers : length (pc_callers s) = n;
  pi_returns : Forall (λ x, x.1.1 < n)%nat (pc_returns s);
}.

Lemma pacing_inv_pace d n steps : 0 < d → ∀ s s', pacing_inv d n s → pace steps s = Some s' → pacing_inv d n s'.
Proof.
  intros Hd. induction steps as [|[[j now] a] steps IH]; intros s s' Hs; cbn [pace]; [by intros [= <-]|].
  destruct (pace_step j now a s) as [s1|] eqn:E; [|done]. apply IH. destruct Hs as [Hp Ht Hl Hr].
  assert (j < n)%nat as Hj.
  { destruct (pace_step_cases _ _ _ _ _ E) as (_ & c & _ & _ & _ & Hc & _). rewrite <- Hl. by eapply lookup_lt_Some. }
  destruct (Hp 0%nat) as [Hb Hi _ _]. split.
  - intros i. by eapply paced_step.
  - eapply tallied_step; [done|lia|exact E|done].
  - apply pace_step_cases in E as (_ & c & t & c' & r & _ & _ & ->). cbn. by rewrite length_insert.
  - apply pace_step_cases in E as (_ & c & t & c' & r & _ & _ & ->). cbn. apply Forall_app. split; [done|].
    destruct r; [|done]. by constructor.
Qed.

Lemma pacing_inv_start rps n c :
  0 < rps ≤ second → pacing_inv (second / rps) n (pace_start rps n c) ∧ 0 < second / rps.
Proof.
  intros Hrps. split; [|apply Z.div_str_pos; lia].
  assert (pt_interval (newPacingThrottle true rps) = second / rps) as Hi.
  { unfold newPacingThrottle. cbn. destruct (Z.leb_spec rps 0); [lia|]. apply Z.quot_div_nonneg; unfold second; lia. }
  assert (∀ p, p Out = false → countb p (replicate n Out) = 0%nat) as Hz
    by (intros p Hp; induction n as [|m IH]; cbn; [done|by rewrite Hp, IH]).
  split; [by split|split; cbn [pace_start pc_throttle pc_returns pc_callers]; rewrite ?Hz by done; done| |constructor].
  apply length_replicate.
Qed.

(** C28: Each loop is paced at the throttle's rate.  Let any number of loops
    call the throttle of a run that was asked for [rps] requests a second, each
    step of theirs at any time and in any order, however the limiter, the
    timers and the contexts behave.  In any window of length [T] at most [T]
    divided by the interval, plus one, requests of one loop are let through: so
    a run whose loop alone uses the throttle keeps to the rate that was asked
    for, and [n] loops on one throttle keep to [n] times that rate
    ([shared_throttle_exceeds]: no less).  The statistics add up: every pass is
    a grant, a counted denial, or one in which the call was cancelled. *)
Theorem pacing_rate_bound rps n c steps s a T :
  0 < rps ≤ second → 0 ≤ T → pace steps (pace_start rps n c) = Some s →
  (∀ i, Z.of_nat (countb (in_window a T) (granted_to i (pc_returns s))) * (second / rps) < T + second / rps) ∧
  Z.of_nat (countb (in_window a T) (granted (pc_returns s))) * (second / rps) ≤ Z.of_nat n * (T + second / rps) ∧
  let m := Snapshot rps (pc_throttle s) in
  tm_Retries m = tm_DenyGlobal m + tm_DenySession m + tm_DenyOther m ∧
  0 ≤ tm_WaitMaxMS m ≤ tm_WaitTotalMS m ∧
  (Forall (eq Out) (pc_callers s) →
     tm_Allowed m = Z.of_nat (length (granted (pc_returns s))) ∧
     tm_Allowed m + tm_Retries m ≤ tm_AcquireCalls m ≤
       tm_Allowed m + tm_Retries m + Z.of_nat (refused (pc_returns s))).
Proof.
  intros Hrps HT Hpace. destruct (pacing_inv_start rps n c Hrps) as [Hstart Hd].
  destruct (pacing_inv_pace _ _ _ Hd _ _ Hstart Hpace) as [Hp [H1 H2 H3 H4] _ Hr].
  assert (∀ i, Z.of_nat (countb (in_window a T) (granted_to i (pc_returns s))) * (second / rps) < T + second / rps)
    as Heach by (intros i; eapply spaced_window; [done|lia|apply (Hp i)]).
  split; [exact Heach|]. split.
  { rewrite <- (granted_below_all n) by done. apply granted_below_bound. intros i. specialize (Heach i). lia. }
  cbv zeta. split; [exact H2|]. split; [exact H4|]. intros Hout.
  assert (∀ p, p Out = false → countb p (pc_callers s) = 0%nat) as Hz.
  { intros p Hpo. clear -Hout Hpo. induction Hout as [|x l <- _ IH]; cbn; [done|]. by rewrite Hpo, IH. }
  rewrite !Hz in * by done. cbn. split; [lia|]. cbn in *. lia.
Qed.

(** Two requests a second; the limiter denies the second one once. *)
Definition demo_steps : list (nat * Z * action) :=
  [(0%nat, 1000, Call); (0%nat, 1000, Lock); (0%nat, 1000, Answer true "ok"); (0%nat, 1000, PutOff);
   (0%nat, 2000, Call); (0%nat, 2000, Lock); (0%nat, 500001000, Wake); (0%nat, 500001000, Answer false "global");
   (0%nat, 510001000, Wake); (0%nat, 510001000, Lock); (0%nat, 510001000, Answer true "ok"); (0%nat, 510001000, PutOff)].

Lemma pacing_rate_bound_witness :
  ∃ s, pace demo_steps (pace_start 2 1 0) = Some s ∧ granted_to 0 (pc_returns s) = [1000; 510001000] ∧
    Z.of_nat (countb (in_window 0 second) (granted_to 0 (pc_returns s))) * (second / 2) < second + second / 2.
Proof.
  eexists. split; [vm_compute; reflexivity|]. split; [reflexivity|].
  refine (proj1 (pacing_rate_bound 2 1 0 demo_steps _ 0 second _ _ _) 0%nat).
  - unfold second. lia.
  - unfold second. lia.
  - vm_compute. reflexivity.
Defined.

(** Two loops that read the slot before either puts it off are both let
    through in it, and again in the next ones: in a second, a throttle of two
    a second lets six requests through, three of each loop. *)
Definition both (now : Z) (a : action) : list (nat * Z * action) := [(0%nat, now, a); (1%nat, now, a)].
Definition both_granted (now : Z) : list (nat * Z * action) :=
  (both now (Answer true "ok") ++ both now PutOff)%list.
Definition demo_shared : list (nat * Z * action) :=
  (both 0 Call ++ both 0 Lock ++ both_granted 0 ++ both 0 Call ++ both 0 Lock ++ both 500000000 Wake ++
   both_granted 500000000 ++ both 500000000 Call ++ both 500000000 Lock ++ both 1000000000 Wake ++
   both_granted 1000000000)%list.

Theorem shared_throttle_exceeds :
  ∃ s, pace demo_shared (pace_start 2 2 0) = Some s ∧
    granted (pc_returns s) = [0; 0; 500000000; 500000000; 1000000000; 1000000000].
Proof. eexists. split; [vm_compute; reflexivity|reflexivity]. Qed.
