(* ===== verification/Throttle.v ===== *)
(** * The throttle of a run over the rate limiter: when a call returns

    [pacingThrottle.Acquire] asks the limiter again and again until it is
    granted; the context of a run is never done.  A call of it therefore
    returns exactly when the limiter grants one of its passes.  Here the
    limiter of [RateLimiter.v] answers the passes of [Pacing.v]. *)
From stdpp Require Import prelude gmap list strings.
From Stdlib Require Import QArith Lqa.
From S2P Require Import Prelude GoStrings GoTime ApiError SessionTypes Pacing RateLimiter.
Local Open Scope Z_scope.

(** ** What a bucket has at least

    The script computes what a bucket gained from the readings the callers
    send, which come from any clocks in any order; a reading before the last
    one takes tokens away.  But a bucket never has less than it would have if
    it had been emptied at the latest reading [H] of all: every gain and every
    loss is the rate times a difference of readings, and an expired bucket is
    full. *)
Section Growth.
Variable M : Z.
Hypothesis M_pos : 0 < M.
Local Open Scope Q_scope.

Ltac q_arith :=
  unfold Qdiv in *; change (inject_Z 1000) with 1000 in *;
  change (/ 1000) with (1 # 1000) in *; change (inject_Z 0) with 0 in *; change (inject_Z 1) with 1 in *; lra.

Abbreviation tokens_at k c n db := (refilled c k (inject_Z M) (inject_Z M) (inject_Z n) db).
Abbreviation ask k c n db := (acquire_bucket c k (inject_Z M) (inject_Z M) (inject_Z n) (inject_Z 1) db).

Definition low (k : string) (H : Z) (db : redis_db Q) : Prop :=
  match db !! k with
  | None => True
  | Some (b, _) => inject_Z M * (b_last b - inject_Z H) / 1000 <= b_tokens b
  end.

Lemma rate_pos : 0 < inject_Z M.
Proof. change 0 with (inject_Z 0). by rewrite <- Zlt_Qlt. Qed.

Lemma rate_mono x y : x <= y → inject_Z M * x <= inject_Z M * y.
Proof. intros Hxy. apply Qmult_le_l; [apply rate_pos|done]. Qed.

Lemma rate_le (a b : Z) (x : Q) :
  (a ≤ b)%Z → inject_Z M * (x - inject_Z b) <= inject_Z M * (x - inject_Z a).
Proof. intros Hab. apply rate_mono. rewrite Zle_Qle in Hab. lra. Qed.

Lemma low_later k H H' db : (H ≤ H')%Z → low k H db → low k H' db.
Proof.
  unfold low. intros HH. destruct (db !! k) as [[b ex]|]; [|done]. intros Hl.
  pose proof (rate_le H H' (b_last b) HH). q_arith.
Qed.

Lemma low_tokens k H c n db :
  low k H db →
  tokens_at k c n db == inject_Z M ∨
  inject_Z M * (inject_Z n - inject_Z H) / 1000 <= tokens_at k c n db.
Proof.
  unfold low, refilled, live_bucket. intros Hl. destruct (db !! k) as [[b ex]|]; [|left; apply refill_full].
  destruct (c <? ex)%Z; [|left; apply refill_full]. set (r := lua_min _ _).
  pose proof (lua_min_Q (inject_Z M) (lua_add (b_tokens b) (lua_div (lua_mul
    (lua_sub (inject_Z n) (b_last b)) (inject_Z M)) (lua_of_Z 1000)))) as (_ & _ & H3).
  fold r in H3. simpl in H3. clearbody r. destruct H3 as [H3|H3]; [by left|right].
  rewrite H3. q_arith.
Qed.

Lemma low_store k H c n t db :
  inject_Z M * (inject_Z n - inject_Z H) / 1000 <= t → low k H (<[k := (mkBucket t (inject_Z n), c)]> db).
Proof. unfold low. by rewrite lookup_insert_eq. Qed.

(** A call with a reading up to [H] keeps this; a call that is denied keeps it
    whatever its reading. *)
Lemma low_asked k H c n db ok db' :
  (n ≤ H)%Z → low k H db → ask k c n db = (ok, db') → low k H db'.
Proof.
  intros Hn Hl Ha. pose proof rate_pos as HM. pose proof (rate_le n H (inject_Z n) Hn) as Hle.
  pose proof (low_tokens k H c n db Hl) as Ht. unfold acquire_bucket in Ha.
  set (R := refilled _ _ _ _ _ _) in *. clearbody R.
  pose proof (lua_lt_Q R (inject_Z 1)) as Hlt.
  destruct (lua_lt R (inject_Z 1)); injection Ha as <- <-; apply low_store; cbn [lua_sub lua_Q];
    destruct Ht; q_arith.
Qed.

Lemma low_denied k H c n db db' : low k H db → ask k c n db = (false, db') → low k H db'.
Proof.
  intros Hl Ha. pose proof (low_tokens k H c n db Hl) as Ht.
  assert (1 <= inject_Z M) as HM by (change 1 with (inject_Z 1); rewrite <- Zle_Qle; lia).
  unfold acquire_bucket in Ha. set (R := refilled _ _ _ _ _ _) in *. clearbody R.
  pose proof (lua_lt_Q R (inject_Z 1)) as Hlt.
  destruct (lua_lt R (inject_Z 1)); [|done]. injection Ha as <-. apply low_store. destruct Ht; q_arith.
Qed.

Lemma low_other k k' H c n m r q db ok db' :
  k ≠ k' → low k H db → acquire_bucket c k' m r n q db = (ok, db') → low k H db'.
Proof.
  unfold acquire_bucket, low. intros Hk Hl Ha.
  destruct (lua_lt _ _); injection Ha as <- <-; by rewrite lookup_insert_ne.
Qed.

(** A second after [H] there is a token. *)
Lemma low_grants k H c n db : (H + 1000 ≤ n)%Z → low k H db → ∃ db', ask k c n db = (true, db').
Proof.
  intros Hn Hl. assert (1 <= inject_Z M) as HM by (change 1 with (inject_Z 1); rewrite <- Zle_Qle; lia).
  assert (1 <= tokens_at k c n db) as H1.
  { assert (1000 <= inject_Z n - inject_Z H) as Hd.
    { rewrite Zle_Qle, inject_Z_plus in Hn. change (inject_Z 1000) with 1000 in Hn. lra. }
    apply rate_mono in Hd. destruct (low_tokens k H c n db Hl); q_arith. }
  unfold acquire_bucket. pose proof (lua_lt_Q (tokens_at k c n db) (inject_Z 1)) as Hlt.
  destruct (lua_lt _ _); [q_arith|]. by eexists.
Qed.
End Growth.

(** ** The calls of the limiter, seen by the two buckets of a session *)
Section Alone.
Variables (gM sM : Z) (sha sid : string).
Hypothesis global_pos : 0 < gM.
Hypothesis session_pos : 0 < sM.
Hypothesis loaded : sha ≠ ""%string.

Abbreviation gk := global_bucket_key.
Abbreviation sk := (session_bucket_key sid).

(** The limiter's settings, which its calls keep. *)
Definition set_up (rl : RateLimiter) : Prop :=
  rl_scriptSHA rl = sha ∧ rl_globalMax rl = gM ∧ rl_sessionMax rl = sM.

(** A call of this session whose reply arrives. *)
Definition mine (e : call_env) : bool :=
  (env_session e =? sid)%string && match env_fate e with Reply => true | _ => false end.

Definition lows (G S : Z) (db : redis_db Q) : Prop := low gM gk G db ∧ low sM sk S db.

(** The script, called by anyone. *)
Lemma script_lows G S e rl db v db' :
  set_up rl → env_now e ≤ G → env_now e ≤ S → lows G S db →
  dualBucketLua (env_clock e) gk (session_bucket_key (env_session e))
    (inject_Z (rl_globalMax rl)) (inject_Z (rl_globalMax rl))
    (inject_Z (rl_sessionMax rl)) (inject_Z (rl_sessionMax rl))
    (inject_Z (env_now e)) (inject_Z 1) db = (v, db') →
  lows G S db'.
Proof.
  intros (_ & -> & ->) HG HS [Hg Hs]. unfold dualBucketLua.
  destruct (acquire_bucket _ gk _ _ _ _ db) as [ok1 db1] eqn:H1.
  assert (low sM sk S db1) as Hs1 by (eapply low_other, H1; [apply session_key_global|done]).
  assert (low gM gk G db1) as Hg1 by (eapply (low_asked gM), H1; done).
  destruct ok1; simpl; [|by intros [= <- <-]].
  destruct (acquire_bucket _ (session_bucket_key (env_session e)) _ _ _ _ db1) as [ok2 db2] eqn:H2.
  assert (lows G S db2) as Hl.
  { split; [eapply low_other, H2; [|done]; intros E; by apply (session_key_global (env_session e))|].
    destruct (decide (env_session e = sid)) as [Esid|Hne].
    - rewrite Esid in H2. eapply (low_asked sM), H2; done.
    - eapply low_other, H2; [|done]. intros E%session_key_inj. congruence. }
  destruct ok2; simpl; by intros [= <- <-].
Qed.

Lemma call_lows G S e rl rl' db db' ok r :
  set_up rl → env_now e ≤ G → env_now e ≤ S → lows G S db →
  AcquireWithReason e rl db = (ok, r, rl', db') → lows G S db'.
Proof.
  intros Hset HG HS Hl. pose proof Hset as (Hsha & _). pose proof loaded as Hne. apply String.eqb_neq in Hne.
  unfold AcquireWithReason, eval_script. rewrite Hsha, Hne. simpl.
  destruct (dualBucketLua _ _ _ _ _ _ _ _ _ db) as [v db1] eqn:Hs.
  pose proof (script_lows _ _ _ _ _ _ _ Hset HG HS Hl Hs) as Hl1.
  destruct (env_fate e); [|by intros [= <- <- <- <-]..].
  destruct (parseAcquireResult v) as [[] r']; by intros [= <- <- <- <-].
Qed.

(** A call of this session that is denied, before and after its own bucket
    surely has a token. *)
Lemma call_denied G S e rl rl' db db' r :
  set_up rl → mine e = true → lows G S db →
  AcquireWithReason e rl db = (false, r, rl', db') →
  lows (Z.max G (env_now e)) S db' ∧
  (S + 1000 ≤ env_now e → lows G S db' ∧ env_now e < G + 1000).
Proof.
  unfold mine. intros (Hsha & HG & HS) Hm [Hg Hs]. bool_hyps. rename select (env_session e = sid) into Esid.
  destruct (env_fate e) eqn:Hf; try done.
  pose proof loaded as Hl. apply String.eqb_neq in Hl.
  unfold AcquireWithReason, eval_script, dualBucketLua. rewrite Hsha, HG, HS, Hl, Hf, Esid. simpl.
  destruct (acquire_bucket _ gk _ _ _ _ db) as [[] db1] eqn:H1; simpl.
  - assert (low sM sk S db1) as Hs1 by (eapply low_other, H1; [apply session_key_global|done]).
    assert (low gM gk (Z.max G (env_now e)) db1) as Hg1.
    { eapply (low_asked gM), H1; [done|lia|]. eapply low_later, Hg; [done|lia]. }
    destruct (acquire_bucket _ sk _ _ _ _ db1) as [[] db2] eqn:H2; simpl; [done|].
    intros [= <- <- <-]. split.
    + split; [eapply low_other, H2; [|done]; intros E; by apply (session_key_global sid)|].
      by eapply (low_denied sM), H2.
    + intros Hge. destruct (low_grants sM session_pos sk S (env_clock e) (env_now e) db1 Hge Hs1) as [db3 H3].
      simpl in H2, H3. rewrite H3 in H2. done.
  - intros [= <- <- <-].
    assert (low sM sk S db1) as Hs1 by (eapply low_other, H1; [apply session_key_global|done]).
    assert (low gM gk G db1) as Hg1 by (by eapply (low_denied gM), H1).
    split; [split; [eapply low_later, Hg1; [done|lia]|done]|]. intros _. split; [done|].
    destruct (Z.lt_ge_cases (env_now e) (G + 1000)) as [?|Hge]; [done|exfalso].
    destruct (low_grants gM global_pos gk G (env_clock e) (env_now e) db Hge Hg) as [db3 H3].
    simpl in H1, H3. rewrite H3 in H1. done.
Qed.

Lemma set_up_next e rl rl' (db db' : redis_db Q) ok r :
  set_up rl → AcquireWithReason e rl db = (ok, r, rl', db') → set_up rl'.
Proof.
  intros Hset Ha. destruct (AcquireWithReason_config _ _ _ _ _ _ _ Ha) as (E1 & E2 & E3).
  unfold set_up in *. by rewrite E1, E2, E3.
Qed.

Lemma calls_lows H es : ∀ rl rl' db db' rs,
  set_up rl → (∀ e, In e es → env_now e ≤ H) → lows H H db →
  acquire_all es rl db = (rs, rl', db') → lows H H db'.
Proof.
  induction es as [|e es IH]; intros rl rl' db db' rs Hset Hes Hl; simpl; [by intros [= <- <- <-]|].
  destruct (AcquireWithReason e rl db) as [[[ok r] rl1] db1] eqn:H1.
  destruct (acquire_all es rl1 db1) as [[rs1 rl2] db2] eqn:H2. intros [= <- <- <-].
  eapply IH, H2; [by eapply set_up_next|intros e' He; apply Hes; by right|].
  eapply call_lows, H1; [done|apply Hes; by left..|done].
Qed.

(** Denied calls: up to the reading [n], and from a second after [S] on. *)
Lemma denied_before n S es : ∀ rl rl' db db' rs,
  set_up rl → forallb mine es = true → (∀ e, In e es → env_now e ≤ n) → lows n S db →
  acquire_all es rl db = (rs, rl', db') → existsb fst rs = false → lows n S db'.
Proof.
  induction es as [|e es IH]; intros rl rl' db db' rs Hset Hm Hes Hl; simpl; [by intros [= <- <- <-]|].
  simpl in Hm. bool_hyps.
  destruct (AcquireWithReason e rl db) as [[[ok r] rl1] db1] eqn:H1.
  destruct (acquire_all es rl1 db1) as [[rs1 rl2] db2] eqn:H2. intros [= <- <- <-] Hno.
  simpl in Hno. apply orb_false_iff in Hno as [-> Hno].
  eapply IH, Hno; [by eapply set_up_next, H1|done|intros e' He; apply Hes; by right| |exact H2].
  eapply call_denied in H1 as [Hl1 _]; [|done..].
  assert (Z.max n (env_now e) = n) as En by (specialize (Hes e (or_introl eq_refl)); lia). by rewrite En in Hl1.
Qed.

Lemma denied_after G S es : ∀ rl rl' db db' rs,
  set_up rl → forallb mine es = true → (∀ e, In e es → S + 1000 ≤ env_now e) → lows G S db →
  acquire_all es rl db = (rs, rl', db') → existsb fst rs = false → ∀ e, In e es → env_now e < G + 1000.
Proof.
  induction es as [|e es IH]; intros rl rl' db db' rs Hset Hm Hes Hl; simpl; [by intros|].
  simpl in Hm. bool_hyps.
  destruct (AcquireWithReason e rl db) as [[[ok r] rl1] db1] eqn:H1.
  destruct (acquire_all es rl1 db1) as [[rs1 rl2] db2] eqn:H2. intros [= <- <- <-] Hno.
  simpl in Hno. apply orb_false_iff in Hno as [-> Hno].
  pose proof (set_up_next _ _ _ _ _ _ _ Hset H1) as Hset1.
  eapply call_denied in H1 as [_ Hl1]; [|done..].
  destruct (Hl1 (Hes e (or_introl eq_refl))) as [Hl2 Hlt]. intros e' [<-|Hin]; [done|].
  eapply IH, Hin; [exact Hset1|done|intros e'' He; apply Hes; by right|exact Hl2|exact H2|done].
Qed.
End Alone.

Lemma acquire_all_app {N} `{LuaNum N} es1 es2 rl (db : redis_db N) :
  acquire_all (es1 ++ es2) rl db =
  let '(rs1, rl1, db1) := acquire_all es1 rl db in
  let '(rs2, rl2, db2) := acquire_all es2 rl1 db1 in (rs1 ++ rs2, rl2, db2).
Proof.
  revert rl db. induction es1 as [|e es1 IH]; intros rl db; simpl.
  - by destruct (acquire_all es2 rl db) as [[??]?].
  - destruct (AcquireWithReason e rl db) as [[[ok r] rl1] db1]. rewrite IH.
    destruct (acquire_all es1 rl1 db1) as [[rs1 rl2] db2].
    by destruct (acquire_all es2 rl2 db2) as [[rs2 rl3] db3].
Qed.

Lemma acquire_all_set_up {N} `{LuaNum N} es : ∀ sha gM sM rl rl' (db db' : redis_db N) rs,
  set_up gM sM sha rl → acquire_all es rl db = (rs, rl', db') → set_up gM sM sha rl'.
Proof.
  induction es as [|e es IH]; intros sha gM sM rl rl' db db' rs Hset; simpl.
  - by intros [= <- <- <-].
  - destruct (AcquireWithReason e rl db) as [[[ok r] rl1] db1] eqn:H1.
    destruct (acquire_all es rl1 db1) as [[rs1 rl2] db2] eqn:H2. intros [= <- <- <-].
    eapply IH; [|exact H2]. destruct (AcquireWithReason_config _ _ _ _ _ _ _ H1) as (E1 & E2 & E3).
    unfold set_up in *. by rewrite E1, E2, E3.
Qed.

(** Whatever was asked for before, a session that is alone is granted a call
    by two seconds after the latest reading [H] of anyone: its own bucket has a
    token after one of them, from then on every denial is the global bucket's,
    which gives nothing away meanwhile. *)
Lemma alone_granted rl sid H es0 rs0 rl0 (db0 : redis_db Q) es1 e1 es2 e2 rs rl' db' :
  rl_scriptSHA rl ≠ ""%string → 0 < rl_globalMax rl → 0 < rl_sessionMax rl →
  let es := es1 ++ e1 :: es2 ++ [e2] in
  (∀ e, In e es0 → env_now e ≤ H) → forallb (mine sid) es = true →
  (∀ e, In e es1 → env_now e ≤ env_now e1) → (∀ e, In e es2 → env_now e1 ≤ env_now e) →
  H + 1000 ≤ env_now e1 → env_now e1 + 1000 ≤ env_now e2 →
  acquire_all es0 rl ∅ = (rs0, rl0, db0) → acquire_all es rl0 db0 = (rs, rl', db') →
  existsb fst rs = true.
Proof.
  intros Hsha HG HS es HH Hm Hb Ha H1 H2 Ha0 Hall. destruct (existsb fst rs) eqn:Hno; [done|exfalso].
  assert (set_up (rl_globalMax rl) (rl_sessionMax rl) (rl_scriptSHA rl) rl) as Hset by done.
  pose proof (acquire_all_set_up _ _ _ _ _ _ _ _ _ Hset Ha0) as Hset0.
  unfold es in *. rewrite forallb_app in Hm. apply andb_true_iff in Hm as [Hm1 Hm2].
  rewrite acquire_all_app in Hall.
  destruct (acquire_all es1 rl0 db0) as [[rs1 rl1] db1] eqn:Ha1.
  destruct (acquire_all (e1 :: es2 ++ [e2]) rl1 db1) as [[rs2 rl2] db2] eqn:Ha2.
  injection Hall as <- <- <-. rewrite existsb_app in Hno. apply orb_false_iff in Hno as [Hn1 Hn2].
  pose proof (acquire_all_set_up _ _ _ _ _ _ _ _ _ Hset0 Ha1) as Hset1.
  eapply (calls_lows _ _ _ sid HG HS Hsha H) in Ha0 as [Hg0 Hs0]; [|done|done|by split].
  eapply (denied_before _ _ _ sid HG HS Hsha (env_now e1) H) in Ha1 as Hl1; [|done..| |done].
  2:{ split; [eapply low_later, Hg0; [done|lia]|done]. }
  eapply (denied_after _ _ _ sid HG HS Hsha (env_now e1) H) in Ha2; [|done..| |exact Hl1|done|].
  - instantiate (1 := e2) in Ha2. lia.
  - intros e [<-|[Hin|[<-|[]]]%in_app_iff]; [lia| |lia]. specialize (Ha e Hin). lia.
  - right. apply in_app_iff. right. by left.
Qed.

(** ** The throttle over the limiter *)

(** The passes of a call when the limiter answers [rs] and the context is
    [context.Background()]. *)
Definition answered (ps : list pass) (rs : list (bool * string)) : list pass :=
  zip_with (λ p r, mkPass (ps_now p) false (ps_acquire p) r.1 r.2 (ps_granted p) false) ps rs.

(** A call returns at the first grant, and only then. *)
Lemma throttle_returns ps : ∀ rs t,
  length rs = length ps →
  if negb (pt_base t) || (pt_interval t <=? 0) || existsb fst rs
  then ∃ g t' ps', Pacing.Acquire (answered ps rs) t = Some (true, g, t', ps')
  else Pacing.Acquire (answered ps rs) t = None.
Proof.
  induction ps as [|p ps IH]; intros [|[ok r] rs] t Hlen; try done; simpl in Hlen.
  - rewrite orb_false_r. simpl. destruct (_ || _); by eauto.
  - simpl. destruct (negb (pt_base t) || (pt_interval t <=? 0)) eqn:Hoff; simpl; [by eauto|].
    rewrite andb_false_r. destruct ok; simpl; [by eauto|].
    specialize (IH rs (deny (begin_pass t (ps_now p)) r)
      ltac:(lia)).
    simpl in IH. rewrite Hoff in IH. exact IH.
Qed.

Lemma acquire_all_length {N} `{LuaNum N} es : ∀ rl rl' (db db' : redis_db N) rs,
  acquire_all es rl db = (rs, rl', db') → length rs = length es.
Proof.
  induction es as [|e es IH]; intros rl rl' db db' rs; simpl; [by intros [= <- <- <-]|].
  destruct (AcquireWithReason e rl db) as [[[ok r] rl1] db1].
  destruct (acquire_all es rl1 db1) as [[rs1 rl2] db2] eqn:H1. intros [= <- <- <-].
  simpl. f_equal. by eapply IH.
Qed.

(** ** Theorems *)

(** C35: The throttle of a run returns, in exact arithmetic.  Let the limiter
    have been called by anyone, in any order, with any readings of any clocks,
    with replies lost or not, and let [H] be the latest reading used.  Then a
    call of the throttle whose passes are alone at the limiter is granted by
    two seconds after [H] on its own clock (one second after [H] and one more),
    whatever the rates are; so the loop of a stage goes on to its next request.
    (Readings ahead of the caller's clock, from another machine or before a
    step back, do delay it until then.) *)
Theorem throttle_liveness g s sha rl sid H es0 rs0 rl0 (db0 : redis_db Q) es1 e1 es2 e2 rs rl' db' ps t :
  sha ≠ ""%string → RateLimiter_Init (Ok sha) (NewRateLimiter g s) = Ok rl →
  let es := es1 ++ e1 :: es2 ++ [e2] in
  (∀ e, In e es0 → env_now e ≤ H) → forallb (mine sid) es = true →
  (∀ e, In e es1 → env_now e ≤ env_now e1) → (∀ e, In e es2 → env_now e1 ≤ env_now e) →
  H + 1000 ≤ env_now e1 → env_now e1 + 1000 ≤ env_now e2 →
  acquire_all es0 rl ∅ = (rs0, rl0, db0) → acquire_all es rl0 db0 = (rs, rl', db') →
  length ps = length es →
  ∃ g t' ps', Pacing.Acquire (answered ps rs) t = Some (true, g, t', ps').
Proof.
  intros Hsha [= <-] es HH Hm Hb Ha H1 H2 Ha0 Hall Hps. destruct (NewRateLimiter_pos g s) as [HG HS].
  set (rl := mkRL sha _ _ _ _ _ _ _) in *.
  pose proof (throttle_returns ps rs t) as Hr. rewrite (acquire_all_length _ _ _ _ _ _ Hall) in Hr.
  apply (alone_granted rl sid H es0 rs0 rl0 db0 es1 e1 es2 e2) in Hall; try done.
  rewrite Hall, orb_true_r in Hr. by apply Hr.
Qed.

(** The reply to every call is lost before the script runs, as when Redis has
    lost the script, which is loaded once, when the program starts: no pass is
    ever granted, and the call does not return. *)
Theorem script_lost_stalls {N} `{LuaNum N} es rl (db : redis_db N) rs rl' db' ps t :
  rl_scriptSHA rl ≠ ""%string → Forall (λ e, env_fate e = LostBefore) es →
  acquire_all es rl db = (rs, rl', db') → length ps = length es →
  pt_base t = true → 0 < pt_interval t →
  Pacing.Acquire (answered ps rs) t = None.
Proof.
  intros Hsha Hes Ha Hps Hb Hi.
  pose proof (throttle_returns ps rs t) as Hr. rewrite (acquire_all_length _ _ _ _ _ _ Ha) in Hr.
  specialize (Hr ltac:(done)). destruct (Z.leb_spec (pt_interval t) 0); [lia|]. rewrite Hb in Hr.
  replace (existsb fst rs) with false in Hr; [done|]. clear -Hsha Hes Ha. symmetry.
  revert rl db rs rl' db' Hsha Ha. induction Hes as [|e es He _ IH]; intros rl db rs rl' db' Hsha.
  { by intros [= <- <- <-]. }
  simpl. destruct (AcquireWithReason e rl db) as [[[ok r] rl1] db1] eqn:H1.
  destruct (acquire_all es rl1 db1) as [[rs1 rl2] db2] eqn:H2. intros [= <- <- <-].
  destruct (AcquireWithReason_config _ _ _ _ _ _ _ H1) as (E1 & _).
  assert (ok = false) as ->.
  { revert H1. unfold AcquireWithReason, eval_script. apply String.eqb_neq in Hsha. rewrite Hsha, He.
    destruct (dualBucketLua _ _ _ _ _ _ _ _ _ db). by intros [= <- <- <- <-]. }
  simpl. eapply IH, H2. by rewrite E1.
Qed.

(** The witnesses evaluate maps. *)
#[local] Transparent gmap_empty.

(** Two sessions at one token a second: "b" empties the global bucket, from a
    machine whose clock is ahead of the one of "a", and is then set back. *)
Definition demo_history : list call_env := [mkEnv 0 205 "b" Reply; mkEnv 100 5 "b" LostAfter].
Definition demo_before : list call_env := [mkEnv 110 115 "a" Reply; mkEnv 120 125 "a" Reply].
Definition demo_between : list call_env := [mkEnv 1110 1315 "a" Reply].
Definition demo_alone : list call_env :=
  demo_before ++ mkEnv 1100 1205 "a" Reply :: demo_between ++ [mkEnv 2200 2205 "a" Reply].
Definition demo_limiter : RateLimiter := mkRL "sha" 1 1 0 0 0 0 0.
Definition demo_served := acquire_all demo_history demo_limiter (∅ : redis_db Q).
Definition demo_answers := acquire_all demo_alone demo_served.1.2 demo_served.2.
Definition demo_passes : list pass := replicate 5 (mkPass 0 false 10 false "" 20 false).

Lemma throttle_liveness_witness :
  (fst <$> demo_answers.1.1) = [false; false; true; false; true] ∧
  ∃ g t' ps',
    Pacing.Acquire (answered demo_passes demo_answers.1.1) (newPacingThrottle true 10) =
    Some (true, g, t', ps').
Proof.
  split; [by vm_compute|].
  apply (throttle_liveness 1 1 "sha" demo_limiter "a" 205 demo_history demo_served.1.1 demo_served.1.2
    demo_served.2 demo_before (mkEnv 1100 1205 "a" Reply) demo_between (mkEnv 2200 2205 "a" Reply)
    demo_answers.1.1 demo_answers.1.2 demo_answers.2 demo_passes (newPacingThrottle true 10));
    try (by vm_compute);
    intros e; cbn [demo_history demo_before demo_between In]; intros He; destruct_or? He; try done; subst e; done.
Defined.
