(* ===== verification/StateStore.v ===== *)
(** * The interface of the session state: [StateStore] in
    [internal/domain/session/store.go]

    The calls of the interface, an abstract store they act on (a map from
    typed keys to values of the key's type), and the class of stores that
    refine it.  [ports/session/redis_store.go] is an instance
    ([SessionRedis.v]); [Manager] is proved against the interface. *)
From stdpp Require Import prelude strings.
From S2P Require Import Prelude GoStrings ApiError SessionTypes.
Local Open Scope string_scope.

(** [json.Marshal] and [json.Unmarshal] on a struct type: encoding can fail
    (a year out of range, a NaN), and a decoded encoding is the value. *)
Class Wire (B T : Type) := {
  marshal : T → option B;
  unmarshal : B → option T;
  unmarshal_marshal : ∀ x b, marshal x = Some b → unmarshal b = Some x;
}.

(** The encodings the store needs. *)
Class SessionWire (B : Type) := {
  #[global] wire_session :: Wire B Session;
  #[global] wire_catalog :: Wire B CatalogState;
  #[global] wire_preorder :: Wire B PreorderState;
  #[global] wire_run :: Wire B Run;
}.

(** ** The calls *)
Section Calls.
Context {B : Type}.

Inductive call : Type → Type :=
  | CreateSession (s : Session) : call (result error ())
  | GetSession (id : string) : call (result error Session)
  | DeleteSession (id : string) : call (result error ())
  | GetSessionByBPP (bppID : string) : call (result error Session)
  | SetCatalogState (id : string) (st : CatalogState) : call (result error ())
  | GetCatalogState (id : string) : call (result error CatalogState)
  | SetPreorderState (id : string) (st : PreorderState) : call (result error ())
  | GetPreorderState (id : string) : call (result error PreorderState)
  | CreateRun (r : Run) : call (result error ())
  | GetRun (id : string) : call (result error Run)
  | UpdateRunStatus (id status : string) : call (result error ())
  | IncrMetric (run action field : string) (delta : Z) : call (result error ())
  | GetMetrics (run : string) : call RunMetrics
  | LinkTxn (txn run session : string) (verification : bool) : call (result error ())
  | GetTxnRoute (txn : string) : call (result error (string * string * bool))
  | SetDiscoveryPayload (txn : string) (payload : B) : call (result error ())
  | GetDiscoveryPayload (txn : string) : call (result error (option B)).

(** ** The abstract store *)

Inductive akey :=
  | KSession (id : string) | KBpp (bpp : string) | KCatalog (id : string) | KPreorder (id : string)
  | KRun (id : string) | KMetric (run action field : string) | KTxn (txn : string)
  | KDiscovery (txn : string).

#[global] Instance akey_eq_dec : EqDecision akey.
Proof. solve_decision. Defined.

Definition aval (k : akey) : Type :=
  match k with
  | KSession _ => Session
  | KBpp _ => string
  | KCatalog _ => CatalogState
  | KPreorder _ => PreorderState
  | KRun _ => Run
  | KMetric _ _ _ => Z
  | KTxn _ => string * string * bool
  | KDiscovery _ => B
  end.

Definition astore : Type := ∀ k, option (aval k).
Definition astore_empty : astore := λ _, None.

Definition aset (k : akey) (v : option (aval k)) (A : astore) : astore :=
  λ k', match decide (k = k') with
        | left e => match e in _ = k'' return option (aval k'') with eq_refl => v end
        | right _ => A k'
        end.

Lemma aset_eq k v A : aset k v A k = v.
Proof.
  unfold aset. destruct (decide (k = k)) as [e|]; [|done].
  by rewrite (Eqdep_dec.UIP_dec akey_eq_dec e eq_refl).
Qed.

Lemma aset_ne k v A k' : k ≠ k' → aset k v A k' = A k'.
Proof. intros. unfold aset. by destruct (decide (k = k')). Qed.
End Calls.
Arguments call B : clear implicits.
Arguments aval B : clear implicits.
Arguments astore B : clear implicits.

(** Walks through the updates of an abstract store to the one of the key that
    is read. *)
Ltac akey :=
  repeat first
    [ rewrite aset_eq | rewrite aset_ne by (intros [=]; by subst || congruence) ].

Section Abstract.
Context {B : Type} `{SessionWire B}.
Implicit Types A : astore B.

Definition encoding_error : error := EText "json: unsupported value".

(** [Set] of an encoded value. *)
Definition aput {T} `{Wire B T} (x : T) (f : astore B → astore B) A : result error () * astore B :=
  match marshal x with Some _ => (Ok (), f A) | None => (Err encoding_error, A) end.

Definition found {T} (what : string) (o : option T) : result error T :=
  match o with Some x => Ok x | None => Err (EText what) end.

Definition metric (run action : string) A (field : string) : Z :=
  default 0%Z (A (KMetric run action field)).
Definition action_metrics (run action : string) A : ActionMetrics :=
  let g := metric run action A in
  mkAction (g "sent") (g "success") (g "failure") (g "timeout") f64_zero f64_zero f64_zero f64_zero.
Definition run_metrics (run : string) A : RunMetrics :=
  mkMetrics (action_metrics run "select" A) (action_metrics run "on_select" A)
    (action_metrics run "init" A) (action_metrics run "on_init" A)
    (action_metrics run "confirm" A) (action_metrics run "on_confirm" A).

Definition finished (status : string) : bool := (status =? "completed") || (status =? "failed").

(** What each call promises. *)
Definition aexec {T} (now : Z) (c : call B T) A : T * astore B :=
  match c in call _ T return T * astore B with
  | CreateSession s =>
      aput s (λ A, aset (KBpp (s_BPPID s)) (Some (s_ID s)) (aset (KSession (s_ID s)) (Some s) A)) A
  | GetSession id => (found "session not found" (A (KSession id)), A)
  | DeleteSession id =>
      match A (KSession id) with
      | None => (Err (EText "session not found"), A)
      | Some s =>
          (Ok (), aset (KPreorder id) None (aset (KCatalog id) None
                    (aset (KSession id) None (aset (KBpp (s_BPPID s)) None A))))
      end
  | GetSessionByBPP bpp =>
      match A (KBpp bpp) with
      | None => (Err (EText "no session for bpp"), A)
      | Some id => (found "session not found" (A (KSession id)), A)
      end
  | SetCatalogState id st => aput st (aset (KCatalog id) (Some st)) A
  | GetCatalogState id =>
      (Ok (default (mkCatalogState CatalogNone "" zero_time) (A (KCatalog id))), A)
  | SetPreorderState id st => aput st (aset (KPreorder id) (Some st)) A
  | GetPreorderState id =>
      (Ok (default (mkPreorderState PreorderIdle "") (A (KPreorder id))), A)
  | CreateRun r => aput r (aset (KRun (r_ID r)) (Some r)) A
  | GetRun id => (found "run not found" (A (KRun id)), A)
  | UpdateRunStatus id status =>
      match A (KRun id) with
      | None => (Err (EText "run not found"), A)
      | Some r =>
          let r := set_run_status status r in
          let r := if finished status then set_run_completed now r else r in
          aput r (aset (KRun id) (Some r)) A
      end
  | IncrMetric run action field delta =>
      let v := (default 0 (A (KMetric run action field)) + delta)%Z in
      if bool_decide (in_int64 v) then (Ok (), aset (KMetric run action field) (Some v) A)
      else (Err (EText "ERR value is not an integer or out of range"), A)
  | GetMetrics run => (run_metrics run A, A)
  | LinkTxn txn run session verification =>
      (Ok (), aset (KTxn txn) (Some (run, session, verification)) A)
  | GetTxnRoute txn => (found "txn route not found" (A (KTxn txn)), A)
  | SetDiscoveryPayload txn p => (Ok (), aset (KDiscovery txn) (Some p) A)
  | GetDiscoveryPayload txn => (Ok (A (KDiscovery txn)), A)
  end.

(** Identifiers of sessions, runs, actions and fields have no colon (they are
    UUIDs and the program's own names); deltas are [int64]. *)
Definition call_ok {T} (c : call B T) : Prop :=
  match c with
  | CreateSession s => no_colon (s_ID s)
  | GetSession id | DeleteSession id | SetCatalogState id _ | GetCatalogState id
  | SetPreorderState id _ | GetPreorderState id | GetRun id | UpdateRunStatus id _ => no_colon id
  | CreateRun r => no_colon (r_ID r)
  | IncrMetric run action field delta =>
      no_colon run ∧ no_colon action ∧ no_colon field ∧ in_int64 delta
  | GetMetrics run => no_colon run
  | LinkTxn _ run session _ => no_colon run ∧ no_colon session
  | _ => True
  end.
End Abstract.

(** ** The interface *)

Class StateStore (B S : Type) := { st_call : ∀ {T}, Z → call B T → S → T * S }.

(** A store refines the abstract one while the clock stays in [[t0, t1)]. *)
Class StateStoreRefines (B S : Type) `{SessionWire B, StateStore B S} (t0 t1 : Z) := {
  st_repr : S → astore B → Prop;
  st_repr_call : ∀ {T} now (c : call B T) s A,
    (t0 ≤ now < t1)%Z → call_ok c → st_repr s A →
    (st_call now c s).1 = (aexec now c A).1 ∧
    st_repr (st_call now c s).2 (aexec now c A).2;
}.

(** The abstract store is an implementation of itself. *)
#[export] Instance astore_store {B} `{SessionWire B} : StateStore B (astore B) :=
  {| st_call _ now c A := aexec now c A |}.
#[export] Instance astore_refines {B} `{SessionWire B} t0 t1 : StateStoreRefines B (astore B) t0 t1.
Proof. refine {| st_repr s A := s = A |}. by intros T now c s A _ _ ->. Defined.

(** ** Sessions of calls *)

Abbreviation any_call B := { T : Type & call B T }.
Abbreviation any_answer := { T : Type & T }.

(** Calls in order, each with the clock. *)
Fixpoint st_calls {B S} `{StateStore B S} (cs : list (Z * any_call B)) (s : S)
  : list any_answer * S :=
  match cs with
  | [] => ([], s)
  | (now, existT T c) :: cs' =>
      let '(x, s1) := st_call now c s in
      let '(xs, s2) := st_calls cs' s1 in (existT T x :: xs, s2)
  end.

(** Calls that keep to the names and the window of a refinement. *)
Definition calls_in {B} (t0 t1 : Z) (cs : list (Z * any_call B)) : Prop :=
  Forall (λ p, (t0 ≤ p.1 < t1)%Z ∧ call_ok (projT2 p.2)) cs.

Lemma st_calls_repr {B S} `{SessionWire B, StateStore B S} {t0 t1}
    `{!StateStoreRefines B S t0 t1} cs (s : S) A :
  calls_in t0 t1 cs → st_repr (t0 := t0) (t1 := t1) s A →
  (st_calls cs s).1 = (st_calls cs A).1 ∧
  st_repr (t0 := t0) (t1 := t1) (st_calls cs s).2 (st_calls cs A).2.
Proof.
  intros Hcs. revert s A. induction Hcs as [|[now [T c]] cs [Hn Hc] _ IH]; intros s A Hr; [done|].
  simpl in *. destruct (st_repr_call now c s A Hn Hc Hr) as [E1 Hr1].
  destruct (st_call now c s) as [x s1]. destruct (aexec now c A) as [y A1]. simpl in *. subst y.
  destruct (IH s1 A1 Hr1) as [E2 Hr2].
  destruct (st_calls cs s1) as [xs s2]. destruct (st_calls cs A1) as [ys A2]. simpl in *. by subst.
Qed.
