(* ===== verification/SessionRedis.v ===== *)
(** * The session state in Redis: [internal/ports/session/redis_store.go]

    Every method on top of the Redis wrapper, and the proof that the store
    refines the abstract one of [StateStore.v] while no entry has expired:
    from a moment [t0] on, for the shorter of the session TTL and the ten
    minutes a transaction link lives. *)
From stdpp Require Import prelude gmap list strings.
From S2P Require Import Prelude GoStrings ApiError Redis SessionTypes StateStore.
Local Open Scope string_scope.

Section Keys.
Definition sessionKey (id : string) : string := "session:" ++ id.
Definition bppIndexKey (bppID : string) : string := "bpp_session:" ++ bppID.
Definition catalogKey (id : string) : string := "session:" ++ id ++ ":catalog".
Definition preorderKey (id : string) : string := "session:" ++ id ++ ":preorder".
Definition runKey (id : string) : string := "run:" ++ id.
Definition metricKey (runID action field : string) : string :=
  "run:" ++ runID ++ ":m:" ++ action ++ ":" ++ field.
Definition txnKey (txnID : string) : string := "txn:" ++ txnID.
Definition discoveryKey (txnID : string) : string := "discovery:" ++ txnID.
End Keys.

(** [NewRedisStore]: the TTL in ns. *)
Definition session_ttl (sessionTTLSeconds : Z) : Z :=
  wrap64 ((if sessionTTLSeconds <=? 0 then 3600 else sessionTTLSeconds) * 1000000000)%Z.

Definition txn_ttl : Z := (600 * 1000000000)%Z.   (* 10*time.Minute *)

Section RedisStore.
Context {B : Type} `{Bytes B} `{SessionWire B} {R : Type} `{!RedisServer B R}.
Variable ttl : Z.
Implicit Types (now : Z) (r : R).

(** [json.Marshal], then [Set]. *)
Definition set_json {T} `{Wire B T} now (key : string) (x : T) r : result error () * R :=
  match marshal x with
  | None => (Err encoding_error, r)
  | Some data => Client_Set now key data ttl r
  end.

(** [Get], then [json.Unmarshal]; [missing] is the answer for a key that is
    not there, [failed] the one for an error of the server. *)
Definition get_json {T} `{Wire B T} now (key : string) (missing : result error T)
  (failed : error → result error T) r : result error T * R :=
  match Client_Get now key r with
  | (Err e, r) => (failed e, r)
  | (Ok None, r) => (missing, r)
  | (Ok (Some data), r) =>
      (match unmarshal data with Some x => Ok x | None => Err (EText "json") end, r)
  end.

Definition RedisStore_CreateSession now (s : Session) r : result error () * R :=
  match marshal s with
  | None => (Err encoding_error, r)
  | Some data =>
      match Client_Set now (sessionKey (s_ID s)) data ttl r with
      | (Err e, r) => (Err e, r)
      | (Ok _, r) => Client_Set now (bppIndexKey (s_BPPID s)) (b_of_string (s_ID s)) ttl r
      end
  end.

Definition RedisStore_GetSession now (id : string) r : result error Session * R :=
  get_json now (sessionKey id) (Err (EText "session not found")) Err r.

Definition RedisStore_DeleteSession now (id : string) r : result error () * R :=
  match RedisStore_GetSession now id r with
  | (Err e, r) => (Err e, r)
  | (Ok sess, r) =>
      let r := (Client_Del now (bppIndexKey (s_BPPID sess)) r).2 in
      let r := (Client_Del now (sessionKey id) r).2 in
      let r := (Client_Del now (catalogKey id) r).2 in
      let r := (Client_Del now (preorderKey id) r).2 in
      (Ok (), r)
  end.

Definition RedisStore_GetSessionByBPP now (bppID : string) r : result error Session * R :=
  match Client_Get now (bppIndexKey bppID) r with
  | (Ok (Some data), r) => RedisStore_GetSession now (b_string data) r
  | (_, r) => (Err (EText "no session for bpp"), r)
  end.

Definition RedisStore_SetCatalogState now (id : string) (st : CatalogState) r :=
  set_json now (catalogKey id) st r.
Definition RedisStore_GetCatalogState now (id : string) r : result error CatalogState * R :=
  let none := Ok (mkCatalogState CatalogNone "" zero_time) in
  get_json now (catalogKey id) none (λ _, none) r.

Definition RedisStore_SetPreorderState now (id : string) (st : PreorderState) r :=
  set_json now (preorderKey id) st r.
Definition RedisStore_GetPreorderState now (id : string) r : result error PreorderState * R :=
  let idle := Ok (mkPreorderState PreorderIdle "") in
  get_json now (preorderKey id) idle (λ _, idle) r.

Definition RedisStore_CreateRun now (run : Run) r := set_json now (runKey (r_ID run)) run r.
Definition RedisStore_GetRun now (id : string) r : result error Run * R :=
  let missing := Err (EText "run not found") in
  get_json now (runKey id) missing (λ _, missing) r.

Definition RedisStore_UpdateRunStatus now (id status : string) r : result error () * R :=
  match RedisStore_GetRun now id r with
  | (Err e, r) => (Err e, r)
  | (Ok run, r) =>
      let run := set_run_status status run in
      let run := if finished status then set_run_completed now run else run in
      set_json now (runKey id) run r
  end.

Definition RedisStore_IncrMetric now (run action field : string) (delta : Z) r
  : result error () * R :=
  let k := metricKey run action field in
  match Client_IncrBy now k delta r with
  | (Err e, r) => (Err e, r)
  | (Ok _, r) => (Ok (), (Client_Expire now k ttl r).2)
  end.

(** One counter: 0 when it is missing; a text that is not a number counts as
    what [ParseInt] returns with its error. *)
Definition metric_get now (run action field : string) r : Z * R :=
  match Client_Get now (metricKey run action field) r with
  | (Ok (Some raw), r) => ((ParseInt (b_string raw)).1, r)
  | (_, r) => (0%Z, r)
  end.

Definition metrics_of_action now (run action : string) r : ActionMetrics * R :=
  let '(sent, r) := metric_get now run action "sent" r in
  let '(success, r) := metric_get now run action "success" r in
  let '(failure, r) := metric_get now run action "failure" r in
  let '(timeout, r) := metric_get now run action "timeout" r in
  (mkAction sent success failure timeout f64_zero f64_zero f64_zero f64_zero, r).

Definition RedisStore_GetMetrics now (run : string) r : RunMetrics * R :=
  let '(m1, r) := metrics_of_action now run "select" r in
  let '(m2, r) := metrics_of_action now run "on_select" r in
  let '(m3, r) := metrics_of_action now run "init" r in
  let '(m4, r) := metrics_of_action now run "on_init" r in
  let '(m5, r) := metrics_of_action now run "confirm" r in
  let '(m6, r) := metrics_of_action now run "on_confirm" r in
  (mkMetrics m1 m2 m3 m4 m5 m6, r).

Definition route_value (run session : string) (verification : bool) : string :=
  run ++ ":" ++ session ++ ":" ++ (if verification then "1" else "0").

Definition RedisStore_LinkTxn now (txn run session : string) (verification : bool) r
  : result error () * R :=
  Client_Set now (txnKey txn) (b_of_string (route_value run session verification)) txn_ttl r.

Definition parse_route (s : string) : result error (string * string * bool) :=
  match splitn 3 colon s with
  | [run; session; v] => Ok (run, session, v =? "1")
  | [run; session] => Ok (run, session, true)
  | _ => Err (EText "invalid txn route format")
  end.

Definition RedisStore_GetTxnRoute now (txn : string) r
  : result error (string * string * bool) * R :=
  match Client_Get now (txnKey txn) r with
  | (Ok (Some data), r) => (parse_route (b_string data), r)
  | (_, r) => (Err (EText "txn route not found"), r)
  end.

Definition RedisStore_SetDiscoveryPayload now (txn : string) (payload : B) r : result error () * R :=
  Client_Set now (discoveryKey txn) payload ttl r.
Definition RedisStore_GetDiscoveryPayload now (txn : string) r : result error (option B) * R :=
  Client_Get now (discoveryKey txn) r.

Definition redis_call {T} now (c : call B T) r : T * R :=
  match c in call _ T return T * R with
  | CreateSession s => RedisStore_CreateSession now s r
  | GetSession id => RedisStore_GetSession now id r
  | DeleteSession id => RedisStore_DeleteSession now id r
  | GetSessionByBPP bpp => RedisStore_GetSessionByBPP now bpp r
  | SetCatalogState id st => RedisStore_SetCatalogState now id st r
  | GetCatalogState id => RedisStore_GetCatalogState now id r
  | SetPreorderState id st => RedisStore_SetPreorderState now id st r
  | GetPreorderState id => RedisStore_GetPreorderState now id r
  | CreateRun run => RedisStore_CreateRun now run r
  | GetRun id => RedisStore_GetRun now id r
  | UpdateRunStatus id status => RedisStore_UpdateRunStatus now id status r
  | IncrMetric run action field delta => RedisStore_IncrMetric now run action field delta r
  | GetMetrics run => RedisStore_GetMetrics now run r
  | LinkTxn txn run session v => RedisStore_LinkTxn now txn run session v r
  | GetTxnRoute txn => RedisStore_GetTxnRoute now txn r
  | SetDiscoveryPayload txn p => RedisStore_SetDiscoveryPayload now txn p r
  | GetDiscoveryPayload txn => RedisStore_GetDiscoveryPayload now txn r
  end.
End RedisStore.

(** The server with the TTL the store was created with. *)
Record session_redis (R : Type) (ttl : Z) := mkSessionRedis { sr_state : R }.
Arguments mkSessionRedis {R} ttl.
Arguments sr_state {R ttl}.

#[export] Instance session_redis_store {B} `{Bytes B} `{SessionWire B} {R} `{!RedisServer B R} {ttl}
  : StateStore B (session_redis R ttl) :=
  {| st_call _ now c s :=
       let '(x, r) := redis_call ttl now c (sr_state s) in (x, mkSessionRedis ttl r) |}.

(** ** Keys *)

Definition store_key (k : akey) : string :=
  match k with
  | KSession id => sessionKey id
  | KBpp b => bppIndexKey b
  | KCatalog id => catalogKey id
  | KPreorder id => preorderKey id
  | KRun id => runKey id
  | KMetric r a f => metricKey r a f
  | KTxn t => txnKey t
  | KDiscovery t => discoveryKey t
  end.

Definition key_ok (k : akey) : Prop :=
  match k with
  | KSession id | KCatalog id | KPreorder id | KRun id => no_colon id
  | KMetric r a f => no_colon r ∧ no_colon a ∧ no_colon f
  | KBpp _ | KTxn _ | KDiscovery _ => True
  end.

(** The name space of a key and what follows its first colon. *)
Definition key_space (k : akey) : string :=
  match k with
  | KSession _ | KCatalog _ | KPreorder _ => "session"
  | KBpp _ => "bpp_session"
  | KRun _ | KMetric _ _ _ => "run"
  | KTxn _ => "txn"
  | KDiscovery _ => "discovery"
  end.
Definition key_rest (k : akey) : string :=
  match k with
  | KSession id | KRun id => id
  | KBpp b => b
  | KCatalog id => id ++ String colon "catalog"
  | KPreorder id => id ++ String colon "preorder"
  | KMetric r a f => r ++ String colon ("m" ++ String colon (a ++ String colon f))
  | KTxn t | KDiscovery t => t
  end.

Lemma store_key_split k : store_key k = key_space k ++ String colon (key_rest k).
Proof. destruct k; reflexivity. Qed.

Lemma store_key_inj k k' : key_ok k → key_ok k' → store_key k = store_key k' → k = k'.
Proof.
  intros Hk Hk' E. rewrite !store_key_split in E.
  apply sep_inj in E as [Es Er]; [|by destruct k|by destruct k'].
  destruct k, k'; simpl in *; try done; try congruence; split_hyps;
    try (by exfalso; eapply no_colon_sep; [|eassumption || (symmetry; eassumption)]; done);
    try (by exfalso; eapply no_colon_sep; [|symmetry; eassumption]; done).
  all: try (apply sep_inj in Er as [-> Er]; [|done|done]); try done.
  apply (app_inv_head_str "m" (String colon _) (String colon _)) in Er. simplify_eq.
  match goal with H : _ ++ String colon _ = _ ++ String colon _ |- _ =>
    apply sep_inj in H as [-> ->]; done end.
Qed.

(** ** The refinement *)
Section Refine.
Context {B : Type} `{Bytes B} `{SessionWire B} {R : Type} `{!RedisServer B R}.
Variables (ttl t0 t1 : Z).
Implicit Types (r : R) (A : astore B).

(** The bytes stored for a value. *)
Definition encodes (k : akey) : B → aval B k → Prop :=
  match k return B → aval B k → Prop with
  | KSession id => λ b s, unmarshal b = Some s
  | KBpp _ => λ b id, b_string b = id ∧ no_colon id
  | KCatalog _ => λ b st, unmarshal b = Some st
  | KPreorder _ => λ b st, unmarshal b = Some st
  | KRun id => λ b run, unmarshal b = Some run
  | KMetric _ _ _ => λ b z, b_string b = FormatInt z ∧ in_int64 z
  | KTxn _ => λ b v, b_string b = route_value v.1.1 v.1.2 v.2 ∧ no_colon v.1.1 ∧ no_colon v.1.2
  | KDiscovery _ => λ b p, b = p
  end.

(** An entry that is there lives beyond [t1]. *)
Definition lasts (e : option Z) : Prop := match e with Some t => (t1 ≤ t)%Z | None => True end.
Definition cell (k : akey) (v : option (aval B k)) (e : option (entry B)) : Prop :=
  match v, e with
  | None, None => True
  | Some x, Some (VStr b, t) => lasts t ∧ encodes k b x
  | _, _ => False
  end.

Definition repr r A : Prop := ∀ k, key_ok k → cell k (A k) (r_lookup r (store_key k)).

Lemma entry_live k v e now : (now < t1)%Z → cell k v e → live now e = e.
Proof.
  intros Hn Hc. destruct v as [x|], e as [[[b|h] [t|]]|]; simpl in *; try done.
  destruct Hc as [Ht _]. unfold is_live. simpl in *. by rewrite (proj2 (Z.ltb_lt now t)) by lia.
Qed.

(** A command on the key of [k]. *)
Lemma repr_exec r A now c k v :
  key_ok k → repr r A → (now < t1)%Z →
  cell k v (cmd_spec now c (r_lookup r (store_key k))).2 →
  repr (r_exec now (store_key k) c r).2 (aset k v A) ∧
  (r_exec now (store_key k) c r).1 = (cmd_spec now c (r_lookup r (store_key k))).1.
Proof.
  intros Hk Hr Hn Hc. assert (live now (r_lookup r (store_key k)) = r_lookup r (store_key k)) as Hl
    by (eapply entry_live; [done|by apply Hr]).
  split; [|by rewrite r_exec_reply, Hl].
  intros k' Hk'. rewrite r_exec_lookup, Hl. destruct (decide (k' = k)) as [->|Hne].
  - by rewrite decide_True, aset_eq.
  - rewrite decide_False, aset_ne by congruence || (intros E; apply Hne; by apply store_key_inj).
    by apply Hr.
Qed.

Lemma aset_same k A r : repr r (aset k (A k) A) → repr r A.
Proof.
  intros Hr k' Hk'. specialize (Hr k' Hk'). destruct (decide (k = k')) as [->|].
  - by rewrite aset_eq in Hr.
  - by rewrite aset_ne in Hr.
Qed.

(** Reading a key. *)
Lemma get_repr r A now k :
  key_ok k → repr r A → (now < t1)%Z →
  ∃ o r', Client_Get now (store_key k) r = (Ok o, r') ∧ repr r' A ∧
    match A k, o with
    | Some x, Some b => encodes k b x
    | None, None => True
    | _, _ => False
    end.
Proof.
  intros Hk Hr Hn. pose proof (Hr k Hk) as Hc. unfold Client_Get.
  destruct (repr_exec r A now CGet k (A k) Hk Hr Hn) as [Hr' Hrep].
  { by destruct (r_lookup r (store_key k)) as [[[b|h] t]|]. }
  destruct (r_exec now (store_key k) CGet r) as [p r'] eqn:E. simpl in *. subst p.
  apply aset_same in Hr'.
  destruct (A k) as [x|] eqn:EA, (r_lookup r (store_key k)) as [[[b|h] [t|]]|]; simpl in *; try done.
  1, 2: exists (Some b), r'; split_and!; [done..|]; apply Hc.
  exists None, r'. done.
Qed.

(** Writing one. *)
Lemma set_repr r A now k b x ex :
  key_ok k → repr r A → (now < t1)%Z → (ex ≠ 0)%Z → (t1 ≤ now + ex)%Z → encodes k b x →
  ∃ r', Client_Set now (store_key k) b ex r = (Ok (), r') ∧ repr r' (aset k (Some x) A).
Proof.
  intros Hk Hr Hn He Ht Hx. unfold Client_Set.
  destruct (repr_exec r A now (CSet b ex) k (Some x) Hk Hr Hn) as [Hr' Hrep].
  { simpl. unfold expiry. rewrite (proj2 (Z.eqb_neq ex 0) He). done. }
  destruct (r_exec _ _ _ r) as [p r'] eqn:E. simpl in *. subst p. by exists r'.
Qed.

Lemma del_repr r A now k :
  key_ok k → repr r A → (now < t1)%Z →
  repr (Client_Del now (store_key k) r).2 (aset k None A).
Proof.
  intros Hk Hr Hn. unfold Client_Del.
  destruct (repr_exec r A now CDel k None Hk Hr Hn) as [Hr' _].
  { simpl. by destruct (r_lookup r (store_key k)). }
  by destruct (r_exec _ _ _ r).
Qed.

Hypothesis Hwin : (0 < t1 - t0 ≤ Z.min ttl txn_ttl)%Z.

Section At.
Variable now : Z.
Hypothesis Hnow : (t0 ≤ now < t1)%Z.

Definition sim {T} (p : T * R) (q : T * astore B) : Prop := p.1 = q.1 ∧ repr p.2 q.2.

Lemma now_lt : (now < t1)%Z. Proof. lia. Qed.
Lemma ttl_ok : (ttl ≠ 0)%Z ∧ (t1 ≤ now + ttl)%Z. Proof. lia. Qed.
Lemma txn_ttl_ok : (txn_ttl ≠ 0)%Z ∧ (t1 ≤ now + txn_ttl)%Z. Proof. lia. Qed.

(** The two shapes most methods have. *)
Lemma set_json_sim {T} `{Wire B T} k (x : T) (v : aval B k) r A :
  key_ok k → repr r A → (∀ b, marshal x = Some b → encodes k b v) →
  sim (set_json ttl now (store_key k) x r) (aput x (aset k (Some v)) A).
Proof.
  intros Hk Hr He. unfold set_json, aput. destruct (marshal x) as [b|]; [|by split].
  destruct ttl_ok. destruct (set_repr r A now k b v ttl) as (r' & -> & Hr');
    [done|done|apply now_lt|done|done|by apply He|]. by split.
Qed.

Lemma get_json_sim {T} `{Wire B T} k (missing : result error T) failed r A (f : aval B k → T) :
  key_ok k → repr r A → (∀ b x, encodes k b x → unmarshal b = Some (f x)) →
  sim (get_json now (store_key k) missing failed r)
    (match A k with Some x => Ok (f x) | None => missing end, A).
Proof.
  intros Hk Hr Hf. unfold get_json.
  destruct (get_repr r A now k) as (o & r' & -> & Hr' & Ho); [done|done|apply now_lt|].
  destruct (A k) as [x|], o as [b|]; try done. by rewrite (Hf b x Ho).
Qed.

Lemma create_session_sim s r A :
  no_colon (s_ID s) → repr r A →
  sim (RedisStore_CreateSession ttl now s r) (aexec now (CreateSession s) A).
Proof.
  intros Hid Hr. unfold RedisStore_CreateSession. simpl. unfold aput.
  destruct (marshal s) as [b|] eqn:E; [|by split]. destruct ttl_ok.
  destruct (set_repr r A now (KSession (s_ID s)) b s ttl) as (r1 & E1 & Hr1);
    [done|done|apply now_lt|done|done|by apply unmarshal_marshal|].
  simpl in E1. rewrite E1.
  destruct (set_repr r1 (aset (KSession (s_ID s)) (Some s) A) now (KBpp (s_BPPID s)) (b_of_string (s_ID s)) (s_ID s) ttl)
    as (r2 & E2 & Hr2); [done|done|apply now_lt|done|done|split; [apply b_string_of|done]|].
  simpl in E2. rewrite E2. by split.
Qed.

Lemma get_session_sim id r A :
  no_colon id → repr r A → sim (RedisStore_GetSession now id r) (aexec now (GetSession id) A).
Proof.
  intros Hid Hr. simpl.
  destruct (get_json_sim (KSession id) (Err (EText "session not found")) Err r A (λ x, x))
    as [E1 E2]; [done|done|done|]. split; [|done]. unfold RedisStore_GetSession. simpl in E1.
  rewrite E1. by destruct (A (KSession id)).
Qed.

Lemma delete_session_sim id r A :
  no_colon id → repr r A → sim (RedisStore_DeleteSession now id r) (aexec now (DeleteSession id) A).
Proof.
  intros Hid Hr. unfold RedisStore_DeleteSession.
  destruct (get_session_sim id r A Hid Hr) as [E1 Hr1]. simpl in *.
  destruct (RedisStore_GetSession now id r) as [res r1]. simpl in *. subst res.
  destruct (A (KSession id)) as [s|]; simpl; [|by split].
  split; [done|]. pose proof now_lt.
  apply (del_repr _ _ now (KPreorder id)); [done| |done].
  apply (del_repr _ _ now (KCatalog id)); [done| |done].
  apply (del_repr _ _ now (KSession id)); [done| |done].
  by apply (del_repr _ _ now (KBpp (s_BPPID s))).
Qed.

Lemma get_bpp_sim bpp r A :
  repr r A → sim (RedisStore_GetSessionByBPP now bpp r) (aexec now (GetSessionByBPP bpp) A).
Proof.
  intros Hr. unfold RedisStore_GetSessionByBPP.
  destruct (get_repr r A now (KBpp bpp)) as (o & r' & E & Hr' & Ho); [done|done|apply now_lt|].
  simpl in E. rewrite E. simpl. destruct (A (KBpp bpp)) as [id|], o as [b|]; try done.
  simpl in Ho. destruct Ho as [<- Hid]. by apply (get_session_sim (b_string b)).
Qed.

Lemma update_run_sim id status r A :
  no_colon id → repr r A →
  sim (RedisStore_UpdateRunStatus ttl now id status r) (aexec now (UpdateRunStatus id status) A).
Proof.
  intros Hid Hr. unfold RedisStore_UpdateRunStatus, RedisStore_GetRun.
  destruct (get_json_sim (KRun id) (Err (EText "run not found"))
    (λ _, Err (EText "run not found")) r A (λ x, x)) as [E1 Hr1]; [done|done|done|]. simpl in *.
  destruct (get_json now (runKey id) _ _ r) as [res r1]. simpl in *. subst res.
  destruct (A (KRun id)) as [run|]; [|by split].
  apply (set_json_sim (KRun id) _ (if finished status
    then set_run_completed now (set_run_status status run) else set_run_status status run));
    [done|done|]. intros b. apply unmarshal_marshal.
Qed.

Lemma incr_metric_sim run action field delta r A :
  no_colon run → no_colon action → no_colon field → in_int64 delta → repr r A →
  sim (RedisStore_IncrMetric ttl now run action field delta r)
    (aexec now (IncrMetric run action field delta) A).
Proof.
  intros H1 H2 H3 Hd Hr. unfold RedisStore_IncrMetric, Client_IncrBy. simpl.
  set (k := KMetric run action field). assert (key_ok k) as Hk by done. pose proof (Hr k Hk) as Hc.
  change (metricKey run action field) with (store_key k).
  set (v := (default 0 (A k) + delta)%Z). destruct ttl_ok as [_ Ht].
  assert (cmd_spec now (CIncrBy delta) (r_lookup r (store_key k)) =
    if bool_decide (in_int64 v)
    then (ReplyInt v, Some (VStr (b_of_string (FormatInt v)),
            match r_lookup r (store_key k) with Some (_, t) => t | None => None end))
    else (not_an_integer, r_lookup r (store_key k))) as Hspec.
  { unfold v. destruct (A k) as [z|] eqn:Ez, (r_lookup r (store_key k)) as [[[b|h] t]|];
      simpl in *; try done.
    - destruct Hc as (_ & -> & Hz). rewrite ParseInt_FormatInt by done. simpl.
      unfold in_int64. rewrite andb_comm, andb_comm.
      case_bool_decide; destruct (Z.leb_spec (- 2 ^ 63) (z + delta)),
        (Z.ltb_spec (z + delta) (2 ^ 63)); simpl; try done; lia.
    - by rewrite bool_decide_true. }
  assert (lasts (match r_lookup r (store_key k) with Some (_, t) => t | None => None end)) as Hlast
    by (destruct (A k), (r_lookup r (store_key k)) as [[[b|h] t]|]; simpl in Hc |- *; tauto).
  case_bool_decide as Hv.
  - destruct (repr_exec r A now (CIncrBy delta) k (Some v) Hk Hr now_lt) as [Hr1 Hrep].
    { rewrite Hspec. split; [exact Hlast|]. split; [apply b_string_of|done]. }
    rewrite Hspec in Hrep. destruct (r_exec now (store_key k) (CIncrBy delta) r) as [p r1].
    simpl in *. subst p. split; [done|]. simpl. rewrite Client_Expire_state.
    destruct (repr_exec r1 _ now (CExpire ttl) k (Some v) Hk Hr1 now_lt) as [Hr2 _].
    { pose proof (Hr1 k Hk) as Hc1. rewrite aset_eq in Hc1.
      destruct (r_lookup r1 (store_key k)) as [[[b|h] t]|]; simpl in *; try done.
      split; [done|]. apply Hc1. }
    intros k' Hk'. specialize (Hr2 k' Hk'). destruct (decide (k = k')) as [<-|].
    + by rewrite !aset_eq in *.
    + by rewrite !aset_ne in * by done.
  - destruct (repr_exec r A now (CIncrBy delta) k (A k) Hk Hr now_lt) as [Hr1 Hrep].
    { by rewrite Hspec. }
    rewrite Hspec in Hrep. destruct (r_exec now (store_key k) (CIncrBy delta) r) as [p r1].
    simpl in *. subst p. split; [done|]. by apply aset_same in Hr1.
Qed.

Lemma metric_get_sim run action field r A :
  no_colon run → no_colon action → no_colon field → repr r A →
  ∃ r', metric_get now run action field r = (metric run action A field, r') ∧ repr r' A.
Proof.
  intros H1 H2 H3 Hr. unfold metric_get, metric.
  destruct (get_repr r A now (KMetric run action field)) as (o & r' & E & Hr' & Ho);
    [done|done|apply now_lt|].
  simpl in E. rewrite E. exists r'. destruct (A (KMetric run action field)) as [z|], o as [b|];
    try done. simpl in Ho. destruct Ho as [-> Hz]. by rewrite ParseInt_FormatInt.
Qed.

Lemma metrics_of_action_sim run action r A :
  no_colon run → no_colon action → repr r A →
  ∃ r', metrics_of_action now run action r = (action_metrics run action A, r') ∧ repr r' A.
Proof.
  intros H1 H2 Hr. unfold metrics_of_action, action_metrics.
  destruct (metric_get_sim run action "sent" r A) as (r1 & -> & Hr1); [done..|].
  destruct (metric_get_sim run action "success" r1 A) as (r2 & -> & Hr2); [done..|].
  destruct (metric_get_sim run action "failure" r2 A) as (r3 & -> & Hr3); [done..|].
  destruct (metric_get_sim run action "timeout" r3 A) as (r4 & -> & Hr4); [done..|].
  by exists r4.
Qed.

Lemma get_metrics_sim run r A :
  no_colon run → repr r A → sim (RedisStore_GetMetrics now run r) (aexec now (GetMetrics run) A).
Proof.
  intros H1 Hr. unfold RedisStore_GetMetrics. simpl. unfold run_metrics.
  destruct (metrics_of_action_sim run "select" r A) as (r1 & -> & Hr1); [done..|].
  destruct (metrics_of_action_sim run "on_select" r1 A) as (r2 & -> & Hr2); [done..|].
  destruct (metrics_of_action_sim run "init" r2 A) as (r3 & -> & Hr3); [done..|].
  destruct (metrics_of_action_sim run "on_init" r3 A) as (r4 & -> & Hr4); [done..|].
  destruct (metrics_of_action_sim run "confirm" r4 A) as (r5 & -> & Hr5); [done..|].
  destruct (metrics_of_action_sim run "on_confirm" r5 A) as (r6 & -> & Hr6); [done..|].
  by split.
Qed.

Lemma route_sim txn r A :
  repr r A → sim (RedisStore_GetTxnRoute now txn r) (aexec now (GetTxnRoute txn) A).
Proof.
  intros Hr. unfold RedisStore_GetTxnRoute.
  destruct (get_repr r A now (KTxn txn)) as (o & r' & E & Hr' & Ho); [done|done|apply now_lt|].
  simpl in E. rewrite E. simpl. destruct (A (KTxn txn)) as [[[run sess] v]|], o as [b|]; try done.
  simpl in Ho. destruct Ho as (-> & Hrun & Hsess). split; [|done]. simpl.
  unfold parse_route, route_value.
  change (run ++ ":" ++ sess ++ ":" ++ ?x) with (run ++ String colon (sess ++ String colon x)).
  rewrite splitn_three by done. by destruct v.
Qed.

Lemma redis_call_sim {T} (c : call B T) r A :
  call_ok c → repr r A → sim (redis_call ttl now c r) (aexec now c A).
Proof.
  intros Hc Hr. destruct c; simpl in Hc.
  - by apply create_session_sim.
  - by apply get_session_sim.
  - by apply delete_session_sim.
  - by apply get_bpp_sim.
  - apply (set_json_sim (KCatalog id) st st); [done|done|]. intros b. apply unmarshal_marshal.
  - destruct (get_json_sim (KCatalog id) (Ok (mkCatalogState CatalogNone "" zero_time))
      (λ _, Ok (mkCatalogState CatalogNone "" zero_time)) r A (λ x, x)) as [E Hr']; [done..|].
    split; [|done]. simpl in *. unfold RedisStore_GetCatalogState. rewrite E.
    by destruct (A (KCatalog id)).
  - apply (set_json_sim (KPreorder id) st st); [done|done|]. intros b. apply unmarshal_marshal.
  - destruct (get_json_sim (KPreorder id) (Ok (mkPreorderState PreorderIdle ""))
      (λ _, Ok (mkPreorderState PreorderIdle "")) r A (λ x, x)) as [E Hr']; [done..|].
    split; [|done]. simpl in *. unfold RedisStore_GetPreorderState. rewrite E.
    by destruct (A (KPreorder id)).
  - apply (set_json_sim (KRun (r_ID r0)) r0 r0); [done|done|]. intros b. apply unmarshal_marshal.
  - destruct (get_json_sim (KRun id) (Err (EText "run not found"))
      (λ _, Err (EText "run not found")) r A (λ x, x)) as [E Hr']; [done..|].
    split; [|done]. simpl in *. unfold RedisStore_GetRun. rewrite E. by destruct (A (KRun id)).
  - by apply update_run_sim.
  - destruct Hc as (? & ? & ? & ?). by apply incr_metric_sim.
  - by apply get_metrics_sim.
  - destruct txn_ttl_ok, Hc.
    destruct (set_repr r A now (KTxn txn) (b_of_string (route_value run session verification))
      (run, session, verification) txn_ttl) as (r' & E & Hr'); [done|done|apply now_lt|done|done| |].
    { split; [apply b_string_of|done]. }
    simpl in *. unfold RedisStore_LinkTxn. rewrite E. by split.
  - by apply route_sim.
  - destruct ttl_ok.
    destruct (set_repr r A now (KDiscovery txn) payload payload ttl) as (r' & E & Hr');
      [done|done|apply now_lt|done|done|done|].
    simpl in *. unfold RedisStore_SetDiscoveryPayload. rewrite E. by split.
  - destruct (get_repr r A now (KDiscovery txn)) as (o & r' & E & Hr' & Ho);
      [done|done|apply now_lt|].
    simpl in *. unfold RedisStore_GetDiscoveryPayload. rewrite E. split; [|done]. simpl.
    destruct (A (KDiscovery txn)), o; simpl in *; try done. by subst.
Qed.
End At.

Lemma repr_empty : repr r_empty astore_empty.
Proof. intros k _. by rewrite r_lookup_empty. Qed.
End Refine.

Lemma session_redis_refines {B} `{Bytes B} `{SessionWire B} {R} `{!RedisServer B R} ttl t0 t1 :
  (0 < t1 - t0 ≤ Z.min ttl txn_ttl)%Z → StateStoreRefines B (session_redis R ttl) t0 t1.
Proof.
  intros Hw. refine {| st_repr s A := repr t1 (sr_state s) A |}.
  intros T now c [r] A Hn Hc Hr. simpl in *.
  destruct (redis_call_sim ttl t0 t1 Hw now Hn c r A Hc Hr) as [E Hr'].
  by destruct (redis_call ttl now c r).
Defined.

(** ** Theorems *)

(** C10: The Redis session store is a refinement of the abstract store: from
    its creation on, as long as no entry has had the time to expire, every
    sequence of calls, on any server that behaves as documented, is answered
    as a map from typed keys would: sessions by id and by BPP, catalog and
    preorder states, runs, counters, transaction routes and payloads do not
    interfere, and a deleted session leaves nothing behind. *)
Theorem session_store_refines {B} `{Bytes B} `{SessionWire B} {R} `{!RedisServer B R} ttl t0 t1
    (cs : list (Z * any_call B)) :
  (0 < t1 - t0 ≤ Z.min ttl txn_ttl)%Z → calls_in t0 t1 cs →
  (st_calls cs (mkSessionRedis (R := R) ttl r_empty)).1 = (st_calls cs astore_empty).1.
Proof.
  intros Hw Hcs.
  pose proof (st_calls_repr (StateStoreRefines0 := session_redis_refines (R := R) ttl t0 t1 Hw) cs
    (mkSessionRedis ttl r_empty) astore_empty Hcs) as Hp.
  by apply Hp, repr_empty.
Qed.

(** Bytes for the witnesses: texts and encoded values side by side. *)
Inductive demo_bytes :=
  | DText (s : string) | DSession (s : Session) | DCatalog (c : CatalogState)
  | DPreorder (p : PreorderState) | DRun (r : Run).

#[export] Instance demo_bytes_text : Bytes demo_bytes.
Proof.
  refine {| b_of_string := DText; b_string b := match b with DText s => s | _ => "" end |}.
  done.
Defined.
#[export] Instance demo_wire : SessionWire demo_bytes.
Proof.
  split.
  - refine {| marshal s := Some (DSession s);
              unmarshal b := match b with DSession s => Some s | _ => None end |}. by intros ? ? [= <-].
  - refine {| marshal s := Some (DCatalog s);
              unmarshal b := match b with DCatalog s => Some s | _ => None end |}. by intros ? ? [= <-].
  - refine {| marshal s := Some (DPreorder s);
              unmarshal b := match b with DPreorder s => Some s | _ => None end |}. by intros ? ? [= <-].
  - refine {| marshal s := Some (DRun s);
              unmarshal b := match b with DRun s => Some s | _ => None end |}. by intros ? ? [= <-].
Defined.

Definition demo_session1 : Session :=
  mkSession "s1" "bpp" "http://bpp" SessionActive 0 3600 "1.2.0" "ONDC:RET10" false true.
Definition demo_session2 : Session :=
  mkSession "s2" "bpp" "http://bpp" SessionActive 5 3605 "1.2.5" "ONDC:RET11" false true.

(** A session is created, deleted through its BPP and replaced. *)
Definition demo_calls : list (Z * any_call demo_bytes) :=
  [(0%Z, existT _ (CreateSession demo_session1));
   (1%Z, existT _ (SetPreorderState "s1" (mkPreorderState PreorderRunning "r1")));
   (2%Z, existT _ (DeleteSession "s1"));
   (3%Z, existT _ (CreateSession demo_session2));
   (4%Z, existT _ (GetPreorderState "s1"));
   (5%Z, existT _ (GetSessionByBPP "bpp"))].

Definition answer {T : Type} (x : T) : any_answer := existT T x.
Definition done_ok : any_answer := answer (T := result error ()) (Ok ()).

#[local] Transparent gmap_empty.

Lemma session_store_refines_witness :
  calls_in 0 600 demo_calls ∧
  (st_calls demo_calls (mkSessionRedis (R := redis_map demo_bytes) 3600 r_empty)).1 =
    [done_ok; done_ok; done_ok; done_ok;
     answer (T := result error PreorderState) (Ok (mkPreorderState PreorderIdle ""));
     answer (T := result error Session) (Ok demo_session2)].
Proof.
  assert (calls_in 0 600 demo_calls) as Hok by (repeat constructor; done).
  split; [exact Hok|].
  etransitivity; [apply (session_store_refines (R := redis_map demo_bytes) 3600 0 600);
    [unfold txn_ttl; lia|exact Hok]|].
  reflexivity.
Defined.

(** A transaction linked to a run is routed back to that run and session
    with its verification flag for exactly ten minutes, and not at all
    afterwards; a route stored in the older two-part format is read as
    verified. *)
Theorem txn_route_lifetime {B} `{Bytes B} {R} `{!RedisServer B R} now now' txn run session v (s : R) :
  no_colon run → no_colon session →
  let s' := (RedisStore_LinkTxn now txn run session v s).2 in
  (RedisStore_GetTxnRoute now' txn s').1 =
    (if (now' <? now + txn_ttl)%Z then Ok (run, session, v)
     else Err (EText "txn route not found")) ∧
  parse_route (run ++ ":" ++ session) = Ok (run, session, true).
Proof.
  intros Hrun Hsess. simpl. split.
  - unfold RedisStore_GetTxnRoute, Client_Get, RedisStore_LinkTxn.
    rewrite Client_Set_state.
    set (s' := (r_exec now (txnKey txn) _ s).2).
    pose proof (r_exec_reply now' (txnKey txn) CGet s') as Hrep.
    unfold s' in Hrep at 2. rewrite r_exec_lookup, decide_True in Hrep by done. simpl in Hrep.
    unfold expiry in Hrep. simpl in Hrep. unfold is_live in Hrep. simpl in Hrep.
    destruct (r_exec now' (txnKey txn) CGet s') as [p s'']. simpl in Hrep.
    destruct (now' <? now + txn_ttl)%Z; simpl in Hrep; subst p; [|done].
    rewrite b_string_of. unfold parse_route, route_value.
    change (run ++ ":" ++ session ++ ":" ++ ?x)
      with (run ++ String colon (session ++ String colon x)).
    rewrite splitn_three by done. by destruct v.
  - unfold parse_route. change (run ++ ":" ++ session) with (run ++ String colon session).
    rewrite (splitn_cons colon 1), (splitn_none colon 1) by done. done.
Qed.

Lemma txn_route_lifetime_witness :
  (RedisStore_GetTxnRoute 599 "t1"
     (RedisStore_LinkTxn 0 "t1" "r1" "s1" true (∅ : redis_map string)).2).1 = Ok ("r1", "s1", true) ∧
  parse_route ("r1" ++ ":" ++ "s1") = Ok ("r1", "s1", true).
Proof.
  apply (txn_route_lifetime (R := redis_map string) 0 599 "t1" "r1" "s1" true ∅); reflexivity.
Defined.

(** ** Counters *)
Section Counters.
Context {B : Type} `{SessionWire B}.

(** An increment: run, action, field and delta. *)
Record incr := mkIncr { i_run : string; i_action : string; i_field : string; i_delta : Z }.

Definition incr_call (p : Z * incr) : Z * any_call B :=
  (p.1, existT _ (IncrMetric (i_run p.2) (i_action p.2) (i_field p.2) (i_delta p.2))).

Definition incr_ok (p : Z * incr) : Prop :=
  no_colon (i_run p.2) ∧ no_colon (i_action p.2) ∧ no_colon (i_field p.2) ∧ (0 ≤ i_delta p.2)%Z.

(** The sum of the deltas of one counter, and of all. *)
Fixpoint total (run action field : string) (incs : list (Z * incr)) : Z :=
  match incs with
  | [] => 0
  | (_, i) :: incs' =>
      (if (i_run i =? run) && (i_action i =? action) && (i_field i =? field) then i_delta i else 0)
        + total run action field incs'
  end.
Fixpoint grand_total (incs : list (Z * incr)) : Z :=
  match incs with [] => 0 | (_, i) :: incs' => i_delta i + grand_total incs' end.

Definition total_metrics (run : string) (incs : list (Z * incr)) : RunMetrics :=
  let act a := mkAction (total run a "sent" incs) (total run a "success" incs)
                 (total run a "failure" incs) (total run a "timeout" incs)
                 f64_zero f64_zero f64_zero f64_zero in
  mkMetrics (act "select") (act "on_select") (act "init") (act "on_init") (act "confirm")
    (act "on_confirm").

Lemma grand_total_nonneg incs : Forall incr_ok incs → (0 ≤ grand_total incs)%Z.
Proof. induction 1 as [|[n i] l (_ & _ & _ & Hi) _ IH]; simpl in *; lia. Qed.

Lemma metric_totals incs (A : astore B) :
  Forall incr_ok incs →
  (∀ r a f, 0 ≤ metric r a A f)%Z → (∀ r a f, metric r a A f + grand_total incs < 2 ^ 63)%Z →
  ∀ r a f, metric r a (st_calls (incr_call <$> incs) A).2 f = (metric r a A f + total r a f incs)%Z.
Proof.
  intros Hok. revert A. induction Hok as [|[n i] incs Hi Hok IH]; intros A H0 Hlt r a f.
  { simpl. lia. }
  pose proof (grand_total_nonneg _ Hok) as Hg. destruct Hi as (_ & _ & _ & Hd).
  destruct i as [ri ai fi d]. cbn in Hd, Hlt. cbn [fmap list_fmap incr_call st_calls].
  unfold st_call. cbn [astore_store aexec fst snd i_run i_action i_field i_delta].
  set (k := KMetric ri ai fi). pose proof (H0 ri ai fi) as Hk0. pose proof (Hlt ri ai fi) as Hk1.
  unfold metric in Hk0, Hk1. fold k in Hk0, Hk1.
  rewrite bool_decide_true by (unfold in_int64; lia).
  set (A1 := aset k (Some (default 0 (A k) + d)%Z) A).
  assert (∀ r a f, metric r a A1 f =
    (metric r a A f + (if String.eqb ri r && String.eqb ai a && String.eqb fi f then d else 0))%Z)
    as HA1.
  { intros r' a' f'. unfold metric, A1.
    destruct (String.eqb_spec ri r') as [->|]; [destruct (String.eqb_spec ai a') as [->|];
      [destruct (String.eqb_spec fi f') as [->|]|]|]; simpl.
    - unfold k. by rewrite aset_eq.
    - rewrite aset_ne by (unfold k; congruence). lia.
    - rewrite aset_ne by (unfold k; congruence). lia.
    - rewrite aset_ne by (unfold k; congruence). lia. }
  destruct (st_calls (incr_call <$> incs) A1) as [xs A2] eqn:E. simpl.
  replace A2 with (st_calls (incr_call <$> incs) A1).2 by (by rewrite E).
  rewrite IH, HA1.
  - lia.
  - intros r' a' f'. rewrite HA1. specialize (H0 r' a' f'). case_match; lia.
  - intros r' a' f'. rewrite HA1. specialize (Hlt r' a' f'). case_match; lia.
Qed.
End Counters.

(** No increment is lost or misplaced: after any sequence of increments
    by any number of runs, the metrics of a run read from Redis are, for each
    action and field, the sum of that run's increments of that counter. *)
Theorem metrics_exact {B} `{Bytes B} `{SessionWire B} {R} `{!RedisServer B R} ttl t0 t1
    (incs : list (Z * incr)) now run :
  (0 < t1 - t0 ≤ Z.min ttl txn_ttl)%Z → no_colon run → (t0 ≤ now < t1)%Z →
  Forall (λ p, (t0 ≤ p.1 < t1)%Z ∧ incr_ok p) incs → (grand_total incs < 2 ^ 63)%Z →
  (RedisStore_GetMetrics now run
     (sr_state (st_calls (incr_call (B := B) <$> incs) (mkSessionRedis (R := R) ttl r_empty)).2)).1
    = total_metrics run incs.
Proof.
  intros Hw Hrun Hnow Hincs Hsum.
  assert (Forall incr_ok incs) as Hok by (eapply Forall_impl; [done|]; by intros ? []).
  assert (∀ l, Forall incr_ok l → Forall (λ p, i_delta p.2 ≤ grand_total l)%Z l) as Hle.
  { induction 1 as [|[n i] l (_ & _ & _ & Hi) Hl IHl]; constructor; simpl in *.
    - pose proof (grand_total_nonneg l Hl). lia.
    - eapply Forall_impl; [done|]. simpl. lia. }
  assert (calls_in t0 t1 (incr_call (B := B) <$> incs)) as Hcs.
  { apply Forall_fmap, Forall_forall. intros p Hp. rewrite Forall_forall in Hincs.
    destruct (Hincs p Hp) as (? & ? & ? & ? & ?). pose proof (Hle _ Hok) as Hd.
    rewrite Forall_forall in Hd. specialize (Hd p Hp). simpl in *.
    split; [done|]. split_and!; try done; unfold in_int64; lia. }
  destruct (st_calls_repr (StateStoreRefines0 := session_redis_refines (R := R) ttl t0 t1 Hw) _
    (mkSessionRedis ttl r_empty) astore_empty Hcs (repr_empty t1)) as [_ Hr].
  destruct (get_metrics_sim ttl t0 t1 now Hnow run _ _ Hrun Hr) as [-> _]. simpl.
  unfold run_metrics, total_metrics, action_metrics.
  by rewrite !metric_totals by (done || (intros; unfold metric; simpl; lia)).
Qed.

Definition demo_incrs : list (Z * incr) :=
  [(0%Z, mkIncr "r1" "select" "sent" 2); (1%Z, mkIncr "r2" "select" "sent" 5);
   (2%Z, mkIncr "r1" "select" "sent" 3); (3%Z, mkIncr "r1" "on_select" "success" 1)].

Lemma metrics_exact_witness :
  am_Sent (rm_Select (RedisStore_GetMetrics 9 "r1" (sr_state (st_calls
    (incr_call (B := demo_bytes) <$> demo_incrs)
    (mkSessionRedis (R := redis_map demo_bytes) 3600 r_empty)).2)).1) = 5%Z.
Proof.
  etransitivity; [apply (f_equal (λ m, am_Sent (rm_Select m)));
    apply (metrics_exact (R := redis_map demo_bytes) 3600 0 600 demo_incrs 9 "r1")|reflexivity].
  - unfold txn_ttl. lia.
  - reflexivity.
  - lia.
  - repeat constructor; done || lia.
  - vm_compute. reflexivity.
Defined.
