(* ===== verification/Mongo.v ===== *)
(** * The persistent store: [internal/ports/session/mongo_store.go]

    Six collections of a MongoDB server.  The server is not part of the
    program: a collection is any type with the operations of [Collection] and
    their documented laws, and [gmap] is such a type.  Each method of
    [MongoStore] is translated on top of them; a server that is up does not
    return errors, so the only errors left are those of [FindOne] on a missing
    document and of a negative [skip].  Times are kept as the program has them,
    in nanoseconds; a BSON date has milliseconds, so a time that is read back
    is in fact the one written cut to a millisecond. *)
From stdpp Require Import prelude gmap list strings sorting.
From S2P Require Import Prelude GoStrings ApiError Latency SessionTypes.
Local Open Scope string_scope.

(** Documents of type [D] with a unique key: the [_id], or the fields of a
    unique index. *)
Class Collection (K D C : Type) `{EqDecision K} := {
  c_empty : C;
  c_get : C → K → option D;
  c_put : K → D → C → C;                    (* UpdateOne with upsert, the whole document *)
  c_update : (D → bool) → (D → D) → C → C;  (* UpdateMany *)
  c_delete : (D → bool) → C → C;            (* DeleteMany, DeleteOne *)
  c_find : (D → bool) → C → list D;         (* Find, in the server's order *)
  c_get_empty : ∀ k, c_get c_empty k = None;
  c_get_put : ∀ k d c k', c_get (c_put k d c) k' = if decide (k' = k) then Some d else c_get c k';
  c_get_update : ∀ p f c k, c_get (c_update p f c) k = (λ d, if p d then f d else d) <$> c_get c k;
  c_get_delete : ∀ p c k,
    c_get (c_delete p c) k = (d ← c_get c k; if p d then None else Some d);
  c_find_spec : ∀ p c d, d ∈ c_find p c ↔ p d = true ∧ ∃ k, c_get c k = Some d;
}.

Section MapCollection.
Context {K D : Type} `{Countable K}.

#[export] Program Instance map_collection : Collection K D (gmap K D) := {|
  c_empty := ∅; c_get c k := c !! k; c_put k d c := <[k := d]> c;
  c_update p f c := (λ d, if p d then f d else d) <$> c;
  c_delete p c := omap (λ d, if p d then None else Some d) c;
  c_find p c := filter (λ d, p d = true) (map_to_list c).*2;
|}.
Next Obligation. intros. apply lookup_empty. Qed.
Next Obligation.
  intros. simpl. case_decide; subst; [apply lookup_insert_eq|by apply lookup_insert_ne].
Qed.
Next Obligation. intros. apply lookup_fmap. Qed.
Next Obligation. intros. simpl. by rewrite lookup_omap. Qed.
Next Obligation.
  intros p c d. simpl. rewrite list_elem_of_filter, list_elem_of_fmap. split.
  - intros [Hp ([k d'] & -> & Hk%elem_of_map_to_list)]. eauto.
  - intros [Hp [k Hk%elem_of_map_to_list]]. split; [done|]. by exists (k, d).
Qed.
End MapCollection.

(** Documents that are no struct of the program. *)
Record CatalogDoc (B : Type) := mkCatalogDoc { cd_ID : string; cd_Payload : B; cd_UpdatedAt : Z }.
Arguments mkCatalogDoc {B}.
Arguments cd_ID {B}.
Arguments cd_Payload {B}.
Arguments cd_UpdatedAt {B}.

Record RunPayload (B : Type) := mkRunPayload {
  rp_ID : string; rp_RunID : string; rp_SessionID : string; rp_Stage : string;
  rp_Direction : string; rp_TxnID : string; rp_Status : Z; rp_Timestamp : Z; rp_Body : B;
}.
Arguments mkRunPayload {B}.
Arguments rp_ID {B}.
Arguments rp_RunID {B}.
Arguments rp_SessionID {B}.
Arguments rp_Stage {B}.
Arguments rp_Direction {B}.
Arguments rp_TxnID {B}.
Arguments rp_Status {B}.
Arguments rp_Timestamp {B}.
Arguments rp_Body {B}.

(** The collections' types, bundled. *)
Class MongoServer (B : Type) := {
  sessions_t : Type; runs_t : Type; catalogs_t : Type; payloads_t : Type;
  events_t : Type; summaries_t : Type;
  #[global] sessions_c :: Collection string Session sessions_t;
  #[global] runs_c :: Collection string Run runs_t;
  #[global] catalogs_c :: Collection string (CatalogDoc B) catalogs_t;
  #[global] payloads_c :: Collection string (RunPayload B) payloads_t;
  #[global] events_c :: Collection (string * Stage * string) RunLatencyEvent events_t;
  #[global] summaries_c :: Collection (string * Stage) RunLatencySummary summaries_t;
}.

#[export] Instance map_server B : MongoServer B := {|
  sessions_t := gmap string Session; runs_t := gmap string Run;
  catalogs_t := gmap string (CatalogDoc B); payloads_t := gmap string (RunPayload B);
  events_t := gmap (string * Stage * string) RunLatencyEvent;
  summaries_t := gmap (string * Stage) RunLatencySummary;
|}.

Section MongoStore.
Context {B : Type} `{MongoServer B}.

Record MongoStore := mkMongo {
  mg_sessions : sessions_t; mg_runs : runs_t; mg_catalogs : catalogs_t; mg_payloads : payloads_t;
  mg_events : events_t; mg_summaries : summaries_t;
}.
Definition NewMongoStore : MongoStore :=
  mkMongo c_empty c_empty c_empty c_empty c_empty c_empty.

Definition with_sessions (x : sessions_t) (m : MongoStore) : MongoStore :=
  mkMongo x (mg_runs m) (mg_catalogs m) (mg_payloads m) (mg_events m) (mg_summaries m).
Definition with_runs (x : runs_t) (m : MongoStore) : MongoStore :=
  mkMongo (mg_sessions m) x (mg_catalogs m) (mg_payloads m) (mg_events m) (mg_summaries m).
Definition with_catalogs (x : catalogs_t) (m : MongoStore) : MongoStore :=
  mkMongo (mg_sessions m) (mg_runs m) x (mg_payloads m) (mg_events m) (mg_summaries m).
Definition with_payloads (x : payloads_t) (m : MongoStore) : MongoStore :=
  mkMongo (mg_sessions m) (mg_runs m) (mg_catalogs m) x (mg_events m) (mg_summaries m).
Definition with_events (x : events_t) (m : MongoStore) : MongoStore :=
  mkMongo (mg_sessions m) (mg_runs m) (mg_catalogs m) (mg_payloads m) x (mg_summaries m).
Definition with_summaries (x : summaries_t) (m : MongoStore) : MongoStore :=
  mkMongo (mg_sessions m) (mg_runs m) (mg_catalogs m) (mg_payloads m) (mg_events m) x.

(** [$set] of a struct leaves a field alone that is [omitempty] and empty:
    two strings of a session, the completion time of a run. *)
Definition keep (new old : string) : string := if new =? "" then old else new.
Definition merge_session (old : option Session) (s : Session) : Session :=
  match old with
  | None => s
  | Some o =>
      mkSession (s_ID s) (s_BPPID s) (s_BPPURI s) (s_Status s) (s_CreatedAt s) (s_ExpiresAt s)
        (keep (s_CoreVersion s) (s_CoreVersion o)) (keep (s_Domain s) (s_Domain o))
        (s_VerificationEnabled s) (s_ErrorInjectionEnabled s)
  end.
Definition merge_run (old : option Run) (r : Run) : Run :=
  match old with
  | None => r
  | Some o => if (r_CompletedAt r =? zero_time)%Z then set_run_completed (r_CompletedAt o) r else r
  end.

Definition Mongo_SaveSession (s : Session) (m : MongoStore) : MongoStore :=
  with_sessions (c_put (s_ID s) (merge_session (c_get (mg_sessions m) (s_ID s)) s)
                   (mg_sessions m)) m.

Definition Mongo_SaveRun (r : Run) (m : MongoStore) : MongoStore :=
  with_runs (c_put (r_ID r) (merge_run (c_get (mg_runs m) (r_ID r)) r) (mg_runs m)) m.

Definition Mongo_SaveCatalog (now : Z) (sessionID : string) (payload : B) (m : MongoStore)
  : MongoStore :=
  with_catalogs (c_put sessionID (mkCatalogDoc sessionID payload now) (mg_catalogs m)) m.

Definition Mongo_GetCatalog (sessionID : string) (m : MongoStore) : result error B :=
  match c_get (mg_catalogs m) sessionID with
  | Some d => Ok (cd_Payload d)
  | None => Err (EText "catalog not found")
  end.

(** [SetSort] in descending or ascending order of a time. *)
Definition before {D} (key : D → Z) (a b : D) : Prop := (key a ≤ key b)%Z.
#[global] Instance before_dec {D} (key : D → Z) a b : Decision (before key a b).
Proof. apply Z_le_dec. Defined.
Definition sort_desc {D} (key : D → Z) (l : list D) : list D :=
  merge_sort (before (λ d, - key d)%Z) l.
Definition sort_asc {D} (key : D → Z) (l : list D) : list D := merge_sort (before key) l.

(** [SetLimit]: zero is no limit. *)
Definition limited {D} (limit : Z) (l : list D) : list D :=
  if (limit =? 0)%Z then l else take (Z.to_nat (Z.abs limit)) l.

Definition Mongo_GetRunHistory (sessionID : string) (m : MongoStore) : list Run :=
  sort_desc r_StartedAt (c_find (λ r, r_SessionID r =? sessionID) (mg_runs m)).

Definition Mongo_SearchLatestRuns (bppID sessionID : string) (limit : Z) (m : MongoStore)
  : list Run :=
  limited limit (sort_desc r_StartedAt
    (c_find (λ r, (r_BPPID r =? bppID) && ((sessionID =? "") || (r_SessionID r =? sessionID)))
       (mg_runs m))).

Definition Mongo_GetRunByID (runID : string) (m : MongoStore) : result error Run :=
  match c_get (mg_runs m) runID with
  | Some r => Ok r
  | None => Err (EText "run not found")
  end.

Definition Mongo_GetSessionsByBPP (bppID : string) (page pageSize : Z) (m : MongoStore)
  : result error (list Session * Z) :=
  let all := c_find (λ s, s_BPPID s =? bppID) (mg_sessions m) in
  let skip := wrap64 (wrap64 (page - 1) * pageSize)%Z in
  if (skip <? 0)%Z then Err (EText "skip value must be non-negative")
  else Ok (limited pageSize (drop (Z.to_nat skip) (sort_desc s_CreatedAt all)),
           Z.of_nat (length all)).

Definition Mongo_GetSessionByID (id : string) (m : MongoStore) : result error Session :=
  match c_get (mg_sessions m) id with
  | Some s => Ok s
  | None => Err (EText "session not found")
  end.

(** A fresh id and the clock are used where the field is empty; [InsertOne]
    refuses an id that is taken.  A nil payload is not saved. *)
Definition duplicate_key : error := EText "E11000 duplicate key error".
Definition Mongo_SaveRunPayload (uuid : string) (now : Z) (p : option (RunPayload B))
  (m : MongoStore) : option error * MongoStore :=
  match p with
  | None => (None, m)
  | Some p =>
      let id := if rp_ID p =? "" then uuid else rp_ID p in
      let ts := if (rp_Timestamp p =? zero_time)%Z then now else rp_Timestamp p in
      match c_get (mg_payloads m) id with
      | Some _ => (Some duplicate_key, m)
      | None =>
          (None, with_payloads (c_put id (mkRunPayload id (rp_RunID p) (rp_SessionID p)
             (rp_Stage p) (rp_Direction p) (rp_TxnID p) (rp_Status p) ts (rp_Body p))
             (mg_payloads m)) m)
      end
  end.

Definition Mongo_GetRunPayloads (runID : string) (m : MongoStore) : list (RunPayload B) :=
  sort_asc rp_Timestamp (c_find (λ p, rp_RunID p =? runID) (mg_payloads m)).

(** ** Latency events *)

Definition event_key (e : RunLatencyEvent) : string * Stage * string :=
  (ev_RunID e, ev_Stage e, ev_TxnID e).

(** [$setOnInsert] with upsert: only a missing document is written. *)
Definition insert_event (e : RunLatencyEvent) (c : events_t) : events_t :=
  match c_get c (event_key e) with Some _ => c | None => c_put (event_key e) e c end.

Definition Mongo_UpsertRunLatencyEvent (e : option RunLatencyEvent) (m : MongoStore) : MongoStore :=
  match e with Some e => with_events (insert_event e (mg_events m)) m | None => m end.

(** An unordered bulk write, in some order. *)
Definition Mongo_UpsertRunLatencyEventsBulk (es : list (option RunLatencyEvent)) (m : MongoStore)
  : MongoStore :=
  with_events (foldl (λ c e, insert_event e c) (mg_events m) (omap id es)) m.

Definition Mongo_UpsertRunLatencySummary (s : RunLatencySummary) (m : MongoStore) : MongoStore :=
  with_summaries (c_put (sum_RunID s, sum_Stage s) s (mg_summaries m)) m.

(** [out[ev.TxnID] = &ev] over the cursor. *)
Definition by_txn (es : list RunLatencyEvent) : gmap string RunLatencyEvent :=
  index_by ev_TxnID es.

Definition Mongo_GetRunLatencyEvents (runID : string) (stage : Stage) (txnIDs : list string)
  (m : MongoStore) : gmap string RunLatencyEvent :=
  match txnIDs with
  | [] => ∅
  | _ => by_txn (c_find (λ e, (ev_RunID e =? runID) && bool_decide (ev_Stage e = stage)
                    && bool_decide (ev_TxnID e ∈ txnIDs)) (mg_events m))
  end.

Definition Mongo_GetRunLatencyEventsForStage (runID : string) (stage : Stage) (m : MongoStore)
  : gmap string RunLatencyEvent :=
  by_txn (c_find (λ e, (ev_RunID e =? runID) && bool_decide (ev_Stage e = stage)) (mg_events m)).

Definition Mongo_GetRunLatencySummaries (runID : string) (m : MongoStore)
  : gmap Stage RunLatencySummary :=
  index_by sum_Stage (c_find (λ s, sum_RunID s =? runID) (mg_summaries m)).

(** ** Deletion and expiry *)

Definition Mongo_ExpireSessionsByBPP (bppID : string) (m : MongoStore) : MongoStore :=
  with_sessions (c_update
    (λ s, (s_BPPID s =? bppID) && bool_decide (s_Status s = SessionActive))
    (set_session_status SessionExpired) (mg_sessions m)) m.

Definition Mongo_HardDeleteSession (id : string) (m : MongoStore) : MongoStore :=
  let m := with_runs (c_delete (λ r, r_SessionID r =? id) (mg_runs m)) m in
  let m := with_catalogs (c_delete (λ d, cd_ID d =? id) (mg_catalogs m)) m in
  with_sessions (c_delete (λ s, s_ID s =? id) (mg_sessions m)) m.

Definition Mongo_HardDeleteSessionsByBPP (bppID : string) (m : MongoStore) : Z * MongoStore :=
  let ids := s_ID <$> c_find (λ s, s_BPPID s =? bppID) (mg_sessions m) in
  match ids with
  | [] => (0%Z, m)
  | _ =>
      let in_ids x := bool_decide (x ∈ ids) in
      let m := with_runs (c_delete (λ r, in_ids (r_SessionID r)) (mg_runs m)) m in
      let m := with_catalogs (c_delete (λ d, in_ids (cd_ID d)) (mg_catalogs m)) m in
      let n := length (c_find (λ s, in_ids (s_ID s)) (mg_sessions m)) in
      (Z.of_nat n, with_sessions (c_delete (λ s, in_ids (s_ID s)) (mg_sessions m)) m)
  end.
End MongoStore.
Arguments MongoStore B {_}.

(** ** Theorems *)

(** Documents are stored under their own key. *)
Definition keyed {K D C} `{Collection K D C} (key : D → K) (c : C) : Prop :=
  ∀ k d, c_get c k = Some d → key d = k.

Lemma keyed_empty {K D C} `{Collection K D C} (key : D → K) : keyed key (c_empty : C).
Proof. intros k d. by rewrite c_get_empty. Qed.

Lemma keyed_put {K D C} `{Collection K D C} (key : D → K) c k d :
  keyed key c → key d = k → keyed key (c_put k d c).
Proof.
  intros Hc Hd k' d' E. rewrite c_get_put in E. case_decide; simplify_eq; [done|by apply Hc].
Qed.

Lemma keyed_delete {K D C} `{Collection K D C} (key : D → K) c p :
  keyed key c → keyed key (c_delete p c).
Proof.
  intros Hc k d. rewrite c_get_delete. destruct (c_get c k) as [d'|] eqn:E; simpl; [|done].
  destruct (p d'); [done|]. intros [= <-]. by apply Hc.
Qed.

(** Deleting the documents selected by their key. *)
Lemma delete_by_key {K D C} `{Collection K D C} (key : D → K) (sel : K → bool) c k :
  keyed key c →
  c_get (c_delete (λ d, sel (key d)) c) k = if sel k then None else c_get c k.
Proof.
  intros Hc. rewrite c_get_delete. destruct (c_get c k) as [d|] eqn:E; simpl.
  - by rewrite (Hc _ _ E).
  - by destruct (sel k).
Qed.

(** A query that selects the documents whose key is [mk] of a part [proj],
    indexed by this part, is a lookup by key. *)
Lemma index_find {K D C} `{Collection K D C} `{Countable K'} (key : D → K) (mk : K' → K)
    (proj : D → K') (sel : D → bool) (c : C) k :
  keyed key c → (∀ d k, key d = mk k ↔ sel d = true ∧ proj d = k) →
  index_by proj (c_find sel c) !! k = c_get c (mk k).
Proof.
  intros Hc Hsel.
  assert (∀ d, d ∈ c_find sel c → proj d = k → c_get c (mk k) = Some d) as Hf.
  { intros d [Hs [k' Hk']]%c_find_spec Hp. rewrite <- (Hc _ _ Hk') in Hk'.
    by rewrite (proj2 (Hsel d k)) in Hk'. }
  destruct (c_get c (mk k)) as [d|] eqn:E.
  - apply index_by_lookup.
    + apply c_find_spec. split; [|eauto]. by apply (Hsel d k), Hc.
    + by apply (Hsel d k), Hc.
    + intros d' Hd' Hp. specialize (Hf _ Hd' Hp). congruence.
  - apply index_by_none. intros d Hd Hp. specialize (Hf _ Hd Hp). congruence.
Qed.

Section Theorems.
Context {B : Type} `{MongoServer B}.

(** The first event of a list with a key. *)
Fixpoint first_event (k : string * Stage * string) (es : list RunLatencyEvent)
  : option RunLatencyEvent :=
  match es with
  | [] => None
  | e :: es' => if bool_decide (event_key e = k) then Some e else first_event k es'
  end.

Lemma insert_events_get es : ∀ (c : events_t) k,
  c_get (foldl (λ c e, insert_event e c) c es) k =
    match c_get c k with Some e => Some e | None => first_event k es end.
Proof.
  induction es as [|e es IH]; intros c k; simpl; [by destruct (c_get c k)|].
  rewrite IH. unfold insert_event. destruct (c_get c (event_key e)) as [e'|] eqn:E.
  - case_bool_decide; subst; [by rewrite E|done].
  - rewrite c_get_put. case_decide; subst.
    + by rewrite E, bool_decide_true.
    + by rewrite (bool_decide_false (event_key e = k)) by done.
Qed.

Lemma insert_events_keyed es : ∀ (c : events_t),
  keyed event_key c → keyed event_key (foldl (λ c e, insert_event e c) c es).
Proof.
  induction es as [|e es IH]; intros c Hc; simpl; [done|]. apply IH. unfold insert_event.
  destruct (c_get c (event_key e)); [done|]. by apply keyed_put.
Qed.

Lemma events_for_stage_get run stage t (m : MongoStore B) :
  keyed event_key (mg_events m) →
  Mongo_GetRunLatencyEventsForStage run stage m !! t = c_get (mg_events m) (run, stage, t).
Proof.
  intros Hk. apply (index_find event_key (λ t, (run, stage, t))); [done|].
  intros e t'. unfold event_key. rewrite andb_true_iff, bool_decide_eq_true, String.eqb_eq.
  naive_solver.
Qed.

(** The key of a summary. *)
Definition summary_key (s : RunLatencySummary) : string * Stage := (sum_RunID s, sum_Stage s).

Lemma summaries_get run stage (m : MongoStore B) :
  keyed summary_key (mg_summaries m) →
  Mongo_GetRunLatencySummaries run m !! stage = c_get (mg_summaries m) (run, stage).
Proof.
  intros Hk. apply (index_find summary_key (λ stage, (run, stage))); [done|].
  intros s t'. unfold summary_key. rewrite String.eqb_eq. naive_solver.
Qed.
End Theorems.

(** The first classification of a transaction wins: whatever events are
    written, in bulk or one by one, the event of a run, stage and transaction
    that is read back is the first one written for them (or the one that was
    there before), so a late callback never overwrites a recorded outcome,
    and an event is never attributed to another run, stage or transaction. *)
Theorem latency_event_first_wins {B} `{MongoServer B} (m : MongoStore B) es run stage t :
  keyed event_key (mg_events m) →
  Mongo_GetRunLatencyEventsForStage run stage (Mongo_UpsertRunLatencyEventsBulk es m) !! t =
    match Mongo_GetRunLatencyEventsForStage run stage m !! t with
    | Some e => Some e
    | None => first_event (run, stage, t) (omap id es)
    end ∧
  Mongo_UpsertRunLatencyEventsBulk es m = foldl (λ m e, Mongo_UpsertRunLatencyEvent e m) m es.
Proof.
  intros Hk. split.
  - rewrite !events_for_stage_get; [|done|by apply insert_events_keyed].
    apply insert_events_get.
  - unfold Mongo_UpsertRunLatencyEventsBulk. clear Hk. revert m.
    induction es as [|[e|] es IH]; intros m; simpl; [by destruct m|by rewrite <- IH|by rewrite <- IH].
Qed.

Definition demo_event (o : Outcome) (ms : option Z) : RunLatencyEvent :=
  mkEvent "s1" "r1" StageOnSelect "t1" 0 None ms o 1 "".
Definition demo_mongo : MongoStore string :=
  Mongo_UpsertRunLatencyEventsBulk [Some (demo_event OutcomeTimeout None)] NewMongoStore.

#[local] Transparent gmap_empty.

(** A timeout is recorded, then the callback arrives. *)
Lemma latency_event_first_wins_witness :
  Mongo_GetRunLatencyEventsForStage "r1" StageOnSelect
    (Mongo_UpsertRunLatencyEventsBulk [Some (demo_event OutcomeSuccess (Some 9%Z))] demo_mongo)
    !! "t1" = Some (demo_event OutcomeTimeout None).
Proof.
  etransitivity; [apply (latency_event_first_wins demo_mongo
    [Some (demo_event OutcomeSuccess (Some 9%Z))] "r1" StageOnSelect "t1")|].
  - apply insert_events_keyed, keyed_empty.
  - reflexivity.
Defined.

(** Deleting a session removes it for good, with all its runs and its
    catalog, and nothing else: no other session, run or catalog changes. *)
Theorem hard_delete_exact {B} `{MongoServer B} (m : MongoStore B) id :
  keyed s_ID (mg_sessions m) → keyed cd_ID (mg_catalogs m) →
  let m' := Mongo_HardDeleteSession id m in
  (∀ k, c_get (mg_sessions m') k = if k =? id then None else c_get (mg_sessions m) k) ∧
  (∀ k, c_get (mg_catalogs m') k = if k =? id then None else c_get (mg_catalogs m) k) ∧
  (∀ k r, c_get (mg_runs m') k = Some r ↔ c_get (mg_runs m) k = Some r ∧ r_SessionID r ≠ id).
Proof.
  intros Hs Hc m'. split_and!.
  - intros k. apply (delete_by_key s_ID (λ x, x =? id)). done.
  - intros k. apply (delete_by_key cd_ID (λ x, x =? id)). done.
  - intros k r. unfold m'. simpl. rewrite c_get_delete.
    destruct (c_get (mg_runs m) k) as [r'|]; simpl; [|naive_solver].
    destruct (String.eqb_spec (r_SessionID r') id); naive_solver.
Qed.

Lemma hard_delete_exact_witness :
  c_get (mg_sessions (Mongo_HardDeleteSession (B := string) "s1"
    (Mongo_SaveSession (mkSession "s1" "b" "u" SessionActive 0 1 "" "" false true)
       NewMongoStore))) "s1" = None.
Proof.
  etransitivity; [apply (hard_delete_exact (Mongo_SaveSession (B := string)
    (mkSession "s1" "b" "u" SessionActive 0 1 "" "" false true) NewMongoStore) "s1")|reflexivity].
  - apply keyed_put; [apply keyed_empty|reflexivity].
  - apply keyed_empty.
Defined.
