(* ===== verification/Finalize.v ===== *)
(** * The end of a run: [finalizeRunLatencies] and [updateMetrics] of
    [internal/handlers/testing/routes.go]

    When a run ends, every transaction that was sent or called back gets
    exactly one latency event per stage, and the summary of the stage is
    computed from the events.  Go iterates over a map in an unspecified
    order: [order] is the one it picks.  The clock is read once. *)
From stdpp Require Import prelude gmap list strings.
From S2P Require Import Prelude GoStrings GoTime Float64 ApiError Latency Redis RunLog SessionTypes StateStore Dispatcher Mongo MemoryStore.
Local Open Scope string_scope.

Definition callbackTimeout : Z := 30 * second.

(** The three stages. *)
Definition pairs : list (string * Stage) :=
  [("select", StageOnSelect); ("init", StageOnInit); ("confirm", StageOnConfirm)].

(** What the loop over the transactions computes. *)
Record tally := mkTally {
  ty_success : Z;
  ty_failure : Z;
  ty_timeout : Z;
  ty_latencies : list Z;
  ty_missing : list RunLatencyEvent;
}.

Section Finalize.
Context {B L : Type} `{MongoServer B, RunLogStore B L}.
Variable order : gset string → list string.

Definition add_existing (ev : RunLatencyEvent) (t : tally) : tally :=
  match ev_Outcome ev with
  | OutcomeSuccess =>
      mkTally (ty_success t + 1) (ty_failure t) (ty_timeout t)
        (ty_latencies t ++ option_list (ev_LatencyMS ev))%list (ty_missing t)
  | OutcomeFailure =>
      mkTally (ty_success t) (ty_failure t + 1) (ty_timeout t) (ty_latencies t) (ty_missing t)
  | OutcomeTimeout =>
      mkTally (ty_success t) (ty_failure t) (ty_timeout t + 1) (ty_latencies t) (ty_missing t)
  end.

(** The event of a transaction that was not called back; [sentAt] is [None]
    when its time is unknown. *)
Definition missing_event (sess run : string) (stage : Stage) (txn : string) (cutoffAt : Z)
  (sentAt : option Z) : RunLatencyEvent :=
  let outcome := match sentAt with
                 | None => OutcomeFailure
                 | Some s => if (callbackTimeout <=? cutoffAt - s)%Z then OutcomeTimeout
                             else OutcomeFailure
                 end in
  mkEvent sess run stage txn (default cutoffAt sentAt) None None outcome cutoffAt "".

Definition add_missing (ev : RunLatencyEvent) (t : tally) : tally :=
  let timeout := bool_decide (ev_Outcome ev = OutcomeTimeout) in
  mkTally (ty_success t)
    (if timeout then ty_failure t else ty_failure t + 1)%Z
    (if timeout then ty_timeout t + 1 else ty_timeout t)%Z
    (ty_latencies t) (ty_missing t ++ [ev])%list.

Fixpoint classify (sess run action : string) (stage : Stage) (cutoffAt : Z)
  (existing : gmap string RunLatencyEvent) (txns : list string) (l : L) (t : tally) : tally * L :=
  match txns with
  | [] => (t, l)
  | txn :: txns' =>
      match existing !! txn with
      | Some ev => classify sess run action stage cutoffAt existing txns' l (add_existing ev t)
      | None =>
          let '(x, l) := log_call cutoffAt (GetTimestamp run "pipeline_b" action txn) l in
          let sentAt := match x with OTime s => s | _ => None end in
          classify sess run action stage cutoffAt existing txns' l
            (add_missing (missing_event sess run stage txn cutoffAt sentAt) t)
      end
  end.

(** The union of the sent and the called back transactions. *)
Definition txn_set (sent : gset string) (existing : gmap string RunLatencyEvent) : gset string :=
  filter (λ t, t ≠ "") (sent ∪ dom existing).

Definition stage_summary (sess run : string) (stage : Stage) (cutoffAt total : Z) (t : tally)
  : RunLatencySummary :=
  let '(avg, p90, p95, p99) := ComputeSummaryFromSuccessLatenciesMs (ty_latencies t) in
  mkSummary sess run stage (Milliseconds callbackTimeout) cutoffAt total (ty_success t)
    (ty_failure t) (ty_timeout t) avg (f64_of_Z p90) (f64_of_Z p95) (f64_of_Z p99) cutoffAt.

Definition finalize_stage (sess run : string) (cutoffAt : Z) (pair : string * Stage)
  (w : L * MongoStore B) : L * MongoStore B :=
  let '(l, m) := w in
  let '(action, stage) := pair in
  match log_call cutoffAt (ListTxnIDs run "pipeline_b" action) l with
  | (OTxns sent, l) =>
      let existing := Mongo_GetRunLatencyEventsForStage run stage m in
      let txns := order (txn_set sent existing) in
      let '(t, l) :=
        classify sess run action stage cutoffAt existing txns l (mkTally 0 0 0 [] []) in
      let m := match ty_missing t with
               | [] => m
               | es => Mongo_UpsertRunLatencyEventsBulk (Some <$> es) m
               end in
      (l, Mongo_UpsertRunLatencySummary
            (stage_summary sess run stage cutoffAt (Z.of_nat (length txns)) t) m)
  | (_, l) => (l, m)
  end.

Definition finalizeRunLatencies (sess run : string) (cutoffAt : Z) (w : L * MongoStore B)
  : L * MongoStore B :=
  foldl (λ w pair, finalize_stage sess run cutoffAt pair w) w pairs.
End Finalize.

(** [updateMetrics]: the counters of a request stage. *)
Definition updateMetrics {B S} `{StateStore B S} (now : Z) (run action : string)
  (results : list DispatchResult) (s : S) : S :=
  let ok r := bool_decide (dr_Err r = None) in
  let s := (st_call (B := B) now (IncrMetric run action "sent" (Z.of_nat (length results))) s).2 in
  let s := (st_call (B := B) now (IncrMetric run action "success" (Z.of_nat (countb ok results))) s).2 in
  (st_call (B := B) now
    (IncrMetric run action "failure" (Z.of_nat (countb (λ r, negb (ok r)) results))) s).2.

(** ** What is written *)
Section Accounting.
Context {B L : Type} `{MongoServer B, RunLogStore B L} {t0 t1 : Z} `{!RunLogRefines B L t0 t1}.
Variable order : gset string → list string.
Hypothesis order_spec : ∀ X, NoDup (order X) ∧ ∀ t, t ∈ order X ↔ t ∈ X.
Implicit Types (G : alog B) (m : MongoStore B).

(** The event a transaction ends with. *)
Definition final_event (sess run : string) (stage : Stage) (cutoffAt : Z)
  (existing : gmap string RunLatencyEvent) (sentAt : string → option Z) (txn : string)
  : RunLatencyEvent :=
  match existing !! txn with
  | Some ev => ev
  | None => missing_event sess run stage txn cutoffAt (sentAt txn)
  end.

Definition with_outcome (o : Outcome) (ev : RunLatencyEvent) : bool :=
  bool_decide (ev_Outcome ev = o).
Definition success_latencies (evs : list RunLatencyEvent) : list Z :=
  evs ≫= λ ev, if with_outcome OutcomeSuccess ev then option_list (ev_LatencyMS ev) else [].

(** [t'] is [t] with these events added, the missing ones to be written. *)
Record tallies (t : tally) (evs missing : list RunLatencyEvent) (t' : tally) : Prop := {
  tl_success : ty_success t' = (ty_success t + Z.of_nat (countb (with_outcome OutcomeSuccess) evs))%Z;
  tl_failure : ty_failure t' = (ty_failure t + Z.of_nat (countb (with_outcome OutcomeFailure) evs))%Z;
  tl_timeout : ty_timeout t' = (ty_timeout t + Z.of_nat (countb (with_outcome OutcomeTimeout) evs))%Z;
  tl_latencies : ty_latencies t' = (ty_latencies t ++ success_latencies evs)%list;
  tl_missing : ty_missing t' = (ty_missing t ++ missing)%list;
}.

Lemma missing_event_outcome sess run stage txn cutoffAt s :
  ev_Outcome (missing_event sess run stage txn cutoffAt s) ≠ OutcomeSuccess.
Proof. unfold missing_event. simpl. destruct s; [by destruct (_ <=? _)%Z|done]. Qed.

Lemma tallies_existing t ev evs missing t' :
  tallies (add_existing ev t) evs missing t' → tallies t (ev :: evs) missing t'.
Proof.
  intros []. unfold add_existing in *. split; unfold with_outcome, success_latencies in *; simpl;
    destruct (ev_Outcome ev) eqn:E; unfold with_outcome; rewrite ?E; simpl in *; try lia; try done.
  by rewrite <- (assoc_L (++)) in tl_latencies0.
Qed.

Lemma tallies_missing t ev evs missing t' :
  ev_Outcome ev ≠ OutcomeSuccess →
  tallies (add_missing ev t) evs missing t' → tallies t (ev :: evs) (ev :: missing) t'.
Proof.
  intros Ho []. unfold add_missing in *. split; unfold with_outcome, success_latencies in *; simpl;
    destruct (ev_Outcome ev) eqn:E; unfold with_outcome; rewrite ?E; simpl in *; try lia; try done;
    by rewrite <- (assoc_L (++)) in tl_missing0.
Qed.

Lemma classify_spec sess run action stage cutoffAt existing G : ∀ txns n l t,
  no_colon run → no_colon action → (t0 ≤ cutoffAt < t1)%Z →
  (Z.of_nat (n + length txns) < 2 ^ 63)%Z → log_repr (t0 := t0) (t1 := t1) n l G →
  let ev := final_event sess run stage cutoffAt existing (al_time G run "pipeline_b" action) in
  ∃ (n' : nat) t' l', (n' ≤ n + length txns)%nat ∧
    classify sess run action stage cutoffAt existing txns l t = (t', l') ∧
    log_repr (t0 := t0) (t1 := t1) n' l' G ∧
    tallies t (ev <$> txns) (ev <$> filter (λ x, existing !! x = None) txns) t'.
Proof.
  induction txns as [|txn txns IH]; intros n l t Hr Ha Hn Hb Hl ev.
  { exists n, t, l. split_and!; [lia|done|done|].
    split; simpl; rewrite ?app_nil_r; try lia; done. }
  rewrite filter_cons. cbn [classify]. simpl in Hb. destruct (existing !! txn) as [e|] eqn:E.
  - destruct (IH n l (add_existing e t)) as (n' & t' & l' & Hn' & Hc & Hl' & Ht); [done..|lia|done|].
    exists n', t', l'. split_and!; [simpl; lia|done|done|].
    rewrite decide_False by done. csimpl. unfold ev at 1. unfold final_event. rewrite E.
    by apply tallies_existing.
  - destruct (log_repr_call n cutoffAt (GetTimestamp run "pipeline_b" action txn) l G) as [Hx Hl1];
      [lia|done| |done|].
    { simpl. unfold name_ok. by rewrite Hr, Ha. }
    destruct (log_call _ _ _) as [x l1]. simpl in Hx, Hl1.
    assert (match x with OTime s => s | _ => None end = al_time G run "pipeline_b" action txn) as ->
      by (destruct x; try done).
    destruct (IH (Datatypes.S n) l1
      (add_missing (missing_event sess run stage txn cutoffAt (al_time G run "pipeline_b" action txn)) t))
      as (n' & t' & l' & Hn' & Hc & Hl' & Ht); [done..|lia|done|].
    exists n', t', l'. split_and!; [simpl; lia|done|done|].
    rewrite decide_True by done. csimpl. unfold ev at 1 3. unfold final_event. rewrite E.
    apply tallies_missing; [apply missing_event_outcome|done].
Qed.
(** *** The store *)

Lemma first_event_fmap (f : string → RunLatencyEvent) run stage l k :
  (∀ x, event_key (f x) = (run, stage, x)) →
  first_event k (f <$> l) =
    if bool_decide (k.1 = (run, stage) ∧ k.2 ∈ l) then Some (f k.2) else None.
Proof.
  intros Hf. induction l as [|x l IH]; csimpl.
  { rewrite bool_decide_false; [done|]. by intros [_ ?%elem_of_nil]. }
  rewrite Hf, IH. destruct k as [[r s] t]. simpl.
  destruct (decide ((run, stage, x) = (r, s, t))) as [E|E].
  - simplify_eq. rewrite (bool_decide_true (_ = _)) by done.
    rewrite bool_decide_true by (split; [done|by left]). done.
  - rewrite (bool_decide_false (_ = _)) by done.
    apply (f_equal (λ b : bool, if b then Some (f t) else None)).
    apply bool_decide_ext. rewrite elem_of_cons. naive_solver.
Qed.

(** The event the store has for a transaction of a closed stage. *)
Definition closed_event (sess run : string) (stage : Stage) (cutoffAt : Z) m
  (sentAt : string → option Z) (txn : string) : RunLatencyEvent :=
  match c_get (mg_events m) (run, stage, txn) with
  | Some ev => ev
  | None => missing_event sess run stage txn cutoffAt (sentAt txn)
  end.

(** A stage is closed: the transactions that were sent or called back, each
    with one event, the first one written if there was one, and the summary
    of these events; nothing else changed. *)
Record stage_closed (sess run : string) (cutoffAt : Z) (stage : Stage) (sentAt : string → option Z)
  m m' (txns : list string) : Prop := {
  sc_nodup : NoDup txns;
  sc_txns : ∀ t, t ∈ txns ↔
    t ≠ "" ∧ (sentAt t ≠ None ∨ is_Some (c_get (mg_events m) (run, stage, t)));
  sc_event : ∀ t, t ∈ txns →
    c_get (mg_events m') (run, stage, t)
    = Some (closed_event sess run stage cutoffAt m sentAt t);
  sc_summary : ∃ s, c_get (mg_summaries m') (run, stage) = Some s ∧
    let evs := closed_event sess run stage cutoffAt m sentAt <$> txns in
    sum_Total s = Z.of_nat (length txns) ∧
    sum_SuccessCount s = Z.of_nat (countb (with_outcome OutcomeSuccess) evs) ∧
    sum_FailureCount s = Z.of_nat (countb (with_outcome OutcomeFailure) evs) ∧
    sum_TimeoutCount s = Z.of_nat (countb (with_outcome OutcomeTimeout) evs) ∧
    let '(avg, p90, p95, p99) := ComputeSummaryFromSuccessLatenciesMs (success_latencies evs) in
    sum_AvgMS s = avg ∧ sum_P90MS s = f64_of_Z p90 ∧ sum_P95MS s = f64_of_Z p95 ∧
    sum_P99MS s = f64_of_Z p99;
}.

(** What a stage leaves alone. *)
Definition other_stages (run : string) (stage : Stage) m m' : Prop :=
  (∀ k, k.1 ≠ (run, stage) → c_get (mg_events m') k = c_get (mg_events m) k) ∧
  (∀ k, k ≠ (run, stage) → c_get (mg_summaries m') k = c_get (mg_summaries m) k).

(** The writes of a stage: missing events [f <$> l], then a summary. *)
Lemma stage_writes (f : string → RunLatencyEvent) run stage l sum m :
  (∀ x, event_key (f x) = (run, stage, x)) → summary_key sum = (run, stage) →
  keyed event_key (mg_events m) →
  let m1 := match f <$> l with [] => m | es => Mongo_UpsertRunLatencyEventsBulk (Some <$> es) m end in
  let m' := Mongo_UpsertRunLatencySummary sum m1 in
  keyed event_key (mg_events m') ∧ other_stages run stage m m' ∧
  c_get (mg_summaries m') (run, stage) = Some sum ∧
  ∀ t, c_get (mg_events m') (run, stage, t) =
    match c_get (mg_events m) (run, stage, t) with
    | Some e => Some e
    | None => if bool_decide (t ∈ l) then Some (f t) else None
    end.
Proof.
  intros Hf Hs Hk m1 m'.
  assert (mg_summaries m1 = mg_summaries m) as Es by (unfold m1; by destruct (f <$> l)).
  assert (mg_events m1 = foldl (λ c e, insert_event e c) (mg_events m) (f <$> l)) as Ee.
  { unfold m1. destruct (f <$> l) as [|e es]; [done|]. unfold Mongo_UpsertRunLatencyEventsBulk.
    cbn [mg_events with_events]. f_equal. generalize (e :: es). intros l0.
    induction l0 as [|x l0 IH]; csimpl; [done|]. by rewrite IH. }
  change (mg_events m') with (mg_events m1). rewrite Ee.
  assert (∀ k, c_get (mg_summaries m') k = if decide (k = (run, stage)) then Some sum
    else c_get (mg_summaries m) k) as Hsum.
  { intros k. unfold m', Mongo_UpsertRunLatencySummary. simpl. rewrite c_get_put, Es.
    unfold summary_key in Hs. by rewrite Hs. }
  split_and!.
  - by apply insert_events_keyed.
  - split.
    + intros k Hne. change (mg_events m') with (mg_events m1). rewrite Ee, insert_events_get.
      rewrite (first_event_fmap f run stage) by done.
      rewrite bool_decide_false by naive_solver. by destruct (c_get _ _).
    + intros k Hne. by rewrite Hsum, decide_False.
  - by rewrite Hsum, decide_True.
  - intros t. rewrite insert_events_get, (first_event_fmap f run stage) by done. simpl.
    destruct (c_get _ _); [done|].
    apply (f_equal (λ b : bool, if b then Some (f t) else None)), bool_decide_ext. naive_solver.
Qed.

(** The transactions of a stage: those that were sent and those called back. *)
Lemma stage_txns_spec run stage (sentAt : string → option Z) (sent : gset string) m :
  keyed event_key (mg_events m) → (∀ t, t ∈ sent ↔ sentAt t ≠ None) →
  let txns := order (txn_set sent (Mongo_GetRunLatencyEventsForStage run stage m)) in
  NoDup txns ∧ ∀ t, t ∈ txns ↔
    t ≠ "" ∧ (sentAt t ≠ None ∨ is_Some (c_get (mg_events m) (run, stage, t))).
Proof.
  intros Hk Hx txns. destruct (order_spec (txn_set sent (Mongo_GetRunLatencyEventsForStage run stage m)))
    as [Hnd Hin]. split; [exact Hnd|]. intros t. unfold txns. rewrite Hin. unfold txn_set.
  by rewrite elem_of_filter, elem_of_union, elem_of_dom, Hx, events_for_stage_get.
Qed.

(** What a summary says of the events it is made from. *)
Lemma stage_summary_spec sess run stage cutoffAt total evs missing t :
  tallies (mkTally 0 0 0 [] []) evs missing t →
  let s := stage_summary sess run stage cutoffAt total t in
  summary_key s = (run, stage) ∧ sum_Total s = total ∧
  sum_SuccessCount s = Z.of_nat (countb (with_outcome OutcomeSuccess) evs) ∧
  sum_FailureCount s = Z.of_nat (countb (with_outcome OutcomeFailure) evs) ∧
  sum_TimeoutCount s = Z.of_nat (countb (with_outcome OutcomeTimeout) evs) ∧
  let '(avg, p90, p95, p99) := ComputeSummaryFromSuccessLatenciesMs (success_latencies evs) in
  sum_AvgMS s = avg ∧ sum_P90MS s = f64_of_Z p90 ∧ sum_P95MS s = f64_of_Z p95 ∧
  sum_P99MS s = f64_of_Z p99.
Proof.
  intros [T1 T2 T3 T4 _]. unfold stage_summary. rewrite T4. simpl.
  destruct (ComputeSummaryFromSuccessLatenciesMs _) as [[[??]?]?]. simpl in *. by split_and!.
Qed.

Lemma finalize_stage_spec sess run action stage cutoffAt n l m G :
  no_colon run → no_colon action → (t0 ≤ cutoffAt < t1)%Z →
  log_repr (t0 := t0) (t1 := t1) n l G → keyed event_key (mg_events m) →
  let sentAt := al_time G run "pipeline_b" action in
  (∀ txns, NoDup txns → (∀ t, t ∈ txns → sentAt t ≠ None ∨
      is_Some (c_get (mg_events m) (run, stage, t))) →
    (Z.of_nat (Datatypes.S (n + length txns)) < 2 ^ 63)%Z) →
  ∃ n' l' m' txns, finalize_stage order sess run cutoffAt (action, stage) (l, m) = (l', m') ∧
    (n' ≤ Datatypes.S (n + length txns))%nat ∧
    log_repr (t0 := t0) (t1 := t1) n' l' G ∧ keyed event_key (mg_events m') ∧
    other_stages run stage m m' ∧ stage_closed sess run cutoffAt stage sentAt m m' txns.
Proof.
  intros Hr Ha Hn Hl Hk sentAt Hb. unfold finalize_stage.
  assert (op_ok (B := B) (ListTxnIDs run "pipeline_b" action)) as Hop
    by (simpl; unfold name_ok; by rewrite Hr, Ha).
  assert (Z.of_nat (Datatypes.S n) < 2 ^ 63)%Z as Hb0.
  { specialize (Hb [] ltac:(constructor)). simpl in Hb. rewrite Nat.add_0_r in Hb.
    apply Hb. by intros t ?%elem_of_nil. }
  destruct (log_repr_call n cutoffAt _ l G Hb0 Hn Hop Hl) as [Hx Hl1].
  destruct (log_call _ _ _) as [x l1]. simpl in Hx, Hl1.
  destruct x as [| | | | |sent]; try done.
  set (existing := Mongo_GetRunLatencyEventsForStage run stage m).
  assert (∀ t, existing !! t = c_get (mg_events m) (run, stage, t)) as Hex
    by (intros t; by apply events_for_stage_get).
  destruct (stage_txns_spec run stage sentAt sent m Hk Hx) as [Hnd Htx].
  fold existing in Hnd, Htx. set (txns := order (txn_set sent existing)) in *.
  assert (Z.of_nat (Datatypes.S (n + length txns)) < 2 ^ 63)%Z as Hb1.
  { apply Hb; [done|]. intros t Ht. by apply Htx in Ht as [_ ?]. }
  destruct (classify_spec sess run action stage cutoffAt existing G txns (Datatypes.S n) l1
    (mkTally 0 0 0 [] [])) as (n' & t & l' & Hn' & -> & Hl' & Ht); [done..|lia|done|].
  fold sentAt in Ht. set (ev := final_event sess run stage cutoffAt existing sentAt) in *.
  assert (∀ t, ev t = closed_event sess run stage cutoffAt m sentAt t) as Hev.
  { intros t2. unfold ev, final_event, closed_event. by rewrite Hex. }
  set (miss := filter (λ x, existing !! x = None) txns) in *.
  set (f := λ t, missing_event sess run stage t cutoffAt (sentAt t)).
  assert (ev <$> miss = f <$> miss) as Hm.
  { apply list_fmap_ext. intros i t2 [E _]%list_elem_of_lookup_2%list_elem_of_filter.
    unfold ev, final_event. by rewrite E. }
  pose proof (tl_missing _ _ _ _ Ht) as T5. simpl in T5. rewrite Hm in T5.
  destruct (stage_summary_spec sess run stage cutoffAt (Z.of_nat (length txns)) _ _ _ Ht)
    as [Hsk Hsum].
  set (sum := stage_summary _ _ _ _ _ t) in *.
  destruct (stage_writes f run stage miss sum m) as (W1 & W2 & W3 & W4); [done|done|done|].
  rewrite <- T5 in W1, W2, W3, W4.
  exists n', l', (Mongo_UpsertRunLatencySummary sum (match ty_missing t with [] => m
    | es => Mongo_UpsertRunLatencyEventsBulk (Some <$> es) m end)), txns.
  split_and!; [done|lia|done|done|done|]. split; [done|done| |].
  - intros t2 Ht2. rewrite W4. unfold closed_event.
    destruct (c_get (mg_events m) (run, stage, t2)) eqn:E; [done|].
    rewrite bool_decide_true; [done|]. apply list_elem_of_filter. by rewrite Hex.
  - exists sum. split; [done|]. rewrite <- (list_fmap_ext ev _ txns) by (intros; apply Hev). exact Hsum.
Qed.
(** The stores agree on a stage. *)
Definition same_stage (run : string) (stage : Stage) m m' : Prop :=
  (∀ t, c_get (mg_events m') (run, stage, t) = c_get (mg_events m) (run, stage, t)) ∧
  c_get (mg_summaries m') (run, stage) = c_get (mg_summaries m) (run, stage).

Lemma other_same run stage stage' m m' :
  other_stages run stage m m' → stage' ≠ stage → same_stage run stage' m m'.
Proof. intros [H1 H2] Hne. split; [intros t; apply H1|apply H2]; simpl; congruence. Qed.

Lemma same_trans run stage m1 m2 m3 :
  same_stage run stage m1 m2 → same_stage run stage m2 m3 → same_stage run stage m1 m3.
Proof. intros [A1 A2] [B1 B2]. split; [intros t; by rewrite B1|by rewrite B2]. Qed.

Lemma stage_closed_frame sess run cutoffAt stage sentAt m0 m m' m1 txns :
  same_stage run stage m0 m → same_stage run stage m' m1 →
  stage_closed sess run cutoffAt stage sentAt m m' txns →
  stage_closed sess run cutoffAt stage sentAt m0 m1 txns.
Proof.
  intros [A1 A2] [B1 B2] [C1 C2 C3 C4].
  assert (∀ t, closed_event sess run stage cutoffAt m sentAt t
    = closed_event sess run stage cutoffAt m0 sentAt t) as E.
  { intros t. unfold closed_event. by rewrite A1. }
  split; [done| | |].
  - intros t. by rewrite C2, A1.
  - intros t Ht. by rewrite B1, C3, E.
  - destruct C4 as (s & Hs & Hc). exists s. split; [by rewrite B2|].
    by rewrite (list_fmap_ext _ (closed_event sess run stage cutoffAt m0 sentAt)) in Hc
      by (intros; apply E).
Qed.

(** At most [N] transactions were sent or called back in a stage. *)
Definition at_most (N : nat) (run : string) m G : Prop :=
  ∀ action stage, (action, stage) ∈ pairs → ∀ txns, NoDup txns →
    (∀ t, t ∈ txns → al_time G run "pipeline_b" action t ≠ None ∨
       is_Some (c_get (mg_events m) (run, stage, t))) → (length txns ≤ N)%nat.

Lemma outcomes_partition evs :
  countb (with_outcome OutcomeSuccess) evs + countb (with_outcome OutcomeFailure) evs
  + countb (with_outcome OutcomeTimeout) evs = length evs.
Proof.
  induction evs as [|ev evs IH]; [done|]. unfold with_outcome in *. simpl.
  destruct (ev_Outcome ev); simpl; lia.
Qed.

(** One stage of the run: the others stay as they were. *)
Lemma finalize_step sess run action stage cutoffAt n N l m0 m G :
  no_colon run → (t0 ≤ cutoffAt < t1)%Z → (action, stage) ∈ pairs → at_most N run m0 G →
  (Z.of_nat (Datatypes.S (n + N)) < 2 ^ 63)%Z → log_repr (t0 := t0) (t1 := t1) n l G →
  keyed event_key (mg_events m) → same_stage run stage m0 m →
  ∃ n' l' m' txns, finalize_stage order sess run cutoffAt (action, stage) (l, m) = (l', m') ∧
    (n' ≤ Datatypes.S (n + N))%nat ∧
    log_repr (t0 := t0) (t1 := t1) n' l' G ∧ keyed event_key (mg_events m') ∧
    other_stages run stage m m' ∧
    stage_closed sess run cutoffAt stage (al_time G run "pipeline_b" action) m0 m' txns.
Proof.
  intros Hr Hn Hp HN Hb Hl Hk Hsame.
  assert (no_colon action) as Ha.
  { unfold pairs in Hp. rewrite !elem_of_cons, elem_of_nil in Hp. naive_solver. }
  assert (∀ txns, NoDup txns → (∀ t, t ∈ txns → al_time G run "pipeline_b" action t ≠ None ∨
      is_Some (c_get (mg_events m) (run, stage, t))) → (length txns ≤ N)%nat) as HN'.
  { intros txns Hnd Ht. apply (HN _ _ Hp txns Hnd). intros t [?|?]%Ht; [by left|right].
    by rewrite <- (proj1 Hsame). }
  destruct (finalize_stage_spec sess run action stage cutoffAt n l m G Hr Ha Hn Hl Hk)
    as (n' & l' & m' & txns & E & Hn' & Hl' & Hk' & Ho & Hc).
  { intros txns Hnd Ht. specialize (HN' txns Hnd Ht). lia. }
  assert (length txns ≤ N)%nat as Hlen.
  { apply HN'; [apply Hc|]. intros t Ht. by apply Hc in Ht as [_ ?]. }
  exists n', l', m', txns. split_and!; [done|lia|done|done|done|].
  apply (stage_closed_frame _ _ _ _ _ m0 m m' m'); [done|by split|done].
Qed.

Lemma finalize_all sess run cutoffAt n N l m G :
  no_colon run → (t0 ≤ cutoffAt < t1)%Z → at_most N run m G →
  (Z.of_nat (n + 3 * S N) < 2 ^ 63)%Z → log_repr (t0 := t0) (t1 := t1) n l G →
  keyed event_key (mg_events m) →
  ∀ action stage, (action, stage) ∈ pairs → ∃ txns,
    stage_closed sess run cutoffAt stage (al_time G run "pipeline_b" action) m
      (finalizeRunLatencies order sess run cutoffAt (l, m)).2 txns.
Proof.
  intros Hr Hn HN Hb Hl Hk.
  destruct (finalize_step sess run "select" StageOnSelect cutoffAt n N l m m G)
    as (n1 & l1 & m1 & x1 & E1 & Hn1 & Hl1 & Hk1 & O1 & C1);
    [done|done|set_solver|done|lia|done|done|by split|].
  destruct (finalize_step sess run "init" StageOnInit cutoffAt n1 N l1 m m1 G)
    as (n2 & l2 & m2 & x2 & E2 & Hn2 & Hl2 & Hk2 & O2 & C2);
    [done|done|set_solver|done|lia|done|done|by eapply other_same|].
  destruct (finalize_step sess run "confirm" StageOnConfirm cutoffAt n2 N l2 m m2 G)
    as (n3 & l3 & m3 & x3 & E3 & Hn3 & Hl3 & Hk3 & O3 & C3);
    [done|done|set_solver|done|lia|done|done|eapply same_trans; by eapply other_same|].
  change (finalizeRunLatencies order sess run cutoffAt (l, m)) with
    (finalize_stage order sess run cutoffAt ("confirm", StageOnConfirm)
      (finalize_stage order sess run cutoffAt ("init", StageOnInit)
        (finalize_stage order sess run cutoffAt ("select", StageOnSelect) (l, m)))).
  rewrite E1, E2, E3. cbn [snd].
  assert (∀ stage, same_stage run stage m m) as Hrefl by done.
  intros action stage. unfold pairs. rewrite !elem_of_cons, elem_of_nil.
  intros [[= -> ->]|[[= -> ->]|[[= -> ->]|[]]]].
  - exists x1. eapply stage_closed_frame; [apply Hrefl| |exact C1].
    eapply same_trans; by eapply other_same.
  - exists x2. eapply stage_closed_frame; [apply Hrefl| |exact C2]. by eapply other_same.
  - by exists x3.
Qed.
End Accounting.

(** C12: When a run is finalized its books balance.  In each of the three
    stages, every transaction that was sent or called back has exactly one
    event: the one recorded when it was called back, or a new one, a timeout
    if it was sent at least 30 seconds before and a failure if not.  The
    summary counts these events: its total is their number and the sum of
    successes, failures and timeouts, and its percentiles are those of the
    successful ones.  This holds on every run log that keeps its contract and
    for every order in which the map of transactions is walked. *)
Theorem finalize_accounts {B L} `{MongoServer B, RunLogStore B L} {t0 t1 : Z}
    `{!RunLogRefines B L t0 t1} order sess run cutoffAt n N (l : L) (m : MongoStore B) G :
  (∀ X, NoDup (order X) ∧ ∀ t, t ∈ order X ↔ t ∈ X) →
  no_colon run → (t0 ≤ cutoffAt < t1)%Z → at_most N run m G →
  (Z.of_nat (n + 3 * S N) < 2 ^ 63)%Z → log_repr (t0 := t0) (t1 := t1) n l G →
  keyed event_key (mg_events m) →
  ∀ action stage, (action, stage) ∈ pairs → ∃ txns s,
    let m' := (finalizeRunLatencies order sess run cutoffAt (l, m)).2 in
    stage_closed sess run cutoffAt stage (al_time G run "pipeline_b" action) m m' txns ∧
    c_get (mg_summaries m') (run, stage) = Some s ∧
    sum_Total s = (sum_SuccessCount s + sum_FailureCount s + sum_TimeoutCount s)%Z.
Proof.
  intros Hord Hr Hn HN Hb Hl Hk action stage Hp.
  destruct (finalize_all order Hord sess run cutoffAt n N l m G Hr Hn HN Hb Hl Hk action stage Hp)
    as [txns Hc].
  destruct (sc_summary _ _ _ _ _ _ _ _ Hc) as (s & Hs & E1 & E2 & E3 & E4 & _).
  exists txns, s. split_and!; [done|done|]. rewrite E1, E2, E3, E4.
  rewrite <- !Nat2Z.inj_add, outcomes_partition, length_fmap. done.
Qed.

(** ** Witness: a callback, a fresh request and an old one *)

Definition demo_sent : list (Z * op string) :=
  [(0%Z, RecordTimestamp "r1" "pipeline_b" "select" "t1" 0);
   (0%Z, RecordTimestamp "r1" "pipeline_b" "select" "t2" (30 * second));
   (0%Z, RecordTimestamp "r1" "pipeline_b" "select" "t3" second)].
Definition demo_callback : RunLatencyEvent :=
  mkEvent "s1" "r1" StageOnSelect "t1" 0 (Some 9000000%Z) (Some 9%Z) OutcomeSuccess 9000000 "".
Definition demo_log : MemoryStore string := (log_calls demo_sent NewMemoryStore).2.
Definition demo_events : MongoStore string :=
  Mongo_UpsertRunLatencyEvent (Some demo_callback) NewMongoStore.
Definition demo_order (X : gset string) : list string := elements X.

Lemma demo_at_most : at_most 3 "r1" demo_events (alog_run demo_sent alog_empty).
Proof.
  intros action stage _ txns Hnd Ht. change 3 with (length ["t1"; "t2"; "t3"]).
  apply submseteq_length, NoDup_submseteq; [done|]. intros t Hin.
  destruct (Ht t Hin) as [Hs|He].
  - change (al_time (alog_run demo_sent alog_empty) "r1" "pipeline_b" action t) with
      (if eqb3 "r1" "pipeline_b" "select" "r1" "pipeline_b" action && (t =? "t3") then Some second
       else if eqb3 "r1" "pipeline_b" "select" "r1" "pipeline_b" action && (t =? "t2")
       then Some (30 * second)%Z
       else if eqb3 "r1" "pipeline_b" "select" "r1" "pipeline_b" action && (t =? "t1")
       then Some 0%Z else None) in Hs.
    destruct (eqb3 _ _ _ _ _ _); [|done]. cbn [andb] in Hs.
    destruct (String.eqb_spec t "t3") as [->|]; [set_solver|].
    destruct (String.eqb_spec t "t2") as [->|]; [set_solver|].
    destruct (String.eqb_spec t "t1") as [->|]; [set_solver|done].
  - change (is_Some ((<[("r1", StageOnSelect, "t1") := demo_callback]> ∅
      : gmap (string * Stage * string) RunLatencyEvent) !! ("r1", stage, t))) in He.
    destruct He as [e [[E _]|[_ He]]%lookup_insert_Some]; [injection E as _ <-; set_solver|].
    by rewrite lookup_empty in He.
Qed.

#[local] Transparent gmap_empty.

Lemma finalize_accounts_witness :
  ∃ txns s,
    let m' := (finalizeRunLatencies demo_order "s1" "r1" (40 * second) (demo_log, demo_events)).2 in
    stage_closed "s1" "r1" (40 * second) StageOnSelect
      (al_time (alog_run demo_sent alog_empty) "r1" "pipeline_b" "select") demo_events m' txns ∧
    c_get (mg_summaries m') ("r1", StageOnSelect) = Some s ∧
    sum_Total s = (sum_SuccessCount s + sum_FailureCount s + sum_TimeoutCount s)%Z.
Proof.
  assert (calls_ok 0 (100 * second) demo_sent) as [_ Hok].
  { split; [done|]. repeat constructor; vm_compute; congruence. }
  pose proof (log_calls_repr (RunLogRefines0 := memory_refines 0 (100 * second)) demo_sent 0
    NewMemoryStore alog_empty ltac:(done) Hok (log_repr_new (RunLogRefines := memory_refines 0 _)))
    as Hl.
  apply (finalize_accounts (t0 := 0) (t1 := 100 * second) demo_order "s1" "r1" (40 * second) 3 3
    demo_log demo_events (alog_run demo_sent alog_empty)) with (action := "select");
    [|done|by vm_compute|apply demo_at_most|done|exact Hl| |set_solver].
  - intros X. split; [apply NoDup_elements|]. intros t. apply elem_of_elements.
  - apply (insert_events_keyed [demo_callback]), keyed_empty.
Defined.
