(* ===== verification/LatencyQueue.v ===== *)
(** * The latency queue: [internal/handlers/callbacks/routes.go]

    A callback handler hands its latency event to a buffered channel that a
    pool of workers drains into the persistent store; when the channel is full
    the handler writes the event itself.  The threads are interleaved step by
    step: [exec] performs one atomic action of the thread a scheduler chooses.
    The store is up, so writes succeed; [q_stored] lists them in order and
    [q_store] is the store they leave.  The counters stay far below 2^63. *)
From stdpp Require Import prelude gmap list strings.
From S2P Require Import Prelude GoStrings ApiError Latency SessionTypes Mongo.

(** [readLatencyQueueSize] and [readLatencyWorkerCount] of the variable's
    value. *)
Definition read_positive (v : string) (fallback : Z) : Z :=
  let '(n, ok) := ParseInt v in if negb ok || (n <=? 0)%Z then fallback else n.
Definition readLatencyQueueSize (v : string) : Z := read_positive v 2048.
Definition readLatencyWorkerCount (v : string) : Z := read_positive v 4.

(** A handler in [enqueueLatencyEvent] and after it. *)
Inductive producer :=
  | PSend (e : RunLatencyEvent)
  | PDepth                     (* len(c.latencyQueue) *)
  | PLoad (depth : nat)        (* queueMaxDepth.Load *)
  | PCas (depth cur : nat)     (* queueMaxDepth.CompareAndSwap *)
  | PDrop (e : RunLatencyEvent)    (* queueDropped.Add *)
  | PFall (e : RunLatencyEvent)    (* queueSyncFallback.Add, return false *)
  | PSync (e : RunLatencyEvent)    (* UpsertRunLatencyEvent by the handler *)
  | PDone (sync : bool).

Record qstate := mkQ {
  q_chan : list RunLatencyEvent;
  q_workers : list (option RunLatencyEvent);   (* the event a worker holds *)
  q_producers : list producer;
  q_max : nat;
  q_dropped : nat;
  q_sync : nat;
  q_stored : list RunLatencyEvent;
}.

Inductive choice := CProducer (i : nat) | CWorker (i : nat).

Section Queue.
Variable cap : nat.

Definition exec_producer (i : nat) (s : qstate) : option qstate :=
  let 'mkQ ch ws ps mx dr sy st := s in
  match ps !! i with
  | Some (PSend e) =>
      if length ch <? cap
      then Some (mkQ (ch ++ [e]) ws (<[i := PDepth]> ps) mx dr sy st)
      else Some (mkQ ch ws (<[i := PDrop e]> ps) mx dr sy st)
  | Some PDepth => Some (mkQ ch ws (<[i := PLoad (length ch)]> ps) mx dr sy st)
  | Some (PLoad depth) =>
      Some (mkQ ch ws (<[i := if depth <=? mx then PDone false else PCas depth mx]> ps) mx dr sy st)
  | Some (PCas depth cur) =>
      if mx =? cur
      then Some (mkQ ch ws (<[i := PDone false]> ps) depth dr sy st)
      else Some (mkQ ch ws (<[i := PLoad depth]> ps) mx dr sy st)
  | Some (PDrop e) => Some (mkQ ch ws (<[i := PFall e]> ps) mx (S dr) sy st)
  | Some (PFall e) => Some (mkQ ch ws (<[i := PSync e]> ps) mx dr (S sy) st)
  | Some (PSync e) => Some (mkQ ch ws (<[i := PDone true]> ps) mx dr sy (st ++ [e]))
  | Some (PDone _) | None => None
  end.

(** [latencyWorker]: receive, then upsert. *)
Definition exec_worker (i : nat) (s : qstate) : option qstate :=
  let 'mkQ ch ws ps mx dr sy st := s in
  match ws !! i with
  | Some None =>
      match ch with
      | e :: ch' => Some (mkQ ch' (<[i := Some e]> ws) ps mx dr sy st)
      | [] => None
      end
  | Some (Some e) => Some (mkQ ch (<[i := None]> ws) ps mx dr sy (st ++ [e]))
  | None => None
  end.

Definition exec (c : choice) (s : qstate) : option qstate :=
  match c with CProducer i => exec_producer i s | CWorker i => exec_worker i s end.

Definition q_init (evs : list RunLatencyEvent) (workers : nat) : qstate :=
  mkQ [] (replicate workers None) (PSend <$> evs) 0 0 0 [].

(** The store after the writes. *)
Definition q_store {B} `{MongoServer B} (m : MongoStore B) (s : qstate) : MongoStore B :=
  foldl (λ m e, Mongo_UpsertRunLatencyEvent (Some e) m) m (q_stored s).

(** ** The invariant *)

Definition pending (p : producer) : list RunLatencyEvent :=
  match p with PSend e | PDrop e | PFall e | PSync e => [e] | _ => [] end.
Definition held (w : option RunLatencyEvent) : list RunLatencyEvent := option_list w.

(** Where every event is. *)
Definition events_of (s : qstate) : list RunLatencyEvent :=
  q_stored s ++ q_chan s ++ mjoin (held <$> q_workers s) ++ mjoin (pending <$> q_producers s).

Definition was_dropped (p : producer) : bool :=
  match p with PFall _ | PSync _ | PDone true => true | _ => false end.
Definition fell_back (p : producer) : bool :=
  match p with PSync _ | PDone true => true | _ => false end.

Definition producer_ok (mx : nat) (p : producer) : Prop :=
  match p with
  | PLoad depth => depth ≤ cap
  | PCas depth cur => cur ≤ mx ∧ cur < depth ≤ cap
  | _ => True
  end.

Record Inv (evs : list RunLatencyEvent) (workers : nat) (s : qstate) : Prop := {
  inv_events : events_of s ≡ₚ evs;
  inv_cap : length (q_chan s) ≤ cap;
  inv_max : q_max s ≤ cap;
  inv_producers : Forall (producer_ok (q_max s)) (q_producers s);
  inv_dropped : q_dropped s = countb was_dropped (q_producers s);
  inv_sync : q_sync s = countb fell_back (q_producers s);
  inv_workers : length (q_workers s) = workers;
  inv_count : length (q_producers s) = length evs;
}.

Lemma join_insert {X} (f : X → list RunLatencyEvent) (l : list X) i x y :
  l !! i = Some x →
  f x ++ mjoin (f <$> <[i := y]> l) ≡ₚ f y ++ mjoin (f <$> l).
Proof.
  revert i. induction l as [|z l IH]; intros [|i] Hi; simplify_eq/=.
  - rewrite !(assoc_L (++)). by rewrite (Permutation_app_comm (f x)).
  - specialize (IH _ Hi). rewrite !(assoc_L (++)). rewrite (Permutation_app_comm (f x)).
    rewrite (Permutation_app_comm (f y)). rewrite <- !(assoc_L (++)). by rewrite IH.
Qed.

Lemma queue_inv_init evs workers : Inv evs workers (q_init evs workers).
Proof.
  assert (mjoin (held <$> replicate workers None) = []) as Hw.
  { induction workers as [|n IH]; [done|]. csimpl. exact IH. }
  split; unfold events_of; simpl; try done; try lia.
  - rewrite Hw. simpl. induction evs as [|e evs IH]; csimpl; [done|]. by rewrite IH.
  - apply Forall_fmap, Forall_true. done.
  - induction evs as [|e evs IH]; csimpl; [done|]. done.
  - induction evs as [|e evs IH]; csimpl; [done|]. done.
  - apply length_replicate.
  - apply length_fmap.
Qed.

(** A step of a producer that moves the event between a thread and the lists
    by [d]. *)
Lemma producers_ok_mono mx mx' ps :
  mx ≤ mx' → Forall (producer_ok mx) ps → Forall (producer_ok mx') ps.
Proof. intros Hle Hps. apply (Forall_impl _ _ _ Hps). intros []; simpl; lia. Qed.

(** Follows the counts and the locations of the events through a step. *)
Ltac queue_step Hj Hcd Hcf Hins :=
  match goal with
  | |- Inv _ _ (mkQ _ _ (<[_ := ?y]> _) _ _ _ _) =>
      specialize (Hj y); specialize (Hcd y); specialize (Hcf y); simpl in Hj, Hcd, Hcf;
      split; unfold events_of; simpl; rewrite ?length_insert; try done; try lia;
      try (apply Hins; simpl; lia)
  end.

Lemma Inv_producer evs workers i s s' :
  exec_producer i s = Some s' → Inv evs workers s → Inv evs workers s'.
Proof.
  destruct s as [ch ws ps mx dr sy st]. simpl. intros He [Hev Hc Hm Hp Hd Hs Hw Hn].
  unfold events_of in *. simpl in *.
  destruct (ps !! i) as [p|] eqn:Hi; [|done].
  pose proof (λ y, join_insert pending ps i p y Hi) as Hj.
  pose proof (λ y, countb_insert was_dropped ps i p y Hi) as Hcd.
  pose proof (λ y, countb_insert fell_back ps i p y Hi) as Hcf.
  pose proof (Forall_lookup_1 _ _ _ _ Hp Hi) as Hpi.
  assert (∀ y mx', mx ≤ mx' → producer_ok mx' y → Forall (producer_ok mx') (<[i := y]> ps)) as Hins.
  { intros y mx' Hle Hy. apply Forall_insert; [by apply (producers_ok_mono mx)|done]. }
  destruct p as [e| |depth|depth cur|e|e|e|b]; simpl in Hpi; simplify_eq.
  - destruct (Nat.ltb_spec (length ch) cap); simplify_eq; queue_step Hj Hcd Hcf Hins.
    + rewrite <- Hev, <- Hj, <- !(assoc_L (++)). do 2 apply Permutation_app_head.
      simpl. apply Permutation_middle.
    + rewrite length_app. simpl. lia.
    + apply Permutation_cons_inv in Hj. by rewrite Hj.
  - queue_step Hj Hcd Hcf Hins. by rewrite Hj.
  - destruct (Nat.leb_spec depth mx); queue_step Hj Hcd Hcf Hins; by rewrite Hj.
  - destruct (Nat.eqb_spec mx cur); simplify_eq; queue_step Hj Hcd Hcf Hins; by rewrite Hj.
  - queue_step Hj Hcd Hcf Hins. apply Permutation_cons_inv in Hj. by rewrite Hj.
  - queue_step Hj Hcd Hcf Hins. apply Permutation_cons_inv in Hj. by rewrite Hj.
  - queue_step Hj Hcd Hcf Hins. rewrite <- Hev, <- Hj, <- !(assoc_L (++)). apply Permutation_app_head.
    simpl. rewrite !(assoc_L (++)). apply Permutation_middle.
Qed.

Lemma Inv_worker evs workers i s s' :
  exec_worker i s = Some s' → Inv evs workers s → Inv evs workers s'.
Proof.
  destruct s as [ch ws ps mx dr sy st]. simpl. intros He [Hev Hc Hm Hp Hd Hs Hw Hn].
  unfold events_of in *. simpl in *.
  destruct (ws !! i) as [w|] eqn:Hi; [|done].
  pose proof (λ y, join_insert held ws i w y Hi) as Hj.
  destruct w as [e|]; [|destruct ch as [|e ch]; [done|]]; simplify_eq; simpl in Hj;
    split; unfold events_of; simpl; rewrite ?length_insert; try done; try (simpl in Hc; lia).
  - specialize (Hj None). simpl in Hj. rewrite <- Hev, <- Hj, <- !(assoc_L (++)).
    apply Permutation_app_head. simpl. apply Permutation_middle.
  - specialize (Hj (Some e)). simpl in Hj. rewrite <- Hev, Hj. apply Permutation_app_head. simpl.
    by rewrite <- Permutation_middle.
Qed.

Lemma queue_inv_step evs workers c s s' : exec c s = Some s' → Inv evs workers s → Inv evs workers s'.
Proof. destruct c; simpl; [apply Inv_producer|apply Inv_worker]. Qed.

Lemma queue_inv_reachable evs workers s : reachable exec (q_init evs workers) s → Inv evs workers s.
Proof.
  intros [cs Hcs]. apply (run_sched_invariant exec (Inv evs workers) (queue_inv_step evs workers) cs _ _ Hcs).
  apply queue_inv_init.
Qed.

(** ** Progress and termination *)

Definition weight (mx : nat) (p : producer) : nat :=
  match p with
  | PSend _ => 6 | PDepth => 3 | PLoad _ => 2
  | PCas _ cur => if cur <? mx then 3 else 1
  | PDrop _ => 3 | PFall _ => 2 | PSync _ => 1 | PDone _ => 0
  end.
Definition fuel (s : qstate) : nat :=
  (cap - q_max s) * (2 * length (q_producers s) + 2) + 2 * length (q_chan s)
  + countb (λ w, bool_decide (is_Some w)) (q_workers s)
  + sum_list_with (weight (q_max s)) (q_producers s).

Lemma weight_mono mx mx' ps :
  sum_list_with (weight mx') ps ≤ sum_list_with (weight mx) ps + 2 * length ps.
Proof.
  induction ps as [|p ps IH]; simpl; [lia|].
  assert (weight mx' p ≤ weight mx p + 2); [|lia].
  destruct p; simpl; try lia. repeat case_match; lia.
Qed.

Lemma fuel_producer evs workers i s s' :
  exec_producer i s = Some s' → Inv evs workers s → fuel s' < fuel s.
Proof.
  destruct s as [ch ws ps mx dr sy st]. unfold fuel. simpl. intros He [_ Hc Hm Hp _ _ _ _].
  simpl in *. destruct (ps !! i) as [p|] eqn:Hi; [|done].
  pose proof (λ y, sum_list_insert (weight mx) ps i p y Hi) as Hw.
  pose proof (Forall_lookup_1 _ _ _ _ Hp Hi) as Hpi.
  destruct p as [e| |depth|depth cur|e|e|e|b]; simpl in Hpi; simplify_eq.
  - destruct (Nat.ltb_spec (length ch) cap); simplify_eq; simpl; rewrite length_insert.
    + specialize (Hw PDepth). rewrite length_app. simpl in *. lia.
    + specialize (Hw (PDrop e)). simpl in *. lia.
  - simpl. rewrite length_insert. specialize (Hw (PLoad (length ch))). simpl in *. lia.
  - simpl. rewrite length_insert. destruct (depth <=? mx).
    + specialize (Hw (PDone false)). simpl in *. lia.
    + specialize (Hw (PCas depth mx)). simpl in *. rewrite Nat.ltb_irrefl in Hw. lia.
  - destruct (Nat.eqb_spec mx cur) as [->|Hne]; simplify_eq; simpl; rewrite length_insert.
    + specialize (Hw (PDone false)). simpl in Hw. rewrite Nat.ltb_irrefl in Hw.
      pose proof (weight_mono cur depth (<[i:=PDone false]> ps)) as Hmono.
      rewrite length_insert in Hmono.
      assert (cap - cur = (cap - depth) + (depth - cur)) as -> by lia.
      assert (1 ≤ depth - cur) as Hd by lia.
      pose proof (Nat.mul_le_mono_r _ _ (2 * length ps + 2) Hd). nia.
    + specialize (Hw (PLoad depth)). simpl in Hw.
      rewrite (proj2 (Nat.ltb_lt cur mx)) in Hw by lia. lia.
  - simpl. rewrite length_insert. specialize (Hw (PFall e)). simpl in *. lia.
  - simpl. rewrite length_insert. specialize (Hw (PSync e)). simpl in *. lia.
  - simpl. rewrite length_insert. specialize (Hw (PDone true)). simpl in *. lia.
Qed.

Lemma fuel_worker i s s' : exec_worker i s = Some s' → fuel s' < fuel s.
Proof.
  destruct s as [ch ws ps mx dr sy st]. unfold fuel. simpl. intros He.
  destruct (ws !! i) as [w|] eqn:Hi; [|done].
  pose proof (λ y, countb_insert (λ w, bool_decide (is_Some w)) ws i w y Hi) as Hw.
  destruct w as [e|]; [|destruct ch as [|e ch]; [done|]]; simplify_eq; simpl.
  - specialize (Hw None). simpl in Hw. lia.
  - specialize (Hw (Some e)). simpl in Hw. lia.
Qed.

Definition is_done (p : producer) : bool := match p with PDone _ => true | _ => false end.

(** Every handler is through, the channel is empty and the workers wait. *)
Definition quiescent (s : qstate) : Prop :=
  Forall (λ p, is_done p = true) (q_producers s) ∧ q_chan s = [] ∧
  Forall (λ w, w = None) (q_workers s).

Lemma progress evs workers s :
  0 < workers → Inv evs workers s → quiescent s ∨ ∃ c s', exec c s = Some s'.
Proof.
  destruct s as [ch ws ps mx dr sy st]. intros Hpos [_ _ _ _ _ _ Hw _]. unfold quiescent.
  simpl in *.
  assert (∀ p, {is_done p = true} + {is_done p = false}) as Hdp by (intros []; auto).
  destruct (Forall_Exists_dec _ _ Hdp ps) as [Hps|Hex].
  2: { right. apply Exists_exists in Hex as (p & [i Hi]%list_elem_of_lookup_1 & Hp).
    exists (CProducer i). simpl. rewrite Hi.
    destruct p; try discriminate; try case_match; eauto. }
  assert (∀ w : option RunLatencyEvent, {w = None} + {is_Some w}) as Hdw
    by (intros [e|]; [right|left]; eauto).
  destruct (Forall_Exists_dec _ _ Hdw ws) as [Hws|Hex].
  2: { right. apply Exists_exists in Hex as (w & [i Hi]%list_elem_of_lookup_1 & [e ->]).
    exists (CWorker i). simpl. rewrite Hi. eauto. }
  destruct ch as [|e ch]; [by left|]. right. destruct ws as [|w ws]; [simpl in Hw; lia|].
  apply Forall_cons in Hws as [-> _]. exists (CWorker 0). simpl. eauto.
Qed.
End Queue.

(** The events of a quiescent state are all in the store. *)
Lemma stored_get {B} `{MongoServer B} (m : MongoStore B) s k :
  c_get (mg_events (q_store m s)) k =
    match c_get (mg_events m) k with Some e => Some e | None => first_event k (q_stored s) end.
Proof.
  rewrite <- (insert_events_get (q_stored s)). unfold q_store. f_equal.
  generalize (q_stored s). intros es. revert m.
  induction es as [|e es IH]; intros m; simpl; [done|]. by rewrite IH.
Qed.

Lemma quiescent_stored cap evs workers s :
  Inv cap evs workers s → quiescent s → q_stored s ≡ₚ evs.
Proof.
  destruct s as [ch ws ps mx dr sy st]. intros [Hev _ _ _ _ _ _ _] (Hp & Hc & Hw).
  unfold events_of in Hev. simpl in *. subst ch.
  assert (mjoin (held <$> ws) = []) as E1.
  { clear -Hw. induction Hw as [|w ws -> _ IH]; [done|]. exact IH. }
  assert (mjoin (pending <$> ps) = []) as E2.
  { clear -Hp. induction Hp as [|p ps Hp _ IH]; [done|]. destruct p; done. }
  by rewrite E1, E2, !app_nil_r in Hev.
Qed.

Lemma first_event_in k es e : e ∈ es → event_key e = k → is_Some (first_event k es).
Proof.
  induction es as [|e' es IH]; [by intros ?%elem_of_nil|]. intros [->|Hin]%elem_of_cons Hk; simpl.
  - by rewrite bool_decide_true.
  - case_bool_decide; eauto.
Qed.

(** C15: No latency event is lost or written twice on its way through the
    queue.  Under every scheduler each event is at every moment in exactly one
    place - with its handler, in the channel, with a worker, or written; the
    channel and the depth statistic stay within the capacity; the two overflow
    counters count the events the handlers take back, of which every one is
    written by its handler; and the handlers and workers cannot get stuck and
    come to rest after a bounded number of steps, when every event has been
    written exactly once and the store has an event for its key. *)
Theorem latency_queue_exact {B} `{MongoServer B} (m : MongoStore B) cap evs workers cs s :
  0 < workers → run_sched (exec cap) cs (q_init evs workers) = Some s →
  events_of s ≡ₚ evs ∧ length (q_chan s) ≤ cap ∧ q_max s ≤ cap ∧
  q_dropped s = countb was_dropped (q_producers s) ∧ q_sync s = countb fell_back (q_producers s) ∧
  (quiescent s ∨ ∃ c s', exec cap c s = Some s') ∧
  length cs ≤ cap * (2 * length evs + 2) + 6 * length evs ∧
  (quiescent s →
    q_stored s ≡ₚ evs ∧ q_dropped s = q_sync s ∧
    ∀ e, e ∈ evs → is_Some (c_get (mg_events (q_store m s)) (event_key e))).
Proof.
  intros Hw Hcs. pose proof (queue_inv_reachable cap evs workers s (ex_intro _ _ Hcs)) as HI.
  split_and!; try apply HI.
  - by eapply progress.
  - pose proof (run_sched_measure _ (Inv cap evs workers) (fuel cap) (queue_inv_step cap evs workers)) as Hm.
    specialize (Hm ltac:(intros [i|i] ? ? ? ?; [by eapply fuel_producer|by eapply fuel_worker])).
    specialize (Hm _ _ _ Hcs (queue_inv_init cap evs workers)).
    enough (fuel cap (q_init evs workers) = cap * (2 * length evs + 2) + 6 * length evs) by lia.
    unfold fuel. simpl. rewrite length_fmap, Nat.sub_0_r.
    replace (countb (λ w, bool_decide (is_Some w)) (replicate workers None)) with 0
      by (clear; induction workers; simpl; done).
    enough (sum_list_with (weight 0) (PSend <$> evs) = 6 * length evs) by lia.
    clear. induction evs; csimpl; lia.
  - intros Hq. pose proof (quiescent_stored _ _ _ _ HI Hq) as Hst. split_and!; [done| |].
    + rewrite (inv_dropped _ _ _ _ HI), (inv_sync _ _ _ _ HI). destruct Hq as [Hp _].
      clear -Hp. induction Hp as [|p ps Hp _ IH]; simpl; [done|]. rewrite IH. by destruct p as [| | | | | | |[]].
    + intros e He. rewrite stored_get. destruct (c_get _ _); [eauto|].
      apply (first_event_in _ _ e); [by rewrite Hst|done].
Qed.

(** One worker, a channel of one place, two handlers at once: the second
    finds the channel full. *)
Definition demo_ev (t : string) : RunLatencyEvent :=
  mkEvent "s1" "r1" StageOnSelect t 0 None None OutcomeSuccess 1 "".
Definition demo_schedule : list choice :=
  [CProducer 0; CProducer 1; CProducer 0; CProducer 1; CProducer 0; CWorker 0; CProducer 0;
   CProducer 1; CProducer 1; CWorker 0].

Lemma latency_queue_exact_witness :
  ∃ s, run_sched (exec 1) demo_schedule (q_init [demo_ev "t1"; demo_ev "t2"] 1) = Some s ∧
    quiescent s ∧ q_stored s ≡ₚ [demo_ev "t1"; demo_ev "t2"].
Proof.
  eexists. split; [reflexivity|].
  assert (quiescent (mkQ [] [None] [PDone false; PDone true] 1 1 1 [demo_ev "t2"; demo_ev "t1"])) as Hq.
  { split_and!; repeat constructor. }
  split; [exact Hq|].
  refine (proj1 (_ Hq)).
  apply (latency_queue_exact (NewMongoStore (B := string)) 1 [demo_ev "t1"; demo_ev "t2"] 1
    demo_schedule); [lia|reflexivity].
Defined.
