(* ===== verification/Manager.v ===== *)
(** * Sessions and runs: [internal/domain/session/manager.go]

    [Manager] owns the life cycle of sessions and runs on top of the two
    store interfaces.  Its methods are programs ([prog]) whose steps are calls
    of the state store and of the persistent store, so they run on any
    implementation of the interfaces; [run_transfer] transfers what is proved
    of a run on the abstract state store to every refinement of it, the Redis
    store in particular.

    The clock is read once per method ([now]); fresh UUIDs are arguments. *)
From stdpp Require Import prelude gmap list strings.
From S2P Require Import Prelude GoStrings Float64 ApiError Latency SessionTypes StateStore Redis SessionRedis Mongo.
Local Open Scope string_scope.

Section Prog.
Context {B : Type} `{MongoServer B}.
Abbreviation P := (MongoStore B).

Inductive prog (A : Type) : Type :=
  | Ret (a : A)
  | State {T} (c : call B T) (k : T → prog A)
  | Persist {T} (f : P → T * P) (k : T → prog A).
Arguments Ret {A} a.
Arguments State {A T} c k.
Arguments Persist {A T} f k.

Fixpoint bind {A C} (p : prog A) (k : A → prog C) : prog C :=
  match p with
  | Ret a => k a
  | State c k' => State c (λ x, bind (k' x) k)
  | Persist f k' => Persist f (λ x, bind (k' x) k)
  end.

Definition st {T} (c : call B T) : prog T := State c Ret.
(** A read of the persistent store, and a write. *)
Definition load {T} (f : P → T) : prog T := Persist (λ m, (f m, m)) Ret.
Definition save (f : P → P) : prog () := Persist (λ m, ((), f m)) Ret.

(** The stores: the state store and the persistent one. *)
Fixpoint run {S} `{StateStore B S} {A} (now : Z) (p : prog A) (w : S * P) : A * (S * P) :=
  match p with
  | Ret a => (a, w)
  | State c k => let '(x, s) := st_call now c w.1 in run now (k x) (s, w.2)
  | Persist f k => let '(x, m) := f w.2 in run now (k x) (w.1, m)
  end.

Lemma run_bind {S} `{StateStore B S} {A C} now (p : prog A) (k : A → prog C) (w : S * P) :
  run now (bind p k) w = let '(x, w') := run now p w in run now (k x) w'.
Proof.
  revert w. induction p as [a|T c k' IH|T f k' IH]; intros w; cbn [bind run]; [done| |].
  - destruct (st_call now c w.1) as [x s]. apply IH.
  - destruct (f w.2) as [x m]. apply IH.
Qed.
End Prog.
Arguments prog B {_} A.
Arguments Ret {B _ A} a.

Notation "'let!' x := p 'in' k" := (bind p (λ x, k))
  (at level 10, x name, p at level 200, k at level 200).

(** ** The methods *)
Section Manager.
Context {B : Type} `{MongoServer B}.

(** [NewManager]: the session TTL in ns. *)
Definition manager_ttl (sessionTTLSeconds : Z) : Z :=
  wrap64 ((if sessionTTLSeconds <=? 0 then 3600 else sessionTTLSeconds) * 1000000000)%Z.

(** The second half of [Create]: the writes of the new session. *)
Definition store_new_session (now : Z) (s : Session) : prog B (result error Session) :=
  let! r := st (CreateSession s) in
  match r with
  | Err e => Ret (Err e)
  | Ok _ =>
      let! r := st (SetCatalogState (s_ID s) (mkCatalogState CatalogNone "" now)) in
      match r with
      | Err e => Ret (Err e)
      | Ok _ =>
          let! r := st (SetPreorderState (s_ID s) (mkPreorderState PreorderIdle "")) in
          match r with
          | Err e => Ret (Err e)
          | Ok _ => let! _ := save (Mongo_SaveSession s) in Ret (Ok s)
          end
      end
  end.

Definition Manager_Create (ttl now : Z) (uuid bppID bppURI coreVersion domain : string)
  : prog B (result error Session) :=
  let! existing := st (GetSessionByBPP bppID) in
  let! _ := match existing with
            | Ok e => st (DeleteSession (s_ID e))
            | Err _ => Ret (Ok ())
            end in
  let! _ := save (Mongo_ExpireSessionsByBPP bppID) in
  store_new_session now
    (mkSession uuid bppID bppURI SessionActive now (now + ttl) coreVersion domain false true).

(** [time.Now().UTC().After(s.ExpiresAt)]. *)
Definition past_expiry (now : Z) (s : Session) : bool := (s_ExpiresAt s <? now)%Z.

Definition Manager_Get (now : Z) (id : string) : prog B (result error Session) :=
  let! r := st (GetSession id) in
  Ret (match r with
       | Err _ => Err (ECustom ErrSessionNotFound)
       | Ok s => if bool_decide (s_Status s = SessionExpired) || past_expiry now s
                 then Err (ECustom ErrSessionExpired) else Ok s
       end).

Definition Manager_GetAny (now : Z) (id : string) : prog B (result error Session) :=
  let! r := st (GetSession id) in
  let! r := match r with
        | Ok s => Ret (Ok s)
        | Err _ => load (Mongo_GetSessionByID id)
        end in
  match r with
  | Err _ => Ret (Err (ECustom ErrSessionNotFound))
  | Ok s =>
      if bool_decide (s_Status s = SessionActive) && past_expiry now s
      then let s := set_session_status SessionExpired s in
           let! _ := save (Mongo_SaveSession s) in Ret (Ok s)
      else Ret (Ok s)
  end.

(** The two setters differ in the field they assign. *)
Definition update_session (f : Session → Session) (now : Z) (id : string)
  : prog B (result error Session) :=
  let! r := Manager_GetAny now id in
  match r with
  | Err e => Ret (Err e)
  | Ok s =>
      let s := f s in
      let! r := st (CreateSession s) in
      match r with
      | Err e => Ret (Err e)
      | Ok _ => let! _ := save (Mongo_SaveSession s) in Ret (Ok s)
      end
  end.
Definition Manager_SetVerificationEnabled (now : Z) (id : string) (enabled : bool) :=
  update_session (set_verification enabled) now id.
Definition Manager_SetErrorInjectionEnabled (now : Z) (id : string) (enabled : bool) :=
  update_session (set_error_injection enabled) now id.

Definition Manager_Delete (id : string) : prog B (result error ()) :=
  let! r := st (GetSession id) in
  let! r := match r with
        | Ok _ => let! _ := st (DeleteSession id) in Ret (Ok ())
        | Err _ =>
            let! r := load (Mongo_GetSessionByID id) in
            Ret (match r with Ok _ => Ok () | Err _ => Err (ECustom ErrSessionNotFound) end)
        end in
  match r with
  | Err e => Ret (Err e)
  | Ok _ => let! _ := save (Mongo_HardDeleteSession id) in Ret (Ok ())
  end.

Definition Manager_DeleteAllByBPP (bppID : string) : prog B Z :=
  let! active := st (GetSessionByBPP bppID) in
  let! _ := match active with
        | Ok s => st (DeleteSession (s_ID s))
        | Err _ => Ret (Ok ())
        end in
  Persist _ (Mongo_HardDeleteSessionsByBPP bppID) Ret.

(** *** Runs *)

(** [StartRun] reads the state of the session, and then writes it; nothing
    keeps another start from coming between the two. *)
Definition StartRun_check (sessionID : string) : prog B (result error ()) :=
  let! ps := st (GetPreorderState sessionID) in
  match ps with
  | Err e => Ret (Err e)
  | Ok ps =>
      Ret (if bool_decide (ps_Status ps = PreorderRunning) then Err (ECustom ErrRunAlreadyActive) else Ok ())
  end.

Definition StartRun_write (now : Z) (uuid sessionID bppID : string) (rps durationSec : Z)
  : prog B (result error Run) :=
  let r := mkRun uuid sessionID bppID rps durationSec "running" metrics0 throttle0 journeys0
             now zero_time in
  let! x := st (CreateRun r) in
  match x with
  | Err e => Ret (Err e)
  | Ok _ =>
      let! x := st (SetPreorderState sessionID (mkPreorderState PreorderRunning (r_ID r))) in
      match x with Err e => Ret (Err e) | Ok _ => Ret (Ok r) end
  end.

Definition Manager_StartRun (now : Z) (uuid sessionID bppID : string) (rps durationSec : Z)
  : prog B (result error Run) :=
  let! x := StartRun_check sessionID in
  match x with
  | Err e => Ret (Err e)
  | Ok _ => StartRun_write now uuid sessionID bppID rps durationSec
  end.

(** [ActionMetrics] of a latency summary. *)
Definition summary_metrics (s : RunLatencySummary) : ActionMetrics :=
  mkAction (sum_Total s) (sum_SuccessCount s) (sum_FailureCount s) (sum_TimeoutCount s)
    (sum_AvgMS s) (sum_P90MS s) (sum_P95MS s) (sum_P99MS s).

Definition merge_summaries (sums : gmap Stage RunLatencySummary) (m : RunMetrics) : RunMetrics :=
  let or_summary stage a :=
    match sums !! stage with Some s => summary_metrics s | None => a end in
  mkMetrics (rm_Select m) (or_summary StageOnSelect (rm_OnSelect m))
    (rm_Init m) (or_summary StageOnInit (rm_OnInit m))
    (rm_Confirm m) (or_summary StageOnConfirm (rm_OnConfirm m)).

Definition mergeRunLatencySummaries (r : Run) : prog B Run :=
  if negb (finished (r_Status r)) then Ret r
  else
    let! sums := load (Mongo_GetRunLatencySummaries (r_ID r)) in
    Ret (set_run_metrics (merge_summaries sums (r_Metrics r)) r).

Definition with_journey (r : Run) : Run :=
  set_run_journey (buildRunJourneyMetrics (r_Metrics r)) r.

Definition Manager_FinishRun (now : Z) (sessionID runID status : string) : prog B () :=
  let! _ := st (UpdateRunStatus runID status) in
  let! _ := st (SetPreorderState sessionID (mkPreorderState PreorderIdle "")) in
  let! metrics := st (GetMetrics runID) in
  let! r := st (GetRun runID) in
  match r with
  | Err _ => Ret ()
  | Ok r =>
      let r := set_run_metrics metrics (set_run_completed now (set_run_status status r)) in
      let! r := mergeRunLatencySummaries r in
      save (Mongo_SaveRun (with_journey r))
  end.

Definition Manager_GetRun (runID : string) : prog B (result error Run) :=
  let! r := st (GetRun runID) in
  match r with
  | Err _ =>
      let! pr := load (Mongo_GetRunByID runID) in
      Ret (match pr with Ok pr => Ok (with_journey pr) | Err e => Err e end)
  | Ok r =>
      let! metrics := st (GetMetrics runID) in
      let! r := mergeRunLatencySummaries (set_run_metrics metrics r) in
      Ret (Ok (with_journey r))
  end.

Definition Manager_StopRun (sessionID : string) : prog B (result error string) :=
  let! ps := st (GetPreorderState sessionID) in
  match ps with
  | Err _ => Ret (Err (ECustom ErrNoActiveRun))
  | Ok ps =>
      if negb (bool_decide (ps_Status ps = PreorderRunning)) || (ps_ActiveRunID ps =? "")
      then Ret (Err (ECustom ErrNoActiveRun))
      else
        let! _ := st (SetPreorderState sessionID (mkPreorderState PreorderStopping (ps_ActiveRunID ps))) in
        let! _ := st (UpdateRunStatus (ps_ActiveRunID ps) "stopping") in
        Ret (Ok (ps_ActiveRunID ps))
  end.

Definition Manager_SetRunSystemMetrics (runID : string) (sys : ThrottleMetrics)
  : prog B (result error ()) :=
  let! r := st (GetRun runID) in
  let! r := match r with Ok r => Ret (Ok r) | Err _ => load (Mongo_GetRunByID runID) end in
  match r with
  | Err e => Ret (Err e)
  | Ok r =>
      let r := set_run_system sys r in
      let! x := st (CreateRun r) in
      match x with
      | Err e => Ret (Err e)
      | Ok _ => let! _ := save (Mongo_SaveRun r) in Ret (Ok ())
      end
  end.

(** [GetSessionsByBPP]: the loop marks the expired ones, except the session
    Redis still holds for the BPP. *)
Fixpoint mark_expired (now : Z) (activeInRedis : option Session) (l : list Session)
  : prog B (list Session) :=
  match l with
  | [] => Ret []
  | s :: l' =>
      let is_active := match activeInRedis with Some a => s_ID a =? s_ID s | None => false end in
      let expire := bool_decide (s_Status s = SessionActive) && negb is_active && past_expiry now s in
      let s := if expire then set_session_status SessionExpired s else s in
      let! _ := (if expire then save (Mongo_SaveSession s) else Ret ()) in
      let! l' := mark_expired now activeInRedis l' in
      Ret (s :: l')
  end.

Definition Manager_GetSessionsByBPP (now : Z) (bppID : string) (page pageSize : Z)
  : prog B (result error (list Session * Z)) :=
  let! r := load (Mongo_GetSessionsByBPP bppID page pageSize) in
  match r with
  | Err e => Ret (Err e)
  | Ok (sessions, total) =>
      let! active := st (GetSessionByBPP bppID) in
      let! sessions := mark_expired now (res_opt active) sessions in
      Ret (Ok (sessions, total))
  end.

(** The limit of [SearchLatestRuns], clamped. *)
Definition clamp_limit (limit : Z) : Z :=
  let limit := (if limit <=? 0 then 20 else limit)%Z in (if 100 <? limit then 100 else limit)%Z.
Definition Manager_SearchLatestRuns (bppID sessionID : string) (limit : Z) : prog B (list Run) :=
  load (Mongo_SearchLatestRuns bppID sessionID (clamp_limit limit)).

(** The methods that hand a call on to a store; the handlers' translations
    make the calls directly. *)
Definition Manager_SetCatalogState (sessionID : string) (state : CatalogState) : prog B (result error ()) :=
  st (SetCatalogState sessionID state).
Definition Manager_GetCatalogState (sessionID : string) : prog B (result error CatalogState) :=
  st (GetCatalogState sessionID).
Definition Manager_SetPreorderState (sessionID : string) (state : PreorderState) : prog B (result error ()) :=
  st (SetPreorderState sessionID state).
Definition Manager_GetPreorderState (sessionID : string) : prog B (result error PreorderState) :=
  st (GetPreorderState sessionID).
Definition Manager_LinkTxn (txnID runID sessionID : string) (verification : bool) : prog B (result error ()) :=
  st (LinkTxn txnID runID sessionID verification).
Definition Manager_GetTxnRoute (txnID : string) : prog B (result error (string * string * bool)) :=
  st (GetTxnRoute txnID).
Definition Manager_IncrMetric (runID action field : string) (delta : Z) : prog B (result error ()) :=
  st (IncrMetric runID action field delta).
Definition Manager_SetDiscoveryPayload (txnID : string) (payload : B) : prog B (result error ()) :=
  st (SetDiscoveryPayload txnID payload).
Definition Manager_GetDiscoveryPayload (txnID : string) : prog B (result error (option B)) :=
  st (GetDiscoveryPayload txnID).
Definition Manager_GetRunHistory (sessionID : string) : prog B (list Run) :=
  load (Mongo_GetRunHistory sessionID).
End Manager.

(** ** Every program runs on every store *)

(** Unfolds the execution of a method on the abstract store. *)
Ltac prog_step := cbn [bind st load save run fst snd st_call astore_store aexec].
Ltac prog_simpl :=
  cbn [bind st load save run fst snd st_call astore_store aexec] in *.

Section Transfer.
Context {B : Type} `{MongoServer B} `{SessionWire B}.

(** The calls a run on the abstract store makes keep to the names. *)
Fixpoint run_ok {A} (now : Z) (p : prog B A) (w : astore B * MongoStore B) : Prop :=
  match p with
  | Ret _ => True
  | State _ c k => call_ok c ∧ let '(x, s) := aexec now c w.1 in run_ok now (k x) (s, w.2)
  | Persist _ f k => let '(x, m) := f w.2 in run_ok now (k x) (w.1, m)
  end.

Lemma run_transfer {S} `{StateStore B S} {t0 t1} `{!StateStoreRefines B S t0 t1} {A} now
    (p : prog B A) : ∀ (s : S) (a : astore B) m,
  (t0 ≤ now < t1)%Z → st_repr (t0 := t0) (t1 := t1) s a → run_ok now p (a, m) →
  (run now p (s, m)).1 = (run now p (a, m)).1 ∧
  (run now p (s, m)).2.2 = (run now p (a, m)).2.2 ∧
  st_repr (t0 := t0) (t1 := t1) (run now p (s, m)).2.1 (run now p (a, m)).2.1.
Proof.
  induction p as [x|T c k IH|T f k IH]; intros s a m Hn Hr Hok; [done| |].
  - cbn [run run_ok fst snd] in *. destruct Hok as [Hc Hok].
    destruct (st_repr_call now c s a Hn Hc Hr) as [E Hr'].
    change (st_call now c a) with (aexec now c a).
    destruct (st_call now c s) as [x s']. destruct (aexec now c a) as [y a']. simpl in *. subst y.
    by apply IH.
  - cbn [run run_ok fst snd] in *. destruct (f m) as [x m']. by apply IH.
Qed.
End Transfer.

(** ** Creating sessions *)
Section Create.
Context {B : Type} `{MongoServer B} `{SessionWire B}.

(** The keys of a session that are deleted with it. *)
Definition session_keys (id : string) : list akey := [KSession id; KCatalog id; KPreorder id].

(** The index points to sessions stored under their id. *)
Definition index_ok (a : astore B) : Prop :=
  (∀ id s, a (KSession id) = Some s → s_ID s = id) ∧
  (∀ bpp id s, a (KBpp bpp) = Some id → a (KSession id) = Some s → s_BPPID s = bpp).

(** What [DeleteSession] leaves. *)
Lemma delete_session_get id (a : astore B) k :
  (aexec 0 (DeleteSession id) a).2 k =
    match a (KSession id) with
    | None => a k
    | Some s => if bool_decide (k ∈ KBpp (s_BPPID s) :: session_keys id) then None else a k
    end.
Proof.
  simpl. destruct (a (KSession id)) as [s|]; [|done]. simpl.
  destruct (decide (k = KPreorder id)) as [->|]; [by rewrite aset_eq, bool_decide_true by set_solver|].
  rewrite aset_ne by done.
  destruct (decide (k = KCatalog id)) as [->|]; [by rewrite aset_eq, bool_decide_true by set_solver|].
  rewrite aset_ne by done.
  destruct (decide (k = KSession id)) as [->|]; [by rewrite aset_eq, bool_decide_true by set_solver|].
  rewrite aset_ne by done.
  destruct (decide (k = KBpp (s_BPPID s))) as [->|];
    [by rewrite aset_eq, bool_decide_true by set_solver|].
  rewrite aset_ne by done. by rewrite bool_decide_false by set_solver.
Qed.

Lemma aput_Ok {T} `{Wire B T} (x : T) f (a a' : astore B) u :
  aput x f a = (Ok u, a') → a' = f a.
Proof. unfold aput. destruct (marshal x); by intros [= <-]. Qed.

(** The store after the previous session of a BPP is deleted. *)
Definition without_previous (bpp : string) (a : astore B) : astore B :=
  match a (KBpp bpp) with
  | Some old => (aexec 0 (DeleteSession old) a).2
  | None => a
  end.

Lemma without_previous_get bpp (a : astore B) k :
  index_ok a → k ≠ KBpp bpp →
  without_previous bpp a k =
    match a (KBpp bpp) with
    | Some old => if bool_decide (is_Some (a (KSession old)) ∧ k ∈ session_keys old)
                  then None else a k
    | None => a k
    end.
Proof.
  intros [_ Hi] Hk. unfold without_previous. destruct (a (KBpp bpp)) as [old|] eqn:E; [|done].
  rewrite delete_session_get. destruct (a (KSession old)) as [s|] eqn:E2.
  - rewrite (Hi _ _ _ E E2). apply (f_equal (λ b : bool, if b then None else a k)).
    apply bool_decide_ext. rewrite elem_of_cons. naive_solver.
  - rewrite bool_decide_false; [done|]. by intros [[? ?] _].
Qed.

Lemma store_new_session_run now s (a : astore B) m x a' m' :
  run now (store_new_session now s) (a, m) = (Ok x, (a', m')) →
  x = s ∧
  a' = aset (KPreorder (s_ID s)) (Some (mkPreorderState PreorderIdle ""))
    (aset (KCatalog (s_ID s)) (Some (mkCatalogState CatalogNone "" now))
      (aset (KBpp (s_BPPID s)) (Some (s_ID s)) (aset (KSession (s_ID s)) (Some s) a))) ∧
  m' = Mongo_SaveSession s m.
Proof.
  unfold store_new_session. prog_simpl. intros E.
  repeat (case_match; prog_simpl; simplify_eq).
  repeat match goal with H : aput _ _ _ = (Ok _, _) |- _ => apply aput_Ok in H; subst end. done.
Qed.

Lemma create_session_run ttl now uuid bpp uri core domain (a : astore B) m x a' m' :
  index_ok a →
  run now (Manager_Create ttl now uuid bpp uri core domain) (a, m) = (Ok x, (a', m')) →
  run now (store_new_session now
    (mkSession uuid bpp uri SessionActive now (now + ttl) core domain false true))
    (without_previous bpp a, Mongo_ExpireSessionsByBPP bpp m) = (Ok x, (a', m')).
Proof.
  intros [Hid _] <-. unfold Manager_Create, without_previous. prog_simpl.
  destruct (a (KBpp bpp)) as [old|] eqn:E1; prog_simpl; [|done].
  destruct (a (KSession old)) as [e|] eqn:E2; cbn [found]; prog_simpl; [|done].
  rewrite (Hid _ _ E2), E2. prog_simpl. done.
Qed.
End Create.

(** The calls of [Create] keep to the names. *)
Lemma create_run_ok {B} `{MongoServer B} `{SessionWire B} ttl now uuid bpp uri core domain
    (a : astore B) m :
  index_ok a → no_colon uuid → (∀ old, a (KBpp bpp) = Some old → no_colon old) →
  run_ok now (Manager_Create ttl now uuid bpp uri core domain) (a, m).
Proof.
  intros [Hid _] Hu Hold.
  assert (∀ b n, run_ok now (store_new_session now
    (mkSession uuid bpp uri SessionActive now (now + ttl) core domain false true)) (b, n)) as Hnew.
  { intros b n. unfold store_new_session. cbn [bind st load save run_ok fst snd call_ok s_ID].
    split; [done|]. destruct (aexec now (CreateSession _) b) as [[]?]; [|done].
    cbn [bind st load save run_ok fst snd call_ok s_ID].
    split; [done|]. destruct (aexec now (SetCatalogState _ _) _) as [[]?]; [|done].
    cbn [bind st load save run_ok fst snd call_ok s_ID].
    split; [done|]. by destruct (aexec now (SetPreorderState _ _) _) as [[]?]. }
  unfold Manager_Create. cbn [bind st load save run_ok fst snd call_ok aexec].
  split; [done|].
  destruct (a (KBpp bpp)) as [old|] eqn:E1; [|apply Hnew].
  destruct (a (KSession old)) as [e|] eqn:E2; cbn [found]; [|apply Hnew].
  cbn [bind st load save run_ok fst snd call_ok]. rewrite (Hid _ _ E2).
  split; [by apply Hold|]. destruct (aexec now (DeleteSession old) a). apply Hnew.
Qed.

(** What the creation of a session does to the abstract store. *)
Lemma create_replaces {B} `{MongoServer B} `{SessionWire B} ttl now uuid bpp uri core
    domain (a : astore B) m s a' m' :
  index_ok a →
  run now (Manager_Create ttl now uuid bpp uri core domain) (a, m) = (Ok s, (a', m')) →
  s = mkSession uuid bpp uri SessionActive now (now + ttl) core domain false true ∧
  a' (KSession uuid) = Some s ∧ a' (KBpp bpp) = Some uuid ∧
  a' (KPreorder uuid) = Some (mkPreorderState PreorderIdle "") ∧
  a' (KCatalog uuid) = Some (mkCatalogState CatalogNone "" now) ∧
  (∀ old, a (KBpp bpp) = Some old → old ≠ uuid → is_Some (a (KSession old)) →
    ∀ k, k ∈ session_keys old → a' k = None) ∧
  (∀ k, k ∉ KBpp bpp :: session_keys uuid →
    (∀ old, a (KBpp bpp) = Some old → k ∉ session_keys old) → a' k = a k) ∧
  (∀ id d, id ≠ uuid → c_get (mg_sessions m') id = Some d → s_BPPID d = bpp →
    s_Status d = SessionExpired) ∧
  ((∀ b, a (KBpp b) ≠ Some uuid) → index_ok a').
Proof.
  intros Hi E%create_session_run; [|done]. apply store_new_session_run in E as (-> & -> & ->).
  cbn [s_ID s_BPPID]. split; [done|].
  assert (∀ b : astore B, ∀ k, k ∉ KBpp bpp :: session_keys uuid →
    aset (KPreorder uuid) (Some (mkPreorderState PreorderIdle ""))
      (aset (KCatalog uuid) (Some (mkCatalogState CatalogNone "" now))
        (aset (KBpp bpp) (Some uuid) (aset (KSession uuid)
          (Some (mkSession uuid bpp uri SessionActive now (now + ttl) core domain false true)) b)))
      k = b k) as Hother.
  { intros b k Hk. rewrite !aset_ne by (intros <-; apply Hk; set_solver). done. }
  split_and!; prog_simpl; akey; prog_simpl; akey; try done.
  - intros old Ho Hne Hs k Hk. rewrite Hother.
    + rewrite without_previous_get; [|done|by intros ->; set_solver].
      by rewrite Ho, bool_decide_true.
    + unfold session_keys in *. set_solver.
  - intros k Hk Hold. rewrite Hother by done.
    rewrite without_previous_get by (done || (intros ->; set_solver)).
    destruct (a (KBpp bpp)) as [old|] eqn:Ho; [|done].
    rewrite bool_decide_false; [done|]. intros [_ Hin]. by apply (Hold old).
  - intros id d Hne. simpl. rewrite c_get_put, decide_False, c_get_update by done.
    destruct (c_get (mg_sessions m) id) as [d0|]; simpl; [|done]. intros [= <-].
    destruct (String.eqb_spec (s_BPPID d0) bpp) as [Hb|Hb]; simpl; [|done].
    case_bool_decide as Hst; simpl; [done|]. by destruct (s_Status d0).
  - intros Hfresh. assert (∀ k : akey, k ≠ KBpp bpp → ∀ v, without_previous bpp a k = Some v → a k = Some v) as Hw.
    { intros k Hk v. rewrite without_previous_get by done. repeat case_match; naive_solver. }
    split.
    + intros id d. destruct (decide (id = uuid)) as [->|Hne]; akey; [by intros [= <-]|].
      intros Hd. apply (proj1 Hi). by apply Hw.
    + intros b id d. destruct (decide (b = bpp)) as [->|Hb]; akey.
      { intros [= <-]. akey. by intros [= <-]. }
      intros Hid. apply Hw in Hid; [|congruence].
      destruct (decide (id = uuid)) as [->|Hne]; [by destruct (Hfresh b)|]. akey.
      intros Hd. apply Hw in Hd; [|done]. by apply (proj2 Hi b id).
Qed.


(** ** One run at a time *)
Section Lifecycle.
Context {B : Type} `{MongoServer B}.
Variables (now : Z) (sess bpp : string) (rps dur : Z).

(** What happens to the runs of a session: a start is requested, the
    goroutine of an active run finishes it, a stop is requested. *)
Inductive run_event := EvStart (uuid : string) | EvFinish (run : string) | EvStop.

(** The runs started and not finished, newest first. *)
Fixpoint lifecycle (evs : list run_event) (active : list string) : prog B (list string) :=
  match evs with
  | [] => Ret active
  | EvStart uuid :: evs =>
      let! r := Manager_StartRun now uuid sess bpp rps dur in
      lifecycle evs (match r with Ok r => r_ID r :: active | Err _ => active end)
  | EvFinish u :: evs =>
      if bool_decide (u ∈ active)
      then let! _ := Manager_FinishRun now sess u "completed" in
           lifecycle evs (filter (λ x, x ≠ u) active)
      else lifecycle evs active
  | EvStop :: evs => let! _ := Manager_StopRun sess in lifecycle evs active
  end.
End Lifecycle.

Section Runs.
Context {B : Type} `{MongoServer B} `{SessionWire B}.
Variables (now : Z) (sess bpp : string) (rps dur : Z).
Implicit Types (a : astore B) (m : MongoStore B).

Definition preorder_of a : PreorderState :=
  default (mkPreorderState PreorderIdle "") (a (KPreorder sess)).

Definition new_run (uuid : string) : Run :=
  mkRun uuid sess bpp rps dur "running" metrics0 throttle0 journeys0 now zero_time.

Lemma start_check_run a m :
  run now (StartRun_check sess) (a, m) =
    (if bool_decide (ps_Status (preorder_of a) = PreorderRunning) then Err (ECustom ErrRunAlreadyActive) else Ok (),
     (a, m)).
Proof. unfold StartRun_check. by prog_simpl. Qed.

Lemma start_write_cases uuid a m :
  let '(r, w) := run now (StartRun_write now uuid sess bpp rps dur) (a, m) in
  match r with
  | Ok r => r = new_run uuid ∧ w = (aset (KPreorder sess) (Some (mkPreorderState PreorderRunning uuid))
               (aset (KRun uuid) (Some (new_run uuid)) a), m)
  | Err _ => (∀ s, w.1 (KPreorder s) = a (KPreorder s)) ∧ w.2 = m
  end.
Proof.
  unfold StartRun_write. fold (new_run uuid). prog_simpl.
  destruct (aput (new_run uuid) _ a) as [[x|e] a1] eqn:E1; prog_simpl.
  - apply aput_Ok in E1 as ->.
    destruct (aput (mkPreorderState _ _) _ _) as [[y|e] a2] eqn:E2; prog_simpl.
    + apply aput_Ok in E2 as ->. done.
    + unfold aput in E2. destruct (marshal _); simplify_eq. split; [|done]. intros s. by akey.
  - unfold aput in E1. destruct (marshal _); by simplify_eq.
Qed.

(** [StartRun], by the state of the session and the success of its writes. *)
Lemma start_run_cases uuid a m :
  let '(r, w) := run now (Manager_StartRun now uuid sess bpp rps dur) (a, m) in
  if bool_decide (ps_Status (preorder_of a) = PreorderRunning)
  then r = Err (ECustom ErrRunAlreadyActive) ∧ w = (a, m)
  else match r with
       | Ok r => r = new_run uuid ∧ w = (aset (KPreorder sess) (Some (mkPreorderState PreorderRunning uuid))
                    (aset (KRun uuid) (Some (new_run uuid)) a), m)
       | Err _ => preorder_of w.1 = preorder_of a
       end.
Proof.
  unfold Manager_StartRun. rewrite run_bind, start_check_run. case_bool_decide; [done|].
  pose proof (start_write_cases uuid a m) as Hc. destruct (run _ _ _) as [[r|e] w]; [done|].
  destruct Hc as [Hk _]. unfold preorder_of. by rewrite Hk.
Qed.

(** The three methods where the writes succeed. *)
Lemma set_preorder_ok ps a :
  (∀ ps : PreorderState, marshal ps ≠ None) →
  aput ps (aset (KPreorder sess) (Some ps)) a = (Ok (), aset (KPreorder sess) (Some ps) a).
Proof. intros Hps. unfold aput. destruct (marshal ps) eqn:E; [done|by apply Hps in E]. Qed.


Lemma start_run_ok uuid a m :
  (∀ ps : PreorderState, marshal ps ≠ None) →
  (∀ r : Run, r_Metrics r = metrics0 → r_JourneyMetrics r = journeys0 → marshal r ≠ None) →
  ps_Status (preorder_of a) ≠ PreorderRunning →
  ∃ a', run now (Manager_StartRun now uuid sess bpp rps dur) (a, m) = (Ok (new_run uuid), (a', m)) ∧
    preorder_of a' = mkPreorderState PreorderRunning uuid.
Proof.
  intros Hps Hr Hi. unfold Manager_StartRun. rewrite run_bind, start_check_run, bool_decide_false by done.
  unfold StartRun_write. fold (new_run uuid). prog_simpl.
  destruct (aput (new_run uuid) _ a) as [y a2] eqn:E2.
  unfold aput in E2. destruct (marshal _) as [b2|] eqn:E3; [|by apply Hr in E3]. simplify_eq.
  prog_simpl. rewrite set_preorder_ok by done. prog_simpl. eexists. split; [done|]. unfold preorder_of. by akey.
Qed.

Lemma update_status_preorder status id a :
  preorder_of (aexec now (UpdateRunStatus id status) a).2 = preorder_of a.
Proof.
  simpl. destruct (a (KRun id)) as [r|]; [|done]. unfold aput.
  destruct (marshal _); [|done]. unfold preorder_of. simpl. by akey.
Qed.

Lemma stop_run_ok u a m :
  (∀ ps : PreorderState, marshal ps ≠ None) →
  preorder_of a = mkPreorderState PreorderRunning u → u ≠ "" →
  ∃ a', run now (Manager_StopRun sess) (a, m) = (Ok u, (a', m)) ∧
    preorder_of a' = mkPreorderState PreorderStopping u.
Proof.
  intros Hps Hp Hu. unfold Manager_StopRun. prog_simpl. fold (preorder_of a). rewrite Hp.
  cbn [ps_Status ps_ActiveRunID]. rewrite bool_decide_true, (proj2 (String.eqb_neq u "") Hu) by done.
  simpl negb. cbn [orb]. prog_simpl. rewrite set_preorder_ok by done. prog_simpl.
  set (a1 := aset _ _ a). pose proof (update_status_preorder "stopping" u a1) as Hs.
  cbn [aexec] in Hs.
  destruct (match a1 (KRun u) with Some _ => _ | None => _ end) as [x a2]. prog_simpl.
  exists a2. split; [done|]. rewrite Hs. unfold preorder_of, a1. by akey.
Qed.

Lemma finish_run_idle id status a m :
  (∀ ps : PreorderState, marshal ps ≠ None) →
  ∃ a' m', run now (Manager_FinishRun now sess id status) (a, m) = ((), (a', m')) ∧
    preorder_of a' = mkPreorderState PreorderIdle "".
Proof.
  intros Hps. unfold Manager_FinishRun. prog_simpl.
  destruct (match a (KRun id) with Some _ => _ | None => _ end) as [x a1]. prog_simpl.
  rewrite set_preorder_ok by done. prog_simpl. set (a2 := aset _ _ a1).
  assert (preorder_of a2 = mkPreorderState PreorderIdle "") as E by (unfold preorder_of, a2; by akey).
  destruct (found _ (a2 (KRun id))) as [r|]; prog_simpl; [|by exists a2, m].
  unfold mergeRunLatencySummaries. case_match; prog_simpl; eauto.
Qed.

(** [active] is empty, or the one run the session is busy with. *)
Definition one_active (active : list string) a : Prop :=
  active = [] ∨ ∃ u, active = [u] ∧ preorder_of a = mkPreorderState PreorderRunning u.

Lemma lifecycle_one_active evs : EvStop ∉ evs → ∀ active a m,
  one_active active a →
  let '(active', w) := run now (lifecycle now sess bpp rps dur evs active) (a, m) in
  one_active active' w.1.
Proof.
  induction evs as [|ev evs IH]; intros Hns active a m Ha; [done|].
  assert (EvStop ∉ evs) as Hns' by set_solver. specialize (IH Hns').
  destruct ev as [uuid|u|]; cbn [lifecycle]; [| |set_solver].
  - rewrite run_bind. pose proof (start_run_cases uuid a m) as Hs.
    destruct (run now (Manager_StartRun _ _ _ _ _ _) (a, m)) as [r [a1 m1]].
    case_bool_decide as Hb.
    + destruct Hs as [-> [= -> ->]]. by apply IH.
    + apply IH. destruct Ha as [->|(u & -> & Hu)]; [|by rewrite Hu in Hb].
      destruct r as [r|e]; [|by left]. destruct Hs as (-> & [= -> _]).
      right. exists uuid. split; [done|]. unfold preorder_of. by akey.
  - case_bool_decide as Hu; [|by apply IH]. rewrite run_bind.
    destruct (run now (Manager_FinishRun _ _ _ _) (a, m)) as [x [a1 m1]].
    apply IH. left. destruct Ha as [->|(u' & -> & _)]; [done|].
    apply list_elem_of_singleton in Hu as ->. rewrite filter_cons, decide_False by auto. done.
Qed.
End Runs.

(** As long as no stop is requested, a session has at most one run at a
    time, whatever the order of start requests and of the ends of the runs'
    goroutines. *)
Theorem at_most_one_run {B} `{MongoServer B} `{SessionWire B} now sess bpp rps dur evs
    (a : astore B) m :
  EvStop ∉ evs →
  (length (run now (lifecycle now sess bpp rps dur evs []) (a, m)).1 ≤ 1)%nat.
Proof.
  intros Hns.
  pose proof (lifecycle_one_active now sess bpp rps dur evs Hns [] a m (or_introl eq_refl)) as Hl.
  destruct (run _ _ _) as [active w]. destruct Hl as [->|(u & -> & _)]; simpl; lia.
Qed.

(** A stop request lets a second run start while the first is still
    being executed: nothing cancels its goroutine, and a session in the
    stopping state is not refused.  The end of the first run then resets the
    session to idle although the second is active, and a third can start. *)
Theorem stop_allows_overlap {B} `{MongoServer B} `{SessionWire B} now sess bpp rps dur u1 u2 u3
    (a : astore B) m :
  (∀ ps : PreorderState, marshal ps ≠ None) →
  (∀ r : Run, r_Metrics r = metrics0 → r_JourneyMetrics r = journeys0 → marshal r ≠ None) →
  ps_Status (preorder_of sess a) ≠ PreorderRunning → NoDup ["" ; u1; u2; u3] →
  (run now (lifecycle now sess bpp rps dur [EvStart u1; EvStop; EvStart u2] []) (a, m)).1
    = [u2; u1] ∧
  (run now (lifecycle now sess bpp rps dur
     [EvStart u1; EvStop; EvStart u2; EvFinish u1; EvStart u3] []) (a, m)).1 = [u3; u2].
Proof.
  intros Hps Hr Hidle Hnd.
  assert (u1 ≠ "" ∧ u1 ≠ u2 ∧ u1 ≠ u3) as (H1 & H2 & H3)
    by (rewrite !NoDup_cons in Hnd; set_solver).
  cbn [lifecycle]. rewrite !run_bind.
  destruct (start_run_ok now sess bpp rps dur u1 a m Hps Hr Hidle) as (a1 & -> & E1).
  rewrite !run_bind. destruct (stop_run_ok now sess u1 a1 m Hps E1 H1) as (a2 & -> & E2).
  rewrite !run_bind.
  destruct (start_run_ok now sess bpp rps dur u2 a2 m Hps Hr) as (a3 & -> & E3); [by rewrite E2|].
  split; [done|]. simpl r_ID. rewrite bool_decide_true by set_solver. rewrite run_bind.
  destruct (finish_run_idle now sess u1 "completed" a3 m Hps) as (a4 & m4 & -> & E4).
  rewrite run_bind.
  destruct (start_run_ok now sess bpp rps dur u3 a4 m4 Hps Hr) as (a5 & -> & E5); [by rewrite E4|].
  simpl. rewrite filter_cons, decide_True, filter_cons, decide_False by congruence. done.
Qed.

(** ** Expiry *)

Section Expiry.
Context {B : Type} `{MongoServer B} `{SessionWire B}.
Implicit Types (a : astore B) (m : MongoStore B).

Lemma get_run now id a m :
  (run now (Manager_Get now id) (a, m)).1 =
    match a (KSession id) with
    | None => Err (ECustom ErrSessionNotFound)
    | Some s => if bool_decide (s_Status s = SessionActive ∧ (now ≤ s_ExpiresAt s)%Z) then Ok s
                else Err (ECustom ErrSessionExpired)
    end.
Proof.
  unfold Manager_Get, past_expiry. prog_simpl.
  destruct (a (KSession id)) as [s|]; simpl; [|done].
  destruct (Z.ltb_spec (s_ExpiresAt s) now); destruct (s_Status s); simpl;
    repeat case_bool_decide; simpl; try done; try naive_solver; try lia.
Qed.

(** The session [GetAny] looks at. *)
Definition known_session id a m : option Session :=
  match a (KSession id) with Some s => Some s | None => c_get (mg_sessions m) id end.

Lemma get_any_run now id a m :
  run now (Manager_GetAny now id) (a, m) =
    match known_session id a m with
    | None => (Err (ECustom ErrSessionNotFound), (a, m))
    | Some s =>
        if bool_decide (s_Status s = SessionActive ∧ (s_ExpiresAt s < now)%Z)
        then let s' := set_session_status SessionExpired s in (Ok s', (a, Mongo_SaveSession s' m))
        else (Ok s, (a, m))
    end.
Proof.
  unfold Manager_GetAny, past_expiry, known_session. prog_simpl.
  destruct (a (KSession id)) as [s|]; cbn [found]; prog_simpl;
    [|unfold Mongo_GetSessionByID; destruct (c_get (mg_sessions m) id) as [s|]; prog_simpl; [|done]];
    (destruct (Z.ltb_spec (s_ExpiresAt s) now); destruct (s_Status s);
     repeat case_bool_decide; cbn [andb]; prog_simpl; try done; try naive_solver; try lia).
Qed.

(** A flag is toggled: the session is written back under its id and indexed
    under its BPP. *)
Lemma update_session_run f now id a m s0 s1 a1 m1 :
  (∀ s, s_ID (f s) = s_ID s ∧ s_BPPID (f s) = s_BPPID s) →
  known_session id a m = Some s0 → s_ID s0 = id →
  run now (update_session f now id) (a, m) = (Ok s1, (a1, m1)) →
  s_ID s1 = id ∧ s_BPPID s1 = s_BPPID s0 ∧
  a1 = aset (KBpp (s_BPPID s0)) (Some id) (aset (KSession id) (Some s1) a).
Proof.
  intros Hf Hk Hid. unfold update_session. rewrite run_bind, get_any_run, Hk.
  set (s0' := set_session_status SessionExpired s0).
  assert (∃ s2 m2, (s2 = s0 ∨ s2 = s0') ∧
    (if bool_decide (s_Status s0 = SessionActive ∧ (s_ExpiresAt s0 < now)%Z)
     then let s' := s0' in (Ok s', (a, Mongo_SaveSession s' m)) else (Ok s0, (a, m)))
    = (Ok s2 : result error Session, (a, m2))) as (s2 & m2 & Hs2 & ->).
  { case_bool_decide; eauto 10. }
  assert (s_ID s2 = id ∧ s_BPPID s2 = s_BPPID s0) as [I1 I2] by (by destruct Hs2; subst).
  destruct (Hf s2) as [F1 F2]. prog_simpl.
  destruct (aput (f s2) _ a) as [[x|e] a'] eqn:E; prog_simpl; [|done]. intros E'. simplify_eq.
  apply aput_Ok in E. rewrite F1, F2, I2 in *. subst a1. by rewrite I1.
Qed.
End Expiry.

(** [Get] serves a session exactly while it is active and not past its
    expiry, and tells an expired session from a missing one; [GetAny] serves
    it from either store, and one found active past its expiry is answered,
    and saved, as expired. *)
Theorem session_expiry {B} `{MongoServer B} `{SessionWire B} now id (a : astore B) m :
  (run now (Manager_Get now id) (a, m)).1 =
    match a (KSession id) with
    | None => Err (ECustom ErrSessionNotFound)
    | Some s => if bool_decide (s_Status s = SessionActive ∧ (now ≤ s_ExpiresAt s)%Z) then Ok s
                else Err (ECustom ErrSessionExpired)
    end ∧
  run now (Manager_GetAny now id) (a, m) =
    match known_session id a m with
    | None => (Err (ECustom ErrSessionNotFound), (a, m))
    | Some s =>
        if bool_decide (s_Status s = SessionActive ∧ (s_ExpiresAt s < now)%Z)
        then let s' := set_session_status SessionExpired s in (Ok s', (a, Mongo_SaveSession s' m))
        else (Ok s, (a, m))
    end.
Proof. split; [apply get_run|apply get_any_run]. Qed.

(** Toggling a flag of a session that only the persistent store still
    knows brings it back: it is written to Redis again, the index of its BPP
    points to it instead of the BPP's live session, and the next session
    created for the BPP replaces the old session, not the live one, which
    keeps its entry. *)
Theorem toggle_revives_session {B} `{MongoServer B} `{SessionWire B} now on old live bpp
    (a : astore B) (m : MongoStore B) so sl a1 m1 s1 ttl uuid uri core domain s2 a2 m2 :
  index_ok a → NoDup [old; live; uuid] → (∀ b, a (KBpp b) ≠ Some old) →
  a (KSession old) = None → c_get (mg_sessions m) old = Some so → s_ID so = old →
  s_BPPID so = bpp → a (KBpp bpp) = Some live → a (KSession live) = Some sl →
  run now (Manager_SetVerificationEnabled now old on) (a, m) = (Ok s1, (a1, m1)) →
  run now (Manager_Create ttl now uuid bpp uri core domain) (a1, m1) = (Ok s2, (a2, m2)) →
  a1 (KBpp bpp) = Some old ∧ a1 (KSession old) = Some s1 ∧
  a2 (KSession old) = None ∧ a2 (KSession live) = Some sl ∧ a2 (KBpp bpp) = Some uuid.
Proof.
  intros Hi Hnd Hno Hold Hm Hid Hb Hidx Hlive E1 E2.
  assert (old ≠ live ∧ old ≠ uuid ∧ live ≠ uuid) as (N1 & N2 & N3)
    by (rewrite !NoDup_cons in Hnd; set_solver).
  assert (s_ID s1 = old ∧ s_BPPID s1 = bpp ∧
    a1 = aset (KBpp bpp) (Some old) (aset (KSession old) (Some s1) a)) as (Hs1 & Hs2 & ->).
  { rewrite <- Hb. eapply update_session_run; [| |done|exact E1]; [by intros []|].
    unfold known_session. by rewrite Hold. }
  assert (index_ok (aset (KBpp bpp) (Some old) (aset (KSession old) (Some s1) a))) as Hi1.
  { destruct Hi as [I1 I2]. split.
    - intros id s'. rewrite aset_ne by done. destruct (decide (id = old)) as [->|].
      + rewrite aset_eq. by intros [= <-].
      + rewrite aset_ne by congruence. apply I1.
    - intros b id s'. destruct (decide (b = bpp)) as [->|].
      + rewrite aset_eq. intros [= <-]. rewrite aset_ne, aset_eq by done. by intros [= <-].
      + rewrite !(aset_ne (KBpp bpp)) by congruence. rewrite (aset_ne _ _ _ (KBpp b)) by done.
        destruct (decide (id = old)) as [->|].
        * intros Hb'. by apply Hno in Hb'.
        * rewrite aset_ne by congruence. apply I2. }
  split; [by akey|]. split; [by akey|].
  apply create_session_run in E2; [|done]. apply store_new_session_run in E2 as (_ & -> & _).
  cbn [s_ID s_BPPID].
  assert (aset (KBpp bpp) (Some old) (aset (KSession old) (Some s1) a) (KBpp bpp) = Some old)
    as Hb1 by (by akey).
  assert (is_Some (aset (KBpp bpp) (Some old) (aset (KSession old) (Some s1) a) (KSession old)))
    as Hs by (akey; eauto).
  split_and!; akey; try done.
  - rewrite without_previous_get by done. rewrite Hb1, bool_decide_true; [done|]. split; [done|].
    unfold session_keys. set_solver.
  - rewrite without_previous_get by done. rewrite Hb1, bool_decide_false.
    + by akey.
    + intros [_ Hin]. unfold session_keys in Hin. set_solver.
Qed.

(** ** The end of a run *)
Section Finish.
Context {B : Type} `{MongoServer B} `{SessionWire B}.
Implicit Types (a : astore B) (m : MongoStore B).

(** The metrics of an action with those of its summary, if there is one. *)
Definition or_summary (o : option RunLatencySummary) (x : ActionMetrics) : ActionMetrics :=
  match o with Some s => summary_metrics s | None => x end.

(** The document [FinishRun] saves. *)
Definition final_metrics (id : string) (m : MongoStore B) (x : RunMetrics) : RunMetrics :=
  let s stage := c_get (mg_summaries m) (id, stage) in
  mkMetrics (rm_Select x) (or_summary (s StageOnSelect) (rm_OnSelect x))
    (rm_Init x) (or_summary (s StageOnInit) (rm_OnInit x))
    (rm_Confirm x) (or_summary (s StageOnConfirm) (rm_OnConfirm x)).

Lemma merge_run_ok now r a m :
  keyed summary_key (mg_summaries m) →
  run now (mergeRunLatencySummaries r) (a, m) =
    (if finished (r_Status r)
     then set_run_metrics (final_metrics (r_ID r) m (r_Metrics r)) r else r, (a, m)).
Proof.
  intros Hk. unfold mergeRunLatencySummaries. destruct (finished (r_Status r)); [|done].
  cbn [negb]. prog_simpl. unfold merge_summaries. cbv beta zeta. by rewrite !summaries_get by done.
Qed.

(** What [UpdateRunStatus] does to the run: it may fail to be encoded. *)
Lemma update_run_kept now id status a r :
  a (KRun id) = Some r →
  ∃ r', (aexec now (UpdateRunStatus id status) a).2 (KRun id) = Some r' ∧
    ∀ t x, set_run_metrics x (set_run_completed t (set_run_status status r')) =
           set_run_metrics x (set_run_completed t (set_run_status status r)).
Proof.
  intros E. cbn [aexec]. rewrite E. unfold aput.
  destruct (marshal _) as [b|]; cbn [snd]; [|by exists r].
  rewrite aset_eq. eexists. split; [done|]. by destruct (finished status).
Qed.

Lemma metrics_kept now id status a k :
  (∀ i, k ≠ KRun i) → (aexec now (UpdateRunStatus id status) a).2 k = a k.
Proof.
  intros Hk. cbn [aexec]. destruct (a (KRun id)); [|done]. unfold aput.
  destruct (marshal _); [|done]. cbn [snd]. by rewrite aset_ne.
Qed.
End Finish.

(** C11: When a run ends, what is kept of it is its record with the final
    status and time, the counters of its requests, and, for the callbacks of
    a run that completed or failed, the counts and percentiles of the latency
    summaries where there are any; the journey metrics are computed from
    exactly these; no other run changes. *)
Theorem finish_run_persists {B} `{MongoServer B} `{SessionWire B} now sess id status
    (a : astore B) (m : MongoStore B) r :
  keyed summary_key (mg_summaries m) → a (KRun id) = Some r → r_ID r = id → now ≠ zero_time →
  let m' := (run now (Manager_FinishRun now sess id status) (a, m)).2.2 in
  let x := if finished status then final_metrics id m (run_metrics id a) else run_metrics id a in
  c_get (mg_runs m') id = Some (mkRun id (r_SessionID r) (r_BPPID r) (r_RPS r) (r_DurationSec r)
    status x (r_SystemMetrics r) (buildRunJourneyMetrics x) (r_StartedAt r) now) ∧
  (∀ id', id' ≠ id → c_get (mg_runs m') id' = c_get (mg_runs m) id') ∧
  mg_sessions m' = mg_sessions m.
Proof.
  intros Hk Hr Hid Hnow m' x.
  destruct (update_run_kept now id status a r Hr) as (r' & Hr' & Heq).
  assert (∀ run, run_metrics run (aexec now (UpdateRunStatus id status) a).2 = run_metrics run a)
    as Hmet by (intros; unfold run_metrics, action_metrics, metric; by rewrite !metrics_kept).
  set (f := with_journey (set_run_metrics x (set_run_completed now (set_run_status status r)))).
  assert (m' = Mongo_SaveRun f m) as ->.
  { unfold m', f, Manager_FinishRun. cbn [st bind run fst snd].
    change (st_call now (UpdateRunStatus id status) a) with (aexec now (UpdateRunStatus id status) a).
    destruct (aexec now (UpdateRunStatus id status) a) as [y a1]. cbn [fst snd] in *.
    prog_step. destruct (aput (mkPreorderState PreorderIdle "") _ a1) as [z a2] eqn:E2.
    assert (∀ k, k ≠ KPreorder sess → a2 k = a1 k) as Hk2.
    { intros k Hne. unfold aput in E2. destruct (marshal _); simplify_eq; [by rewrite aset_ne|done]. }
    prog_step.
    rewrite (Hk2 (KRun id)), Hr' by done. cbn [found]. prog_step.
    assert (run_metrics id a2 = run_metrics id a) as ->.
    { rewrite <- Hmet. unfold run_metrics, action_metrics, metric. by rewrite !Hk2. }
    rewrite run_bind, merge_run_ok by done. rewrite Heq. prog_step.
    cbn [r_Status r_ID set_run_metrics set_run_completed set_run_status r_Metrics].
    rewrite Hid. unfold x. by destruct (finished status). }
  assert (r_ID f = id) as Hf by done. split_and!.
  - unfold Mongo_SaveRun. cbn [mg_runs with_runs]. rewrite Hf, c_get_put, decide_True by done. f_equal.
    unfold merge_run. destruct (c_get (mg_runs m) id); [|by rewrite <- Hid].
    cbn [r_CompletedAt f with_journey set_run_journey set_run_metrics set_run_completed].
    rewrite (proj2 (Z.eqb_neq now zero_time) Hnow). by rewrite <- Hid.
  - intros id' Hne. unfold Mongo_SaveRun. cbn [mg_runs with_runs].
    rewrite Hf, c_get_put, decide_False; [done|congruence].
  - done.
Qed.

(** ** Witnesses *)

Abbreviation demo_store := (MongoStore demo_bytes).
Definition demo_m : demo_store := NewMongoStore.
Definition demo_create (now : Z) (uuid : string) : prog demo_bytes (result error Session) :=
  Manager_Create 3600 now uuid "bpp" "http://bpp" "1.2.0" "ONDC:RET10".

#[local] Transparent gmap_empty.

(** A store with one session. *)
Definition one_session (s : Session) : astore demo_bytes :=
  aset (KBpp (s_BPPID s)) (Some (s_ID s)) (aset (KSession (s_ID s)) (Some s) astore_empty).

Lemma index_ok_one s : index_ok (one_session s).
Proof.
  unfold one_session. split.
  - intros id s'. rewrite aset_ne by done. destruct (decide (id = s_ID s)) as [->|].
    + rewrite aset_eq. by intros [= <-].
    + by rewrite aset_ne by congruence.
  - intros bpp id s'. destruct (decide (bpp = s_BPPID s)) as [->|].
    + rewrite aset_eq. intros [= <-]. akey. by intros [= <-].
    + by rewrite (aset_ne _ _ _ (KBpp bpp)), (aset_ne _ _ _ (KBpp bpp)) by congruence.
Qed.

(** The second session of a participant, created in Redis. *)
Definition redis_demo : Type := session_redis (redis_map demo_bytes) 3600.
Definition first_created : redis_demo * demo_store :=
  (run 1 (st (CreateSession demo_session1)) (mkSessionRedis (R := redis_map demo_bytes) 3600 r_empty, demo_m)).2.


Lemma at_most_one_run_witness :
  (length (run 0 (lifecycle 0 "s1" "bpp" 5 10 [EvStart "r1"; EvStart "r2"; EvFinish "r1"; EvStart "r3"] [])
     (one_session demo_session1, demo_m)).1 ≤ 1)%nat.
Proof.
  apply (at_most_one_run 0 "s1" "bpp" 5 10 [EvStart "r1"; EvStart "r2"; EvFinish "r1"; EvStart "r3"]
    (one_session demo_session1) demo_m).
  intros Hin. repeat (apply elem_of_cons in Hin as [Hin|Hin]; [discriminate Hin|]).
  by apply elem_of_nil in Hin.
Defined.

Lemma stop_allows_overlap_witness :
  (run 0 (lifecycle 0 "s1" "bpp" 5 10 [EvStart "r1"; EvStop; EvStart "r2"] [])
     (one_session demo_session1, demo_m)).1 = ["r2"; "r1"].
Proof.
  apply (stop_allows_overlap 0 "s1" "bpp" 5 10 "r1" "r2" "r3" (one_session demo_session1) demo_m).
  - intros ps. discriminate.
  - intros r _ _. discriminate.
  - discriminate.
  - apply (bool_decide_unpack _). reflexivity.
Defined.

(** The session [s0] has expired from Redis; [s1] is the live one. *)
Definition demo_expired : Session :=
  mkSession "s0" "bpp" "http://bpp" SessionExpired 0 1 "1.2.0" "ONDC:RET10" false true.

Lemma toggle_revives_session_witness :
  ∃ s1 a1 m1 s2 a2 m2,
    run 9 (Manager_SetVerificationEnabled 9 "s0" true)
      (one_session demo_session1, Mongo_SaveSession demo_expired demo_m) = (Ok s1, (a1, m1)) ∧
    run 9 (demo_create 9 "s2") (a1, m1) = (Ok s2, (a2, m2)) ∧
    a1 (KBpp "bpp") = Some "s0" ∧ a2 (KSession "s1") = Some demo_session1.
Proof.
  destruct (run 9 (Manager_SetVerificationEnabled 9 "s0" true)
    (one_session demo_session1, Mongo_SaveSession demo_expired demo_m)) as [[s1|e] [a1 m1]] eqn:E1;
    [|exfalso; discriminate E1].
  destruct (run 9 (demo_create 9 "s2") (a1, m1)) as [[s2|e] [a2 m2]] eqn:E2;
    [|exfalso; injection E1 as _ <- _; discriminate E2].
  exists s1, a1, m1, s2, a2, m2. do 2 (split; [first [reflexivity|exact E1|exact E2]|]).
  destruct (toggle_revives_session 9 true "s0" "s1" "bpp" (one_session demo_session1)
    (Mongo_SaveSession demo_expired demo_m) demo_expired demo_session1 a1 m1 s1 3600 "s2" "http://bpp"
    "1.2.0" "ONDC:RET10" s2 a2 m2) as (Hb & _ & _ & Hl & _);
    [apply index_ok_one|apply (bool_decide_unpack _); reflexivity| |reflexivity..|exact E1|exact E2|].
  - intros b. unfold one_session. destruct (decide (b = "bpp")) as [->|Hb]; [discriminate|].
    by rewrite !aset_ne by (intros [=]; congruence).
  - split; [exact Hb|exact Hl].
Defined.

Definition demo_run : Run :=
  mkRun "r1" "s1" "bpp" 5 10 "running" metrics0 throttle0 journeys0 0 zero_time.

Lemma finish_run_persists_witness :
  c_get (mg_runs (run 7 (Manager_FinishRun 7 "s1" "r1" "completed")
    (aset (KRun "r1") (Some demo_run) astore_empty, demo_m)).2.2) "r1" =
  Some (mkRun "r1" "s1" "bpp" 5 10 "completed" metrics0 throttle0
    (buildRunJourneyMetrics metrics0) 0 7).
Proof.
  destruct (finish_run_persists 7 "s1" "r1" "completed"
    (aset (KRun "r1") (Some demo_run) astore_empty) demo_m demo_run) as [E _];
    [apply keyed_empty|reflexivity|reflexivity|discriminate|].
  etransitivity; [exact E|reflexivity].
Defined.
