(* ===== verification/Callbacks.v ===== *)
(** * Callback handlers: [internal/handlers/callbacks]

    [on_search], [on_select], [on_init] and [on_confirm]: each verifies the
    signature when the session asks for it, records the callback in the run
    log, classifies it, hands its latency event to the queue, counts it,
    wakes the run that waits for it, and answers ACK or NACK.

    A handler is a function of the world it acts on.  The queue of latency
    events is in [LatencyQueue.v]; here a request says whether it found the
    channel full, [w_queue] has the accepted events in order.  The notifier is
    in [Notifier.v]; here [w_notified] has the calls of [Notify].  The manager
    is never nil (a nil one would panic in [verifyInbound]).  Logging is left
    out. *)
From stdpp Require Import prelude gmap list strings.
From S2P Require Import Prelude GoStrings Base64 GoTime Json ApiError Latency Redis RunLog OndcAuth Registry SessionTypes StateStore Mongo Coordinator MemoryStore.
Local Open Scope string_scope.

(** What [NewController] was given. *)
Record controller (B : Type) := mkController {
  cb_store : bool;      (* c.store != nil *)
  cb_persist : bool;    (* c.sessions.Persist() != nil *)
  cb_notifier : bool;   (* c.notifier != nil *)
  cb_validator : option (string → B → option error);
  cb_registry : client_config;
}.
Arguments mkController {B}.
Arguments cb_store {B}.
Arguments cb_persist {B}.
Arguments cb_notifier {B}.
Arguments cb_validator {B}.
Arguments cb_registry {B}.

(** [NewController] with the registry settings of [VerificationConfig]. *)
Definition NewController {B} (store persist notifier : bool)
  (validator : option (string → B → option error))
  (registryBaseURL : string) (registryCacheTTLSeconds : Z)
  (signingPrivateKey signingSubscriberID signingUniqueKeyID : string) : controller B :=
  mkController store persist notifier validator
    (NewHTTPClient registryBaseURL signingPrivateKey signingSubscriberID signingUniqueKeyID
       (wrap64 (registryCacheTTLSeconds * second))).

(** [NoopValidator]. *)
Definition NoopValidator {B} (action : string) (payload : B) : option error := None.

Record world (B S L : Type) `{MongoServer B} := mkWorld {
  w_state : S;
  w_mongo : MongoStore B;
  w_log : L;
  w_queue : list RunLatencyEvent;
  w_notified : list (string * string);
  w_keys : cache;
  w_files : gmap string (B * Z);   (* the files written, with their time *)
}.
Arguments mkWorld {B S L _}.
Arguments w_state {B S L _}.
Arguments w_mongo {B S L _}.
Arguments w_log {B S L _}.
Arguments w_queue {B S L _}.
Arguments w_notified {B S L _}.
Arguments w_keys {B S L _}.
Arguments w_files {B S L _}.

(** A request: its [Authorization] header, empty when there is none, its body,
    the clock, and whether the queue is full when it gets there. *)
Record request (B : Type) := mkRequest {
  rq_auth : string;
  rq_body : B;
  rq_now : Z;
  rq_full : bool;
}.
Arguments mkRequest {B}.
Arguments rq_auth {B}.
Arguments rq_body {B}.
Arguments rq_now {B}.
Arguments rq_full {B}.

Section Handlers.
Context {B S L : Type}.
Context `{Crypto, Bytes B, JsonCodec B, Sprint, MongoServer B, StateStore B S, RunLogStore B L}.
Variable http_do : Z → string → B → option string → result error (Z * B).
Variable c : controller B.
Implicit Types w : world B S L.

Definition set_state (s : S) w : world B S L :=
  mkWorld s (w_mongo w) (w_log w) (w_queue w) (w_notified w) (w_keys w) (w_files w).
Definition set_mongo (m : MongoStore B) w : world B S L :=
  mkWorld (w_state w) m (w_log w) (w_queue w) (w_notified w) (w_keys w) (w_files w).
Definition set_log (l : L) w : world B S L :=
  mkWorld (w_state w) (w_mongo w) l (w_queue w) (w_notified w) (w_keys w) (w_files w).
Definition push_event (e : RunLatencyEvent) w : world B S L :=
  mkWorld (w_state w) (w_mongo w) (w_log w) (w_queue w ++ [e])%list (w_notified w) (w_keys w)
    (w_files w).
Definition notify (run action : string) w : world B S L :=
  mkWorld (w_state w) (w_mongo w) (w_log w) (w_queue w) (w_notified w ++ [(run, action)])%list
    (w_keys w) (w_files w).
Definition set_keys (k : cache) w : world B S L :=
  mkWorld (w_state w) (w_mongo w) (w_log w) (w_queue w) (w_notified w) k (w_files w).

(** Calls of the session store and of the run log. *)
Definition state_call {T} (now : Z) (q : call B T) w : T * world B S L :=
  let '(x, s) := st_call now q (w_state w) in (x, set_state s w).
Definition runlog_call (now : Z) (o : op B) w : obs B * world B S L :=
  let '(x, l) := log_call now o (w_log w) in (x, set_log l w).

(** ** Reading the body *)

Definition extractTxnID (body : B) : string :=
  match json_unmarshal body with
  | Some (JObj env) =>
      match as_obj (struct_field "context" env) with Some ctx => txn_of ctx | None => "" end
  | _ => ""
  end.

Definition extractInboundAckStatus (body : B) : string := ack_status (json_unmarshal body).

Definition empty_body (body : B) : bool := b_string body =? "".

(** ** [verifyInbound] *)

Definition verifyInbound (rq : request B) w : option error * world B S L :=
  if rq_auth rq =? "" then (None, w)
  else
    let txnID := extractTxnID (rq_body rq) in
    if txnID =? "" then (None, w)
    else
      let '(route, w) := state_call (rq_now rq) (GetTxnRoute txnID) w in
      match route with
      | Err _ => (None, w)
      | Ok (_, _, perSessionEnabled) =>
          if negb perSessionEnabled then (None, w)
          else match SummarizeAuthorisationHeader (rq_auth rq) with
          | Err e => (Some e, w)
          | Ok summary =>
              match ParseKeyID (ah_KeyID summary) with
              | None => (Some (EText "invalid keyId format"), w)
              | Some (subID, ukID) =>
                  let '(key, keys) :=
                    GetPublicKeyByUKID http_do (cb_registry c) (rq_now rq) subID ukID (w_keys w) in
                  let w := set_keys keys w in
                  match key with
                  | Err e => (Some e, w)
                  | Ok pubKey =>
                      match VerifyAuthorisationHeaderBytes (rq_now rq / second) (rq_auth rq)
                              (b_string (rq_body rq)) pubKey with
                      | Err e => (Some e, w)
                      | Ok _ => (None, w)
                      end
                  end
              end
          end
      end.

Definition validatePayload (action : string) (rq : request B) : option error :=
  match cb_validator c with Some v => v action (rq_body rq) | None => None end.

(** ** Recording *)

Definition callbackTimeout : Z := 30 * second.

(** The request a callback answers, and its stage. *)
Definition callback_stage (action : string) : option (string * Stage) :=
  if action =? "on_select" then Some ("select", StageOnSelect)
  else if action =? "on_init" then Some ("init", StageOnInit)
  else if action =? "on_confirm" then Some ("confirm", StageOnConfirm)
  else None.

(** [None]: the channel is full. *)
Definition enqueueLatencyEvent (full : bool) (e : RunLatencyEvent) w : option (world B S L) :=
  if full then None else Some (push_event e w).

(** The event of a callback whose request was sent at [sentAt], if known. *)
Definition latency_event (stage : Stage) (runID sessionID txnID : string) (receivedAt : Z)
  (sentAt : option Z) (outcome : Outcome) : RunLatencyEvent :=
  let latencyMs := (λ t, Milliseconds (receivedAt - t)) <$> sentAt in
  let effective :=
    match latencyMs with
    | Some ms => if (Milliseconds callbackTimeout <=? ms)%Z then OutcomeTimeout else outcome
    | None => outcome
    end in
  mkEvent sessionID runID stage txnID (default receivedAt sentAt) (Some receivedAt) latencyMs
    effective receivedAt "".

Definition recordLatencyEventOnCallback (action runID sessionID txnID : string) (rq : request B)
  (outcome : Outcome) w : Outcome * world B S L :=
  if negb (cb_store c) || negb (cb_persist c) then (outcome, w)
  else match callback_stage action with
  | None => (outcome, w)
  | Some (requestAction, stage) =>
      let '(x, w) := runlog_call (rq_now rq) (GetTimestamp runID "pipeline_b" requestAction txnID) w in
      let sentAt := match x with OTime t => t | _ => None end in
      let ev := latency_event stage runID sessionID txnID (rq_now rq) sentAt outcome in
      match enqueueLatencyEvent (rq_full rq) ev w with
      | Some w => (ev_Outcome ev, w)
      | None => (ev_Outcome ev, set_mongo (Mongo_UpsertRunLatencyEvent (Some ev) (w_mongo w)) w)
      end
  end.

Definition outcome_field (o : Outcome) : string :=
  match o with
  | OutcomeSuccess => "success" | OutcomeFailure => "failure" | OutcomeTimeout => "timeout"
  end.

(** What [recordCallback] and [recordCallbackFailure] share; they differ in
    the outcome they start from. *)
Definition record_callback (outcome : Outcome) (action : string) (rq : request B) w : world B S L :=
  if negb (cb_store c) then w
  else if empty_body (rq_body rq) then w
  else
    let txnID := extractTxnID (rq_body rq) in
    if txnID =? "" then w
    else
      let '(route, w) := state_call (rq_now rq) (GetTxnRoute txnID) w in
      match route with
      | Err _ => w
      | Ok (runID, sessionID, _) =>
          let '(_, w) :=
            runlog_call (rq_now rq) (RecordPayload runID "pipeline_b" action txnID (rq_body rq)) w in
          let '(effective, w) :=
            recordLatencyEventOnCallback action runID sessionID txnID rq outcome w in
          let '(_, w) := state_call (rq_now rq) (IncrMetric runID action "sent" 1) w in
          let '(_, w) := state_call (rq_now rq) (IncrMetric runID action (outcome_field effective) 1) w in
          if cb_notifier c then notify runID action w else w
      end.

Definition callback_outcome (body : B) : Outcome :=
  let ackStatus := extractInboundAckStatus body in
  if negb (ackStatus =? "") && negb (ackStatus =? "ACK") then OutcomeFailure else OutcomeSuccess.

Definition recordCallback (action : string) (rq : request B) w : world B S L :=
  record_callback (callback_outcome (rq_body rq)) action rq w.
Definition recordCallbackFailure (action : string) (rq : request B) w : world B S L :=
  record_callback OutcomeFailure action rq w.

(** ** Answers: status 200 and a body *)

Definition response_context (rq : request B) : obj :=
  let ctxMap :=
    if empty_body (rq_body rq) then ∅
    else match decode_map (rq_body rq) with
         | Some (Some full) => obj_or_new "context" full
         | _ => ∅
         end in
  default_key "timestamp" (JStr (format_ms (rq_now rq))) ctxMap.

Definition ack_body (status : string) : json := JObj {[ "ack" := JObj {[ "status" := JStr status ]} ]}.

Definition writeAck (rq : request B) : json :=
  JObj {[ "context" := JObj (response_context rq); "message" := ack_body "ACK" ]}.

Definition writeNack (rq : request B) (reason : string) : json :=
  JObj (<["error" := JObj {[ "code" := JStr "10001"; "message" := JStr reason ]}]>
    {[ "context" := JObj (response_context rq); "message" := ack_body "NACK" ]}).

(** ** The handlers *)

Definition handle_callback (action : string) (rq : request B) w : json * world B S L :=
  let '(err, w) := verifyInbound rq w in
  match err with
  | Some e => (writeNack rq (error_text e), recordCallbackFailure action rq w)
  | None =>
      match validatePayload action rq with
      | Some e => (writeNack rq (error_text e), recordCallbackFailure action rq w)
      | None => (writeAck rq, recordCallback action rq w)
      end
  end.

Definition onSelect := handle_callback "on_select".
Definition onInit := handle_callback "on_init".
Definition onConfirm := handle_callback "on_confirm".

Definition onSearch_handler (rq : request B) w : json * world B S L :=
  let '(err, w) := verifyInbound rq w in
  match err with
  | Some e => (writeNack rq (error_text e), w)
  | None =>
      let txnID := extractTxnID (rq_body rq) in
      let w := if txnID =? "" then w
               else (state_call (rq_now rq) (SetDiscoveryPayload txnID (rq_body rq)) w).2 in
      (writeAck rq, recordCallback "on_search" rq w)
  end.

(** The routes of [Register], and a sequence of requests. *)
Inductive route := POST_on_search | POST_on_select | POST_on_init | POST_on_confirm.
#[export] Instance route_eq_dec : EqDecision route.
Proof. solve_decision. Defined.
Definition handle (r : route) : request B → world B S L → json * world B S L :=
  match r with
  | POST_on_search => onSearch_handler
  | POST_on_select => onSelect
  | POST_on_init => onInit
  | POST_on_confirm => onConfirm
  end.
Fixpoint handle_all (rqs : list (route * request B)) w : list json * world B S L :=
  match rqs with
  | [] => ([], w)
  | (r, rq) :: rqs' =>
      let '(x, w) := handle r rq w in
      let '(xs, w) := handle_all rqs' w in (x :: xs, w)
  end.
End Handlers.

(** ** What the counters count *)
Section Accounting.
Context {B S L : Type}.
Context `{Crypto, Bytes B, JsonCodec B, Sprint, MongoServer B, SessionWire B}.
Context `{!StateStore B S, !RunLogStore B L} {t0 t1 : Z}.
Context `{!StateStoreRefines B S t0 t1, !RunLogRefines B L t0 t1}.
Variable http_do : Z → string → B → option string → result error (Z * B).
Variable c : controller B.
Implicit Types (w : world B S L) (A : astore B) (G : alog B) (rq : request B).

(** The world's stores hold an abstract session store and an abstract run log
    after [n] calls. *)
Definition represents (n : nat) w A G : Prop :=
  st_repr (t0 := t0) (t1 := t1) (w_state w) A ∧ log_repr (t0 := t0) (t1 := t1) n (w_log w) G.

(** Transactions are linked to runs with proper names. *)
Definition routes_ok A : Prop :=
  ∀ txn r s v, A (KTxn txn) = Some (r, s, v) → r ≠ "" ∧ no_colon r.

(** The transaction and the run a callback is recorded for. *)
Definition recorded_for A (body : B) : option (string * string) :=
  if empty_body body then None
  else let txn := extractTxnID body in
       if txn =? "" then None else (λ x, (txn, x.1.1)) <$> A (KTxn txn).

Definition bump (run action field : string) A : astore B :=
  (aexec 0 (IncrMetric run action field 1) A).2.

(** The abstract effect of recording a callback with this outcome. *)
Definition record_state (action : string) (o : Outcome) (body : B) A : astore B :=
  match recorded_for A body with
  | Some (_, run) => bump run action (outcome_field o) (bump run action "sent" A)
  | None => A
  end.
Definition record_log (action : string) (body : B) A G : alog B :=
  match recorded_for A body with
  | Some (txn, run) => alog_next (RecordPayload run "pipeline_b" action txn body) G
  | None => G
  end.
Definition record_notified (action : string) (body : B) A : list (string * string) :=
  match recorded_for A body with Some (_, run) => [(run, action)] | None => [] end.

Lemma state_call_repr {T} n now (q : call B T) w A G :
  (t0 ≤ now < t1)%Z → call_ok q → represents n w A G →
  ∃ s, state_call now q w = ((aexec now q A).1, set_state s w) ∧
       represents n (set_state s w) (aexec now q A).2 G.
Proof.
  intros Hn Hc [Hs Hl]. destruct (st_repr_call now q _ _ Hn Hc Hs) as [E1 E2].
  unfold state_call. destruct (st_call now q (w_state w)) as [x s]. simpl in *. subst x.
  exists s. done.
Qed.

Lemma runlog_call_repr n now (o : op B) w A G :
  (Z.of_nat (Datatypes.S n) < 2 ^ 63)%Z → (t0 ≤ now < t1)%Z → op_ok o → represents n w A G →
  ∃ x l, runlog_call now o w = (x, set_log l w) ∧ alog_obs o G x ∧
         represents (Datatypes.S n) (set_log l w) A (alog_next o G).
Proof.
  intros Hb Hn Ho [Hs Hl]. destruct (log_repr_call n now o _ _ Hb Hn Ho Hl) as [E1 E2].
  unfold runlog_call. destruct (log_call now o (w_log w)) as [x l]. simpl in *.
  exists x, l. done.
Qed.

(** The latency event changes neither store. *)
Lemma record_latency_repr n action run sess txn rq o w A G :
  (Z.of_nat (Datatypes.S n) < 2 ^ 63)%Z → (t0 ≤ rq_now rq < t1)%Z → no_colon run →
  represents n w A G →
  ∃ (n' : nat) o' w', recordLatencyEventOnCallback c action run sess txn rq o w = (o', w') ∧
    (n' ≤ Datatypes.S n)%nat ∧ represents n' w' A G ∧ w_notified w' = w_notified w.
Proof.
  intros Hb Hn Hrun Hr. unfold recordLatencyEventOnCallback.
  destruct (_ || _). { exists n, o, w. split_and!; [done|lia|done..]. }
  destruct (callback_stage action) as [[ra stage]|] eqn:E; [|by exists n, o, w; split_and!; try lia].
  destruct (runlog_call_repr n (rq_now rq) (GetTimestamp run "pipeline_b" ra txn) w A G)
    as (x & l & -> & _ & Hr'); [done|done| |done|].
  { unfold callback_stage in E. repeat case_match; simplify_eq; simpl;
      unfold name_ok; by rewrite Hrun. }
  unfold enqueueLatencyEvent. exists (Datatypes.S n).
  destruct (rq_full rq); do 2 eexists; split_and!; try done; apply Hr'.
Qed.

Lemma record_callback_repr n action o rq w A G :
  cb_store c = true → cb_notifier c = true →
  (Z.of_nat (n + 2) < 2 ^ 63)%Z → (t0 ≤ rq_now rq < t1)%Z → no_colon action → routes_ok A →
  represents n w A G →
  ∃ (n' : nat) o', (n' ≤ n + 2)%nat ∧
    let w' := record_callback c o action rq w in
    represents n' w' (record_state action o' (rq_body rq) A) (record_log action (rq_body rq) A G) ∧
    w_notified w' = (w_notified w ++ record_notified action (rq_body rq) A)%list.
Proof.
  intros Hst Hno Hb Hn Ha HA Hr.
  unfold record_callback, record_state, record_log, record_notified, recorded_for. rewrite Hst. simpl.
  destruct (empty_body (rq_body rq)); [exists n, o; rewrite app_nil_r; split; [lia|done]|].
  destruct (extractTxnID (rq_body rq) =? "") eqn:Et;
    [exists n, o; rewrite app_nil_r; split; [lia|done]|].
  set (txn := extractTxnID (rq_body rq)) in *.
  destruct (state_call_repr n (rq_now rq) (GetTxnRoute txn) w A G) as (s & -> & Hr1); [done..|].
  simpl. destruct (A (KTxn txn)) as [[[run sess] v]|] eqn:EA; simpl;
    [|exists n, o; rewrite app_nil_r; split; [lia|done]].
  destruct (HA _ _ _ _ EA) as [Hrun Hcol].
  destruct (runlog_call_repr n (rq_now rq) (RecordPayload run "pipeline_b" action txn (rq_body rq))
    _ _ _ ltac:(lia) Hn ltac:(simpl; unfold name_ok; by rewrite Hcol, Ha) Hr1)
    as (x & l & -> & _ & Hr2).
  destruct (record_latency_repr (Datatypes.S n) action run sess txn rq o _ _ _ ltac:(lia) Hn Hcol Hr2)
    as (n' & o' & w' & -> & Hn' & Hr3 & Hnot).
  destruct (state_call_repr n' (rq_now rq) (IncrMetric run action "sent" 1) w' A _ Hn
    ltac:(split_and!; done) Hr3) as (s2 & -> & Hr4).
  assert (no_colon (outcome_field o')) as Hf by by destruct o'.
  destruct (state_call_repr n' (rq_now rq) (IncrMetric run action (outcome_field o') 1) _ _ _ Hn
    ltac:(split_and!; done) Hr4) as (s3 & -> & Hr5).
  rewrite Hno. exists n', o'. split; [lia|]. split; [apply Hr5|]. simpl. by rewrite Hnot.
Qed.
Lemma verifyInbound_repr n rq w A G :
  (t0 ≤ rq_now rq < t1)%Z → represents n w A G →
  ∃ err w', verifyInbound http_do c rq w = (err, w') ∧ represents n w' A G ∧
    w_notified w' = w_notified w.
Proof.
  intros Hn Hr. unfold verifyInbound.
  destruct (rq_auth rq =? ""); [by exists None, w|].
  destruct (extractTxnID (rq_body rq) =? ""); [by exists None, w|].
  destruct (state_call_repr n (rq_now rq) (GetTxnRoute (extractTxnID (rq_body rq))) w A G)
    as (s & -> & Hr1); [done..|].
  destruct (aexec _ _ _).1 as [[[? ?] v]|]; [|by eexists None, _].
  destruct (negb v); [by eexists None, _|].
  destruct (SummarizeAuthorisationHeader _); [|by eexists (Some _), _].
  destruct (ParseKeyID _) as [[sub uk]|]; [|by eexists (Some _), _].
  destruct (GetPublicKeyByUKID _ _ _ _ _ _) as [[key|] keys]; [|by eexists (Some _), _].
  destruct (VerifyAuthorisationHeaderBytes _ _ _ _); by eexists _, _.
Qed.

Definition action_of (r : route) : string :=
  match r with
  | POST_on_search => "on_search" | POST_on_select => "on_select"
  | POST_on_init => "on_init" | POST_on_confirm => "on_confirm"
  end.

(** One request: every callback but [on_search] is recorded whatever the
    verification says. *)
Lemma handle_callback_repr n action rq w A G :
  cb_store c = true → cb_notifier c = true →
  (Z.of_nat (n + 2) < 2 ^ 63)%Z → (t0 ≤ rq_now rq < t1)%Z → no_colon action → routes_ok A →
  represents n w A G →
  ∃ (n' : nat) o', (n' ≤ n + 2)%nat ∧
    let w' := (handle_callback http_do c action rq w).2 in
    represents n' w' (record_state action o' (rq_body rq) A) (record_log action (rq_body rq) A G) ∧
    w_notified w' = (w_notified w ++ record_notified action (rq_body rq) A)%list.
Proof.
  intros Hst Hno Hb Hn Ha HA Hr. unfold handle_callback.
  destruct (verifyInbound_repr n rq w A G Hn Hr) as (err & w1 & -> & Hr1 & <-).
  destruct err as [e|]; [by apply record_callback_repr|].
  destruct (validatePayload c action rq); by apply record_callback_repr.
Qed.

Lemma on_search_repr n rq w A G :
  cb_store c = true → cb_notifier c = true →
  (Z.of_nat (n + 2) < 2 ^ 63)%Z → (t0 ≤ rq_now rq < t1)%Z → routes_ok A →
  represents n w A G →
  ∃ (n' : nat) A' G' N, (n' ≤ n + 2)%nat ∧
    let w' := (onSearch_handler http_do c rq w).2 in
    represents n' w' A' G' ∧ w_notified w' = (w_notified w ++ N)%list ∧
    (∃ A1 o', (∀ k, (∀ t, k ≠ KDiscovery t) → A1 k = A k) ∧
      (A' = A ∧ G' = G ∧ N = [] ∨
       A' = record_state "on_search" o' (rq_body rq) A1 ∧
       G' = record_log "on_search" (rq_body rq) A1 G ∧ N = record_notified "on_search" (rq_body rq) A1)).
Proof.
  intros Hst Hno Hb Hn HA Hr. unfold onSearch_handler.
  destruct (verifyInbound_repr n rq w A G Hn Hr) as (err & w1 & -> & Hr1 & <-).
  destruct err as [e|].
  { exists n, A, G, []. rewrite app_nil_r. split; [lia|]. split_and!; [done..|].
    exists A, OutcomeSuccess. auto. }
  set (A1 := if extractTxnID (rq_body rq) =? "" then A
             else aset (KDiscovery (extractTxnID (rq_body rq))) (Some (rq_body rq)) A).
  assert (∀ k, (∀ t, k ≠ KDiscovery t) → A1 k = A k) as HA1.
  { intros k Hk. unfold A1. case_match; [done|]. rewrite aset_ne; [done|]. intros <-. by eapply Hk. }
  assert (∃ w2, (if extractTxnID (rq_body rq) =? "" then w1
    else (state_call (rq_now rq) (SetDiscoveryPayload (extractTxnID (rq_body rq)) (rq_body rq)) w1).2)
    = w2 ∧ represents n w2 A1 G ∧ w_notified w2 = w_notified w1) as (w2 & -> & Hr2 & Hnot).
  { unfold A1. destruct (extractTxnID (rq_body rq) =? ""); [by exists w1|].
    destruct (state_call_repr n (rq_now rq)
      (SetDiscoveryPayload (extractTxnID (rq_body rq)) (rq_body rq)) w1 A G Hn I Hr1)
      as (s & -> & Hr2). eexists; split_and!; [reflexivity|apply Hr2|done]. }
  destruct (record_callback_repr n "on_search" (callback_outcome (rq_body rq)) rq w2 A1 G)
    as (n' & o' & Hn' & Hr3 & Hnot3); try done.
  { intros txn r s v E. rewrite HA1 in E by done. by eapply HA. }
  exists n', (record_state "on_search" o' (rq_body rq) A1),
    (record_log "on_search" (rq_body rq) A1 G), (record_notified "on_search" (rq_body rq) A1).
  split; [done|]. cbn [snd]. unfold recordCallback. split_and!; [done|by rewrite Hnot3, Hnot|].
  exists A1, o'. auto.
Qed.

(** ** Tallies *)

(** What the four counters of a run and an action say. *)
Definition outcomes (run action : string) A : Z :=
  (metric run action A "success" + metric run action A "failure" + metric run action A "timeout")%Z.
Definition notified (run action : string) (N : list (string * string)) : nat :=
  countb (λ x, bool_decide (x = (run, action))) N.
Definition within (bound : Z) (run action : string) A : Prop :=
  ∀ f, (0 ≤ metric run action A f)%Z ∧ (metric run action A f + bound < 2 ^ 63)%Z.

Record advance (k : nat) (run action : string) A G N A' G' N' : Prop := {
  adv_sent : metric run action A' "sent" = (metric run action A "sent" + Z.of_nat k)%Z;
  adv_outcomes : outcomes run action A' = (outcomes run action A + Z.of_nat k)%Z;
  adv_logged : al_count G' run "pipeline_b" action = (al_count G run "pipeline_b" action + Z.of_nat k)%Z;
  adv_notified : notified run action N' = notified run action N + k;
  adv_within : ∀ bound, within (bound + Z.of_nat k) run action A → within bound run action A';
  adv_routes : ∀ txn, A' (KTxn txn) = A (KTxn txn);
}.

Lemma metric_bump run action field A r a f :
  (run = r → action = a → field = f → (0 ≤ metric r a A f)%Z ∧ (metric r a A f + 1 < 2 ^ 63)%Z) →
  metric r a (bump run action field A) f
  = (metric r a A f + if bool_decide ((run, action, field) = (r, a, f)) then 1 else 0)%Z.
Proof.
  intros Hb. unfold bump, metric. simpl. case_bool_decide as E; simpl; case_bool_decide as E2.
  - simplify_eq. by rewrite aset_eq.
  - rewrite aset_ne; [lia|]. by intros [= -> -> ->].
  - simplify_eq. destruct Hb as [H6 H7]; [done..|]. unfold metric in *. destruct E.
    unfold in_int64. lia.
  - lia.
Qed.

Lemma bump_txn run action field A txn : bump run action field A (KTxn txn) = A (KTxn txn).
Proof. unfold bump. simpl. case_bool_decide; [|done]. simpl. by rewrite aset_ne. Qed.
(** Is the callback recorded for this run and action? *)
Definition hit (run action : string) A (q : route * request B) : bool :=
  match recorded_for A (rq_body q.2) with
  | Some (_, r) => (r =? run) && (action_of q.1 =? action)
  | None => false
  end.

Lemma advance_refl run action A G N : advance 0 run action A G N A G N.
Proof.
  split; try lia; try done. intros bound Hw f. destruct (Hw f). split; lia.
Qed.

Lemma advance_trans k1 k2 run action A G N A1 G1 N1 A2 G2 N2 :
  advance k1 run action A G N A1 G1 N1 → advance k2 run action A1 G1 N1 A2 G2 N2 →
  advance (k1 + k2) run action A G N A2 G2 N2.
Proof.
  intros [] []. split; try lia; [|congruence].
  intros bound Hw. apply adv_within1, adv_within0. intros f. destruct (Hw f). split; lia.
Qed.

(** Reading [advance] off the other run's or action's counters. *)
Lemma metric_ext A A' run action :
  (∀ f, metric run action A' f = metric run action A f) →
  outcomes run action A' = outcomes run action A ∧
  ∀ bound, within bound run action A → within bound run action A'.
Proof.
  intros E. split; [unfold outcomes; by rewrite !E|]. intros bound Hw f. rewrite E. apply Hw.
Qed.

Lemma record_advance rt o rq run action A G N :
  routes_ok A → within (if hit run action A (rt, rq) then 1 else 0) run action A →
  advance (if hit run action A (rt, rq) then 1 else 0) run action A G N
    (record_state (action_of rt) o (rq_body rq) A) (record_log (action_of rt) (rq_body rq) A G)
    (N ++ record_notified (action_of rt) (rq_body rq) A).
Proof.
  unfold hit, record_state, record_log, record_notified. cbn [fst snd]. intros HA Hw.
  destruct (recorded_for A (rq_body rq)) as [[txn r]|] eqn:E;
    [|rewrite app_nil_r; apply advance_refl].
  assert (r ≠ "" ∧ txn ≠ "") as [Hr Ht].
  { unfold recorded_for in E. destruct (empty_body _); [done|].
    destruct (extractTxnID (rq_body rq) =? "") eqn:Et; [done|]. bool_hyps.
    destruct (A (KTxn _)) as [[[r' s'] v']|] eqn:EA; simplify_eq/=. by apply HA in EA as [? _]. }
  assert (some_empty r "pipeline_b" (action_of rt) txn = false) as Hse.
  { unfold some_empty. apply String.eqb_neq in Hr, Ht. rewrite Hr, Ht. by destruct rt. }
  assert (∀ f, metric run action (bump r (action_of rt) (outcome_field o)
      (bump r (action_of rt) "sent" A)) f =
    (metric run action A f + if (r =? run)%string && (action_of rt =? action)%string
       then (if bool_decide (f = "sent") then 1 else 0)
            + (if bool_decide (f = outcome_field o) then 1 else 0) else 0))%Z as Hm.
  { intros f. assert (∀ g, r = run → action_of rt = action →
      (0 ≤ metric run action A g)%Z ∧ (metric run action A g + 1 < 2 ^ 63)%Z) as Hw'.
    { intros g -> <-. rewrite !String.eqb_refl in Hw. apply Hw. }
    rewrite metric_bump; rewrite metric_bump.
    - destruct (String.eqb_spec r run) as [->|], (String.eqb_spec (action_of rt) action) as [->|];
        simpl; repeat case_bool_decide; simplify_eq; first [lia|congruence].
    - auto.
    - intros Er Ea <-. rewrite bool_decide_false; [rewrite Z.add_0_r; auto|by destruct o].
    - auto. }
  unfold alog_next. rewrite Hse.
  split.
  - rewrite Hm. destruct (_ && _); [|lia]. rewrite bool_decide_true by done.
    by destruct o.
  - unfold outcomes. rewrite !Hm. destruct (_ && _); [|lia]. destruct o; simpl; lia.
  - simpl. unfold eqb3. rewrite (String.eqb_sym run), (String.eqb_sym action), String.eqb_refl.
    rewrite andb_true_r. by destruct (_ && _).
  - unfold notified. rewrite countb_app. simpl.
    destruct (String.eqb_spec r run), (String.eqb_spec (action_of rt) action); simpl;
      case_bool_decide; simplify_eq; lia.
  - intros bound Hw2 f. rewrite Hm. destruct (Hw2 f). destruct (_ && _); [|lia].
    repeat case_bool_decide; subst; try (by destruct o); lia.
  - intros t. by rewrite !bump_txn.
Qed.
(** Steps that touch another action only. *)
Lemma record_advance_other o rq run action A G N :
  routes_ok A → action ≠ "on_search" →
  within 0 run action A →
  advance 0 run action A G N (record_state "on_search" o (rq_body rq) A)
    (record_log "on_search" (rq_body rq) A G) (N ++ record_notified "on_search" (rq_body rq) A).
Proof.
  intros HA Ha Hw. assert (hit run action A (POST_on_search, rq) = false) as Hh.
  { unfold hit. cbn [action_of fst snd]. apply String.eqb_neq in Ha.
    rewrite (String.eqb_sym "on_search"), Ha. destruct (recorded_for _ _) as [[??]|]; [|done].
    apply andb_false_r. }
  pose proof (record_advance POST_on_search o rq run action A G N HA) as Hadv.
  rewrite Hh in Hadv. by apply Hadv.
Qed.

Definition hits (run action : string) A (rqs : list (route * request B)) : nat :=
  countb (hit run action A) rqs.

Lemma handle_advance n rt rq w A G run action :
  cb_store c = true → cb_notifier c = true → action ≠ "on_search" →
  (Z.of_nat (n + 2) < 2 ^ 63)%Z → (t0 ≤ rq_now rq < t1)%Z → routes_ok A →
  within 1 run action A → represents n w A G →
  ∃ (n' : nat) A' G', (n' ≤ n + 2)%nat ∧
    represents n' (handle http_do c rt rq w).2 A' G' ∧
    advance (if hit run action A (rt, rq) then 1 else 0) run action A G (w_notified w)
      A' G' (w_notified (handle http_do c rt rq w).2).
Proof.
  intros Hst Hno Ha Hb Hn HA Hw Hr.
  assert (within (if hit run action A (rt, rq) then 1 else 0) run action A) as Hw'.
  { intros f. destruct (Hw f). destruct (hit _ _ _ _); lia. }
  assert (∀ rt, rt ≠ POST_on_search → (handle http_do c rt rq w).2
    = (handle_callback http_do c (action_of rt) rq w).2) as Hh by by intros [].
  destruct (decide (rt = POST_on_search)) as [->|Hrt].
  - assert (hit run action A (POST_on_search, rq) = false) as ->.
    { unfold hit. cbn [action_of fst snd]. apply String.eqb_neq in Ha.
      rewrite (String.eqb_sym "on_search"), Ha. destruct (recorded_for _ _) as [[??]|]; [|done].
      apply andb_false_r. }
    destruct (on_search_repr n rq w A G) as (n' & A' & G' & N & Hn' & Hr' & HN & A1 & o' & HA1 & Hc);
      [done..|].
    exists n', A', G'. split_and!; [done..|]. cbn [handle]. rewrite HN.
    destruct Hc as [(-> & -> & ->)|(-> & -> & ->)]; [rewrite app_nil_r; apply advance_refl|].
    destruct (metric_ext A A1 run action) as [E1 E2].
    { intros f. unfold metric. by rewrite HA1. }
    change 0 with (0 + 0). apply (advance_trans _ _ _ _ _ _ _ A1 G (w_notified w)).
    + split; try lia; [unfold metric; rewrite HA1 by done; lia| |by intros; rewrite HA1].
      intros bound Hb'. apply E2. intros f. destruct (Hb' f). lia.
    + apply record_advance_other; [|done|].
      * intros t r s v E. rewrite HA1 in E by done. by eapply HA.
      * apply E2. intros f. destruct (Hw f). lia.
  - rewrite Hh by done.
    destruct (handle_callback_repr n (action_of rt) rq w A G) as (n' & o' & Hn' & Hr' & HN);
      [done|done|done|done|by destruct rt|done|done|].
    exists n', (record_state (action_of rt) o' (rq_body rq) A),
      (record_log (action_of rt) (rq_body rq) A G).
    split_and!; [done..|]. rewrite HN. by apply record_advance.
Qed.

Lemma hit_ext run action A A' q :
  (∀ txn, A' (KTxn txn) = A (KTxn txn)) → hit run action A' q = hit run action A q.
Proof. intros E. unfold hit, recorded_for. by rewrite E. Qed.

Lemma handle_all_advance rqs : ∀ n w A G run action,
  cb_store c = true → cb_notifier c = true → action ≠ "on_search" →
  (Z.of_nat (n + 2 * length rqs) < 2 ^ 63)%Z →
  Forall (λ q, (t0 ≤ rq_now q.2 < t1)%Z) rqs → routes_ok A →
  within (Z.of_nat (length rqs)) run action A → represents n w A G →
  ∃ (n' : nat) A' G', (n' ≤ n + 2 * length rqs)%nat ∧
    represents n' (handle_all http_do c rqs w).2 A' G' ∧
    advance (hits run action A rqs) run action A G (w_notified w)
      A' G' (w_notified (handle_all http_do c rqs w).2).
Proof.
  induction rqs as [|[rt rq] rqs IH]; intros n w A G run action Hst Hno Ha Hb Hn HA Hw Hr.
  { exists n, A, G. split_and!; [lia|done|apply advance_refl]. }
  apply Forall_cons in Hn as [Hn1 Hn]. cbn [length fst snd] in *.
  destruct (handle_advance n rt rq w A G run action) as (n1 & A1 & G1 & Hn1' & Hr1 & Hadv1);
    [done..|lia|done|done| |done|].
  { intros f. destruct (Hw f). lia. }
  cbn [handle_all]. destruct (handle http_do c rt rq w) as [x w1]. cbn [snd] in *.
  destruct (IH n1 w1 A1 G1 run action) as (n2 & A2 & G2 & Hn2 & Hr2 & Hadv2); [done..|lia|done| | |done|].
  { intros t r s v E. rewrite (adv_routes _ _ _ _ _ _ _ _ _ Hadv1) in E. by eapply HA. }
  { apply (adv_within _ _ _ _ _ _ _ _ _ Hadv1). intros f. destruct (Hw f).
    destruct (hit _ _ _ _); lia. }
  destruct (handle_all http_do c rqs w1) as [xs w2]. cbn [snd] in *.
  exists n2, A2, G2. split_and!; [lia|done|].
  unfold hits in *. cbn [countb].
  rewrite (countb_ext (hit run action A1) (hit run action A)) in Hadv2
    by (intros; apply hit_ext, (adv_routes _ _ _ _ _ _ _ _ _ Hadv1)).
  by eapply advance_trans.
Qed.
End Accounting.

(** The metrics of a callback's stage. *)
Definition stage_metrics (s : Stage) (m : RunMetrics) : ActionMetrics :=
  match s with
  | StageOnSelect => rm_OnSelect m | StageOnInit => rm_OnInit m | StageOnConfirm => rm_OnConfirm m
  end.

(** C13: The four counts of callbacks agree.  Over any sequence of requests,
    good or bad, verified or not, and for every run and callback stage, the
    number sent, the sum of successes, failures and timeouts, the number of
    payloads in the run log and the number of wake-ups of the notifier all
    grow by the number of requests with a body whose transaction was linked to
    the run, on every session store and run log that keep their contracts. *)
Theorem callback_counters_agree {B S L} `{Crypto, Bytes B, JsonCodec B, Sprint, MongoServer B}
    `{SessionWire B} `{!StateStore B S, !RunLogStore B L} {t0 t1 : Z}
    `{!StateStoreRefines B S t0 t1, !RunLogRefines B L t0 t1}
    http_do (c : controller B) rqs n (w : world B S L) A G run stage now :
  cb_store c = true → cb_notifier c = true →
  (Z.of_nat (n + 2 * length rqs) + 1 < 2 ^ 63)%Z → (t0 ≤ now < t1)%Z →
  Forall (λ q, (t0 ≤ rq_now q.2 < t1)%Z) rqs → routes_ok A → run ≠ "" → no_colon run →
  within (Z.of_nat (length rqs)) run (stage_string stage) A →
  represents (t0 := t0) (t1 := t1) n w A G →
  let w' := (handle_all http_do c rqs w).2 in
  let k := hits run (stage_string stage) A rqs in
  let m := stage_metrics stage (st_call now (GetMetrics run) (w_state w)).1 in
  let m' := stage_metrics stage (st_call now (GetMetrics run) (w_state w')).1 in
  am_Sent m' = (am_Sent m + Z.of_nat k)%Z ∧
  (am_Success m' + am_Failure m' + am_Timeout m'
   = am_Success m + am_Failure m + am_Timeout m + Z.of_nat k)%Z ∧
  (∃ z, (log_call now (Count run "pipeline_b" (stage_string stage)) (w_log w)).1 = OCount (Some z) ∧
        (log_call now (Count run "pipeline_b" (stage_string stage)) (w_log w')).1
        = OCount (Some (z + Z.of_nat k)%Z)) ∧
  notified run (stage_string stage) (w_notified w')
  = notified run (stage_string stage) (w_notified w) + k.
Proof.
  intros Hst Hno Hb Hnow Hn HA Hrun Hcol Hw Hr w' k m m'.
  destruct (handle_all_advance http_do c rqs n w A G run (stage_string stage))
    as (n' & A' & G' & Hn' & Hr' & Hadv); [done|done|by destruct stage|lia|done|done|done|done|].
  assert (∀ (v : world B S L) A n, represents (t0 := t0) (t1 := t1) n v A G ∨
      (∃ G, represents (t0 := t0) (t1 := t1) n v A G) →
    stage_metrics stage (st_call now (GetMetrics run) (w_state v)).1
    = action_metrics run (stage_string stage) A) as Hm.
  { intros v A1 n1 Hv. assert (∃ G, represents (t0 := t0) (t1 := t1) n1 v A1 G) as [G1 [Hs _]]
      by (destruct Hv; eauto).
    destruct (st_repr_call now (GetMetrics run) _ _ Hnow Hcol Hs) as [-> _]. by destruct stage. }
  unfold m, m'. rewrite (Hm w A n), (Hm w' A' n') by eauto. cbn [action_metrics am_Sent am_Success
    am_Failure am_Timeout]. split_and!.
  - apply Hadv.
  - apply (adv_outcomes _ _ _ _ _ _ _ _ _ Hadv).
  - assert (op_ok (B := B) (Count run "pipeline_b" (stage_string stage))) as Ho.
    { simpl. unfold name_ok. rewrite Hcol. by destruct stage. }
    destruct Hr as [_ Hl]. destruct Hr' as [_ Hl'].
    destruct (log_repr_call n now _ _ _ ltac:(lia) Hnow Ho Hl) as [E1 _].
    destruct (log_repr_call n' now _ _ _ ltac:(lia) Hnow Ho Hl') as [E2 _].
    simpl in E1, E2. fold w' in E2.
    destruct (log_call now _ (w_log w)).1 as [| | |z| |]; try done.
    destruct (log_call now _ (w_log w')).1 as [| | |z'| |]; try done. subst.
    eexists; split; [done|]. by rewrite (adv_logged _ _ _ _ _ _ _ _ _ Hadv).
  - apply Hadv.
Qed.

(** ** Verification *)

(** The session asks for it, and the request claims to be signed. *)
Definition must_verify {B} `{Bytes B, JsonCodec B, Sprint} (A : astore B) (rq : request B) : bool :=
  let txnID := extractTxnID (rq_body rq) in
  negb (rq_auth rq =? "") && negb (txnID =? "")
  && match A (KTxn txnID) with Some (_, _, v) => v | None => false end.

(** C14: Which callbacks pass the signature check, on every session store: a
    request that must be verified passes exactly when its header names a key
    the registry has and carries, within its time window, a valid signature
    of this very body by that key; every other request passes unchecked -
    one without a header, with an unknown transaction, or of a session that
    has verification off. *)
Theorem verification_sound {B S L} `{Crypto, Bytes B, JsonCodec B, Sprint, MongoServer B}
    `{SessionWire B} `{!StateStore B S, !RunLogStore B L} {t0 t1 : Z}
    `{!StateStoreRefines B S t0 t1} http_do (c : controller B) rq (w : world B S L) A :
  (t0 ≤ rq_now rq < t1)%Z → st_repr (t0 := t0) (t1 := t1) (w_state w) A →
  (verifyInbound http_do c rq w).1 = None ↔
  must_verify A rq = false ∨
  ∃ keyID created expires sig sub uk pub keys z0 z1 sigBytes,
    parseAuthHeader (rq_auth rq) = Ok (keyID, created, expires, sig) ∧
    ParseKeyID keyID = Some (sub, uk) ∧
    GetPublicKeyByUKID http_do (cb_registry c) (rq_now rq) sub uk (w_keys w) = (Ok pub, keys) ∧
    String.length pub = 32%nat ∧
    ParseInt created = (z0, true) ∧ ParseInt expires = (z1, true) ∧
    (z0 ≤ rq_now rq / second ≤ z1)%Z ∧ DecodeString sig = Some sigBytes ∧
    ed25519_Verify pub (signing_string created expires (b_string (rq_body rq))) sigBytes = true.
Proof.
  intros Hn Hs. unfold verifyInbound, must_verify, state_call.
  destruct (rq_auth rq =? ""); [split; [by left|done]|].
  destruct (extractTxnID (rq_body rq) =? ""); [split; [by left|done]|]. cbn [negb andb].
  destruct (st_repr_call (rq_now rq) (GetTxnRoute (extractTxnID (rq_body rq))) _ _ Hn I Hs) as [E _].
  destruct (st_call _ _ _) as [x s]. simpl in E. subst x.
  destruct (A (KTxn _)) as [[[run sess] v]|]; simpl; [|by split; [left|]].
  destruct v; simpl; [|by split; [left|]].
  unfold SummarizeAuthorisationHeader.
  destruct (parseAuthHeader (rq_auth rq)) as [[[[keyID created] expires] sig]|e] eqn:P.
  2: { split; [done|]. intros [|Hex]; [done|]. by split_hyps. }
  cbn [ah_KeyID]. destruct (ParseKeyID keyID) as [[sub uk]|] eqn:K.
  2: { split; [done|]. intros [|Hex]; [done|]. split_hyps. simplify_eq. }
  destruct (GetPublicKeyByUKID _ _ _ _ _ _) as [[pub|e] keys] eqn:G.
  2: { split; [done|]. intros [|Hex]; [done|]. split_hyps. simplify_eq. congruence. }
  destruct (VerifyAuthorisationHeaderBytes _ _ _ _) as [[]|e] eqn:V.
  - split; [intros _; right|done]. apply verify_accepted in V as (Hp & kid & cr & ex & sg & z0 & z1 &
      sb & P' & ? & ? & ? & ? & ?). rewrite P in P'. simplify_eq.
    by exists kid, cr, ex, sg, sub, uk, pub, keys, z0, z1, sb.
  - split; [done|]. intros [|Hex]; [done|]. split_hyps. simplify_eq.
    match goal with H' : GetPublicKeyByUKID _ _ _ _ _ _ = _ |- _ =>
      lazymatch H' with G => fail | _ => rewrite G in H'; simplify_eq end end.
    match type of V with ?e = _ => assert (e = Ok ()) as V'; [|congruence] end.
    apply verify_accepted. split; [done|]. by do 7 eexists.
Qed.

(** ** Witnesses: a session store and a run log in memory *)
Section Demo.
#[local] Existing Instance toy_crypto.
#[local] Instance demo_sprint : Sprint := λ _, "?".
#[local] Instance demo_json_wire : SessionWire json.
Proof. split; by refine {| marshal _ := None; unmarshal _ := None |}. Defined.

Definition demo_controller : controller json :=
  NewController true true true (Some NoopValidator) "http://registry" 60 "" "" "".
Definition demo_body (txn status : string) : json :=
  JObj {[ "context" := JObj {[ "transaction_id" := JStr txn ]}; "message" := ack_body status ]}.
Definition demo_state (verification : bool) : astore json :=
  aset (KTxn "t1") (Some ("r1", "s1", verification)) astore_empty.
Definition demo_world (verification : bool) : world json (astore json) (MemoryStore json) :=
  mkWorld (demo_state verification) NewMongoStore NewMemoryStore [] [] ∅ ∅.

(** An ACK, a NACK with a full queue, and a callback of nobody's. *)
Definition demo_requests : list (route * request json) :=
  [(POST_on_select, mkRequest "" (demo_body "t1" "ACK") 7 false);
   (POST_on_select, mkRequest "" (demo_body "t1" "NACK") 8 true);
   (POST_on_init, mkRequest "" (demo_body "t2" "ACK") 9 false)].

#[local] Transparent gmap_empty.

Lemma demo_routes v : routes_ok (demo_state v).
Proof.
  intros txn r s b. unfold demo_state, aset. destruct (decide _) as [e|]; [|done].
  injection e as <-. rewrite (Eqdep_dec.UIP_dec akey_eq_dec e eq_refl). by intros [= <- _ _].
Qed.

Lemma callback_counters_agree_witness :
  let w' := (handle_all demo_registry demo_controller demo_requests (demo_world false)).2 in
  am_Sent (rm_OnSelect (st_call 10 (GetMetrics "r1") (w_state w')).1) = 2%Z ∧
  notified "r1" "on_select" (w_notified w') = 2.
Proof.
  assert (Forall (λ q : route * request json, (0 ≤ rq_now q.2 < 100)%Z) demo_requests) as Hf
    by (repeat constructor; simpl; lia).
  assert (within 3 "r1" "on_select" (demo_state false)) as Hw by (intros f; vm_compute; done).
  assert (represents (t0 := 0) (t1 := 100) 0 (demo_world false) (demo_state false) alog_empty) as Hr
    by (split; [done|apply (log_repr_new (RunLogRefines := memory_refines 0 100))]).
  destruct (callback_counters_agree (t0 := 0) (t1 := 100) demo_registry demo_controller demo_requests
    0 (demo_world false) (demo_state false) alog_empty "r1" StageOnSelect 10 eq_refl eq_refl
    ltac:(done) ltac:(done) Hf (demo_routes false) ltac:(done) eq_refl Hw Hr) as (E1 & _ & _ & E4).
  split; [etransitivity; [exact E1|vm_compute; reflexivity]|].
  etransitivity; [exact E4|vm_compute; reflexivity].
Defined.

(** The body that was signed passes, another one does not. *)
Definition demo_signed (txn : string) : request json :=
  match CreateAuthorisationHeader 5 "json" toy_key "buyer.example" "k1" with
  | Ok h => mkRequest h (demo_body txn "ACK") (7 * second) false
  | Err _ => mkRequest "" JNull 0 false
  end.

Lemma verification_sound_witness :
  must_verify (demo_state true) (demo_signed "t1") = true ∧
  (verifyInbound demo_registry demo_controller (demo_signed "t1") (demo_world true)).1 = None ∧
  ∃ sub uk pub keys, GetPublicKeyByUKID demo_registry (cb_registry demo_controller)
      (rq_now (demo_signed "t1")) sub uk ∅ = (Ok pub, keys).
Proof.
  assert (must_verify (demo_state true) (demo_signed "t1") = true) as Hm
    by (vm_compute; reflexivity).
  assert ((verifyInbound demo_registry demo_controller (demo_signed "t1") (demo_world true)).1 = None)
    as Hv by (vm_compute; reflexivity).
  split; [exact Hm|]. split; [exact Hv|].
  apply (verification_sound (t0 := 0) (t1 := 100000000000) demo_registry demo_controller _ _
    (demo_state true)) in Hv as [Hf|Hex].
  - by rewrite Hm in Hf.
  - destruct Hex as (kid & cr & ex & sg & sub & uk & pub & keys & z0 & z1 & sb & _ & _ & G & _).
    eauto.
  - split; vm_compute; congruence.
  - reflexivity.
Defined.
End Demo.
