(* ===== verification/Config.v ===== *)
(** * Configuration: [internal/config/config.go]

    [Load] reads the environment, a function from names to values where an
    unset variable is empty.  The [.env] file and the creation of the
    directory of runs are I/O.  [time.ParseDuration] and
    [Duration.Seconds] are translated from the standard library. *)
From stdpp Require Import prelude strings.
From Stdlib Require Import Ascii String.
From S2P Require Import Prelude GoStrings Base64 GoTime Float64 SessionTypes.
Local Open Scope string_scope.

(** ** Durations *)
Section Durations.
Local Open Scope Z_scope.

(** The digits in front; [None] above 2^63. *)
Fixpoint leading_int (x : Z) (s : string) : option (Z * string) :=
  match s with
  | String c s' =>
      match digit_val c with
      | Some d =>
          if 2 ^ 63 / 10 <? x then None
          else let x := x * 10 + d in if 2 ^ 63 <? x then None else leading_int x s'
      | None => Some (x, s)
      end
  | EmptyString => Some (x, s)
  end.

(** The digits after the point: their value and scale; the ones that do not
    fit are skipped. *)
Fixpoint leading_fraction (x scale : Z) (overflow : bool) (s : string) : Z * Z * string :=
  match s with
  | String c s' =>
      match digit_val c with
      | Some d =>
          if overflow then leading_fraction x scale true s'
          else if (2 ^ 63 - 1) / 10 <? x then leading_fraction x scale true s'
          else
            let y := x * 10 + d in
            if 2 ^ 63 <? y then leading_fraction x scale true s'
            else leading_fraction y (scale * 10) false s'
      | None => (x, scale, s)
      end
  | EmptyString => (x, scale, s)
  end.

Definition starts_number (c : ascii) : bool :=
  Ascii.eqb c "." || match digit_val c with Some _ => true | None => false end.

Fixpoint unit_name (s : string) : string * string :=
  match s with
  | String c s' =>
      if starts_number c then ("", s) else let '(u, r) := unit_name s' in (String c u, r)
  | EmptyString => ("", "")
  end%string.

(** Micro is written with a [u] or with one of two Greek letters. *)
Definition unit_ns (u : string) : option Z :=
  let mu1 := String "194" (String "181" "s") in
  let mu2 := String "206" (String "188" "s") in
  if String.eqb u "ns" then Some 1
  else if String.eqb u "us" || String.eqb u mu1 || String.eqb u mu2 then Some 1000
  else if String.eqb u "ms" then Some millisecond
  else if String.eqb u "s" then Some second
  else if String.eqb u "m" then Some (60 * second)
  else if String.eqb u "h" then Some (3600 * second) else None.

(** The fields of the loop; each consumes at least a byte. *)
Fixpoint duration_fields (fuel : nat) (d : Z) (s : string) : option Z :=
  match s, fuel with
  | EmptyString, _ => Some d
  | String c _, S fuel =>
      if negb (starts_number c) then None
      else
        '(v, r) ← leading_int 0 s;
        let pre := negb (String.eqb r s) in
        let '(f, scale, r, post) :=
          match r with
          | String "." r' =>
              let '(f, scale, r'') := leading_fraction 0 1 false r' in
              (f, scale, r'', negb (String.eqb r'' r'))
          | _ => (0, 1, r, false)
          end in
        if negb pre && negb post then None
        else
          let '(u, r) := unit_name r in
          unit ← unit_ns u;
          if 2 ^ 63 / unit <? v then None
          else
            let v := v * unit in
            let v := if 0 <? f
                     then v + f64_trunc (f64_mul (f64_of_Z f) (f64_div (f64_of_Z unit) (f64_of_Z scale)))
                     else v in
            if (2 ^ 63 <? v) || (2 ^ 63 <? d + v) then None else duration_fields fuel (d + v) r
  | _, O => None
  end.

Definition ParseDuration (s : string) : option Z :=
  let '(neg, s) := match s with
                   | String "-" s' => (true, s')
                   | String "+" s' => (false, s')
                   | _ => (false, s)
                   end in
  if String.eqb s "0" then Some 0
  else if String.eqb s "" then None
  else
    d ← duration_fields (String.length s) 0 s;
    if neg then Some (- d) else if 2 ^ 63 - 1 <? d then None else Some d.

(** [int(d.Seconds())]. *)
Definition Seconds (d : Z) : Z :=
  f64_trunc (f64_add (f64_of_Z (Z.quot d second))
               (f64_div (f64_of_Z (Z.rem d second)) (f64_of_Z second))).
End Durations.

(** ** The configuration *)

Record Config := mkConfig {
  HTTPPort : string;
  RedisURL : string; RedisPassword : string; RedisDB : Z;
  DefaultRPS : Z; DefaultDuration : Z;
  BAPPrivateKey : string; BAPPublicKey : string; BAPID : string; BAPUniqueKeyID : string;
  CountryCode : string; Domain : string; CityCode : string;
  SwaggerEnable : bool;
  RunsFSRoot : string; RunsFSEnable : bool; RunPersistence : string;
  BAPURI : string;
  CoreVersion : string;
  PipelineStageGapSeconds : Z;
  MaxInFlight : Z; RunStoreBackend : string; RunPayloadTTLSeconds : Z;
  MongoURI : string; MongoDB : string;
  GlobalRPSLimit : Z; PerSessionRPSLimit : Z;
  SessionTTLSeconds : Z; DiscoveryWaitTTLSeconds : Z;
  RegistryBaseURL : string; RegistryCacheTTLSeconds : Z;
}.

Fixpoint to_upper (s : string) : string :=
  match s with
  | String c s' =>
      let n := nat_of_ascii c in
      String (if (97 <=? n) && (n <=? 122) then ascii_of_nat (n - 32) else c)%nat (to_upper s')
  | EmptyString => EmptyString
  end.

Section Load.
Variable env : string → string.

Definition getEnv (key def : string) : string := if env key =? "" then def else env key.

Definition getEnvInt (key : string) (def : Z) : Z :=
  if env key =? "" then def
  else match ParseInt (env key) with (i, true) => i | (_, false) => def end.

Definition getEnvBool (key : string) (def : bool) : bool :=
  if bool_decide (env key ∈ ["1"; "true"; "TRUE"; "True"]) then true
  else if bool_decide (env key ∈ ["0"; "false"; "FALSE"; "False"]) then false
  else def.

Definition getEnvDuration (key def : string) : Z := default (60 * second)%Z (ParseDuration (getEnv key def)).

Definition run_persistence : string :=
  let raw := to_upper (getEnv "RUN_PERSISTENCE" "") in
  if raw =? "" then if getEnvBool "RUNS_FS_ENABLE" false then "FS" else raw else raw.

Definition Load : Config := {|
  HTTPPort := getEnv "HTTP_PORT" "8080";
  RedisURL := getEnv "REDIS_URL" "redis:6379";
  RedisPassword := env "REDIS_PASSWORD";
  RedisDB := getEnvInt "REDIS_DB" 0;
  DefaultRPS := getEnvInt "DEFAULT_RPS" 100;
  DefaultDuration := getEnvDuration "DEFAULT_DURATION" "60s";
  BAPPrivateKey := env "BAP_PRIVATE_KEY";
  BAPPublicKey := env "BAP_PUBLIC_KEY";
  BAPID := env "BAP_ID";
  BAPUniqueKeyID := env "BAP_UNIQUE_KEY_ID";
  CountryCode := getEnv "COUNTRY_CODE" "IND";
  Domain := getEnv "DOMAIN" "nic2004:52110";
  CityCode := getEnv "CITY_CODE" "std:080";
  SwaggerEnable := getEnvBool "SWAGGER_ENABLE" true;
  RunsFSRoot := getEnv "RUNS_FS_ROOT" "./runs";
  RunPersistence := run_persistence;
  RunsFSEnable := run_persistence =? "FS";
  BAPURI := getEnv "BAP_URI" "";
  PipelineStageGapSeconds := getEnvInt "PIPELINE_STAGE_GAP_SECONDS" 5;
  CoreVersion := getEnv "CORE_VERSION" "1.2.0";
  MaxInFlight := getEnvInt "MAX_IN_FLIGHT" 256;
  RunStoreBackend := getEnv "RUN_STORE_BACKEND" "memory";
  RunPayloadTTLSeconds := getEnvInt "RUN_PAYLOAD_TTL_SECONDS" 600;
  MongoURI := getEnv "MONGO_URI" "mongodb://localhost:27017";
  MongoDB := getEnv "MONGO_DB" "load_tester";
  GlobalRPSLimit := getEnvInt "GLOBAL_RPS_LIMIT" 2000;
  PerSessionRPSLimit := getEnvInt "PER_SESSION_RPS_LIMIT" 150;
  SessionTTLSeconds := getEnvInt "SESSION_TTL_SECONDS" 3600;
  DiscoveryWaitTTLSeconds := getEnvInt "DISCOVERY_WAIT_TTL_SECONDS" 30;
  RegistryBaseURL := getEnv "REGISTRY_BASE_URL" "";
  RegistryCacheTTLSeconds := getEnvInt "REGISTRY_CACHE_TTL_SECONDS" 600;
|}.
End Load.

(** ** Lemmas *)

(** The run persistence the rest of the program reads: files are written
    exactly when the mode is [FS]. *)
Lemma RunsFSEnable_spec env : RunsFSEnable (Load env) = true ↔ RunPersistence (Load env) = "FS".
Proof. apply String.eqb_eq. Qed.

(** Without any variable the configured domain is not one the API accepts. *)
Lemma default_domain_invalid env : env "DOMAIN" = "" → IsValidDomain (Domain (Load env)) = false.
Proof. intros E. unfold Load, Domain, getEnv. rewrite E. by vm_compute. Qed.

(** Durations as they are written in the documentation. *)
Lemma durations_read :
  ParseDuration <$> ["60s"; "1.5h"; "2m30s"; "100ms"; "-3s"; "0"; "90"; ""; ".5s"; "1d"] =
    [Some (60 * second); Some (5400 * second); Some (150 * second); Some (100 * millisecond);
     Some (-3 * second); Some 0; None; None; Some (500 * millisecond); None]%Z ∧
  Seconds <$> [60 * second; 1500 * millisecond]%Z = [60; 1]%Z.
Proof. vm_compute. done. Qed.
