(* ===== verification/Routes.v ===== *)
(** * The routes of the server: the three [Register] functions and
    [RegisterRoutes] of [config/di/container.go]

    A route is a method, a path whose segments are literals or parameters,
    and a handler.  Fiber tries the routes in the order they were registered
    and calls the first that matches: a literal matches itself, a parameter
    one segment that is not empty.  A request's path is the list of its
    segments (Fiber splits it; a slash at its end and the case of literals do
    not count). *)
From stdpp Require Import prelude gmap list strings.
From Stdlib Require Import Ascii.
From S2P Require Import Prelude GoStrings SessionTypes Config.
Local Open Scope string_scope.

Inductive method := GET | POST | PUT | DELETE.
#[export] Instance method_eq_dec : EqDecision method.
Proof. solve_decision. Defined.

(** The handlers, by the names of the functions. *)
Inductive handler :=
  | H_health | H_swagger | H_openapi
  | H_getRunReportByID | H_getRunPayloadsByID | H_searchLatestRuns
  | H_listSessions | H_createSession | H_clearSessions | H_getSession | H_deleteSession
  | H_setSessionVerification | H_setSessionErrorInjection
  | H_generateSearchPayload | H_startDiscovery | H_uploadCatalog | H_startPreorder
  | H_listRuns | H_getRun | H_getRunReport | H_getRunPayloads | H_stopRun | H_sessionReport
  | H_onSearch | H_onSelect | H_onInit | H_onConfirm.
#[export] Instance handler_eq_dec : EqDecision handler.
Proof. solve_decision. Defined.

Record route := mkRoute { rt_method : method; rt_path : string; rt_handler : handler }.
#[export] Instance route_eq_dec : EqDecision route.
Proof. solve_decision. Defined.

(** [app.Group]. *)
Definition Group (prefix : string) (rs : list route) : list route :=
  (λ r, mkRoute (rt_method r) (prefix ++ rt_path r) (rt_handler r)) <$> rs.

(** [Register] of [handlers/testing/routes.go]. *)
Definition testing_routes : list route :=
  [mkRoute GET "/runs/:run_id/report" H_getRunReportByID;
   mkRoute GET "/runs/:run_id/payloads" H_getRunPayloadsByID;
   mkRoute GET "/runs/search" H_searchLatestRuns] ++
  Group "/sessions"
  [mkRoute GET "/" H_listSessions;
   mkRoute POST "/" H_createSession;
   mkRoute DELETE "/" H_clearSessions;
   mkRoute GET "/:id" H_getSession;
   mkRoute DELETE "/:id" H_deleteSession;
   mkRoute PUT "/:id/verification" H_setSessionVerification;
   mkRoute PUT "/:id/error_injection" H_setSessionErrorInjection;
   mkRoute GET "/:id/discovery/payload" H_generateSearchPayload;
   mkRoute POST "/:id/discovery" H_startDiscovery;
   mkRoute PUT "/:id/catalog" H_uploadCatalog;
   mkRoute POST "/:id/preorder" H_startPreorder;
   mkRoute GET "/:id/runs" H_listRuns;
   mkRoute GET "/:id/runs/:run_id" H_getRun;
   mkRoute GET "/:id/runs/:run_id/report" H_getRunReport;
   mkRoute GET "/:id/runs/:run_id/payloads" H_getRunPayloads;
   mkRoute POST "/:id/runs/:run_id/stop" H_stopRun;
   mkRoute GET "/:id/report" H_sessionReport].

(** [Register] of [handlers/callbacks/routes.go]. *)
Definition callback_routes : list route :=
  [mkRoute POST "/on_search" H_onSearch; mkRoute POST "/on_select" H_onSelect;
   mkRoute POST "/on_init" H_onInit; mkRoute POST "/on_confirm" H_onConfirm].

(** [Register] of [handlers/docs/routes.go]. *)
Definition docs_routes : list route :=
  [mkRoute GET "/swagger" H_swagger; mkRoute GET "/swagger/openapi.yaml" H_openapi].

(** [RegisterRoutes], in its order. *)
Definition RegisterRoutes (cfg : Config) : list route :=
  [mkRoute GET "/health" H_health] ++
  (if SwaggerEnable cfg then docs_routes else []) ++ testing_routes ++ callback_routes.

(** ** Matching *)

Inductive segment := Literal (s : string) | Param (name : string).

Definition segment_of (s : string) : segment :=
  if has_prefix ":" s then Param (trim_prefix ":" s) else Literal s.

(** The segments of a registered path. *)
Definition segments (path : string) : list segment :=
  segment_of <$> filter (λ s, s ≠ "") (split "/"%char path).

Fixpoint match_path (pat : list segment) (path : list string) : option (list (string * string)) :=
  match pat, path with
  | [], [] => Some []
  | Literal l :: pat, s :: path => if l =? s then match_path pat path else None
  | Param n :: pat, s :: path => if s =? "" then None else ps ← match_path pat path; Some ((n, s) :: ps)
  | _, _ => None
  end.

Definition match_route (m : method) (path : list string) (r : route)
  : option (handler * list (string * string)) :=
  if decide (rt_method r = m) then ps ← match_path (segments (rt_path r)) path; Some (rt_handler r, ps)
  else None.

(** The first route that matches; without one the answer is 404. *)
Definition dispatch (rs : list route) (m : method) (path : list string)
  : option (handler * list (string * string)) := head (omap (match_route m path) rs).

(** ** Lemmas *)

(** Two patterns no path matches both of. *)
Fixpoint disjoint (p q : list segment) : bool :=
  match p, q with
  | [], [] => false
  | Literal a :: p, Literal b :: q => negb (a =? b) || disjoint p q
  | Literal _ :: p, Param _ :: q | Param _ :: p, _ :: q => disjoint p q
  | _, _ => true
  end.

Lemma disjoint_match p : ∀ q path x y,
  disjoint p q = true → match_path p path = Some x → match_path q path = Some y → False.
Proof.
  induction p as [|[a|a] p IH]; intros [|[b|b] q] [|s path] x y; cbn [disjoint match_path]; try done.
  - intros [Hab|Hd]%orb_true_iff; [|by repeat case_match; eauto].
    apply negb_true_iff, String.eqb_neq in Hab.
    destruct (String.eqb_spec a s), (String.eqb_spec b s); congruence.
  - intros Hd. destruct (a =? s); [|done]. destruct (s =? ""); [done|]. intros Hx.
    destruct (match_path q path) eqn:Hq; [|done]. intros _. by eapply IH.
  - intros Hd. destruct (s =? ""); [done|]. destruct (match_path p path) eqn:Hp; [|done]. intros _.
    destruct (b =? s); [|done]. intros Hy. by eapply IH.
  - intros Hd. destruct (s =? ""); [done|]. destruct (match_path p path) eqn:Hp; [|done]. intros _.
    destruct (match_path q path) eqn:Hq; [|done]. intros _. by eapply IH.
Qed.

Definition apart (r r' : route) : bool :=
  bool_decide (r = r') || negb (bool_decide (rt_method r = rt_method r'))
  || disjoint (segments (rt_path r)) (segments (rt_path r')).
Definition unambiguous (rs : list route) : Prop := ∀ r r', r ∈ rs → r' ∈ rs → apart r r' = true.

Lemma apart_match r r' m path x y :
  apart r r' = true → match_route m path r = Some x → match_route m path r' = Some y → r = r'.
Proof.
  unfold apart, match_route. intros [[E|E]%orb_true_iff|E]%orb_true_iff.
  - by apply bool_decide_eq_true in E.
  - apply negb_true_iff, bool_decide_eq_false in E. repeat case_decide; congruence.
  - repeat case_decide; try done.
    destruct (match_path (segments (rt_path r)) path) eqn:E1; [|done].
    destruct (match_path (segments (rt_path r')) path) eqn:E2; [|done].
    by destruct (disjoint_match _ _ _ _ _ E E1 E2).
Qed.

Lemma dispatch_Some rs m path x :
  unambiguous rs → dispatch rs m path = Some x ↔ ∃ r, r ∈ rs ∧ match_route m path r = Some x.
Proof.
  unfold dispatch. intros Hu. split.
  - intros Hh%head_Some_elem_of. by apply list_elem_of_omap in Hh.
  - intros (r & Hr & Hx). assert (x ∈ omap (match_route m path) rs) as Hin
      by (apply list_elem_of_omap; by exists r).
    destruct (omap (match_route m path) rs) as [|y l] eqn:E; [by apply elem_of_nil in Hin|]. cbn. f_equal.
    assert (y ∈ omap (match_route m path) rs) as (r' & Hr' & Hy)%list_elem_of_omap by (rewrite E; by left).
    assert (r' = r) as -> by (eapply apart_match; [by apply Hu|exact Hy|exact Hx]). congruence.
Qed.

Lemma unambiguous_all cfg : unambiguous (RegisterRoutes cfg).
Proof.
  assert (forallb (λ r, forallb (apart r) (RegisterRoutes cfg)) (RegisterRoutes cfg) = true) as H
    by (unfold RegisterRoutes; destruct (SwaggerEnable cfg); vm_compute; reflexivity).
  rewrite forallb_forall in H. intros r r' Hr%list_elem_of_In Hr'%list_elem_of_In.
  specialize (H r Hr). rewrite forallb_forall in H. by apply H.
Qed.

(** A path for a pattern, with values for its parameters. *)
Fixpoint fill (pat : list segment) (vs : list string) : list string :=
  match pat, vs with
  | Literal l :: pat, _ => l :: fill pat vs
  | Param _ :: pat, v :: vs => v :: fill pat vs
  | Param _ :: pat, [] => fill pat []
  | [], _ => []
  end.
Fixpoint params (pat : list segment) : list string :=
  match pat with [] => [] | Literal _ :: pat => params pat | Param n :: pat => n :: params pat end.

Lemma match_fill pat : ∀ vs,
  length vs = length (params pat) → Forall (λ v, v ≠ "") vs →
  match_path pat (fill pat vs) = Some (zip (params pat) vs).
Proof.
  induction pat as [|[l|n] pat IH]; intros vs Hl Hv; cbn [params fill match_path] in *.
  - by destruct vs.
  - rewrite String.eqb_refl. by apply IH.
  - destruct vs as [|v vs]; [done|]. apply Forall_cons in Hv as [Hv Hvs]. cbn [fill match_path].
    rewrite (proj2 (String.eqb_neq _ _)) by done. by rewrite IH by (simpl in Hl; lia || done).
Qed.

(** Routing does not depend on the order in which the routes are
    registered: no two of them match the same request.  Every handler is
    reached, with the segments of the path as its parameters, whatever these
    are (an id that reads "runs" or "report" included); and a request is
    answered by a handler only if its path is one of that handler's. *)
Theorem routing_exact cfg :
  (∀ rs m path, rs ≡ₚ RegisterRoutes cfg → dispatch rs m path = dispatch (RegisterRoutes cfg) m path) ∧
  (∀ r vs, r ∈ RegisterRoutes cfg → length vs = length (params (segments (rt_path r))) →
     Forall (λ v, v ≠ "") vs →
     dispatch (RegisterRoutes cfg) (rt_method r) (fill (segments (rt_path r)) vs)
       = Some (rt_handler r, zip (params (segments (rt_path r))) vs)) ∧
  (∀ m path h ps, dispatch (RegisterRoutes cfg) m path = Some (h, ps) →
     ∃ r, r ∈ RegisterRoutes cfg ∧ rt_method r = m ∧ rt_handler r = h ∧
       match_path (segments (rt_path r)) path = Some ps).
Proof.
  pose proof (unambiguous_all cfg) as Hu. split_and!.
  - intros rs m path Hp. assert (unambiguous rs) as Hu'
      by (intros r r'; rewrite !(elem_of_Permutation_proper _ _ _ Hp); apply Hu).
    apply option_eq. intros x. rewrite !dispatch_Some by done. by setoid_rewrite Hp.
  - intros r vs Hr Hl Hv. apply dispatch_Some; [done|]. exists r. split; [done|].
    unfold match_route. rewrite decide_True by done. by rewrite match_fill.
  - intros m path h ps (r & Hr & Hm)%dispatch_Some; [|done]. exists r. unfold match_route in Hm.
    case_decide; [|done]. destruct (match_path _ path) eqn:E; [|done]. by injection Hm as <- <-.
Qed.

(** ** Witness: a session whose id is "runs" *)
Lemma routing_exact_witness :
  dispatch (RegisterRoutes (Load (λ _, ""))) GET ["sessions"; "runs"; "runs"; "search"; "report"]
    = Some (H_getRunReport, [("id", "runs"); ("run_id", "search")]) ∧
  dispatch (rev (RegisterRoutes (Load (λ _, "")))) GET ["runs"; "search"] = Some (H_searchLatestRuns, []).
Proof.
  destruct (routing_exact (Load (λ _, ""))) as (Horder & Hfill & _). split.
  - apply (Hfill (mkRoute GET "/sessions/:id/runs/:run_id/report" H_getRunReport) ["runs"; "search"]).
    + vm_compute. repeat (left || right).
    + reflexivity.
    + by repeat constructor.
  - etransitivity; [apply Horder; symmetry; apply Permutation_rev|vm_compute; reflexivity].
Defined.
