(* ===== verification/SessionApi.v ===== *)
(** * Session endpoints: [internal/handlers/testing/routes.go]

    The handlers of [/sessions] that act on the two session stores only: the
    session's life, its flags, the uploaded catalog, the runs and the CSV
    report.  A handler is a program over the stores ([prog] of [Manager.v])
    that returns a response or the error Fiber's error handler turns into one
    ([ApiError.ErrorHandler]).

    Fiber gives a handler the path parameters, the query and the decoded
    body: a request is a record of them ([None]: [BodyParser] failed). *)
From stdpp Require Import prelude gmap list strings.
From S2P Require Import Prelude GoStrings Json ApiError Latency SessionTypes StateStore Redis SessionRedis Mongo Manager.
Local Open Scope string_scope.

(** The JSON bodies of the responses, before encoding. *)
Inductive body :=
  | BSession (s : Session)
  | BSessionInfo (s : Session) (catalog : option CatalogState) (preorder : option PreorderState)
  | BSessions (l : list Session) (page page_size total : Z)
  | BRunSearch (bap_id session_id : string) (runs : list (string * string * Z))
  | BDeleted (n : Z)
  | BCatalog (session_id catalog_status : string)
  | BRuns (l : list Run)
  | BRun (r : Run)
  | BStopped (run_id : string)
  | BCsv (filename text : string)
  | BNoContent.

Record response := mkResponse { rs_status : Z; rs_body : body }.
Abbreviation answer := (result error response).
Definition ok (b : body) : answer := Ok (mkResponse 200 b).
Definition fail (e : CustomError) : answer := Err (ECustom e).

Record createSessionRequest := mkCreate {
  cr_BPPID : string;
  cr_BPPURI : string;
  cr_CoreVersion : option string;
  cr_Domain : option string;
}.

(** A path, with what it carries. *)
Inductive request (B : Type) :=
  | SearchRuns (bap_id bpp_id session_id : string) (limit : Z)
  | ListSessions (bpp_id : string) (page page_size : Z)
  | PostSession (req : option createSessionRequest)
  | ClearSessions (bpp_id : string)
  | GetSessionById (id : string)
  | DeleteSessionById (id : string)
  | PutVerification (id : string) (enabled : option (option bool))
  | PutErrorInjection (id : string) (enabled : option (option bool))
  | PutCatalog (id : string) (on_search : option (option B))
  | ListRuns (id : string)
  | GetRunById (id run_id : string)
  | StopRunOf (id run_id : string)
  | SessionReport (id : string).
Arguments SearchRuns {B}.
Arguments ListSessions {B}.
Arguments PostSession {B}.
Arguments ClearSessions {B}.
Arguments GetSessionById {B}.
Arguments DeleteSessionById {B}.
Arguments PutVerification {B}.
Arguments PutErrorInjection {B}.
Arguments PutCatalog {B}.
Arguments ListRuns {B}.
Arguments GetRunById {B}.
Arguments StopRunOf {B}.
Arguments SessionReport {B}.

(** The settings the handlers read. *)
Record settings := mkSettings { cfg_CoreVersion : string; cfg_Domain : string; cfg_ttl : Z }.

Definition required (msg : string) : CustomError := NewCustomError 400 "REQUIRED_FIELDS_4001" msg.

Section Handlers.
Context {B : Type} `{MongoServer B, JsonCodec B}.
Variable cfg : settings.

Definition searchLatestRuns (bap bpp session_id : string) (limit : Z) : prog B answer :=
  let bapID := trim_space bap in
  let bapID := if bapID =? "" then trim_space bpp else bapID in
  if bapID =? "" then Ret (fail (required "bap_id query parameter is required"))
  else
    let sessionID := trim_space session_id in
    let limit := (if (limit <? 1) || (100 <? limit) then 20 else limit)%Z in
    let! runs := Manager_SearchLatestRuns bapID sessionID limit in
    Ret (ok (BRunSearch bapID sessionID ((λ r, (r_ID r, r_SessionID r, r_RPS r)) <$> runs))).

Definition listSessions (now : Z) (bppID : string) (page pageSize : Z) : prog B answer :=
  if bppID =? "" then Ret (fail (required "bpp_id query parameter is required"))
  else
    let page := (if page <? 1 then 1 else page)%Z in
    let pageSize := (if (pageSize <? 1) || (100 <? pageSize) then 20 else pageSize)%Z in
    let! r := Manager_GetSessionsByBPP now bppID page pageSize in
    Ret (match r with
         | Err e => Err e
         | Ok (sessions, total) => ok (BSessions sessions page pageSize total)
         end).

(** A setting of the request, or else of the configuration; the error for
    each of the two when it is not supported. *)
Definition choose (valid : string → bool) (asked : option string) (configured : string)
  (bad_request bad_config : CustomError) : result error string :=
  let v := match asked with Some v => trim_space v | None => "" end in
  if negb (v =? "") && negb (valid v) then Err (ECustom bad_request)
  else if negb (v =? "") then Ok v
  else
    let v := trim_space configured in
    if valid v then Ok v else Err (ECustom bad_config).

Definition choose_version (asked : option string) : result error string :=
  choose IsValidCoreVersion asked (cfg_CoreVersion cfg)
    (NewCustomError 400 "INVALID_CORE_VERSION" "core_version must be either 1.2.0 or 1.2.5")
    (NewCustomError 500 "INVALID_CORE_VERSION_CONFIG" "CORE_VERSION in configuration is not supported").

Definition choose_domain (asked : option string) : result error string :=
  choose IsValidDomain asked (cfg_Domain cfg)
    (NewCustomError 400 "INVALID_DOMAIN" "domain must be one of ONDC:RET10-ONDC:RET16 or ONDC:RET18")
    (NewCustomError 500 "INVALID_DOMAIN_CONFIG" "DOMAIN in configuration is not supported").

Definition createSession (now : Z) (uuid : string) (req : option createSessionRequest)
  : prog B answer :=
  match req with
  | None => Ret (fail ErrInvalidRequestBody)
  | Some req =>
      if (cr_BPPID req =? "") || (cr_BPPURI req =? "")
      then Ret (fail (required "bpp_id and bpp_uri are required"))
      else match choose_version (cr_CoreVersion req) with
      | Err e => Ret (Err e)
      | Ok coreVersion =>
          match choose_domain (cr_Domain req) with
          | Err e => Ret (Err e)
          | Ok domain =>
              let! r := Manager_Create (cfg_ttl cfg) now uuid (cr_BPPID req) (cr_BPPURI req)
                          coreVersion domain in
              Ret (match r with
                   | Err e => Err e
                   | Ok s => Ok (mkResponse 201 (BSession s))
                   end)
          end
      end
  end.

Definition getSession (now : Z) (id : string) : prog B answer :=
  let! r := Manager_GetAny now id in
  match r with
  | Err e => Ret (Err e)
  | Ok s =>
      let! catalog := st (GetCatalogState (s_ID s)) in
      let! preorder := st (GetPreorderState (s_ID s)) in
      Ret (ok (BSessionInfo s (res_opt catalog) (res_opt preorder)))
  end.

Definition deleteSession (id : string) : prog B answer :=
  let! r := Manager_Delete id in
  Ret (match r with Err e => Err e | Ok _ => Ok (mkResponse 204 BNoContent) end).

Definition clearSessions (bppID : string) : prog B answer :=
  if bppID =? "" then Ret (fail (required "bpp_id query parameter is required"))
  else let! deleted := Manager_DeleteAllByBPP bppID in Ret (ok (BDeleted deleted)).

(** [setSessionVerification] and [setSessionErrorInjection]: they differ in
    the text of the conflict and in the setter. *)
Definition set_flag (msg : string) (set : string → bool → prog B (result error Session))
  (id : string) (enabled : option (option bool)) : prog B answer :=
  let! preorder := st (GetPreorderState id) in
  match preorder with
  | Err e => Ret (Err e)
  | Ok ps =>
      if bool_decide (ps_Status ps = PreorderRunning)
      then Ret (fail (NewCustomError 409 "RUN_ACTIVE_4091" msg))
      else match enabled with
      | Some (Some on) =>
          let! r := set id on in
          Ret (match r with Err e => Err e | Ok s => ok (BSession s) end)
      | _ => Ret (fail ErrInvalidRequestBody)
      end
  end.

Definition setSessionVerification (now : Z) :=
  set_flag "cannot update verification while a run is active" (Manager_SetVerificationEnabled now).
Definition setSessionErrorInjection (now : Z) :=
  set_flag "cannot update error injection while a run is active"
    (Manager_SetErrorInjectionEnabled now).

(** [on_search]: [Some None] is an absent or empty field. *)
Definition uploadCatalog (now : Z) (id : string) (on_search : option (option B)) : prog B answer :=
  let! r := Manager_Get now id in
  match r with
  | Err e => Ret (Err e)
  | Ok s =>
      match on_search with
      | Some (Some payload) =>
          match json_unmarshal payload with
          | None => Ret (fail ErrInvalidRequestBody)
          | Some _ =>
              let! _ := save (Mongo_SaveCatalog now (s_ID s) payload) in
              let! _ := st (SetCatalogState (s_ID s) (mkCatalogState CatalogReady "" now)) in
              Ret (ok (BCatalog (s_ID s) "ready"))
          end
      | _ => Ret (fail ErrInvalidRequestBody)
      end
  end.

Definition listRuns (now : Z) (id : string) : prog B answer :=
  let! r := Manager_GetAny now id in
  match r with
  | Err e => Ret (Err e)
  | Ok _ => let! runs := load (Mongo_GetRunHistory id) in Ret (ok (BRuns runs))
  end.

Definition getRun (run_id : string) : prog B answer :=
  let! r := Manager_GetRun run_id in
  Ret (match r with Err _ => fail ErrRunNotFound | Ok r => ok (BRun r) end).

Definition stopRun (id : string) : prog B answer :=
  let! r := Manager_StopRun id in
  Ret (match r with Err e => Err e | Ok run => ok (BStopped run) end).

(** ** [sessionReport] *)

Definition stages : list (string * (RunMetrics → ActionMetrics)) :=
  [("select", rm_Select); ("on_select", rm_OnSelect); ("init", rm_Init); ("on_init", rm_OnInit);
   ("confirm", rm_Confirm); ("on_confirm", rm_OnConfirm)].

(** The four sums of a stage over the runs, with [int64] additions. *)
Definition stage_row (sel : RunMetrics → ActionMetrics) (runs : list Run) : Z * Z * Z * Z :=
  foldl (λ '(se, su, f, t) r,
    let m := sel (r_Metrics r) in
    (wrap64 (se + am_Sent m), wrap64 (su + am_Success m), wrap64 (f + am_Failure m),
     wrap64 (t + am_Timeout m))) (0, 0, 0, 0)%Z runs.

Definition newline : string := String (Ascii.ascii_of_nat 10) "".
Fixpoint comma_separated (l : list string) : string :=
  match l with [] => "" | [x] => x | x :: l' => x ++ "," ++ comma_separated l' end.
Definition csv_line (l : list string) : string := comma_separated l ++ newline.

Definition csv_header : list string :=
  ["stage"; "total_sent"; "total_success"; "total_failure"; "total_timeout"; "run_count"].
Definition csv_row (runs : list Run) (stage : string * (RunMetrics → ActionMetrics)) : list string :=
  let '(se, su, f, t) := stage_row stage.2 runs in
  [stage.1; FormatInt se; FormatInt su; FormatInt f; FormatInt t;
   FormatInt (Z.of_nat (length runs))].
Definition csv_report (runs : list Run) : string :=
  foldr (λ l acc, csv_line l ++ acc) "" (csv_header :: (csv_row runs <$> stages)).

Definition sessionReport (now : Z) (id : string) : prog B answer :=
  let! r := Manager_GetAny now id in
  match r with
  | Err e => Ret (Err e)
  | Ok _ =>
      let! runs := load (Mongo_GetRunHistory id) in
      Ret (ok (BCsv ("report_" ++ id ++ ".csv") (csv_report runs)))
  end.

(** ** [Register] *)

Definition handle (now : Z) (uuid : string) (rq : request B) : prog B answer :=
  match rq with
  | SearchRuns bap bpp sess limit => searchLatestRuns bap bpp sess limit
  | ListSessions bpp page size => listSessions now bpp page size
  | PostSession req => createSession now uuid req
  | ClearSessions bpp => clearSessions bpp
  | GetSessionById id => getSession now id
  | DeleteSessionById id => deleteSession id
  | PutVerification id on => setSessionVerification now id on
  | PutErrorInjection id on => setSessionErrorInjection now id on
  | PutCatalog id p => uploadCatalog now id p
  | ListRuns id => listRuns now id
  | GetRunById _ run => getRun run
  | StopRunOf id _ => stopRun id
  | SessionReport id => sessionReport now id
  end.

(** What the client receives. *)
Definition reply (a : answer) : Z * option ErrorResponse :=
  match a with
  | Ok r => (rs_status r, None)
  | Err e => match ErrorHandler 0 200 e with
             | Some r => (er_status r, Some r)
             | None => (200%Z, None)
             end
  end.

(** A server that answers requests one after the other, each with the clock
    and a fresh identifier. *)
Fixpoint serve {S} `{StateStore B S} (rqs : list (Z * string * request B)) (w : S * MongoStore B)
  : list answer * (S * MongoStore B) :=
  match rqs with
  | [] => ([], w)
  | (now, uuid, rq) :: rqs' =>
      let '(x, w) := run now (handle now uuid rq) w in
      let '(xs, w) := serve rqs' w in (x :: xs, w)
  end.
End Handlers.

(** ** Reasoning about programs over the stores

    [keeps I now p Q]: from stores that satisfy [I], [p] leaves stores that
    satisfy [I] and returns a value that satisfies [Q]. *)
Section Keeps.
Context {B : Type} `{MongoServer B} `{SessionWire B}.
Implicit Types (I : astore B → MongoStore B → Prop).

Definition keeps {A} I (now : Z) (p : prog B A) (Q : A → Prop) : Prop :=
  ∀ a m, I a m → let '(x, (a', m')) := run now p (a, m) in Q x ∧ I a' m'.

Lemma keeps_ret {A} I now (x : A) (Q : A → Prop) : Q x → keeps I now (Ret x) Q.
Proof. intros HQ a m HI. by split. Qed.

Lemma keeps_bind {A C} I now (p : prog B A) (k : A → prog B C) Q R :
  keeps I now p Q → (∀ x, Q x → keeps I now (k x) R) → keeps I now (bind p k) R.
Proof.
  intros Hp Hk a m HI. rewrite run_bind. specialize (Hp a m HI).
  destruct (run now p (a, m)) as [x [a' m']]. destruct Hp as [HQ HI']. by apply Hk.
Qed.

Lemma keeps_st {T} I now (c : call B T) (Q : T → Prop) :
  (∀ a m, I a m → Q (aexec now c a).1 ∧ I (aexec now c a).2 m) → keeps I now (st c) Q.
Proof.
  intros Hc a m HI. specialize (Hc a m HI). cbn [st run st_call astore_store].
  simpl. by destruct (aexec now c a).
Qed.

Lemma keeps_persist {T} I now (f : MongoStore B → T * MongoStore B) (Q : T → Prop) :
  (∀ a m, I a m → Q (f m).1 ∧ I a (f m).2) → keeps I now (Persist T f Ret) Q.
Proof. intros Hf a m HI. specialize (Hf a m HI). simpl. by destruct (f m). Qed.

Lemma keeps_load {T} I now (f : MongoStore B → T) (Q : T → Prop) :
  (∀ a m, I a m → Q (f m)) → keeps I now (load f) Q.
Proof. intros Hf. apply keeps_persist. simpl. eauto. Qed.

Lemma keeps_save I now (f : MongoStore B → MongoStore B) :
  (∀ a m, I a m → I a (f m)) → keeps I now (save f) (λ _, True).
Proof. intros Hf. apply keeps_persist. simpl. eauto. Qed.

Lemma keeps_mono {A} I now (p : prog B A) (Q R : A → Prop) :
  keeps I now p Q → (∀ x, Q x → R x) → keeps I now p R.
Proof.
  intros Hp HQR a m HI. specialize (Hp a m HI). destruct (run now p (a, m)) as [x [a' m']].
  naive_solver.
Qed.
End Keeps.

(** ** Every session the API stores or returns is well formed *)
Definition session_ok (s : Session) : Prop :=
  s_BPPID s ≠ "" ∧ s_BPPURI s ≠ "" ∧
  IsValidCoreVersion (s_CoreVersion s) = true ∧ IsValidDomain (s_Domain s) = true.

Section Sessions.
Context {B : Type} `{MongoServer B} `{SessionWire B}.
Implicit Types (O : gmap string string) (a : astore B) (m : MongoStore B).

(** [O] says which participant an identifier was given to. *)
Definition owned O (id : string) (s : Session) : Prop :=
  s_ID s = id ∧ O !! id = Some (s_BPPID s) ∧ session_ok s.

Record wf O a m : Prop := {
  wf_state id s : a (KSession id) = Some s → owned O id s;
  wf_index bpp id : a (KBpp bpp) = Some id → O !! id = Some bpp;
  wf_mongo id s : c_get (mg_sessions m) id = Some s → owned O id s;
  wf_run id r : a (KRun id) = Some r → r_ID r = id;
  wf_runs : keyed r_ID (mg_runs m);
}.

Lemma wf_extend O a m id bpp : O !! id = None → wf O a m → wf (<[id := bpp]> O) a m.
Proof.
  intros Hid [H1 H2 H3 H4 H5].
  assert (∀ k v, O !! k = Some v → <[id := bpp]> O !! k = Some v) as Hk.
  { intros k v E. rewrite lookup_insert_ne by congruence. done. }
  split; [|by eauto| |done|done]; intros k s E; [destruct (H1 _ _ E) as (?&?&?)|destruct (H3 _ _ E) as (?&?&?)];
    by split_and!; auto.
Qed.

Lemma valid_nonempty s : session_ok s → s_CoreVersion s ≠ "" ∧ s_Domain s ≠ "".
Proof.
  intros (_ & _ & Hv & Hd).
  split; intros E; [rewrite E in Hv; clear -Hv|rewrite E in Hd; clear -Hd]; done.
Qed.

Lemma merge_session_ok o s : session_ok s → merge_session o s = s.
Proof.
  intros [Hv Hd]%valid_nonempty. destruct o as [o|]; [|done]. unfold merge_session, keep.
  rewrite !(proj2 (String.eqb_neq _ _)) by done. by destruct s.
Qed.

(** The calls of the stores. *)
Lemma wf_create O now s a m : owned O (s_ID s) s → wf O a m → wf O (aexec now (CreateSession s) a).2 m.
Proof.
  intros Hs [H1 H2 H3 H4 H5]. cbn [aexec]. unfold aput. destruct (marshal s) as [b|]; [|by split].
  cbn [snd]. split; [| |done| |done].
  - intros id s'. destruct (decide (id = s_ID s)) as [->|]; akey; [|eauto].
    by intros [= <-].
  - intros bpp id. destruct (decide (bpp = s_BPPID s)) as [->|]; akey; [|eauto].
    intros [= <-]. apply Hs.
  - intros id r. akey. apply H4.
Qed.

Lemma wf_delete O now id a m : wf O a m → wf O (aexec now (DeleteSession id) a).2 m.
Proof.
  intros [H1 H2 H3 H4 H5]. change (wf O (aexec 0 (DeleteSession id) a).2 m).
  split; [| |done| |done]; intros ??; rewrite delete_session_get; repeat case_match; eauto; done.
Qed.

(** A call that touches no session and no run. *)
Lemma wf_same O a a' m :
  (∀ id, a' (KSession id) = a (KSession id)) → (∀ bpp, a' (KBpp bpp) = a (KBpp bpp)) →
  (∀ id, a' (KRun id) = a (KRun id)) → wf O a m → wf O a' m.
Proof. intros E1 E2 E3 [H1 H2 H3 H4 H5]. split; intros *; rewrite ?E1, ?E2, ?E3; eauto. Qed.

Lemma wf_aput {T} `{Wire B T} O (x : T) k v a m :
  (∀ id, k ≠ KSession id) → (∀ bpp, k ≠ KBpp bpp) → (∀ id, k ≠ KRun id) → wf O a m →
  wf O (aput x (aset k v) a).2 m.
Proof.
  intros Hk1 Hk2 Hk3. unfold aput. destruct (marshal x); [|done]. apply wf_same; intros.
  - exact (aset_ne k v a (KSession id) (Hk1 id)).
  - exact (aset_ne k v a (KBpp bpp) (Hk2 bpp)).
  - exact (aset_ne k v a (KRun id) (Hk3 id)).
Qed.

Lemma wf_run_status O now id st a m : wf O a m → wf O (aexec now (UpdateRunStatus id st) a).2 m.
Proof.
  intros [H1 H2 H3 H4 H5]. cbn [aexec]. destruct (a (KRun id)) as [r|] eqn:E; [|by split].
  unfold aput. destruct (marshal _); [|by split]. cbn [snd].
  split; [intros ??; akey; apply H1|intros ??; akey; apply H2|done| |done].
  intros id' r'. destruct (decide (id' = id)) as [->|]; akey; [|apply H4]. specialize (H4 id r E).
  intros [= <-]. by destruct (finished st).
Qed.

Lemma wf_save_session O s a m : owned O (s_ID s) s → wf O a m → wf O a (Mongo_SaveSession s m).
Proof.
  intros Hs [H1 H2 H3 H4 H5]. split; [done..| |done|done]. intros id s'. simpl. rewrite c_get_put.
  case_decide; subst; [|eauto]. intros [= <-]. rewrite merge_session_ok; [done|apply Hs].
Qed.

Lemma owned_status O id st s : owned O id s → owned O id (set_session_status st s).
Proof. done. Qed.

Lemma wf_expire O bpp a m : wf O a m → wf O a (Mongo_ExpireSessionsByBPP bpp m).
Proof.
  intros [H1 H2 H3 H4 H5]. split; [done..| |done|done]. intros id s. simpl. rewrite c_get_update.
  destruct (c_get _ id) as [s'|] eqn:E; simpl; [|done]. intros [= <-]. specialize (H3 _ _ E).
  by destruct (_ && _).
Qed.

Lemma wf_mongo_delete O p a m :
  wf O a m → wf O a (with_sessions (c_delete p (mg_sessions m)) m).
Proof.
  intros [H1 H2 H3 H4 H5]. split; [done..| |done|done]. intros id s. simpl. rewrite c_get_delete.
  destruct (c_get _ id) as [s'|] eqn:E; simpl; [|done]. destruct (p s'); [done|].
  intros [= <-]. eauto.
Qed.

Lemma wf_mongo_same O a m m' : mg_sessions m' = mg_sessions m → mg_runs m' = mg_runs m → wf O a m → wf O a m'.
Proof. intros E1 E2 [H1 H2 H3 H4 H5]. split; [done..| |done|by rewrite E2]. intros id s. rewrite E1. eauto. Qed.

Lemma wf_mongo_runs O p a m : wf O a m → wf O a (with_runs (c_delete p (mg_runs m)) m).
Proof. intros [H1 H2 H3 H4 H5]. split; [done..|]. by apply keyed_delete. Qed.

Lemma wf_mongo_catalogs O c a m : wf O a m → wf O a (with_catalogs c m).
Proof. by apply wf_mongo_same. Qed.

Lemma find_sessions_owned O p a m s :
  wf O a m → s ∈ c_find p (mg_sessions m) → p s = true ∧ owned O (s_ID s) s.
Proof.
  intros Hwf [Hp [id Hid]]%c_find_spec. split; [done|].
  pose proof (wf_mongo _ _ _ Hwf _ _ Hid) as Hs. by rewrite <- (proj1 Hs) in Hs at 1.
Qed.

(** What the programs of the manager keep. *)
Definition found_owned O (id : string) (r : result error Session) : Prop :=
  match r with Ok s => owned O id s | Err _ => True end.

Lemma keeps_st_wf {T} O now (c : call B T) (Q : T → Prop) :
  (∀ a, (∀ m, wf O a m → wf O (aexec now c a).2 m)) →
  (∀ a m, wf O a m → Q (aexec now c a).1) → keeps (wf O) now (st c) Q.
Proof. intros Hw HQ. apply keeps_st. eauto. Qed.

Lemma keeps_get O now id : keeps (wf O) now (st (GetSession id)) (found_owned O id).
Proof.
  apply keeps_st_wf; [done|]. intros a m Hwf. simpl. destruct (a (KSession id)) eqn:E; [|done].
  by apply (wf_state _ _ _ Hwf).
Qed.

Lemma keeps_get_bpp O now bpp :
  keeps (wf O) now (st (GetSessionByBPP bpp))
    (λ r, match r with Ok s => owned O (s_ID s) s ∧ s_BPPID s = bpp | Err _ => True end).
Proof.
  apply keeps_st_wf; [intros a m Hwf; simpl; by destruct (a (KBpp bpp))|].
  intros a m Hwf. simpl. destruct (a (KBpp bpp)) as [id|] eqn:E; [|done].
  destruct (a (KSession id)) as [s|] eqn:E2; [|done]. simpl.
  pose proof (wf_state _ _ _ Hwf _ _ E2) as Hs. pose proof (wf_index _ _ _ Hwf _ _ E) as Hi.
  destruct Hs as (Hid & Hs & ?). pose proof (eq_trans (eq_sym Hs) Hi) as E3. injection E3 as Hb.
  unfold owned. by rewrite Hid.
Qed.

(** A write fails only when its value has no encoding. *)
Definition encoded (r : result error ()) : Prop := r = Ok () ∨ r = Err encoding_error.
Lemma aput_encoded {T} `{Wire B T} (x : T) f a : encoded (aput x f a).1.
Proof. unfold aput, encoded. destruct (marshal x); auto. Qed.

Lemma keeps_create_session O now s :
  owned O (s_ID s) s → keeps (wf O) now (st (CreateSession s)) encoded.
Proof. intros. apply keeps_st_wf; intros; [by apply wf_create|apply aput_encoded]. Qed.

Lemma keeps_delete_session O now id : keeps (wf O) now (st (DeleteSession id)) (λ _, True).
Proof. apply keeps_st_wf; [|done]. intros. by apply wf_delete. Qed.

Lemma keeps_run_status O now id status : keeps (wf O) now (st (UpdateRunStatus id status)) (λ _, True).
Proof. apply keeps_st_wf; [|done]. intros. by apply wf_run_status. Qed.

Lemma keeps_catalog_state O now id cs : keeps (wf O) now (st (SetCatalogState id cs)) encoded.
Proof. apply keeps_st_wf; intros; [by apply wf_aput|apply aput_encoded]. Qed.
Lemma keeps_preorder_state O now id ps : keeps (wf O) now (st (SetPreorderState id ps)) encoded.
Proof. apply keeps_st_wf; intros; [by apply wf_aput|apply aput_encoded]. Qed.

(** A run is found under its own identifier. *)
Lemma keeps_get_run O now id :
  keeps (wf O) now (st (GetRun id)) (λ r, match r with Ok r => r_ID r = id | Err _ => True end).
Proof.
  apply keeps_st_wf; [done|]. intros a m Hwf. simpl. destruct (a (KRun id)) eqn:E; [|done].
  by apply (wf_run _ _ _ Hwf).
Qed.
Lemma keeps_load_run O now id :
  keeps (wf O) now (load (Mongo_GetRunByID id)) (λ r, match r with Ok r => r_ID r = id | Err _ => True end).
Proof.
  apply keeps_load. intros a m Hwf. unfold Mongo_GetRunByID. destruct (c_get _ id) eqn:E; [|done].
  by apply (wf_runs _ _ _ Hwf).
Qed.

(** The reads of state that always answer, and of the numbers of a run. *)
Lemma keeps_catalog O now id : keeps (wf O) now (st (GetCatalogState id)) (λ r, is_Some (res_opt r)).
Proof. apply keeps_st_wf; [done|]. intros. by eexists. Qed.
Lemma keeps_preorder O now id : keeps (wf O) now (st (GetPreorderState id)) (λ r, is_Some (res_opt r)).
Proof. apply keeps_st_wf; [done|]. intros. by eexists. Qed.
Lemma keeps_metrics O now id : keeps (wf O) now (st (GetMetrics id)) (λ _, True).
Proof. by apply keeps_st_wf. Qed.

Lemma keeps_save_session O now s :
  owned O (s_ID s) s → keeps (wf O) now (save (Mongo_SaveSession s)) (λ _, True).
Proof. intros. apply keeps_save. intros. by apply wf_save_session. Qed.

Lemma keeps_read O now {T} (f : MongoStore B → T) : keeps (wf O) now (load f) (λ _, True).
Proof. by apply keeps_load. Qed.
End Sessions.

(** Walks through a program: the rule of each step, the postconditions of the
    calls on sessions, and the case analysis of the code. *)
Create HintDb keeps discriminated.
#[export] Hint Resolve keeps_get keeps_get_bpp keeps_create_session keeps_delete_session keeps_run_status
  keeps_catalog_state keeps_preorder_state keeps_get_run keeps_load_run keeps_catalog keeps_preorder keeps_metrics
  keeps_save_session : keeps.
Ltac keeps_step :=
  lazymatch goal with
  | |- keeps _ _ (Ret _) _ => apply keeps_ret
  | |- keeps _ _ (bind ?p _) _ =>
      eapply keeps_bind;
        [first [solve [eauto with keeps] | apply keeps_read] | cbv beta; intros ? ?]
  | |- keeps _ _ (match ?x with _ => _ end) _ => destruct x eqn:?
  | |- keeps _ _ (if ?x then _ else _) _ => destruct x eqn:?
  end.

(** ** What the API answers *)
Section Answers.
Context {B : Type} `{JsonCodec B}.
Variable cfg : settings.

Definition page_of (page : Z) : Z := (if page <? 1 then 1 else page)%Z.
Definition size_of (size : Z) : Z := (if (size <? 1) || (100 <? size) then 20 else size)%Z.
Definition asked_bap (bap bpp : string) : string :=
  if trim_space bap =? "" then trim_space bpp else trim_space bap.

(** A session that is shown is not active past its expiry. *)
Definition current (now : Z) (s : Session) : Prop := s_Status s = SessionActive → (now ≤ s_ExpiresAt s)%Z.

Definition newest_first (runs : list Run) : Prop := Sorted (before (λ r, - r_StartedAt r)%Z) runs.

(** The answers with a status below 400: for each request the one status, the
    one kind of body, and what the body has. *)
Definition shown (now : Z) (uuid : string) (rq : request B) (r : response) : Prop :=
  match rq, rs_body r with
  | SearchRuns bap bpp sess limit, BRunSearch b s l =>
      rs_status r = 200%Z ∧ b = asked_bap bap bpp ∧ b ≠ "" ∧ s = trim_space sess ∧
      (Z.of_nat (length l) ≤ size_of limit)%Z ∧ (s ≠ "" → Forall (λ x, x.1.2 = s) l)
  | ListSessions bpp page size, BSessions l p n total =>
      rs_status r = 200%Z ∧ bpp ≠ "" ∧ p = page_of page ∧ n = size_of size ∧
      (Z.of_nat (length l) ≤ n)%Z ∧ (Z.of_nat (length l) ≤ total)%Z ∧
      Forall (λ s, session_ok s ∧ s_BPPID s = bpp) l
  | PostSession (Some c), BSession s =>
      rs_status r = 201%Z ∧ session_ok s ∧ s_ID s = uuid ∧ s_BPPID s = cr_BPPID c ∧ s_BPPURI s = cr_BPPURI c ∧
      s_Status s = SessionActive ∧ s_CreatedAt s = now ∧ s_ExpiresAt s = (now + cfg_ttl cfg)%Z ∧
      choose_version cfg (cr_CoreVersion c) = Ok (s_CoreVersion s) ∧
      choose_domain cfg (cr_Domain c) = Ok (s_Domain s) ∧
      s_VerificationEnabled s = false ∧ s_ErrorInjectionEnabled s = true
  | ClearSessions bpp, BDeleted n => rs_status r = 200%Z ∧ bpp ≠ "" ∧ (0 ≤ n)%Z
  | GetSessionById id, BSessionInfo s (Some _) (Some _) =>
      rs_status r = 200%Z ∧ session_ok s ∧ s_ID s = id ∧ current now s
  | DeleteSessionById _, BNoContent => rs_status r = 204%Z
  | PutVerification id (Some (Some on)), BSession s =>
      rs_status r = 200%Z ∧ session_ok s ∧ s_ID s = id ∧ s_VerificationEnabled s = on ∧ current now s
  | PutErrorInjection id (Some (Some on)), BSession s =>
      rs_status r = 200%Z ∧ session_ok s ∧ s_ID s = id ∧ s_ErrorInjectionEnabled s = on ∧ current now s
  | PutCatalog id (Some (Some p)), BCatalog i st =>
      rs_status r = 200%Z ∧ i = id ∧ st = "ready" ∧ is_Some (json_unmarshal p)
  | ListRuns id, BRuns l => rs_status r = 200%Z ∧ Forall (λ x, r_SessionID x = id) l ∧ newest_first l
  | GetRunById _ run, BRun x =>
      rs_status r = 200%Z ∧ r_ID x = run ∧ r_JourneyMetrics x = buildRunJourneyMetrics (r_Metrics x)
  | StopRunOf _ _, BStopped run => rs_status r = 200%Z ∧ run ≠ ""
  | SessionReport id, BCsv name text =>
      rs_status r = 200%Z ∧ name = "report_" ++ id ++ ".csv" ∧
      ∃ runs, text = csv_report runs ∧ Forall (λ x, r_SessionID x = id) runs ∧ newest_first runs
  | _, _ => False
  end.

(** The errors a request can be answered with. *)
Definition blank_error (blank : bool) (msg : string) (others : list error) : list error :=
  if blank then [ECustom (required msg)] else others.
Definition flag_errors (msg : string) (enabled : option (option bool)) : list error :=
  ECustom (NewCustomError 409 "RUN_ACTIVE_4091" msg) ::
  match enabled with
  | Some (Some _) => [ECustom ErrSessionNotFound; encoding_error]
  | _ => [ECustom ErrInvalidRequestBody]
  end.
Definition errors_of (rq : request B) : list error :=
  match rq with
  | SearchRuns bap bpp _ _ => blank_error (asked_bap bap bpp =? "") "bap_id query parameter is required" []
  | ListSessions bpp _ _ =>
      blank_error (bpp =? "") "bpp_id query parameter is required" [EText "skip value must be non-negative"]
  | PostSession None => [ECustom ErrInvalidRequestBody]
  | PostSession (Some c) =>
      blank_error ((cr_BPPID c =? "") || (cr_BPPURI c =? "")) "bpp_id and bpp_uri are required"
        match choose_version cfg (cr_CoreVersion c), choose_domain cfg (cr_Domain c) with
        | Err e, _ => [e]
        | _, Err e => [e]
        | Ok _, Ok _ => [encoding_error]
        end
  | ClearSessions bpp => blank_error (bpp =? "") "bpp_id query parameter is required" []
  | PutVerification _ on => flag_errors "cannot update verification while a run is active" on
  | PutErrorInjection _ on => flag_errors "cannot update error injection while a run is active" on
  | PutCatalog _ p =>
      [ECustom ErrSessionNotFound; ECustom ErrSessionExpired] ++
      match p with
      | Some (Some p) => if json_unmarshal p is Some _ then [] else [ECustom ErrInvalidRequestBody]
      | _ => [ECustom ErrInvalidRequestBody]
      end
  | GetRunById _ _ => [ECustom ErrRunNotFound]
  | StopRunOf _ _ => [ECustom ErrNoActiveRun]
  | GetSessionById _ | DeleteSessionById _ | ListRuns _ | SessionReport _ => [ECustom ErrSessionNotFound]
  end.

Definition answer_ok (now : Z) (uuid : string) (rq : request B) (x : answer) : Prop :=
  match x with Ok r => shown now uuid rq r | Err e => e ∈ errors_of rq end.
End Answers.

Section Api.
Context {B : Type} `{MongoServer B, JsonCodec B} `{SessionWire B}.
Variable cfg : settings.
Implicit Types (O : gmap string string).

(** What the manager's methods return. *)
Definition any_found O now id (r : result error Session) : Prop :=
  match r with Ok s => owned O id s ∧ current now s | Err e => e = ECustom ErrSessionNotFound end.
Definition live_found O id (r : result error Session) : Prop :=
  match r with Ok s => owned O id s | Err e => e = ECustom ErrSessionNotFound ∨ e = ECustom ErrSessionExpired end.

Lemma keeps_get_any O now id : keeps (wf O) now (Manager_GetAny now id) (any_found O now id).
Proof.
  unfold Manager_GetAny. eapply keeps_bind; [apply keeps_get|]. intros r Hr.
  eapply (keeps_bind _ _ _ _ (found_owned O id)).
  { destruct r as [s|]; [by apply keeps_ret|]. apply keeps_load. intros a m Hwf.
    unfold Mongo_GetSessionByID. destruct (c_get _ id) eqn:E; [|done]. by apply (wf_mongo _ _ _ Hwf). }
  clear r Hr. intros [s|e] Hr; [|by apply keeps_ret]. case_bool_decide as Hact; cbn [andb].
  - destruct (past_expiry now s) eqn:Ep.
    + eapply keeps_bind; [apply keeps_save_session|intros _ _; by apply keeps_ret].
      apply (owned_status O id SessionExpired) in Hr. by rewrite <- (proj1 Hr) in Hr at 1.
    + apply keeps_ret. split; [done|]. intros _. by apply Z.ltb_ge in Ep.
  - apply keeps_ret. split; [done|]. by intros ?.
Qed.

Lemma keeps_get_live O now id : keeps (wf O) now (Manager_Get now id) (live_found O id).
Proof.
  unfold Manager_Get. eapply keeps_bind; [apply keeps_get|]. intros [s|] Hr; apply keeps_ret; [|by left].
  destruct (_ || _); [by right|done].
Qed.

(** A setter that leaves alone what makes a session well formed. *)
Definition setter (f : Session → Session) : Prop :=
  ∀ O now id s, owned O id s → current now s → owned O id (f s) ∧ current now (f s).
Definition updated O now (f : Session → Session) id (r : result error Session) : Prop :=
  match r with
  | Ok s => owned O id s ∧ current now s ∧ ∃ s0, s = f s0
  | Err e => e = ECustom ErrSessionNotFound ∨ e = encoding_error
  end.

Lemma keeps_update O now (f : Session → Session) id :
  setter f → keeps (wf O) now (update_session f now id) (updated O now f id).
Proof.
  intros Hf. unfold update_session. eapply keeps_bind; [apply keeps_get_any|].
  intros [s|e] Hr; [|apply keeps_ret; by left].
  destruct Hr as [Hr Hc]. destruct (Hf O now id s Hr Hc) as [Ho Hc'].
  assert (owned O (s_ID (f s)) (f s)) as Hs by (by rewrite <- (proj1 Ho) in Ho at 1).
  eapply keeps_bind; [by apply keeps_create_session|]. intros [u|e] He.
  - eapply keeps_bind; [by apply keeps_save_session|]. intros _ _. apply keeps_ret. split_and!; eauto.
  - apply keeps_ret. right. by destruct He as [?|[= ->]].
Qed.

Lemma keeps_create O ttl now uuid bpp uri core domain :
  bpp ≠ "" → uri ≠ "" → IsValidCoreVersion core = true → IsValidDomain domain = true →
  O !! uuid = Some bpp →
  keeps (wf O) now (Manager_Create ttl now uuid bpp uri core domain)
    (λ r, match r with
          | Ok s => s = mkSession uuid bpp uri SessionActive now (now + ttl) core domain false true
          | Err e => e = encoding_error
          end).
Proof.
  intros Hb Hu Hc Hd HO. unfold Manager_Create, store_new_session.
  set (s := mkSession _ _ _ _ _ _ _ _ _ _).
  assert (owned O (s_ID s) s) as Hs by (split_and!; done).
  eapply keeps_bind; [apply keeps_get_bpp|]. intros old _.
  eapply (keeps_bind _ _ _ _ (λ _, True)).
  { destruct old; [apply keeps_delete_session|by apply keeps_ret]. }
  intros _ _. eapply keeps_bind; [apply keeps_save; intros; by apply wf_expire|]. intros _ _.
  repeat keeps_step; try done;
    match goal with E : encoded (Err _) |- _ => by destruct E as [?|[= ->]] end.
Qed.

Lemma keeps_mark_expired O now active bpp l :
  (∀ s, s ∈ l → owned O (s_ID s) s ∧ s_BPPID s = bpp) →
  keeps (wf O) now (mark_expired now active l)
    (λ l', length l' = length l ∧ Forall (λ s, session_ok s ∧ s_BPPID s = bpp) l').
Proof.
  induction l as [|s l IH]; intros Hl; cbn [mark_expired]; [by apply keeps_ret|].
  destruct (Hl s) as [Hs Hb]; [set_solver|].
  set (s' := if _ : bool then _ else s).
  assert (owned O (s_ID s') s' ∧ s_BPPID s' = bpp) as [Hs' Hb'].
  { unfold s'. destruct (_ && _); split; [|done..]. by apply (owned_status O (s_ID s)). }
  eapply (keeps_bind _ _ _ _ (λ _, True)).
  { clearbody s'. destruct (_ && _); [exact (keeps_save_session _ _ _ Hs')|by apply keeps_ret]. }
  intros _ _. clearbody s'. eapply keeps_bind; [apply IH; intros; apply Hl; by right|].
  intros l' [El Hl']. apply keeps_ret. split; [cbn; by rewrite El|].
  constructor; [|done]. split; [apply Hs'|done].
Qed.

Definition listed (bpp : string) (size : Z) (r : result error (list Session * Z)) : Prop :=
  match r with
  | Ok (l, total) =>
      (Z.of_nat (length l) ≤ size)%Z ∧ (Z.of_nat (length l) ≤ total)%Z ∧
      Forall (λ s, session_ok s ∧ s_BPPID s = bpp) l
  | Err e => e = EText "skip value must be non-negative"
  end.

Lemma limited_length {D} n (l : list D) :
  (0 < n)%Z → (Z.of_nat (length (limited n l)) ≤ n)%Z ∧ (length (limited n l) ≤ length l)%nat.
Proof.
  intros Hn. unfold limited. rewrite (proj2 (Z.eqb_neq n 0)) by lia. rewrite length_take. lia.
Qed.

Lemma keeps_list O now bpp page size :
  (0 < size)%Z → keeps (wf O) now (Manager_GetSessionsByBPP now bpp page size) (listed bpp size).
Proof.
  intros Hsize. unfold Manager_GetSessionsByBPP.
  eapply (keeps_bind _ _ _ _ (λ r, match r with
    | Ok (l, total) => (Z.of_nat (length l) ≤ size)%Z ∧ (Z.of_nat (length l) ≤ total)%Z ∧
        ∀ s, s ∈ l → owned O (s_ID s) s ∧ s_BPPID s = bpp
    | Err e => e = EText "skip value must be non-negative" end)).
  { apply keeps_load. intros a m Hwf. unfold Mongo_GetSessionsByBPP.
    destruct (_ <? 0)%Z; [done|]. set (all := c_find _ (mg_sessions m)). set (l := drop _ (sort_desc _ all)).
    destruct (limited_length size l Hsize) as [Hl1 Hl2]. split; [done|].
    assert (length l ≤ length all)%nat as Hl3.
    { unfold l. rewrite length_drop. unfold sort_desc. rewrite merge_sort_Permutation. lia. }
    split; [lia|]. intros s Hs. assert (s ∈ all) as Hf.
    { rewrite <- (merge_sort_Permutation (before (λ d, - s_CreatedAt d)%Z)).
      eapply subseteq_drop. unfold limited in Hs. destruct (_ =? 0)%Z; [done|].
      by eapply subseteq_take. }
    destruct (find_sessions_owned _ _ _ _ _ Hwf Hf) as [Hp ?]. split; [done|].
    by apply String.eqb_eq. }
  intros [[l total]|e] Hl; [|by apply keeps_ret]. destruct Hl as (? & ? & Hl).
  eapply keeps_bind; [apply keeps_get_bpp|]. intros active _.
  eapply keeps_bind; [by apply keeps_mark_expired|]. intros l' [E Hl']. apply keeps_ret. cbn. by rewrite E.
Qed.

Lemma choose_valid valid asked configured e1 e2 v :
  choose valid asked configured e1 e2 = Ok v → valid v = true.
Proof.
  unfold choose. set (w := match asked with Some _ => _ | None => _ end). clearbody w.
  destruct (w =? ""); simpl.
  - destruct (valid (trim_space configured)) eqn:E; by intros [= <-].
  - destruct (valid w) eqn:E; by intros [= <-].
Qed.

(** The participant a request gives its fresh identifier to. *)
Definition gives (uuid : string) (rq : request B) (O : gmap string string) : gmap string string :=
  match rq with PostSession (Some c) => <[uuid := cr_BPPID c]> O | _ => O end.

Lemma keeps_create_handler O now uuid c :
  O !! uuid = Some (cr_BPPID c) →
  keeps (wf O) now (createSession cfg now uuid (Some c)) (answer_ok cfg now uuid (PostSession (Some c))).
Proof.
  intros HO. unfold createSession, answer_ok, errors_of, blank_error.
  destruct (_ || _) eqn:E; [apply keeps_ret; by left|]. bool_hyps.
  destruct (choose_version cfg _) as [v|] eqn:Ev; [|apply keeps_ret; by left].
  destruct (choose_domain cfg _) as [d|] eqn:Ed; [|apply keeps_ret; by left].
  assert (Hv := choose_valid _ _ _ _ _ _ Ev). assert (Hd := choose_valid _ _ _ _ _ _ Ed).
  eapply keeps_bind; [by apply keeps_create|]. intros [s|e] Hs; apply keeps_ret; subst; [|by left].
  unfold shown. cbn [rs_body rs_status]. unfold session_ok. by split_and!.
Qed.

Lemma keeps_flag O now msg (f : bool → Session → Session) id on (Q : answer → Prop) :
  (∀ b, setter (f b)) →
  (∀ e, e ∈ flag_errors msg on → Q (Err e)) →
  (∀ b s s0, on = Some (Some b) → owned O id s → current now s → s = f b s0 → Q (ok (BSession s))) →
  keeps (wf O) now (set_flag msg (λ id b, update_session (f b) now id) id on) Q.
Proof.
  intros Hset Herr Hok. unfold set_flag. eapply keeps_bind; [apply keeps_preorder|]. intros [ps|e] Hps; [|by destruct Hps].
  case_bool_decide; [apply keeps_ret, Herr; by left|].
  destruct on as [[on|]|]; [|apply keeps_ret, Herr; right; by left..].
  eapply keeps_bind; [by apply keeps_update|]. intros [s|e] Hs; apply keeps_ret.
  - destruct Hs as (Hs & Hc & s0 & ->). by eapply Hok.
  - apply Herr. destruct Hs as [->| ->]; right; [by left|right; by left].
Qed.

Lemma keeps_manager_delete O now id :
  keeps (wf O) now (Manager_Delete id) (λ r, match r with Ok _ => True | Err e => e = ECustom ErrSessionNotFound end).
Proof.
  unfold Manager_Delete. eapply keeps_bind; [apply keeps_get|]. intros r _.
  eapply (keeps_bind _ _ _ _ (λ r, match r with Ok _ => True | Err e => e = ECustom ErrSessionNotFound end)).
  { destruct r; [repeat keeps_step; done|].
    eapply keeps_bind; [apply keeps_read|]. intros r' _. apply keeps_ret. by destruct r'. }
  intros [u|e] He; [|by apply keeps_ret].
  eapply keeps_bind; [|intros; by apply keeps_ret]. apply keeps_save. intros a m Hwf.
  unfold Mongo_HardDeleteSession. by apply wf_mongo_delete, wf_mongo_catalogs, wf_mongo_runs.
Qed.

Lemma keeps_delete_all O now bpp : keeps (wf O) now (Manager_DeleteAllByBPP bpp) (λ n, (0 ≤ n)%Z).
Proof.
  unfold Manager_DeleteAllByBPP. eapply keeps_bind; [apply keeps_get_bpp|]. intros r _.
  eapply (keeps_bind _ _ _ _ (λ _, True)).
  { destruct r; [apply keeps_delete_session|by apply keeps_ret]. }
  intros _ _. apply keeps_persist. intros a m Hwf. unfold Mongo_HardDeleteSessionsByBPP. case_match; [done|].
  split; [cbn; lia|]. by apply wf_mongo_delete, wf_mongo_catalogs, wf_mongo_runs.
Qed.

Lemma keeps_merge O now r id :
  r_ID r = id → keeps (wf O) now (mergeRunLatencySummaries r) (λ r', r_ID r' = id).
Proof. intros Hr. unfold mergeRunLatencySummaries. repeat keeps_step; done. Qed.

Lemma keeps_manager_get_run O now id :
  keeps (wf O) now (Manager_GetRun id) (λ r, match r with
    | Ok r => r_ID r = id ∧ r_JourneyMetrics r = buildRunJourneyMetrics (r_Metrics r) | Err _ => True end).
Proof.
  unfold Manager_GetRun. eapply keeps_bind; [apply keeps_get_run|]. intros [r|e] Hr.
  - eapply keeps_bind; [apply keeps_metrics|]. intros ms _.
    eapply keeps_bind; [by apply keeps_merge|]. intros r' Hr'. by apply keeps_ret.
  - eapply keeps_bind; [apply keeps_load_run|]. intros [r'|e'] Hr'; by apply keeps_ret.
Qed.

Lemma keeps_upload O now uuid id p :
  keeps (wf O) now (uploadCatalog now id p) (answer_ok cfg now uuid (PutCatalog id p)).
Proof.
  unfold uploadCatalog. eapply keeps_bind; [apply keeps_get_live|]. intros [s|e] Hs.
  2: { apply keeps_ret. unfold answer_ok, errors_of. destruct Hs as [->| ->]; [by left|right; by left]. }
  destruct p as [[p|]|]; [|apply keeps_ret; right; right; by left..].
  destruct (json_unmarshal p) as [j|] eqn:Ej.
  - eapply keeps_bind; [apply keeps_save; intros a m; by apply wf_mongo_catalogs|]. intros _ _.
    eapply keeps_bind; [apply keeps_catalog_state|]. intros _ _. apply keeps_ret.
    unfold answer_ok, shown. cbn [rs_body rs_status]. destruct Hs as [-> _]. by split_and!.
  - apply keeps_ret. unfold answer_ok, errors_of. rewrite Ej. right; right; by left.
Qed.

Lemma keeps_manager_stop O now id :
  keeps (wf O) now (Manager_StopRun id)
    (λ r, match r with Ok run => run ≠ "" | Err e => e = ECustom ErrNoActiveRun end).
Proof.
  unfold Manager_StopRun. eapply keeps_bind; [apply keeps_preorder|]. intros [ps|e] _; [|by apply keeps_ret].
  destruct (_ || _) eqn:E; [by apply keeps_ret|]. bool_hyps.
  eapply keeps_bind; [apply keeps_preorder_state|]. intros _ _.
  eapply keeps_bind; [apply keeps_run_status|]. intros _ _. by apply keeps_ret.
Qed.

(** The runs of a session. *)
Lemma history_of id m : Forall (λ r, r_SessionID r = id) (Mongo_GetRunHistory (B := B) id m) ∧
  newest_first (Mongo_GetRunHistory (B := B) id m).
Proof.
  unfold Mongo_GetRunHistory, sort_desc. split.
  - rewrite merge_sort_Permutation. apply Forall_forall. intros r [Hr _]%c_find_spec. by apply String.eqb_eq.
  - assert (Total (before (λ r : Run, - r_StartedAt r)%Z)) by (intros x y; unfold before; lia).
    apply Sorted_merge_sort, _.
Qed.

Lemma keeps_history O now id :
  keeps (wf O) now (load (Mongo_GetRunHistory id)) (λ l, Forall (λ r, r_SessionID r = id) l ∧ newest_first l).
Proof. apply keeps_load. intros. apply history_of. Qed.

Lemma size_of_range n : (1 ≤ size_of n ≤ 100)%Z.
Proof. unfold size_of. destruct (_ || _) eqn:E; [lia|]. bool_hyps. lia. Qed.

Lemma keeps_search O now bpp sess n :
  keeps (wf O) now (Manager_SearchLatestRuns bpp sess (size_of n)) (λ l,
    (Z.of_nat (length l) ≤ size_of n)%Z ∧ (sess ≠ "" → Forall (λ r, r_SessionID r = sess) l)).
Proof.
  pose proof (size_of_range n) as Hn. unfold Manager_SearchLatestRuns. apply keeps_load. intros a m _.
  assert (clamp_limit (size_of n) = size_of n) as ->.
  { unfold clamp_limit. rewrite (proj2 (Z.leb_gt _ _)), (proj2 (Z.ltb_ge _ _)) by lia. done. }
  unfold Mongo_SearchLatestRuns. split; [apply limited_length; lia|]. intros Hs.
  unfold limited. rewrite (proj2 (Z.eqb_neq _ 0)) by lia. apply Forall_take. unfold sort_desc.
  rewrite merge_sort_Permutation. apply Forall_forall. intros r [Hr _]%c_find_spec. bool_hyps.
  destruct (sess =? "") eqn:E; [by apply String.eqb_eq in E|]. cbn [orb] in *. by apply String.eqb_eq.
Qed.

#[local] Hint Resolve keeps_get_any : keeps.

Lemma keeps_search_handler O now uuid bap bpp sess n :
  keeps (wf O) now (searchLatestRuns bap bpp sess n) (answer_ok cfg now uuid (SearchRuns bap bpp sess n)).
Proof.
  unfold searchLatestRuns, answer_ok, errors_of. fold (asked_bap bap bpp). fold (size_of n).
  destruct (asked_bap bap bpp =? "") eqn:E; [apply keeps_ret; by left|].
  eapply keeps_bind; [apply keeps_search|]. intros l [Hl Hs]. apply keeps_ret.
  unfold ok, shown. cbn [rs_body rs_status]. rewrite length_fmap. apply String.eqb_neq in E. split_and!; try done.
  intros Hne. apply Forall_fmap. by apply Hs.
Qed.

Lemma keeps_list_handler O now uuid bpp page size :
  keeps (wf O) now (listSessions now bpp page size) (answer_ok cfg now uuid (ListSessions bpp page size)).
Proof.
  unfold listSessions, answer_ok, errors_of. fold (page_of page). fold (size_of size).
  destruct (bpp =? "") eqn:E; [apply keeps_ret; by left|].
  pose proof (size_of_range size). eapply keeps_bind; [apply keeps_list; lia|].
  apply String.eqb_neq in E. intros [[l total]|e] Hl; apply keeps_ret; [|unfold listed in Hl; subst e; by left].
  destruct Hl as (? & ? & ?). unfold ok, shown. cbn [rs_body rs_status]. by split_and!.
Qed.

(** A handler that shows something of a session it has looked up. *)
Lemma keeps_looked_up O now uuid id rq (k : result error Session → prog B answer) :
  errors_of cfg rq = [ECustom ErrSessionNotFound] →
  k (Err (ECustom ErrSessionNotFound)) = Ret (fail ErrSessionNotFound) →
  (∀ s, owned O id s → current now s → keeps (wf O) now (k (Ok s)) (answer_ok cfg now uuid rq)) →
  keeps (wf O) now (bind (Manager_GetAny now id) k) (answer_ok cfg now uuid rq).
Proof.
  intros He Hk Hs. eapply keeps_bind; [apply keeps_get_any|]. intros [s|e] Hr; [by apply Hs; destruct Hr|].
  cbn in Hr. subst e. rewrite Hk. apply keeps_ret. unfold answer_ok, fail. rewrite He. by left.
Qed.

Lemma keeps_handle O now uuid rq :
  (∀ c, rq = PostSession (Some c) → O !! uuid = Some (cr_BPPID c)) →
  keeps (wf O) now (handle cfg now uuid rq) (answer_ok cfg now uuid rq).
Proof.
  intros HO. destruct rq as [?? ? ?|???|[c|]|bpp|id|id|id on|id on|? ?|id|??|??|id]; cbn [handle].
  - apply keeps_search_handler.
  - apply keeps_list_handler.
  - by apply keeps_create_handler, HO.
  - apply keeps_ret. by left.
  - unfold clearSessions, answer_ok, errors_of. destruct (bpp =? "") eqn:E; [apply keeps_ret; by left|].
    apply String.eqb_neq in E. eapply keeps_bind; [apply keeps_delete_all|]. intros n Hn. by apply keeps_ret.
  - unfold getSession. apply keeps_looked_up; [done..|]. intros s Hs Hc.
    eapply keeps_bind; [apply keeps_catalog|]. intros cs [cs' Ecs].
    eapply keeps_bind; [apply keeps_preorder|]. intros ps [ps' Eps]. apply keeps_ret.
    unfold answer_ok, ok, shown. cbn [rs_body rs_status]. rewrite Ecs, Eps. by destruct Hs as (? & _ & ?).
  - unfold deleteSession. eapply keeps_bind; [apply keeps_manager_delete|].
    intros [u|e] He; apply keeps_ret; [done|subst; by left].
  - apply (keeps_flag O now _ set_verification); [by intros b O' now' id' s|done|].
    intros b s s0 -> (Hid & _ & Hok) Hc Es. unfold answer_ok, ok, shown. cbn [rs_body rs_status]. subst s. by split_and!.
  - apply (keeps_flag O now _ set_error_injection); [by intros b O' now' id' s|done|].
    intros b s s0 -> (Hid & _ & Hok) Hc Es. unfold answer_ok, ok, shown. cbn [rs_body rs_status]. subst s. by split_and!.
  - apply keeps_upload.
  - unfold listRuns. apply keeps_looked_up; [done..|]. intros s _ _.
    eapply keeps_bind; [apply keeps_history|]. intros l Hl. by apply keeps_ret.
  - unfold getRun. eapply keeps_bind; [apply keeps_manager_get_run|].
    intros [r|e] Hr; apply keeps_ret; [by destruct Hr|by left].
  - unfold stopRun. eapply keeps_bind; [apply keeps_manager_stop|].
    intros [run|e] Hr; apply keeps_ret; [done|subst; by left].
  - unfold sessionReport. apply keeps_looked_up; [done..|]. intros s _ _.
    eapply keeps_bind; [apply keeps_history|]. intros l [Hl Hn]. apply keeps_ret.
    unfold answer_ok, ok, shown. cbn [rs_body rs_status]. split_and!; eauto.
Qed.
End Api.

(** The identifiers of the requests are new, and pairwise different. *)
Definition fresh {B} (O : gmap string string) (rqs : list (Z * string * request B)) : Prop :=
  NoDup ((λ q, q.1.2) <$> rqs) ∧ Forall (λ q, O !! q.1.2 = None) rqs.


(** ** A concrete session *)
Section Demo.
#[local] Instance demo_codec : JsonCodec demo_bytes.
Proof.
  refine {| json_unmarshal b := match b with DText s => Some (JStr s) | _ => None end;
            json_marshal j := match j with JStr s => Some (DText s) | _ => None end |}.
  intros j b E. destruct j; by simplify_eq.
Defined.

Definition demo_settings : settings := mkSettings "1.2.0" "nic2004:52110" 3600.
Definition demo_create_request (domain : option string) : request demo_bytes :=
  PostSession (Some (mkCreate "bpp" "http://bpp" (Some " 1.2.5 ") domain)).
(** A session is created, shown and changed; then one without a domain is
    asked for, and the configured default domain is refused. *)
Definition demo_requests : list (Z * string * request demo_bytes) :=
  [(1%Z, "s1", demo_create_request (Some "ONDC:RET10")); (2%Z, "u2", GetSessionById "s1");
   (3%Z, "u3", PutVerification "s1" (Some (Some true))); (4%Z, "u4", ListSessions "bpp" 1 20);
   (5%Z, "s2", demo_create_request None); (6%Z, "u6", DeleteSessionById "nobody")].
Definition demo_served : list answer * (astore demo_bytes * MongoStore demo_bytes) :=
  serve demo_settings demo_requests (astore_empty, NewMongoStore).

#[local] Transparent gmap_empty.
End Demo.
