(* ===== verification/RunReports.v ===== *)
(** * Reading a run: the report and the payload pages of
    [internal/handlers/testing/routes.go]

    [getRunReport], [getRunReportByID] and [writeRunReport] show the journey
    of a run, with the percentiles of its latency events; [getRunPayloads]
    and [getRunPayloadsByID] show the payloads of a stage one by one, in the
    order they were sent.

    [sort.Slice] is any sorting of the times (it is not stable), and the run
    log lists its transactions in any order. *)
From stdpp Require Import prelude gmap list strings sorting.
From S2P Require Import Prelude GoStrings Float64 Json ApiError Latency Redis RunLog SessionTypes StateStore Mongo Manager MemoryStore.
Local Open Scope string_scope.

(** ** The report *)

Record stage_report := mkStageReport {
  sr_requests_sent : Z;
  sr_callbacks_received : Z;
  sr_success_rate : float64;
  sr_p50 : Z; sr_p95 : Z; sr_max : Z;
  sr_timeout : Z;
  sr_invalid_response : Z;
}.

Record run_report := mkRunReport {
  rr_generated_at : Z;
  rr_session : Session;
  rr_select : stage_report; rr_init : stage_report; rr_confirm : stage_report;
  rr_run : Run;                      (* id, session_id, bpp_id, status, rps, ... *)
  rr_total_requests : Z;
  rr_overall_success_rate : float64;
  rr_completed_at : option Z;
  rr_throttle : ThrottleMetrics;
}.

(** In Go the map of events is walked in an unspecified order. *)
Definition successLatenciesFromEvents (events : gmap string RunLatencyEvent) : list Z :=
  omap (λ ev, if bool_decide (ev_Outcome ev = OutcomeSuccess) then ev_LatencyMS ev else None)
    (map_to_list events).*2.

Definition fallbackLatencyFromJourney (j : JourneyActionMetrics) : Z * Z * Z :=
  let p95 := f64_trunc (f64_round (ja_P95MS j)) in
  let mx := f64_trunc (f64_round (ja_P99MS j)) in
  let mx := if (mx =? 0)%Z then f64_trunc (f64_round (ja_P90MS j)) else mx in
  (0%Z, p95, mx).

(** [float64(a) / float64(b)] when [b > 0]. *)
Definition rate (a b : Z) : float64 :=
  if (0 <? b)%Z then f64_div (f64_of_Z a) (f64_of_Z b) else f64_zero.

Section Reports.
Context {B : Type} `{MongoServer B}.

Definition journeyStageForReport (runID : string) (stage : Stage) (j : JourneyActionMetrics)
  (m : MongoStore B) : stage_report :=
  let lat := successLatenciesFromEvents (Mongo_GetRunLatencyEventsForStage runID stage m) in
  let '(p50, p95, mx) :=
    match lat with
    | [] => fallbackLatencyFromJourney j
    | _ => ComputeP50P95MaxFromSuccessLatenciesMs lat
    end in
  mkStageReport (ja_Sent j) (ja_Received j) (rate (ja_Success j) (ja_Sent j)) p50 p95 mx
    (ja_Timeout j) (ja_Failure j).

Definition writeRunReport (now : Z) (sess : Session) (r : Run) (m : MongoStore B) : run_report :=
  let jm := r_JourneyMetrics r in
  let stage s sel := journeyStageForReport (r_ID r) s (sel jm) m in
  let total f := wrap64 (wrap64 (f (rj_Select jm) + f (rj_Init jm)) + f (rj_Confirm jm)) in
  mkRunReport now sess (stage StageOnSelect rj_Select) (stage StageOnInit rj_Init)
    (stage StageOnConfirm rj_Confirm) r (total ja_Sent) (rate (total ja_Success) (total ja_Sent))
    (if (r_CompletedAt r =? zero_time)%Z then None else Some (r_CompletedAt r))
    (r_SystemMetrics r).

Definition getRunReport (now : Z) (sessionID runID : string) : prog B (result error run_report) :=
  let! s := Manager_GetAny now sessionID in
  match s with
  | Err e => Ret (Err e)
  | Ok sess =>
      let! r := Manager_GetRun runID in
      match r with
      | Err _ => Ret (Err (ECustom ErrRunNotFound))
      | Ok r =>
          if negb (r_SessionID r =? sessionID) then Ret (Err (ECustom ErrRunNotFound))
          else load (λ m, Ok (writeRunReport now sess r m))
      end
  end.

Definition getRunReportByID (now : Z) (runID : string) : prog B (result error run_report) :=
  let! r := Manager_GetRun runID in
  match r with
  | Err _ => Ret (Err (ECustom ErrRunNotFound))
  | Ok r =>
      let! s := Manager_GetAny now (r_SessionID r) in
      match s with
      | Err e => Ret (Err e)
      | Ok sess => load (λ m, Ok (writeRunReport now sess r m))
      end
  end.
End Reports.

(** ** Payload pages *)

Record page := mkPage {
  pg_run : string;
  pg_stage : string;
  pg_number : Z;
  pg_available : Z;
  pg_payload : option (string * Z * json);   (* txn_id, timestamp, payload *)
}.

Definition page_out_of_range (total : Z) : CustomError :=
  NewCustomErrorD 404 "PAYLOAD_NOT_FOUND" "payload_number is out of range for this stage"
    (Some (JObj {[ "available_payloads" := JInt total ]})).
Definition page_not_found : CustomError :=
  NewCustomError 404 "PAYLOAD_NOT_FOUND" "payload not found for the requested payload_number".
Definition is_stage (s : string) : bool := bool_decide (s ∈ ["select"; "init"; "confirm"]).

Section Pages.
Context {B L : Type} `{Bytes B, JsonCodec B, RunLogStore B L}.
Variable order : gset string → list string.
Variable sort_slice : list (string * Z) → list (string * Z).

(** The transactions with a time. *)
Fixpoint timed (now : Z) (runID stage : string) (txns : list string) (l : L)
  : list (string * Z) * L :=
  match txns with
  | [] => ([], l)
  | txn :: txns' =>
      if txn =? "" then timed now runID stage txns' l
      else
        let '(x, l) := log_call now (GetTimestamp runID "pipeline_b" stage txn) l in
        let '(ts, l) := timed now runID stage txns' l in
        (match x with OTime (Some at_) => (txn, at_) :: ts | _ => ts end, l)
  end.

(** The payload decoded, or its text when it is no JSON. *)
Definition parsed (payload : B) : json := default (JStr (b_string payload)) (json_unmarshal payload).

Definition writeRunPayloadPage (now : Z) (runID stage_query : string) (payload_number : Z) (l : L)
  : result error page * L :=
  let stage := trim_space stage_query in
  if negb (is_stage stage)
  then (Err (ECustom (NewCustomError 400 "REQUIRED_FIELDS_4001"
          "stage query parameter is required and must be one of: select, init, confirm")), l)
  else
    let n := (if payload_number <? 1 then 1 else payload_number)%Z in
    match log_call now (ListTxnIDs runID "pipeline_b" stage) l with
    | (OTxns txns, l) =>
        let '(ts, l) := timed now runID stage (order txns) l in
        let ordered := sort_slice ts in
        let total := Z.of_nat (length ordered) in
        if (total =? 0)%Z then (Ok (mkPage runID stage n 0 None), l)
        else if (total <? n)%Z then (Err (ECustom (page_out_of_range total)), l)
        else match ordered !! Z.to_nat (n - 1) with
        | None => (Err (EText "index out of range"), l)
        | Some (txn, at_) =>
            match log_call now (GetMulti runID "pipeline_b" stage [txn]) l with
            | (OMulti payloads, l) =>
                match payloads !! txn with
                | Some payload =>
                    if b_string payload =? "" then (Err (ECustom page_not_found), l)
                    else (Ok (mkPage runID stage n total (Some (txn, at_, parsed payload))), l)
                | None => (Err (ECustom page_not_found), l)
                end
            | (_, l) => (Err (ECustom (NewCustomError 500 "PIPELINE_5003" "failed to read run payloads")), l)
            end
        end
    | (_, l) =>
        (Err (ECustom (NewCustomError 500 "PIPELINE_5003" "failed to read run payload transaction ids")), l)
    end.

Context `{MongoServer B} {S : Type} `{StateStore B S}.

(** The two routes check who asks, then show the page. *)
Definition getRunPayloads (now : Z) (sessionID runID stage : string) (number : Z)
  (w : S * MongoStore B) (l : L) : result error page * ((S * MongoStore B) * L) :=
  let guard : prog B (result error ()) :=
    let! s := Manager_GetAny now sessionID in
    match s with
    | Err e => Ret (Err e)
    | Ok _ =>
        let! r := Manager_GetRun runID in
        Ret (match r with
             | Ok r => if r_SessionID r =? sessionID then Ok () else Err (ECustom ErrRunNotFound)
             | Err _ => Err (ECustom ErrRunNotFound)
             end)
    end in
  let '(g, w) := run now guard w in
  match g with
  | Err e => (Err e, (w, l))
  | Ok _ => let '(x, l) := writeRunPayloadPage now runID stage number l in (x, (w, l))
  end.

Definition getRunPayloadsByID (now : Z) (runID stage : string) (number : Z)
  (w : S * MongoStore B) (l : L) : result error page * ((S * MongoStore B) * L) :=
  let '(r, w) := run now (Manager_GetRun runID) w in
  match r with
  | Err _ => (Err (ECustom ErrRunNotFound), (w, l))
  | Ok _ => let '(x, l) := writeRunPayloadPage now runID stage number l in (x, (w, l))
  end.
End Pages.

(** ** Which payload a page shows *)

(** The number of entries before an entry of a list sorted by distinct times
    is its position. *)
Definition before_time (t : Z) (e : string * Z) : bool := (e.2 <? t)%Z.
Definition time_le (x y : string * Z) : Prop := (x.2 ≤ y.2)%Z.

Lemma sorted_position (l : list (string * Z)) i e :
  StronglySorted time_le l → NoDup l.*2 → l !! i = Some e → countb (before_time e.2) l = i.
Proof.
  intros Hs. revert i. induction Hs as [|x l Hs IH Hx]; intros i Hnd Hi; [done|].
  apply NoDup_cons in Hnd as [Hn Hnd]. rewrite Forall_forall in Hx.
  destruct i as [|i]; simplify_eq/=.
  - unfold before_time at 1. rewrite Z.ltb_irrefl.
    rewrite (countb_ext _ (λ _, false)); [by clear; induction l|].
    intros y Hy. specialize (Hx _ Hy). apply Z.ltb_ge, Hx.
  - assert (e ∈ l) as He by (by eapply list_elem_of_lookup_2).
    unfold before_time at 1. rewrite (proj2 (Z.ltb_lt _ _)); [by rewrite (IH i)|].
    specialize (Hx _ He). unfold time_le in Hx.
    assert (x.2 ≠ e.2); [|lia]. intros E. apply Hn. rewrite E. by apply list_elem_of_fmap_2.
Qed.

Section PageTheorem.
Context {B L : Type} `{Bytes B, JsonCodec B, RunLogStore B L} {t0 t1 : Z} `{!RunLogRefines B L t0 t1}.
Variable order : gset string → list string.
Hypothesis order_spec : ∀ X, NoDup (order X) ∧ ∀ t, t ∈ order X ↔ t ∈ X.
Variable sort_slice : list (string * Z) → list (string * Z).
Hypothesis sort_spec : ∀ l, sort_slice l ≡ₚ l ∧ StronglySorted time_le (sort_slice l).
Implicit Types (G : alog B).

(** The transactions of a stage with their times. *)
Definition stage_times G (run stage : string) (txns : list string) : list (string * Z) :=
  omap (λ t, (t,.) <$> al_time G run "pipeline_b" stage t) txns.

Lemma timed_spec now run stage txns : ∀ n l G,
  no_colon run → no_colon stage → (t0 ≤ now < t1)%Z →
  (Z.of_nat (n + length txns) < 2 ^ 63)%Z → log_repr (t0 := t0) (t1 := t1) n l G →
  Forall (λ t, t ≠ "") txns →
  (timed now run stage txns l).1 = stage_times G run stage txns ∧
  log_repr (t0 := t0) (t1 := t1) (n + length txns) (timed now run stage txns l).2 G.
Proof.
  intros n l G Hr Hs Hn. revert n l. induction txns as [|t txns IH]; intros n l Hb Hl Hne; simpl in *.
  { by rewrite Nat.add_0_r. }
  apply Forall_cons in Hne as [Ht Hne]. rewrite (proj2 (String.eqb_neq _ _)) by done.
  assert (op_ok (B := B) (GetTimestamp run "pipeline_b" stage t)) as Hok.
  { unfold op_ok, name_ok. by rewrite Hr, Hs. }
  destruct (log_repr_call n now (GetTimestamp run "pipeline_b" stage t) l G) as [Ho Hl1];
    [lia|done..|].
  destruct (log_call now _ l) as [x l1]. cbn [fst snd alog_next] in *.
  destruct (IH (S n) l1) as [E Hl2]; [lia|done..|].
  destruct (timed now run stage txns l1) as [ts l2]. cbn [fst snd] in *.
  rewrite Nat.add_succ_r. split; [|done]. destruct x; try done. cbn [alog_obs] in Ho. subst.
  by destruct (al_time G run "pipeline_b" stage t).
Qed.

Lemma stage_times_perm G run stage txns txns' :
  txns ≡ₚ txns' → stage_times G run stage txns ≡ₚ stage_times G run stage txns'.
Proof. intros Hp. unfold stage_times. by rewrite Hp. Qed.

Lemma stage_times_all G run stage txns :
  (∀ t, t ∈ txns → al_time G run "pipeline_b" stage t ≠ None) →
  (stage_times G run stage txns).*1 = txns ∧ length (stage_times G run stage txns) = length txns.
Proof.
  unfold stage_times. induction txns as [|t txns IH]; intros Ht; [done|]. simpl.
  destruct (al_time G run "pipeline_b" stage t) eqn:E; [|by destruct (Ht t); [set_solver|]].
  destruct IH as [E1 E2]; [set_solver|]. csimpl. by rewrite E1, E2.
Qed.

Lemma stage_times_elem G run stage txns t at_ :
  (t, at_) ∈ stage_times G run stage txns →
  t ∈ txns ∧ al_time G run "pipeline_b" stage t = Some at_.
Proof.
  unfold stage_times. intros (t' & Ht & E)%list_elem_of_omap.
  destruct (al_time G run "pipeline_b" stage t') eqn:E'; simplify_eq/=. done.
Qed.

(** The transactions of the stage are [txns]; no two have the same time. *)
Record stage_txns G (run stage : string) (txns : list string) : Prop := {
  sx_nodup : NoDup txns;
  sx_times : ∀ t, t ∈ txns ↔ al_time G run "pipeline_b" stage t ≠ None;
  sx_names : "" ∉ txns;
  sx_distinct : NoDup (stage_times G run stage txns).*2;
}.

Definition sent_before G (run stage : string) (txns : list string) (at_ : Z) : nat :=
  countb (before_time at_) (stage_times G run stage txns).

Definition page_of G (run stage : string) (n total : Z) (txn : string) (at_ : Z) : result error page :=
  match al_data G run "pipeline_b" stage txn with
  | Some b => if b_string b =? "" then Err (ECustom page_not_found)
              else Ok (mkPage run stage n total (Some (txn, at_, parsed b)))
  | None => Err (ECustom page_not_found)
  end.

Lemma is_stage_no_colon stage : is_stage stage = true → no_colon stage.
Proof.
  unfold is_stage. intros Hst%bool_decide_eq_true. set_unfold in Hst.
  by destruct Hst as [->|[->|[->|[]]]].
Qed.

(** The sorted entries: the [i]-th one has [i] requests before it. *)
Lemma ordered_times G run stage txns ordered :
  stage_txns G run stage txns → ordered ≡ₚ stage_times G run stage txns →
  StronglySorted time_le ordered →
  length ordered = length txns ∧
  ∀ i, (i < length txns)%nat → ∃ txn at_, ordered !! i = Some (txn, at_) ∧ txn ∈ txns ∧
    al_time G run "pipeline_b" stage txn = Some at_ ∧ sent_before G run stage txns at_ = i.
Proof.
  intros [_ Htx _ Hdt] Hp Hs.
  destruct (stage_times_all G run stage txns) as [_ Hlen]; [intros t; apply Htx|].
  rewrite <- (Permutation_length Hp) in Hlen. split; [done|]. intros i Hi.
  destruct (lookup_lt_is_Some_2 ordered i) as [[txn at_] Ho]; [by rewrite Hlen|].
  destruct (stage_times_elem G run stage txns txn at_) as [Hin Hat].
  { rewrite <- Hp. by eapply list_elem_of_lookup_2. }
  exists txn, at_. split_and!; [done..|]. unfold sent_before. rewrite <- (countb_perm _ _ _ Hp).
  change at_ with (txn, at_).2. apply sorted_position; [done|by rewrite Hp|done].
Qed.

Lemma payload_page_spec now run query number n l G txns :
  let stage := trim_space query in
  let k := Z.max 1 number in
  let total := Z.of_nat (length txns) in
  no_colon run → (t0 ≤ now < t1)%Z → (Z.of_nat (n + length txns + 2) < 2 ^ 63)%Z →
  log_repr (t0 := t0) (t1 := t1) n l G → is_stage stage = true → stage_txns G run stage txns →
  let x := (writeRunPayloadPage order sort_slice now run query number l).1 in
  if decide (total = 0)%Z then x = Ok (mkPage run stage k 0 None)
  else if decide (total < k)%Z then x = Err (ECustom (page_out_of_range total))
  else ∃ txn at_, txn ∈ txns ∧ al_time G run "pipeline_b" stage txn = Some at_ ∧
    Z.of_nat (sent_before G run stage txns at_) = (k - 1)%Z ∧
    x = page_of G run stage k total txn at_.
Proof.
  intros stage k total Hr Hn Hb Hl Hst Hsx. pose proof Hsx as [Hnd Htx Hne _]. unfold writeRunPayloadPage.
  fold stage. rewrite Hst. cbn [negb].
  replace (if (number <? 1)%Z then 1%Z else number) with k
    by (unfold k; destruct (Z.ltb_spec number 1); lia).
  pose proof (is_stage_no_colon _ Hst) as Hs.
  destruct (log_repr_call n now (ListTxnIDs run "pipeline_b" stage) l G) as [Ho Hl1];
    [lia|done|unfold op_ok, name_ok; by rewrite Hr, Hs|done|].
  destruct (log_call now _ l) as [x l1]. cbn [fst snd alog_next] in *.
  destruct x as [| | | | |sent]; try done. cbn [alog_obs] in Ho.
  assert (order sent ≡ₚ txns) as Hp.
  { destruct (order_spec sent) as [Hnd' Ho']. apply NoDup_Permutation; [done..|].
    intros t. by rewrite Ho', Ho, Htx. }
  destruct (timed_spec now run stage (order sent) (S n) l1 G) as [E Hl2]; [done..| | | |].
  { rewrite Hp. lia. }
  { done. }
  { apply Forall_forall. intros t Ht ->. apply Hne. by rewrite <- Hp. }
  destruct (timed now run stage (order sent) l1) as [ts l2]. cbn [fst snd] in *. subst ts.
  destruct (sort_spec (stage_times G run stage (order sent))) as [Hsp Hss].
  set (ordered := sort_slice _) in *. clearbody ordered.
  rewrite (stage_times_perm G run stage _ _ Hp) in Hsp.
  destruct (ordered_times G run stage txns ordered Hsx Hsp Hss) as [Hlen Hith].
  rewrite Hlen. fold total.
  destruct (decide (total = 0)%Z) as [E0|E0]; [by rewrite E0|].
  rewrite (proj2 (Z.eqb_neq _ _)) by done.
  destruct (decide (total < k)%Z) as [Ek|Ek]; [by rewrite (proj2 (Z.ltb_lt _ _))|].
  rewrite (proj2 (Z.ltb_ge _ _)) by lia.
  destruct (Hith (Z.to_nat (k - 1))) as (txn & at_ & Hi & Hin & Hat & Hsb);
    [unfold total, k in *; lia|].
  rewrite Hi. exists txn, at_. split_and!; [done|done|unfold k in *; lia|].
  destruct (log_repr_call (S n + length (order sent)) now
    (GetMulti run "pipeline_b" stage [txn]) l2 G) as [Ho2 _];
    [rewrite Hp; lia|done|unfold op_ok, name_ok; by rewrite Hr, Hs|done|].
  destruct (log_call now _ l2) as [x l3]. cbn [fst] in Ho2. destruct x; try done.
  cbn [alog_obs] in Ho2. rewrite Ho2, decide_True by set_solver. unfold page_of.
  by destruct (al_data G run "pipeline_b" stage txn) as [b|]; [destruct (b_string b =? "")|].
Qed.
End PageTheorem.

(** C25: The payload pages of a stage walk through what was sent, in the order
    it was sent.  When the run log keeps its contract and no two requests of
    the stage have the same time, page number [k] shows the request that has
    exactly [k - 1] requests before it, with its time and its recorded
    payload, whatever order the log lists them in and however the times are
    sorted; a page past the last one, and a request whose payload is missing,
    are answered 404, a stage without requests by an empty page. *)
Theorem payload_page_kth {B L} `{Bytes B, JsonCodec B, RunLogStore B L} {t0 t1 : Z}
    `{!RunLogRefines B L t0 t1} order sort_slice now run query number n (l : L) (G : alog B) txns :
  (∀ X, NoDup (order X) ∧ ∀ t, t ∈ order X ↔ t ∈ X) →
  (∀ ts, sort_slice ts ≡ₚ ts ∧ StronglySorted time_le (sort_slice ts)) →
  no_colon run → (t0 ≤ now < t1)%Z → (Z.of_nat (n + length txns + 2) < 2 ^ 63)%Z →
  log_repr (t0 := t0) (t1 := t1) n l G →
  let stage := trim_space query in
  is_stage stage = true → stage_txns G run stage txns →
  let x := (writeRunPayloadPage order sort_slice now run query number l).1 in
  let k := Z.max 1 number in
  let total := Z.of_nat (length txns) in
  if decide (total = 0)%Z then x = Ok (mkPage run stage k 0 None)
  else if decide (total < k)%Z then x = Err (ECustom (page_out_of_range total))
  else ∃ txn at_, txn ∈ txns ∧ al_time G run "pipeline_b" stage txn = Some at_ ∧
    Z.of_nat (sent_before G run stage txns at_) = (k - 1)%Z ∧
    x = page_of G run stage k total txn at_.
Proof. intros. by apply (payload_page_spec (t0 := t0) (t1 := t1)) with (n := n). Qed.

(** ** Witness: two requests, the second page *)
Section Demo.
#[local] Instance string_codec : JsonCodec string.
Proof.
  refine {| json_unmarshal b := None; json_marshal j := None |}. done.
Defined.

Definition demo_sends : list (Z * op string) :=
  [(0%Z, RecordTimestamp "r1" "pipeline_b" "init" "t2" 20);
   (0%Z, RecordPayload "r1" "pipeline_b" "init" "t2" "late");
   (0%Z, RecordTimestamp "r1" "pipeline_b" "init" "t1" 10);
   (0%Z, RecordPayload "r1" "pipeline_b" "init" "t1" "early")].
Definition demo_log : MemoryStore string := (log_calls demo_sends NewMemoryStore).2.
Definition demo_abstract : alog string := alog_run demo_sends alog_empty.
Definition demo_sort (ts : list (string * Z)) : list (string * Z) := merge_sort (before snd) ts.

Lemma demo_sort_spec ts : demo_sort ts ≡ₚ ts ∧ StronglySorted time_le (demo_sort ts).
Proof.
  split; [apply merge_sort_Permutation|].
  assert (Transitive time_le) as Ht by (intros x y z; unfold time_le; lia).
  assert (Total time_le) as Hd by (intros x y; unfold time_le; lia).
  by apply (StronglySorted_merge_sort time_le (H := λ x y, before_dec snd x y)).
Qed.

Lemma demo_stage_txns : stage_txns demo_abstract "r1" "init" ["t1"; "t2"].
Proof.
  split.
  - by apply (bool_decide_unpack _).
  - intros t. unfold demo_abstract. cbn [alog_run alog_next some_empty demo_sends].
    cbn. rewrite !elem_of_cons, elem_of_nil.
    destruct (String.eqb_spec t "t1") as [->|]; [naive_solver|].
    destruct (String.eqb_spec t "t2") as [->|]; naive_solver.
  - by apply (bool_decide_unpack _).
  - by apply (bool_decide_unpack _).
Qed.

#[local] Transparent gmap_empty.
Lemma payload_page_kth_witness :
  (writeRunPayloadPage elements demo_sort 100 "r1" " init " 2 demo_log).1
    = Ok (mkPage "r1" "init" 2 2 (Some ("t2", 20%Z, JStr "late"))) ∧
  ∃ txn at_, txn ∈ ["t1"; "t2"] ∧ al_time demo_abstract "r1" "pipeline_b" "init" txn = Some at_ ∧
    Z.of_nat (sent_before demo_abstract "r1" "init" ["t1"; "t2"] at_) = 1%Z ∧
    (writeRunPayloadPage elements demo_sort 100 "r1" " init " 2 demo_log).1
      = page_of demo_abstract "r1" "init" 2 2 txn at_.
Proof.
  split; [vm_compute; reflexivity|].
  assert (calls_ok 0 1000 demo_sends) as [_ Hok].
  { split; [done|]. repeat constructor; vm_compute; congruence. }
  pose proof (log_calls_repr (RunLogRefines0 := memory_refines 0 1000) demo_sends 0
    NewMemoryStore alog_empty ltac:(done) Hok (log_repr_new (RunLogRefines := memory_refines 0 _)))
    as Hl.
  apply (payload_page_kth (t0 := 0) (t1 := 1000) elements demo_sort 100 "r1" " init " 2 4 demo_log
    demo_abstract ["t1"; "t2"]); [|apply demo_sort_spec|done|done|done|exact Hl|done|apply demo_stage_txns].
  intros X. split; [apply NoDup_elements|]. intros t. apply elem_of_elements.
Defined.
End Demo.
