(* ===== verification/Seller.v ===== *)
(** * Requests to the seller: [internal/ports/seller/http_client.go] and the
    signer of [internal/shared/crypto/signing.go]

    [postWithBody] builds the address of an action, signs the payload when
    signing is configured, sends it and reads the answer.  The HTTP client is
    a parameter: a function of the clock, the address, the body and the
    [Authorization] header.  A context that ends is one of its errors.
    What is logged of a request is in [HeaderLog.v]. *)
From stdpp Require Import prelude strings.
From Stdlib Require Import Ascii String.
From S2P Require Import Prelude GoStrings Base64 GoTime ApiError Redis OndcAuth Registry.
Local Open Scope string_scope.

(** ** [crypto.Ed25519Signer], [crypto.Ed25519Verifier] *)
Section Signer.
Context `{Crypto}.

(** The private key is kept as its seed. *)
Record Ed25519Signer := NewEd25519Signer { es_seed : string; es_bapID : string; es_keyID : string }.

Definition Signer_Sign (s : Ed25519Signer) (body : string) (created expires : Z) : string :=
  let created := FormatInt created in
  let expires := FormatInt expires in
  header_text (es_bapID s ++ "|" ++ es_keyID s ++ "|ed25519") created expires
    (EncodeToString (ed25519_Sign (es_seed s) (signing_string created expires body))).

(** [ed25519.GenerateKey]: 32 bytes of [crypto/rand.Reader] are the seed. *)
Definition GenerateKeyPair (rand : result error string) : result error (string * string) :=
  match rand with
  | Err e => Err e
  | Ok seed => Ok (ed25519_public seed, seed)
  end.

(** [None]: the signature is not base64. *)
Definition Verifier_Verify (signingString signatureB64 publicKey : string) : option bool :=
  match DecodeString signatureB64 with
  | None => None
  | Some sig => Some (ed25519_Verify publicKey signingString sig)
  end.
End Signer.

(** ** The client *)

Record SigningConfig := mkSigning {
  sg_PrivateKey : string;
  sg_SubscriberID : string;
  sg_UniqueKeyID : string;
  sg_Enabled : bool;
}.

(** [strings.Replace(s, old, new, 1)]; [None] when there is no [old]. *)
Fixpoint replace_first (old new s : string) : option string :=
  if has_prefix old s then Some (new ++ trim_prefix old s)
  else match s with
       | EmptyString => None
       | String c s' => String c <$> replace_first old new s'
       end.

Definition buildURL (baseURL action : string) : string :=
  match replace_first "<action>" action baseURL with
  | Some url => url
  | None => trim_right (Ascii.eqb "/") baseURL ++ "/" ++ action
  end.

Section Client.
Context `{Crypto} {B : Type} `{Bytes B}.
Variable bad_url : string → option error.    (* http.NewRequestWithContext *)
Variable http_do : Z → string → B → option string → result error (Z * B).
Variable cfg : SigningConfig.

(** The header, or nothing when signing is off or fails. *)
Definition signRequest (now : Z) (payload : B) : option string :=
  if negb (sg_Enabled cfg) || (sg_PrivateKey cfg =? "") then None
  else res_opt (CreateAuthorisationHeader (now / second) (b_string payload) (sg_PrivateKey cfg)
                  (sg_SubscriberID cfg) (sg_UniqueKeyID cfg)).

(** The request that is sent. *)
Definition outgoing (now : Z) (baseURL action : string) (payload : B)
  : result error (string * B * option string) :=
  if baseURL =? "" then Err (EText "empty baseURL")
  else
    let url := buildURL baseURL action in
    match bad_url url with
    | Some e => Err (EWrap "build request" e)
    | None => Ok (url, payload, signRequest now payload)
    end.

(** At most 64 KiB of the answer are read. *)
Definition postWithBody (now : Z) (baseURL action : string) (payload : B) : result error B :=
  match outgoing now baseURL action payload with
  | Err e => Err e
  | Ok (url, body, auth) =>
      match http_do now url body auth with
      | Err e => Err (EWrap "do request" e)
      | Ok (status, raw) =>
          if (status <? 200)%Z || (300 <=? status)%Z
          then Err (EText ("unexpected status " ++ FormatInt status))
          else Ok (limit_read 65536 raw)
      end
  end.

Definition post (now : Z) (baseURL action : string) (payload : B) : option error :=
  match postWithBody now baseURL action payload with Ok _ => None | Err e => Some e end.

Definition Search (now : Z) (baseURL : string) (payload : B) := postWithBody now baseURL "search" payload.
Definition Select (now : Z) (baseURL : string) (payload : B) := post now baseURL "select" payload.
Definition Init (now : Z) (baseURL : string) (payload : B) := post now baseURL "init" payload.
Definition Confirm (now : Z) (baseURL : string) (payload : B) := post now baseURL "confirm" payload.
End Client.

(** ** What is sent *)
Section Outgoing.
Context `{Crypto} {B : Type} `{Bytes B}.

Lemma signer_same_header now payload privateKey sub uk key seed :
  DecodeString privateKey = Some key → key_seed key = Some seed → in_int64 (now + ttlSeconds) →
  CreateAuthorisationHeader now payload privateKey sub uk =
    Ok (Signer_Sign (NewEd25519Signer seed sub uk) payload now (now + ttlSeconds)).
Proof.
  intros Hk Hs Hn. unfold CreateAuthorisationHeader. rewrite Hk, Hs.
  cbv zeta. by rewrite wrap64_id.
Qed.
End Outgoing.

(** C24: What is sent to a seller is the payload itself, under a signature
    that the network accepts.  With a usable key configured, the request
    carries the header the shared signer makes for this payload and this
    clock, and the header verifies under the public key of the key for the
    hour after it was made and is refused before and after; with signing off
    or an unusable key it carries none.  The call succeeds exactly on an
    answer with a status in [[200, 300)]. *)
Theorem seller_request_signed `{Crypto} {B} `{Bytes B} bad_url http_do cfg now url action
    (payload : B) :
  url ≠ "" → bad_url (buildURL url action) = None →
  (∃ auth, outgoing bad_url cfg now url action payload = Ok (buildURL url action, payload, auth) ∧
    (∀ key seed,
      sg_Enabled cfg = true → sg_PrivateKey cfg ≠ "" →
      DecodeString (sg_PrivateKey cfg) = Some key → key_seed key = Some seed →
      clean (sg_SubscriberID cfg) = true → clean (sg_UniqueKeyID cfg) = true →
      in_int64 (now / second) → in_int64 (now / second + ttlSeconds) →
      ∃ h, auth = Some h ∧
        h = Signer_Sign (NewEd25519Signer seed (sg_SubscriberID cfg) (sg_UniqueKeyID cfg))
              (b_string payload) (now / second) (now / second + ttlSeconds) ∧
        ∀ t, VerifyAuthorisationHeader t h (b_string payload)
               (EncodeToString (ed25519_public seed)) = Ok () ↔
             (now / second ≤ t ≤ now / second + ttlSeconds)%Z) ∧
    (sg_Enabled cfg = false ∨ DecodeString (sg_PrivateKey cfg) = None → auth = None) ∧
    (is_ok (postWithBody bad_url http_do cfg now url action payload) = true ↔
     ∃ status raw, http_do now (buildURL url action) payload auth = Ok (status, raw) ∧
       (200 ≤ status < 300)%Z)).
Proof.
  intros Hu Hb. set (auth := signRequest cfg now payload).
  assert (outgoing bad_url cfg now url action payload = Ok (buildURL url action, payload, auth)) as E.
  { unfold outgoing. by rewrite (proj2 (String.eqb_neq _ _) Hu), Hb. }
  exists auth. split_and!; [done| | |].
  - intros key seed He Hp Hk Hs Hsub Huk Hn Hn'.
    pose proof (signer_same_header (now / second) (b_string payload) _ (sg_SubscriberID cfg)
      (sg_UniqueKeyID cfg) _ _ Hk Hs Hn') as Hc.
    eexists. split_and!; [|reflexivity|].
    + unfold auth, signRequest. rewrite He, (proj2 (String.eqb_neq _ _) Hp), Hc. done.
    + intros t. destruct (parse_created _ _ _ _ _ _ Hc Hsub Huk Hn) as (k & s & Hk2 & Hs2 & Hparse).
      simplify_eq. unfold VerifyAuthorisationHeader, VerifyAuthorisationHeaderBytes.
      rewrite Hparse, Decode_Encode, ed25519_public_length by (by eapply key_seed_length).
      simpl. rewrite !ParseInt_FormatInt, wrap64_id by auto using wrap64_range.
      destruct (Z.ltb_spec t (now / second)); [split; [done|lia]|].
      destruct (Z.ltb_spec (now / second + ttlSeconds) t); [split; [done|lia]|].
      rewrite Decode_Encode, ed25519_Verify_Sign by (by eapply key_seed_length). by split.
  - unfold auth, signRequest. intros [->|Hd]; [done|].
    destruct (_ || _); [done|]. unfold CreateAuthorisationHeader. by rewrite Hd.
  - unfold postWithBody. rewrite E. destruct (http_do _ _ _ _) as [[status raw]|e]; [|split; [done|]].
    + destruct (_ || _) eqn:E2; simpl.
      * split; [done|]. intros (? & ? & [= <- <-] & Hs). apply orb_true_iff in E2.
        rewrite Z.ltb_lt, Z.leb_le in E2. lia.
      * bool_hyps. split; [|done]. intros _. exists status, raw. split; [done|lia].
    + by intros (? & ? & ? & _).
Qed.

(** ** Witness: the toy signature scheme, a seller that answers 200 *)
Section Demo.
#[local] Existing Instance toy_crypto.

Definition demo_signing : SigningConfig := mkSigning toy_key "buyer.example" "k1" true.
Definition demo_http (now : Z) (url body : string) (auth : option string) : result error (Z * string) :=
  if url =? "http://seller/select/v1" then Ok (200%Z, "ok") else Ok (404%Z, "").

Lemma seller_request_signed_witness :
  buildURL "http://seller/<action>/v1" "select" = "http://seller/select/v1" ∧
  buildURL "http://seller//" "select" = "http://seller/select" ∧
  ∃ auth, outgoing (λ _, None) demo_signing (1700000000 * second) "http://seller/<action>/v1" "select" "{}"
      = Ok ("http://seller/select/v1", "{}", Some auth) ∧
    (VerifyAuthorisationHeader 1700003600 auth "{}" (EncodeToString toy_seed) = Ok () ↔
      (1700000000 ≤ 1700003600 ≤ 1700000000 + ttlSeconds)%Z) ∧
    is_ok (postWithBody (λ _, None) demo_http demo_signing (1700000000 * second)
      "http://seller/<action>/v1" "select" "{}") = true.
Proof.
  split; [vm_compute; reflexivity|]. split; [vm_compute; reflexivity|].
  destruct (seller_request_signed (λ _, None) demo_http demo_signing (1700000000 * second)
    "http://seller/<action>/v1" "select" "{}") as (auth & E & Hs & _ & Hok); [done|done|].
  destruct (Hs (toy_seed ++ toy_seed) toy_seed) as (h & -> & Eh & Hv);
    [done|vm_compute; done|vm_compute; done|vm_compute; done|done|done|
     split; vm_compute; congruence|split; vm_compute; congruence|].
  exists h. split_and!; [exact E|apply (Hv 1700003600%Z)|]. apply Hok.
  exists 200%Z, "ok". split; [vm_compute; reflexivity|lia].
Defined.
End Demo.
