(* ===== verification/HeaderLog.v ===== *)
(** * What is logged of a signed request: [ports/seller/http_client.go] and
    [handlers/callbacks/record.go]; and of a run's throttle

    The program logs the [Authorization] header of what it sends and receives
    in parts, the signature cut to a preview, and the bodies cut to a length.
    A log line is the format and the arguments of its [log.Printf]. *)
From stdpp Require Import prelude strings.
From Stdlib Require Import Ascii String.
From S2P Require Import Prelude GoStrings Base64 GoTime Json ApiError Redis OndcAuth Registry Payloads SelectBatch Coordinator Seller Pacing.
Local Open Scope string_scope.

Inductive log_arg := LStr (s : string) | LStrs (l : list string) | LBool (b : bool) | LInt (z : Z) | LErr (e : error).
Record log_line := Printf { ll_format : string; ll_args : list log_arg }.

(** ** The seller client *)
Section SellerLog.
Context `{Crypto} {B : Type} `{Bytes B, JsonCodec B, Sprint}.

(** [extractTxnID] of the seller package: [context] must be an object, or the
    decoding fails. *)
Definition extractTxnID (payload : B) : string :=
  match json_unmarshal payload with
  | Some (JObj env) =>
      match struct_field "context" env with Some (JObj ctx) => txn_of ctx | _ => "" end
  | _ => ""
  end.

(** [auth] is the header, if it was set; the content type is always set. *)
Definition logOutboundHeaders (action txnID contentType : string) (auth : option string) : log_line :=
  let auth := default "" auth in
  if auth =? "" then
    Printf "[seller_client] outbound_headers action=%s txn_id=%s content_type=%q authorization_present=%t"
      [LStr action; LStr txnID; LStr contentType; LBool false]
  else match SummarizeAuthorisationHeader auth with
  | Err e =>
      Printf "[seller_client] outbound_headers action=%s txn_id=%s content_type=%q authorization_present=%t auth_parse_error=%v"
        [LStr action; LStr txnID; LStr contentType; LBool true; LErr e]
  | Ok s =>
      Printf "[seller_client] outbound_headers action=%s txn_id=%s content_type=%q key_id=%q created=%q expires=%q sig=%s..."
        [LStr action; LStr txnID; LStr contentType; LStr (ah_KeyID s); LStr (ah_Created s);
         LStr (ah_Expires s); LStr (ah_SigPreview s)]
  end.

Variable bad_url : string → option error.
Variable http_do : Z → string → B → option string → result error (Z * B).
Variable cfg : SigningConfig.

(** The line of [signRequest]. *)
Definition log_signing (now : Z) (action : string) (payload : B) : list log_line :=
  if negb (sg_Enabled cfg) || (sg_PrivateKey cfg =? "") then []
  else match CreateAuthorisationHeader (now / second) (b_string payload) (sg_PrivateKey cfg)
               (sg_SubscriberID cfg) (sg_UniqueKeyID cfg) with
  | Err e => [Printf "[seller_client] signing failed for %s: %v" [LStr action; LErr e]]
  | Ok _ => []
  end.

(** The lines of [postWithBody]. *)
Definition log_post (now : Z) (baseURL action : string) (payload : B) : list log_line :=
  if baseURL =? "" then []
  else
    let url := buildURL baseURL action in
    let txnID := extractTxnID payload in
    let outbound := Printf "[seller_client] outbound %s txn_id=%s url=%s body=%s"
      [LStr action; LStr txnID; LStr url; LStr (truncate (b_string payload) 2048)] in
    match bad_url url with
    | Some _ => [outbound]
    | None =>
        let auth := signRequest cfg now payload in
        outbound :: log_signing now action payload ++
        logOutboundHeaders action txnID "application/json" auth ::
        match http_do now url payload auth with
        | Err _ => []
        | Ok (status, raw) =>
            [Printf "[seller_client] POST %s status=%d body=%s"
               [LStr url; LInt status; LStr (truncate (b_string (limit_read 65536 raw)) 1024)]]
        end
    end%list.

(** The line of [NewHTTPClient]. *)
Definition log_NewHTTPClient : log_line :=
  if sg_Enabled cfg && negb (sg_PrivateKey cfg =? "")
  then Printf "[seller_client] signing enabled subscriber_id=%s unique_key_id=%s"
         [LStr (sg_SubscriberID cfg); LStr (sg_UniqueKeyID cfg)]
  else Printf "[seller_client] signing disabled" [].
End SellerLog.

(** ** The callback handlers *)

(** [h["Content-Type"]] has every value of the header. *)
Definition logInboundHeaders (action : string) (contentType : list string) (authHeader : string) : log_line :=
  if authHeader =? "" then
    Printf "[callbacks] inbound_headers action=%s content_type=%q authorization_present=%t"
      [LStr action; LStrs contentType; LBool false]
  else match SummarizeAuthorisationHeader authHeader with
  | Err e =>
      Printf "[callbacks] inbound_headers action=%s content_type=%q authorization_present=%t auth_parse_error=%v"
        [LStr action; LStrs contentType; LBool true; LErr e]
  | Ok s =>
      Printf "[callbacks] inbound_headers action=%s content_type=%q key_id=%q created=%q expires=%q sig=%s..."
        [LStr action; LStrs contentType; LStr (ah_KeyID s); LStr (ah_Created s); LStr (ah_Expires s);
         LStr (ah_SigPreview s)]
  end.

(** ** The throttle of a run *)

(** [LogSummary]; a nil throttle logs nothing. *)
Definition LogSummary (runID sessionID : string) (targetRPS : Z) (t : option pacingThrottle) : list log_line :=
  match t with
  | None => []
  | Some t =>
      [Printf "[throttle] run=%s session=%s target_rps=%d acquire_calls=%d allowed=%d retries=%d deny_global=%d deny_session=%d deny_other=%d wait_total_ms=%d wait_max_ms=%d"
        [LStr runID; LStr sessionID; LInt targetRPS; LInt (pt_acquireCalls t); LInt (pt_allowedCalls t);
         LInt (pt_retryCount t); LInt (pt_denyGlobal t); LInt (pt_denySession t); LInt (pt_denyOther t);
         LInt (pt_waitTotalMs t); LInt (pt_waitMaxMs t)]]
  end.

(** ** What the lines reveal *)

(** The first characters of the signature a key makes for a payload. *)
Definition preview `{Crypto} (seed payload : string) (now : Z) : string :=
  truncate (EncodeToString (ed25519_Sign seed
    (signing_string (FormatInt now) (FormatInt (wrap64 (now + ttlSeconds))) payload))) 16.

(** A configuration that signs, with the seed of its key. *)
Definition signs_with `{Crypto} (cfg : SigningConfig) (seed : string) : Prop :=
  sg_Enabled cfg = true ∧ sg_PrivateKey cfg ≠ "" ∧
  ∃ key, DecodeString (sg_PrivateKey cfg) = Some key ∧ key_seed key = Some seed.

Lemma signed_header `{Crypto} {B} `{Bytes B} cfg seed now (payload : B) :
  signs_with cfg seed → clean (sg_SubscriberID cfg) = true → clean (sg_UniqueKeyID cfg) = true →
  in_int64 (now / second) →
  ∃ h, signRequest cfg now payload = Some h ∧ h ≠ "" ∧
    CreateAuthorisationHeader (now / second) (b_string payload) (sg_PrivateKey cfg)
      (sg_SubscriberID cfg) (sg_UniqueKeyID cfg) = Ok h ∧
    SummarizeAuthorisationHeader h = Ok (mkAuthSummary
      (sg_SubscriberID cfg ++ "|" ++ sg_UniqueKeyID cfg ++ "|ed25519") (FormatInt (now / second))
      (FormatInt (wrap64 (now / second + ttlSeconds))) (preview seed (b_string payload) (now / second))).
Proof.
  intros (He & Hk & key & Hd & Hs) H1 H2 Hn. unfold signRequest. rewrite He.
  apply String.eqb_neq in Hk. rewrite Hk. simpl.
  destruct (CreateAuthorisationHeader _ _ _ _ _) as [h|e] eqn:Hc.
  2:{ unfold CreateAuthorisationHeader in Hc. by rewrite Hd, Hs in Hc. }
  exists h. split; [done|].
  destruct (parse_created _ _ _ _ _ _ Hc H1 H2 Hn) as (key' & seed' & Hd' & Hs' & Hp).
  simplify_eq. split; [|split; [done|]].
  - intros ->. apply create_header_inv in Hc as (? & ? & _ & _ & Hh). done.
  - unfold SummarizeAuthorisationHeader. by rewrite Hp.
Qed.

(** The log of a request tells nothing of the private key but the first
    sixteen characters of the signature: two clients with the same ids whose
    keys make signatures that agree on them, and that get the same answer,
    log the same lines, for the request and when they are made. *)
Theorem log_hides_key `{Crypto} {B} `{Bytes B, JsonCodec B, Sprint} bad_url http_do cfg1 cfg2 seed1 seed2
    now url action (payload : B) :
  signs_with cfg1 seed1 → signs_with cfg2 seed2 →
  sg_SubscriberID cfg1 = sg_SubscriberID cfg2 → sg_UniqueKeyID cfg1 = sg_UniqueKeyID cfg2 →
  clean (sg_SubscriberID cfg1) = true → clean (sg_UniqueKeyID cfg1) = true → in_int64 (now / second) →
  preview seed1 (b_string payload) (now / second) = preview seed2 (b_string payload) (now / second) →
  http_do now (buildURL url action) payload (signRequest cfg1 now payload) =
    http_do now (buildURL url action) payload (signRequest cfg2 now payload) →
  log_post bad_url http_do cfg1 now url action payload = log_post bad_url http_do cfg2 now url action payload ∧
  log_NewHTTPClient cfg1 = log_NewHTTPClient cfg2.
Proof.
  intros S1 S2 Es Eu Hc1 Hc2 Hn Hp Hdo.
  destruct (signed_header cfg1 seed1 now payload S1 Hc1 Hc2 Hn) as (h1 & R1 & N1 & C1 & Q1).
  destruct (signed_header cfg2 seed2 now payload S2) as (h2 & R2 & N2 & C2 & Q2); [congruence..|].
  destruct S1 as (E1 & K1 & _), S2 as (E2 & K2 & _). apply String.eqb_neq in K1, K2, N1, N2. split.
  - unfold log_post, log_signing. rewrite <- Hdo, R1, R2, C1, C2, E1, E2, K1, K2. simpl.
    unfold logOutboundHeaders. simpl. by rewrite N1, N2, Q1, Q2, Hp, Es, Eu.
  - unfold log_NewHTTPClient. by rewrite E1, E2, K1, K2, Es, Eu.
Qed.
