(* ===== verification/Discovery.v ===== *)
(** * Discovery: [internal/domain/pipeline/search.go] and the discovery
    endpoints of [internal/handlers/testing/routes.go]

    [startDiscovery] sends a search under a fresh transaction, waits for the
    [on_search] callback of that transaction and keeps its body as the
    session's catalog.  While it waits, the callback handlers of
    [Callbacks.v] run on the same stores: a [tick] of the polling loop has the
    callbacks that were handled since the last one, the clock, and whether the
    request's context has ended.

    The context of a request ends when the server is shut down (fasthttp's
    [RequestCtx]), and every call that is given an ended context fails: a read
    finds nothing and a write changes nothing.  It may end at any moment
    ([request_context]); only the link of the transaction has a context of its own.

    Assigning to a nil map is a panic, which Fiber does not recover. *)
From stdpp Require Import prelude gmap list strings.
From S2P Require Import Prelude GoStrings Base64 GoTime Json ApiError Latency Redis RunLog OndcAuth Registry SessionTypes StateStore Mongo Config Coordinator Manager MemoryStore SessionApi Callbacks.
Local Open Scope string_scope.

(** ** [LoadSearchPayload] *)

Definition static_terms_url : string :=
  "https://github.com/ONDC-Official/NP-Static-Terms/buyerNP_BNP/1.0/tc.pdf".

(** The first object of an array with this code, edited in place. *)
Fixpoint edit_first (code : string) (f : obj → obj) (l : list json) : option (list json) :=
  match l with
  | [] => None
  | JObj m :: l' =>
      if as_str (m !! "code") =? code then Some (JObj (f m) :: l')
      else cons (JObj m) <$> edit_first code f l'
  | j :: l' => cons j <$> edit_first code f l'
  end.

Definition upsert (code value : string) (l : list json) : list json :=
  match edit_first code <["value" := JStr value]> l with
  | Some l => l
  | None => (l ++ [JObj {[ "code" := JStr code; "value" := JStr value ]}])%list
  end.

(** The three entries of the terms. *)
Definition bap_terms_list (now : Z) (m : obj) : obj :=
  let l := default [] (as_arr (m !! "list")) in
  let l := upsert "static_terms" static_terms_url l in
  let l := upsert "static_terms_new" static_terms_url l in
  let l := upsert "effective_date" (format_ms now) l in
  <["list" := JArr l]> m.

Definition ret13_tags (now : Z) (full : obj) : obj :=
  let msg := obj_or_new "message" full in
  let intent := obj_or_new "intent" msg in
  let tags := default [] (as_arr (intent !! "tags")) in
  let tags := match edit_first "bap_terms" (bap_terms_list now) tags with
              | Some tags => tags
              | None => (tags ++ [JObj (bap_terms_list now {[ "code" := JStr "bap_terms" ]})])%list
              end in
  <["message" := JObj (<["intent" := JObj (<["tags" := JArr tags]> intent)]> msg)]> full.

Definition search_context (cfg : option Config) (sess : option Session) (ctx : obj) : obj :=
  let ctx := match cfg with
             | None => ctx
             | Some cfg =>
                 set_nonempty "city" (CityCode cfg) (set_nonempty "country" (CountryCode cfg)
                   (set_nonempty "bap_uri" (BAPURI cfg) (set_nonempty "bap_id" (BAPID cfg) ctx)))
             end in
  match sess with
  | None => ctx
  | Some s => set_nonempty "domain" (s_Domain s) (set_nonempty "core_version" (s_CoreVersion s) ctx)
  end.

Section Payloads.
Context {B : Type} `{JsonCodec B}.

Definition LoadSearchPayload (readFile : string → result error B) (now : Z) (cfg : option Config)
  (sess : option Session) : outcome (result error B) :=
  match readFile "fixtures/search/search.json" with
  | Err e => Done (Err e)
  | Ok raw =>
      match decode_map raw with
      | None => Done (Ok raw)
      | Some None => Panic
      | Some (Some full) =>
          let full := <["context" := JObj (search_context cfg sess (obj_or_new "context" full))]> full in
          let full := match sess with
                      | Some s => if s_Domain s =? "ONDC:RET13" then ret13_tags now full else full
                      | None => full
                      end in
          Done (match json_marshal (JObj full) with
                | Some b => Ok b
                | None => Err (EText "json: unsupported value")
                end)
      end
  end.

(** ** [patchSearchContext], [isNack] *)

(** [ttl]: [cfg.DiscoveryWaitTTLSeconds]; [msg]: a fresh UUID. *)
Definition patched_context (ttl : Z) (txn msg : string) (now : Z) (ctx : obj) : obj :=
  let ctx := <["timestamp" := JStr (format_ms now)]>
    (<["message_id" := JStr msg]> (<["transaction_id" := JStr txn]> ctx)) in
  if (0 <? ttl)%Z then <["ttl" := JStr ("PT" ++ FormatInt ttl ++ "S")]> ctx else ctx.

(** [Done None]: an error. *)
Definition patchSearchContext (ttl : Z) (txn msg : string) (now : Z) (payload : B) : outcome (option B) :=
  match decode_map payload with
  | None => Done None
  | Some None => Panic
  | Some (Some full) =>
      Done (json_marshal (JObj
        (<["context" := JObj (patched_context ttl txn msg now (obj_or_new "context" full))]> full)))
  end.

Definition isNack (body : B) : bool := ack_status (json_unmarshal body) =? "NACK".
End Payloads.

(** ** The request's context *)

(** The calls of [startDiscovery] that are given it, in their order; the
    polling loop is between the answer and the catalog that is saved. *)
Inductive moment := AtLookup | AtCheck | AtSearch | AtAnswer | AtSave | AtReady.
Definition moment_rank (m : moment) : nat :=
  match m with AtLookup => 0 | AtCheck => 1 | AtSearch => 2 | AtAnswer => 3 | AtSave => 4 | AtReady => 5 end.

(** The first of these calls that finds it ended, if one does. *)
Abbreviation request_context := (option moment).
Definition over (ctx : request_context) (m : moment) : bool :=
  match ctx with Some e => (moment_rank e <=? moment_rank m)%nat | None => false end.
Definition context_canceled : error := EText "context canceled".

Lemma over_mono ctx m n : (moment_rank m ≤ moment_rank n)%nat → over ctx m = true → over ctx n = true.
Proof. unfold over. destruct ctx; [|done]. rewrite !Nat.leb_le. lia. Qed.

(** What a client gets back. *)
Inductive discovery_body :=
  | BPreview (payload : json) (bpp_uri : string)
  | BDiscovered (session_id : string) (on_search : option json).
Abbreviation discovery_answer := (result error discovery_body).

Record tick (B : Type) := mkTick {
  tk_callbacks : list (route * Callbacks.request B);
  tk_done : bool;
  tk_now : Z;
}.
Arguments mkTick {B}.
Arguments tk_callbacks {B}.
Arguments tk_done {B}.
Arguments tk_now {B}.

Section Discovery.
Context {B S L : Type}.
Context `{Crypto, Bytes B, JsonCodec B, Sprint, MongoServer B, StateStore B S, RunLogStore B L}.
Variable http_do : Z → string → B → option string → result error (Z * B).  (* the registry's *)
Variable callbacks : controller B.
Variable search : Z → string → B → result error B.                        (* the seller client's *)
Variable cfg : Config.
Implicit Types w : world B S L.

Abbreviation pipeline_error code msg := (NewCustomError code "PIPELINE_5003" msg).
Definition upstream_error (msg : string) (details : option json) : CustomError :=
  NewCustomErrorD 502 "PIPELINE_5002" msg details.

(** Programs of the manager on the world. *)
Definition run_on {A} (now : Z) (p : prog B A) w : A * world B S L :=
  let '(x, (s, m)) := run now p (w_state w, w_mongo w) in (x, set_mongo m (set_state s w)).
Definition callbacks_on (rqs : list (route * Callbacks.request B)) w : world B S L :=
  (handle_all http_do callbacks rqs w).2.

Definition generateSearchPayload (readFile : string → result error B) (now : Z) (id txn msg : string) w
  : outcome discovery_answer * world B S L :=
  let '(r, w) := run_on now (Manager_Get now id) w in
  match r with
  | Err e => (Done (Err e), w)
  | Ok sess =>
      match LoadSearchPayload readFile now (Some cfg) (Some sess) with
      | Panic => (Panic, w)
      | Done (Err e) => (Done (Err (ECustom (pipeline_error 500 (error_text e)))), w)
      | Done (Ok raw) =>
          match patchSearchContext (DiscoveryWaitTTLSeconds cfg) txn msg now raw with
          | Panic => (Panic, w)
          | Done None => (Done (Err (ECustom ErrInvalidRequestBody)), w)
          | Done (Some patched) =>
              match json_unmarshal patched with
              | None => (Done (Err (ECustom (pipeline_error 500 "search template is not valid JSON"))), w)
              | Some payload => (Done (Ok (BPreview payload (s_BPPURI sess))), w)
              end
          end
      end
  end.

(** [pollDiscoveryPayload]: [None] while it still waits, else the payload, if
    any, whether the context has ended ([ended]: it had before), and the
    clock. *)
Fixpoint pollDiscoveryPayload (ended : bool) (txn : string) (deadline : Z) (ticks : list (tick B)) w
  : option (option B * bool * Z * world B S L) :=
  match ticks with
  | [] => None
  | t :: ticks' =>
      let w := callbacks_on (tk_callbacks t) w in
      if ended || tk_done t then Some (None, true, tk_now t, w)
      else if (deadline <? tk_now t)%Z then Some (None, false, tk_now t, w)
      else
        let '(r, w) := state_call (tk_now t) (GetDiscoveryPayload txn) w in
        match r with
        | Ok (Some p) =>
            if b_string p =? "" then pollDiscoveryPayload ended txn deadline ticks' w
            else Some (Some p, false, tk_now t, w)
        | _ => pollDiscoveryPayload ended txn deadline ticks' w
        end
  end.

(** [SetCatalogState]; it fails when the context has [ended]. *)
Definition catalog_state (ended : bool) (now : Z) (id : string) (st : CatalogStatus) (onSearchID : string) w
  : world B S L :=
  if ended then w else (state_call now (SetCatalogState id (mkCatalogState st onSearchID now)) w).2.

(** The second half: the search is sent and answered. *)
Definition await_catalog (ctx : request_context) (now : Z) (txn : string) (sess : Session) (payload : B)
  (during : list (route * Callbacks.request B)) (ticks : list (tick B)) w
  : option (discovery_answer * world B S L) :=
  let w := (state_call now (LinkTxn txn "discovery" (s_ID sess) (s_VerificationEnabled sess)) w).2 in
  let resp := if over ctx AtSearch then Err (EWrap "do request" context_canceled)
              else search now (s_BPPURI sess) payload in
  let w := callbacks_on during w in
  let ended := over ctx AtAnswer in
  match resp with
  | Err e =>
      Some (Err (ECustom (upstream_error (error_text e) None)),
            catalog_state ended now (s_ID sess) CatalogFailed "" w)
  | Ok respBody =>
      if isNack respBody
      then Some (Err (ECustom (upstream_error "BPP returned NACK" (json_unmarshal respBody))),
                 catalog_state ended now (s_ID sess) CatalogFailed "" w)
      else
        let w := catalog_state ended now (s_ID sess) CatalogPending "" w in
        let deadline := (now + wrap64 (DiscoveryWaitTTLSeconds cfg * second))%Z in
        match pollDiscoveryPayload ended txn deadline ticks w with
        | None => None
        | Some (None, ended, now, w) =>
            Some (Err (ECustom ErrUpstreamTimeout),
                  catalog_state (ended || over ctx AtSave) now (s_ID sess) CatalogFailed "" w)
        | Some (Some p, _, now, w) =>
            let w := if over ctx AtSave then w
                     else set_mongo (Mongo_SaveCatalog now (s_ID sess) p (w_mongo w)) w in
            Some (Ok (BDiscovered (s_ID sess) (json_unmarshal p)),
                  catalog_state (over ctx AtReady) now (s_ID sess) CatalogReady txn w)
        end
  end.

(** [Manager.Get] and [GetCatalogState] with the request's context. *)
Definition lookup_session (ctx : request_context) (now : Z) (id : string) w : result error Session * world B S L :=
  if over ctx AtLookup then (Err (ECustom ErrSessionNotFound), w) else run_on now (Manager_Get now id) w.
Definition check_catalog (ctx : request_context) (now : Z) (id : string) w : result error CatalogState * world B S L :=
  if over ctx AtCheck then (Err context_canceled, w) else state_call now (GetCatalogState id) w.

(** [req]: the payload of the request's body, when it has one. *)
Definition startDiscovery (readFile : string → result error B) (ctx : request_context) (now : Z) (id txn msg : string)
  (req : option B) (during : list (route * Callbacks.request B)) (ticks : list (tick B)) w
  : option (outcome discovery_answer * world B S L) :=
  let '(r, w) := lookup_session ctx now id w in
  match r with
  | Err e => Some (Done (Err e), w)
  | Ok sess =>
      let '(cs, w) := check_catalog ctx now (s_ID sess) w in
      if match cs with Ok cs => bool_decide (cs_Status cs = CatalogPending) | Err _ => false end
      then Some (Done (Err (ECustom ErrCatalogPending)), w)
      else
        match (match req with
               | Some p => Done (Ok p)
               | None => LoadSearchPayload readFile now (Some cfg) (Some sess)
               end) with
        | Panic => Some (Panic, w)
        | Done (Err e) => Some (Done (Err (ECustom (pipeline_error 500 (error_text e)))), w)
        | Done (Ok payload) =>
            match patchSearchContext (DiscoveryWaitTTLSeconds cfg) txn msg now payload with
            | Panic => Some (Panic, w)
            | Done None => Some (Done (Err (ECustom ErrInvalidRequestBody)), w)
            | Done (Some payload) =>
                match await_catalog ctx now txn sess payload during ticks w with
                | None => None
                | Some (a, w) => Some (Done a, w)
                end
            end
        end
  end.
End Discovery.

(** ** What the callbacks change *)
Section Callbacks.
Context {B L : Type}.
Context `{Crypto, Bytes B, JsonCodec B, Sprint, MongoServer B, SessionWire B, RunLogStore B L}.
Variable http_do : Z → string → B → option string → result error (Z * B).
Variable c : controller B.
Implicit Types (w : world B (astore B) L) (rq : Callbacks.request B).

(** The documents no callback touches. *)
Definition docs (m : MongoStore B) : catalogs_t * runs_t * sessions_t :=
  (mg_catalogs m, mg_runs m, mg_sessions m).

(** Only counters differ in the session state, and no such document. *)
Definition calm w w' : Prop :=
  (∀ k, (∀ r a f, k ≠ KMetric r a f) → w_state w' k = w_state w k) ∧
  docs (w_mongo w') = docs (w_mongo w).

Lemma calm_refl w : calm w w.
Proof. done. Qed.
Lemma calm_trans w1 w2 w3 : calm w1 w2 → calm w2 w3 → calm w1 w3.
Proof.
  intros [Hs1 E1] [Hs2 E2]. split; [|congruence]. intros k Hk. by rewrite (Hs2 k Hk), (Hs1 k Hk).
Qed.

Lemma calm_incr now run action field w : calm w (state_call now (IncrMetric run action field 1) w).2.
Proof.
  unfold state_call. cbn [st_call astore_store aexec]. case_bool_decide; [|done].
  split; [|done]. intros k Hk. apply aset_ne. intros <-. by eapply Hk.
Qed.

Lemma calm_log now o w : calm w (runlog_call now o w).2.
Proof. unfold runlog_call. by destruct (log_call now o (w_log w)). Qed.

Lemma calm_latency_event action run sess txn rq o w :
  calm w (recordLatencyEventOnCallback c action run sess txn rq o w).2.
Proof.
  unfold recordLatencyEventOnCallback. destruct (_ || _); [done|].
  destruct (callback_stage action) as [[ra stage]|]; [|done].
  pose proof (calm_log (rq_now rq) (GetTimestamp run "pipeline_b" ra txn) w) as Hc.
  destruct (runlog_call _ _ w) as [x w1]. cbn [snd] in Hc. eapply calm_trans; [exact Hc|].
  by destruct (rq_full rq).
Qed.

Lemma calm_record o action rq w : calm w (record_callback c o action rq w).
Proof.
  unfold record_callback. destruct (negb _); [done|]. destruct (empty_body _); [done|].
  destruct (_ =? ""); [done|]. unfold state_call at 1. cbn [st_call astore_store aexec].
  destruct (found _ _) as [[[run sess] v]|e]; [|done].
  set (w0 := set_state _ w). assert (calm w w0) as Hs0 by done. clearbody w0.
  eapply calm_trans; [exact Hs0|]. clear Hs0.
  pose proof (calm_log (rq_now rq)
    (RecordPayload run "pipeline_b" action (extractTxnID (rq_body rq)) (rq_body rq)) w0) as Hs1.
  destruct (runlog_call _ _ w0) as [? w1]. cbn [snd] in Hs1. eapply calm_trans; [exact Hs1|].
  pose proof (calm_latency_event action run sess (extractTxnID (rq_body rq)) rq o w1) as Hs2.
  destruct (recordLatencyEventOnCallback _ _ _ _ _ _ _ w1) as [eff w2]. cbn [snd] in Hs2.
  eapply calm_trans; [exact Hs2|].
  pose proof (calm_incr (rq_now rq) run action "sent" w2) as Hs3.
  destruct (state_call _ _ w2) as [? w3]. cbn [snd] in Hs3. eapply calm_trans; [exact Hs3|].
  pose proof (calm_incr (rq_now rq) run action (outcome_field eff) w3) as Hs4.
  destruct (state_call _ _ w3) as [? w4]. cbn [snd] in Hs4. eapply calm_trans; [exact Hs4|].
  by destruct (cb_notifier c).
Qed.

Lemma calm_verify rq w : calm w (verifyInbound http_do c rq w).2.
Proof.
  unfold verifyInbound. destruct (_ =? ""); [done|]. destruct (extractTxnID _ =? ""); [done|].
  unfold state_call. cbn [st_call astore_store aexec].
  destruct (found _ _) as [[[run sess] v]|e]; [|done]. destruct (negb v); [done|].
  repeat case_match; done.
Qed.

(** Counters and discovery payloads only. *)
Definition quiet w w' : Prop :=
  (∀ k, (∀ r a f, k ≠ KMetric r a f) → (∀ t, k ≠ KDiscovery t) → w_state w' k = w_state w k) ∧
  docs (w_mongo w') = docs (w_mongo w).
Lemma quiet_catalogs w w' : quiet w w' → mg_catalogs (w_mongo w') = mg_catalogs (w_mongo w).
Proof. intros [_ E]. by injection E. Qed.

Lemma quiet_trans w1 w2 w3 : quiet w1 w2 → quiet w2 w3 → quiet w1 w3.
Proof.
  intros [Hs1 E1] [Hs2 E2]. split; [|congruence]. intros k Hk Hk'. by rewrite (Hs2 k Hk Hk'), (Hs1 k Hk Hk').
Qed.
Lemma calm_quiet w w' : calm w w' → quiet w w'.
Proof. intros [Hs1 Hs2]. split; [|done]. intros k Hk _. by apply Hs1. Qed.
Lemma calm_discovery w w' t : calm w w' → w_state w' (KDiscovery t) = w_state w (KDiscovery t).
Proof. intros [Hs1 _]. by apply Hs1. Qed.

(** [b] is the body of an accepted [on_search] of transaction [txn]. *)
Definition accepted (txn : string) (b : B) (r : route) rq w : Prop :=
  r = POST_on_search ∧ extractTxnID (rq_body rq) = txn ∧ txn ≠ "" ∧ rq_body rq = b ∧
  (verifyInbound http_do c rq w).1 = None.

Lemma handle_effect r rq w :
  let w' := (handle http_do c r rq w).2 in
  quiet w w' ∧ ∀ txn b, w_state w' (KDiscovery txn) = Some b ↔
    accepted txn b r rq w ∨
    w_state w (KDiscovery txn) = Some b ∧ ∀ b', ¬ accepted txn b' r rq w.
Proof.
  assert (∀ w', calm w w' → (∀ txn b, ¬ accepted txn b r rq w) →
    quiet w w' ∧ ∀ txn b, w_state w' (KDiscovery txn) = Some b ↔
      accepted txn b r rq w ∨ w_state w (KDiscovery txn) = Some b ∧ ∀ b', ¬ accepted txn b' r rq w) as Hcalm.
  { intros w' Hc Hn. split; [by apply calm_quiet|]. intros txn b. rewrite (calm_discovery _ _ _ Hc).
    naive_solver. }
  assert (∀ action, r ≠ POST_on_search → let w' := (handle_callback http_do c action rq w).2 in
    quiet w w' ∧ ∀ txn b, w_state w' (KDiscovery txn) = Some b ↔
      accepted txn b r rq w ∨ w_state w (KDiscovery txn) = Some b ∧ ∀ b', ¬ accepted txn b' r rq w) as Hcb.
  { intros action Hr. apply Hcalm; [|by intros txn b [? _]].
    unfold handle_callback. pose proof (calm_verify rq w) as Hv.
    destruct (verifyInbound http_do c rq w) as [[e|] w1]; cbn [snd] in *;
      [|destruct (validatePayload c action rq)]; eapply calm_trans; [exact Hv| |exact Hv| |exact Hv|];
      apply calm_record. }
  destruct r; [|by apply Hcb..]. cbn [handle]. unfold onSearch_handler.
  pose proof (calm_verify rq w) as Hv. unfold accepted in *.
  destruct (verifyInbound http_do c rq w) as [[e|] w1]; cbn [fst snd] in *.
  { apply Hcalm; [done|]. by intros txn b (? & ? & ? & ? & ?). }
  destruct (String.eqb_spec (extractTxnID (rq_body rq)) "") as [E|E].
  { apply Hcalm; [eapply calm_trans; [exact Hv|apply calm_record]|].
    by intros txn b (_ & <- & ? & _). }
  set (w2 := (state_call _ _ w1).2).
  assert (quiet w1 w2 ∧ ∀ t, w_state w2 (KDiscovery t) =
    if decide (extractTxnID (rq_body rq) = t) then Some (rq_body rq) else w_state w1 (KDiscovery t)) as [Hq Hd].
  { split; [split; [|done]|].
    - intros k _ Hk. apply aset_ne. intros <-. by eapply Hk.
    - intros t. unfold w2, state_call. cbn. destruct (decide _) as [<-|Hne]; [apply (aset_eq (KDiscovery _))|].
      refine (aset_ne (KDiscovery _) (Some (rq_body rq)) (w_state w1) (KDiscovery t) _). congruence. }
  clearbody w2. pose proof (calm_record (callback_outcome (rq_body rq)) "on_search" rq w2) as Hr.
  split.
  { eapply quiet_trans; [by apply calm_quiet|]. eapply quiet_trans; [exact Hq|]. by apply calm_quiet. }
  intros txn b. unfold recordCallback. rewrite (calm_discovery _ _ _ Hr), Hd, (calm_discovery _ _ _ Hv).
  destruct (decide _) as [<-|Hne]; naive_solver.
Qed.

(** The routes of the transactions are the same. *)
Definition routed w w' : Prop := ∀ t, w_state w' (KTxn t) = w_state w (KTxn t).
Lemma quiet_routed w w' : quiet w w' → routed w w'.
Proof. intros [Hq _] t. by apply Hq. Qed.
Lemma routed_trans w1 w2 w3 : routed w1 w2 → routed w2 w3 → routed w1 w3.
Proof. intros Ha Hb t. by rewrite (Hb t). Qed.

(** What the signature check reads: the routes and the cached keys. *)
Definition alike w w' : Prop := routed w w' ∧ w_keys w' = w_keys w.

Lemma state_call_keys {T} now (q : call B T) w : w_keys (state_call now q w).2 = w_keys w.
Proof. unfold state_call. by destruct (st_call now q (w_state w)). Qed.
Lemma runlog_call_keys now (o : op B) w : w_keys (runlog_call now o w).2 = w_keys w.
Proof. unfold runlog_call. by destruct (log_call now o (w_log w)). Qed.

Lemma latency_event_keys action run sess txn rq o w :
  w_keys (recordLatencyEventOnCallback c action run sess txn rq o w).2 = w_keys w.
Proof.
  unfold recordLatencyEventOnCallback. destruct (_ || _); [done|].
  destruct (callback_stage action) as [[ra stage]|]; [|done].
  rewrite <- (runlog_call_keys (rq_now rq) (GetTimestamp run "pipeline_b" ra txn) w).
  destruct (runlog_call _ _ w) as [x w1]. by destruct (rq_full rq).
Qed.

Lemma record_keys o action rq w : w_keys (record_callback c o action rq w) = w_keys w.
Proof.
  unfold record_callback. destruct (negb _); [done|]. destruct (empty_body _); [done|].
  destruct (_ =? ""); [done|]. rewrite <- (state_call_keys (rq_now rq) (GetTxnRoute (extractTxnID (rq_body rq))) w).
  destruct (state_call _ _ w) as [[[[run sess] v]|e] w0]; cbn [snd]; [|done].
  rewrite <- (runlog_call_keys (rq_now rq)
    (RecordPayload run "pipeline_b" action (extractTxnID (rq_body rq)) (rq_body rq)) w0).
  destruct (runlog_call _ _ w0) as [? w1]. cbn [snd].
  rewrite <- (latency_event_keys action run sess (extractTxnID (rq_body rq)) rq o w1).
  destruct (recordLatencyEventOnCallback _ _ _ _ _ _ _ w1) as [eff w2]. cbn [snd].
  rewrite <- (state_call_keys (rq_now rq) (IncrMetric run action "sent" 1) w2).
  destruct (state_call _ _ w2) as [? w3]. cbn [snd].
  rewrite <- (state_call_keys (rq_now rq) (IncrMetric run action (outcome_field eff) 1) w3).
  destruct (state_call _ _ w3) as [? w4]. by destruct (cb_notifier c).
Qed.

Lemma verify_alike rq w w' :
  alike w w' →
  (verifyInbound http_do c rq w').1 = (verifyInbound http_do c rq w).1 ∧
  w_keys (verifyInbound http_do c rq w').2 = w_keys (verifyInbound http_do c rq w).2.
Proof.
  intros [Hr Hk]. unfold verifyInbound, state_call. cbn [st_call astore_store aexec].
  rewrite (Hr (extractTxnID (rq_body rq))). cbn [w_keys set_state]. rewrite Hk.
  destruct (rq_auth rq =? ""); [done|]. destruct (extractTxnID (rq_body rq) =? ""); [done|].
  destruct (found _ _) as [[[run sess] v]|e]; [|done]. destruct (negb v); [done|].
  destruct (SummarizeAuthorisationHeader _); [|done]. destruct (ParseKeyID _) as [[sub uk]|]; [|done].
  destruct (GetPublicKeyByUKID _ _ _ _ _ _) as [[pub|e] keys]; [|done].
  by destruct (VerifyAuthorisationHeaderBytes _ _ _ _).
Qed.

Lemma handle_keys r rq w : w_keys (handle http_do c r rq w).2 = w_keys (verifyInbound http_do c rq w).2.
Proof.
  assert (∀ action, w_keys (handle_callback http_do c action rq w).2 = w_keys (verifyInbound http_do c rq w).2) as Hcb.
  { intros action. unfold handle_callback. destruct (verifyInbound http_do c rq w) as [[e|] w1]; cbn [snd];
      [apply record_keys|]. destruct (validatePayload c action rq); apply record_keys. }
  destruct r; [|apply Hcb..]. cbn [handle]. unfold onSearch_handler.
  destruct (verifyInbound http_do c rq w) as [[e|] w1]; cbn [snd]; [done|].
  unfold recordCallback. rewrite record_keys. by destruct (_ =? "").
Qed.

Lemma handle_alike r rq w w' :
  alike w w' → alike (handle http_do c r rq w).2 (handle http_do c r rq w').2.
Proof.
  intros Ha. split; [|rewrite !handle_keys; by apply verify_alike].
  destruct Ha as [Hr _]. intros t. destruct (handle_effect r rq w) as [Hq _], (handle_effect r rq w') as [Hq' _].
  by rewrite (quiet_routed _ _ Hq'), (quiet_routed _ _ Hq), Hr.
Qed.

Lemma callbacks_cons r rq rqs w :
  callbacks_on http_do c ((r, rq) :: rqs) w = callbacks_on http_do c rqs (handle http_do c r rq w).2.
Proof.
  unfold callbacks_on. cbn [handle_all]. destruct (handle http_do c r rq w) as [x w1]. cbn [snd].
  by destruct (handle_all http_do c rqs w1).
Qed.

Lemma callbacks_app rqs rqs' w :
  callbacks_on http_do c (rqs ++ rqs') w = callbacks_on http_do c rqs' (callbacks_on http_do c rqs w).
Proof.
  revert w. induction rqs as [|[r rq] rqs IH]; intros w; [done|]. cbn [app]. by rewrite !callbacks_cons, IH.
Qed.

Lemma callbacks_alike rqs : ∀ w w',
  alike w w' → alike (callbacks_on http_do c rqs w) (callbacks_on http_do c rqs w').
Proof.
  induction rqs as [|[r rq] rqs IH]; intros w w' Ha; [done|]. rewrite !callbacks_cons.
  by apply IH, handle_alike.
Qed.

(** One of the callbacks handled from [w] on brought [b]: it was accepted in
    the state in which the ones before it had left the process. *)
Definition received (txn : string) (b : B) (rqs : list (route * Callbacks.request B)) w : Prop :=
  ∃ pre r rq post, rqs = (pre ++ (r, rq) :: post)%list ∧ accepted txn b r rq (callbacks_on http_do c pre w).

Lemma accepted_alike txn b r rq w w' : alike w w' → accepted txn b r rq w' → accepted txn b r rq w.
Proof.
  intros Ha (? & ? & ? & ? & ?). split_and!; try done. by rewrite <- (proj1 (verify_alike rq _ _ Ha)).
Qed.

Lemma received_alike txn b rqs w w' : alike w w' → received txn b rqs w' → received txn b rqs w.
Proof.
  intros Ha (pre & r & rq & post & -> & Hacc). exists pre, r, rq, post. split; [done|].
  by eapply accepted_alike, Hacc; apply callbacks_alike.
Qed.

Lemma received_before txn b rqs rqs' w : received txn b rqs w → received txn b (rqs ++ rqs') w.
Proof.
  intros (pre & r & rq & post & -> & Hacc). exists pre, r, rq, (post ++ rqs')%list. split; [|done].
  by rewrite <- app_assoc.
Qed.

Lemma received_after txn b rqs rqs' w :
  received txn b rqs' (callbacks_on http_do c rqs w) → received txn b (rqs ++ rqs') w.
Proof.
  intros (pre & r & rq & post & -> & Hacc). exists (rqs ++ pre)%list, r, rq, post.
  split; [by rewrite app_assoc|]. by rewrite callbacks_app.
Qed.

Lemma callbacks_effect rqs w :
  let w' := callbacks_on http_do c rqs w in
  quiet w w' ∧ (∀ txn b, w_state w' (KDiscovery txn) = Some b →
    w_state w (KDiscovery txn) = Some b ∨ received txn b rqs w).
Proof.
  revert w. induction rqs as [|[r rq] rqs IH]; intros w; [split; [done|]; by left|].
  rewrite callbacks_cons. destruct (handle_effect r rq w) as [Hq Hd].
  destruct (IH (handle http_do c r rq w).2) as [Hq2 Hd2].
  split; [by eapply quiet_trans|]. intros txn b [E|Hrec]%Hd2.
  - apply Hd in E as [Ha|[E _]]; [right|by left]. by exists [], r, rq, rqs.
  - right. apply (received_after txn b [(r, rq)] rqs). by rewrite callbacks_cons.
Qed.
End Callbacks.

(** ** What a discovery ends with *)
Section Outcome.
Context {B L : Type}.
Context `{Crypto, Bytes B, JsonCodec B, Sprint, MongoServer B, SessionWire B, RunLogStore B L}.
Variable http_do : Z → string → B → option string → result error (Z * B).
Variable c : controller B.
Variable search : Z → string → B → result error B.
Variable cfg : Config.
Hypothesis catalog_wire : ∀ cs : CatalogState, is_Some (marshal (B := B) cs).
Implicit Types (w : world B (astore B) L).

(** All the callbacks of a list of ticks. *)
Definition tick_callbacks (ticks : list (tick B)) : list (route * Callbacks.request B) :=
  ticks ≫= tk_callbacks.

Lemma set_same_state w : set_state (w_state w) w = w.
Proof. by destruct w. Qed.

Lemma poll_spec ended txn deadline ticks : ∀ w r e t w',
  pollDiscoveryPayload http_do c ended txn deadline ticks w = Some (r, e, t, w') →
  quiet w w' ∧ (e = true → ended = true ∨ existsb tk_done ticks = true) ∧
  ∀ p, r = Some p → ended = false ∧ (w_state w (KDiscovery txn) = Some p ∨
    received http_do c txn p (tick_callbacks ticks) w).
Proof.
  induction ticks as [|tk ticks IH]; intros w r e t w'; cbn [pollDiscoveryPayload]; [done|].
  destruct (callbacks_effect http_do c (tk_callbacks tk) w) as [Hq Hd].
  change (tick_callbacks (tk :: ticks)) with (tk_callbacks tk ++ tick_callbacks ticks)%list.
  cbn [existsb]. destruct ended; [|destruct (tk_done tk)]; cbn [orb];
    [intros [= <- <- <- <-]; by split_and!; auto..|].
  destruct (_ <? _)%Z; [by intros [= <- <- <- <-]|].
  set (w1 := callbacks_on http_do c (tk_callbacks tk) w) in *.
  unfold state_call. cbn [st_call astore_store aexec]. rewrite set_same_state.
  assert (pollDiscoveryPayload http_do c false txn deadline ticks w1 = Some (r, e, t, w') →
    quiet w w' ∧ (e = true → false = true ∨ existsb tk_done ticks = true) ∧
    ∀ p, r = Some p → false = false ∧ (w_state w (KDiscovery txn) = Some p ∨
      received http_do c txn p (tk_callbacks tk ++ tick_callbacks ticks) w)) as Hnext.
  { intros (Hq3 & He & Hr)%IH. split; [by eapply quiet_trans|]. split; [exact He|].
    intros p [_ [[E|Hrec]%Hd|Hrec]]%Hr; (split; [done|]); [by left| |]; right.
    - by apply received_before.
    - by apply received_after. }
  destruct (w_state w1 (KDiscovery txn)) as [p|] eqn:Ep; [|exact Hnext].
  destruct (_ =? ""); [exact Hnext|]. intros [= <- <- <- <-].
  split; [done|]. split; [done|]. intros p' [= <-]. split; [done|].
  apply Hd in Ep as [?|?]; [by left|right; by apply received_before].
Qed.

(** Setting the state of a catalog. *)
Lemma catalog_state_get now id st on w :
  let w' := catalog_state false now id st on w in
  w_state w' (KCatalog id) = Some (mkCatalogState st on now) ∧
  (∀ k, k ≠ KCatalog id → w_state w' k = w_state w k) ∧ w_mongo w' = w_mongo w.
Proof.
  unfold catalog_state, state_call. cbn [st_call astore_store aexec]. unfold aput.
  destruct (catalog_wire (mkCatalogState st on now)) as [b ->]. cbn [snd w_state set_state w_mongo].
  split_and!; [by akey| |done]. intros k Hk. by apply aset_ne.
Qed.

Lemma catalog_state_same ended now id st on w :
  let w' := catalog_state ended now id st on w in
  (∀ k, k ≠ KCatalog id → w_state w' k = w_state w k) ∧ w_mongo w' = w_mongo w ∧ alike w w'.
Proof.
  unfold catalog_state. destruct ended; [done|].
  pose proof (catalog_state_get now id st on w) as (_ & Hk & Hm). split_and!; [done..|].
  split; [intros t; by apply Hk|]. unfold state_call. by destruct (st_call _ _ _).
Qed.

(** The state of the session's catalog. *)
Abbreviation catalog_of sess w := (w_state w (KCatalog (s_ID sess))).
Definition status_of sess w : option CatalogStatus := cs_Status <$> catalog_of sess w.

(** The context ended before the discovery did. *)
Definition cut_short (ctx : request_context) (ticks : list (tick B)) : Prop :=
  ctx ≠ None ∨ existsb tk_done ticks = true.

(** The catalog's state and document after a discovery. *)
Definition discovered (ctx : request_context) (txn : string) (sess : Session) (a : discovery_answer)
  (during : list (route * Callbacks.request B)) (ticks : list (tick B)) w w' : Prop :=
  match a with
  | Ok b =>
      ∃ p, b = BDiscovered (s_ID sess) (json_unmarshal p) ∧
        received http_do c txn p (during ++ tick_callbacks ticks) w ∧
        (if over ctx AtSave then mg_catalogs (w_mongo w') = mg_catalogs (w_mongo w)
         else Mongo_GetCatalog (s_ID sess) (w_mongo w') = Ok p) ∧
        (if over ctx AtReady then status_of sess w' = Some CatalogPending
         else ∃ t, catalog_of sess w' = Some (mkCatalogState CatalogReady txn t))
  | Err _ =>
      mg_catalogs (w_mongo w') = mg_catalogs (w_mongo w) ∧
      (status_of sess w' = Some CatalogFailed ∨
       cut_short ctx ticks ∧ (catalog_of sess w' = catalog_of sess w ∨ status_of sess w' = Some CatalogPending))
  end.

Definition linked (now : Z) (txn : string) (sess : Session) w : world B (astore B) L :=
  (state_call now (LinkTxn txn "discovery" (s_ID sess) (s_VerificationEnabled sess)) w).2.

Lemma linked_get now txn sess w :
  w_state (linked now txn sess w) (KTxn txn) = Some ("discovery", s_ID sess, s_VerificationEnabled sess) ∧
  (∀ k, k ≠ KTxn txn → w_state (linked now txn sess w) k = w_state w k) ∧
  w_mongo (linked now txn sess w) = w_mongo w.
Proof.
  unfold linked, state_call. cbn [st_call astore_store aexec snd w_state set_state w_mongo].
  split_and!; [by akey| |done]. intros k Hk. by apply aset_ne.
Qed.

Lemma over_cut ctx m ticks : over ctx m = true → cut_short ctx ticks.
Proof. intros Ho. left. by intros ->. Qed.

Lemma quiet_catalog sess w w' : quiet w w' → catalog_of sess w' = catalog_of sess w.
Proof. intros [Hq _]. by apply Hq. Qed.

(** A failed discovery writes [failed], or nothing after its context. *)
Lemma failed_sound ctx txn sess e during ticks ended now w w2 :
  mg_catalogs (w_mongo w2) = mg_catalogs (w_mongo w) → (ended = true → cut_short ctx ticks) →
  catalog_of sess w2 = catalog_of sess w ∨ status_of sess w2 = Some CatalogPending →
  discovered ctx txn sess (Err e) during ticks w (catalog_state ended now (s_ID sess) CatalogFailed "" w2).
Proof.
  intros Hm He Hc. split; [by rewrite (proj1 (proj2 (catalog_state_same _ _ _ _ _ _)))|].
  destruct ended; [right; split; [by apply He|done]|left].
  unfold status_of. by rewrite (proj1 (catalog_state_get _ _ _ _ _)).
Qed.

Lemma await_sound ctx now txn sess payload during ticks w a w' :
  w_state w (KDiscovery txn) = None →
  await_catalog http_do c search cfg ctx now txn sess payload during ticks w = Some (a, w') →
  discovered ctx txn sess a during ticks (linked now txn sess w) w'.
Proof.
  intros Hnew. unfold await_catalog. fold (linked now txn sess w).
  destruct (linked_get now txn sess w) as (_ & Hl2 & _).
  assert (w_state (linked now txn sess w) (KDiscovery txn) = None) as Hnew1 by (by rewrite Hl2).
  set (w1 := linked now txn sess w) in *. clearbody w1. clear Hl2 Hnew w.
  destruct (callbacks_effect http_do c during w1) as [Hq Hd].
  set (w2 := callbacks_on http_do c during w1) in *.
  assert (∀ e, discovered ctx txn sess (Err e) during ticks w1
    (catalog_state (over ctx AtAnswer) now (s_ID sess) CatalogFailed "" w2)) as Herr.
  { intros e. apply failed_sound; [by apply quiet_catalogs|apply over_cut|left; by apply quiet_catalog]. }
  destruct (if over ctx AtSearch then _ else _) as [respBody|e]; [|by intros [= <- <-]].
  destruct (isNack respBody); [by intros [= <- <-]|].
  set (ended := over ctx AtAnswer) in *.
  pose proof (catalog_state_same ended now (s_ID sess) CatalogPending "" w2) as (Hk & Hm & Ha).
  assert (catalog_of sess (catalog_state ended now (s_ID sess) CatalogPending "" w2) = catalog_of sess w1 ∨
    status_of sess (catalog_state ended now (s_ID sess) CatalogPending "" w2) = Some CatalogPending) as Hc.
  { destruct ended; [left; by apply quiet_catalog|right].
    unfold status_of. by rewrite (proj1 (catalog_state_get _ _ _ _ _)). }
  assert (ended = false → status_of sess (catalog_state ended now (s_ID sess) CatalogPending "" w2) = Some CatalogPending)
    as Hpend. { intros ->. unfold status_of. by rewrite (proj1 (catalog_state_get _ _ _ _ _)). }
  set (w3 := catalog_state ended now (s_ID sess) CatalogPending "" w2) in *. clearbody w3.
  destruct (pollDiscoveryPayload _ _ _ _ _ _ _) as [[[[r e] t] w4]|] eqn:Ep; [|done].
  apply poll_spec in Ep as (Hq3 & He & Hr).
  assert (mg_catalogs (w_mongo w4) = mg_catalogs (w_mongo w1)) as Hm4.
  { by rewrite (quiet_catalogs _ _ Hq3), Hm, (quiet_catalogs _ _ Hq). }
  destruct r as [p|]; intros [= <- <-].
  2: { apply failed_sound; [done| |].
    - intros [Hee|Ho]%orb_true_iff; [|by eapply over_cut].
      destruct (He Hee) as [Ho|Ho]; [by eapply over_cut|by right].
    - unfold status_of in *. by rewrite (quiet_catalog sess _ _ Hq3). }
  destruct (Hr p eq_refl) as [Hlive Hp]. exists p. split_and!; [done| | |].
  - destruct Hp as [E|Hrec].
    + rewrite (Hk (KDiscovery txn)) in E by done. destruct (Hd _ _ E) as [E'|Hrec].
      * exfalso. clear -E' Hnew1. pose proof (eq_trans (eq_sym Hnew1) E'). done.
      * by apply received_before.
    + apply received_after. by eapply received_alike.
  - rewrite (proj1 (proj2 (catalog_state_same _ _ _ _ _ _))). destruct (over ctx AtSave); [done|].
    unfold Mongo_GetCatalog. cbn. by rewrite c_get_put, decide_True.
  - destruct (over ctx AtReady) eqn:Eo.
    + cbn [catalog_state]. unfold status_of in *.
      transitivity (cs_Status <$> catalog_of sess w4); [by destruct (over ctx AtSave)|].
      rewrite (quiet_catalog sess _ _ Hq3). by apply Hpend.
    + exists t. apply catalog_state_get.
Qed.

Lemma run_get_session now id w r w' :
  run_on now (Manager_Get now id) w = (r, w') →
  w_state w' = w_state w ∧ w_mongo w' = w_mongo w ∧
  ∀ sess, r = Ok sess → w_state w (KSession id) = Some sess.
Proof.
  unfold run_on, Manager_Get. prog_simpl.
  destruct (w_state w (KSession id)) as [s|] eqn:E; cbn [found]; intros [= <- <-]; [|done].
  split_and!; [done..|]. intros sess. destruct (_ || _); [done|]. by intros [= ->].
Qed.

Lemma lookup_session_spec ctx now id w r w1 :
  lookup_session ctx now id w = (r, w1) →
  w1 = w ∧ ∀ sess, r = Ok sess → w_state w (KSession id) = Some sess.
Proof.
  unfold lookup_session. destruct (over ctx AtLookup); [by intros [= <- <-]|].
  unfold run_on, Manager_Get. prog_simpl. rewrite set_same_state.
  assert (set_mongo (w_mongo w) w = w) as -> by (by destruct w).
  destruct (w_state w (KSession id)) as [s|] eqn:E; cbn [found]; intros [= <- <-]; [|done].
  split; [done|]. intros sess. destruct (_ || _); [done|]. by intros [= ->].
Qed.

Lemma check_catalog_same ctx now id w : (check_catalog ctx now id w).2 = w.
Proof.
  unfold check_catalog. destruct (over ctx AtCheck); [done|]. unfold state_call.
  cbn [st_call astore_store aexec snd]. apply set_same_state.
Qed.

Lemma start_sound readFile ctx now id txn msg req during ticks w w' a :
  w_state w (KDiscovery txn) = None →
  startDiscovery http_do c search cfg readFile ctx now id txn msg req during ticks w = Some (Done a, w') →
  (∃ e, a = Err e ∧ w' = w) ∨
  ∃ sess, w_state w (KSession id) = Some sess ∧
    discovered ctx txn sess a during ticks (linked now txn sess w) w'.
Proof.
  intros Hnew. unfold startDiscovery.
  destruct (lookup_session ctx now id w) as [r w1] eqn:Er.
  apply lookup_session_spec in Er as [-> Hs].
  destruct r as [sess|e]; [|intros [= <- <-]; left; by exists e].
  pose proof (check_catalog_same ctx now (s_ID sess) w) as Ec.
  destruct (check_catalog _ _ _ w) as [cs w2]. cbn [snd] in Ec. subst w2.
  destruct (match cs with Ok _ => _ | Err _ => _ end); [intros [= <- <-]; left; by eexists|].
  destruct (match req with Some _ => _ | None => _ end) as [[payload|e]|];
    [|intros [= <- <-]; left; by eexists|done].
  destruct (patchSearchContext _ _ _ _ payload) as [[patched|]|];
    [|intros [= <- <-]; left; by eexists|done].
  destruct (await_catalog _ _ _ _ _ _ _ _ _ _ _ w) as [[a' w3]|] eqn:Ea; [|done].
  intros [= -> ->]. right. exists sess. split; [by apply Hs|]. by eapply await_sound.
Qed.
End Outcome.

(** C19: The catalog a discovery keeps is the answer to its own search.  When
    a discovery succeeds, what it shows is the body of an [on_search] callback
    that was handled while it waited, that carries the fresh transaction of
    this very search, and that passed the signature check in the state in
    which the callbacks before it had left the process; this is the catalog
    that is saved and that later runs read, and the state is ready and names
    the transaction.  When it fails, no catalog is written, and either nothing
    was changed or the state is failed.  This holds whatever callbacks arrive
    while it waits and whenever the request's context ends.  Only a context
    that ends early makes a difference: then the state stays what it was or
    pending, and a success may leave the catalog unsaved or its state
    pending. *)
Theorem discovery_sound {B L} `{Crypto, Bytes B, JsonCodec B, Sprint, MongoServer B, SessionWire B}
    `{RunLogStore B L} http_do (c : controller B) search cfg readFile ctx now id txn msg req during ticks
    (w w' : world B (astore B) L) a :
  (∀ cs : CatalogState, is_Some (marshal (B := B) cs)) →
  w_state w (KDiscovery txn) = None →
  startDiscovery http_do c search cfg readFile ctx now id txn msg req during ticks w = Some (Done a, w') →
  (∃ e, a = Err e ∧ w' = w) ∨
  ∃ sess, w_state w (KSession id) = Some sess ∧
    discovered http_do c ctx txn sess a during ticks (linked now txn sess w) w'.
Proof. intros Hwire. by apply start_sound. Qed.

(** ** A discovery whose callback arrives in time succeeds *)
Section Live.
Context {B L : Type}.
Context `{Crypto, Bytes B, JsonCodec B, Sprint, MongoServer B, SessionWire B, RunLogStore B L}.
Variable http_do : Z → string → B → option string → result error (Z * B).
Variable c : controller B.
Hypothesis empty_is_no_json : ∀ b : B, b_string b = "" → json_unmarshal b = None.
Implicit Types (w : world B (astore B) L) (rq : Callbacks.request B).

Definition has_payload (txn : string) w : Prop :=
  ∃ b, w_state w (KDiscovery txn) = Some b ∧ b_string b ≠ "".

Definition route_of (txn : string) (sess : Session) w : Prop :=
  w_state w (KTxn txn) = Some ("discovery", s_ID sess, s_VerificationEnabled sess).

(** A callback of the transaction that needs no signature. *)
Definition answers (txn : string) (sess : Session) (q : route * Callbacks.request B) : Prop :=
  q.1 = POST_on_search ∧ extractTxnID (rq_body q.2) = txn ∧
  (s_VerificationEnabled sess = false ∨ rq_auth q.2 = "").

Lemma txn_nonempty b : extractTxnID b ≠ "" → b_string b ≠ "".
Proof. intros Ht Hb%empty_is_no_json. apply Ht. unfold extractTxnID. by rewrite Hb. Qed.

Lemma answers_accepted txn sess q w :
  txn ≠ "" → route_of txn sess w → answers txn sess q →
  accepted http_do c txn (rq_body q.2) q.1 q.2 w.
Proof.
  intros Ht Hr (-> & E & Hv). split_and!; try done. unfold verifyInbound. rewrite E.
  destruct (rq_auth q.2 =? "") eqn:Ea; [done|].
  destruct Hv as [Hv|Hv]; [|by rewrite Hv in Ea].
  rewrite (proj2 (String.eqb_neq _ _) Ht). unfold state_call. cbn [st_call astore_store aexec].
  unfold route_of in Hr. rewrite Hr. cbn [found]. by rewrite Hv.
Qed.

Lemma accepted_dec txn r rq w :
  accepted http_do c txn (rq_body rq) r rq w ∨ ∀ b, ¬ accepted http_do c txn b r rq w.
Proof.
  unfold accepted. destruct (decide (r = POST_on_search)); [|right; naive_solver].
  destruct (decide (extractTxnID (rq_body rq) = txn)); [|right; naive_solver].
  destruct (decide (txn = "")); [right; naive_solver|].
  destruct (verifyInbound http_do c rq w).1; [right; naive_solver|left; naive_solver].
Qed.

Lemma handle_payload txn r rq w :
  has_payload txn w ∨ (∃ b, accepted http_do c txn b r rq w) →
  has_payload txn (handle http_do c r rq w).2.
Proof.
  destruct (handle_effect http_do c r rq w) as [_ Hd]. intros Hp.
  destruct (accepted_dec txn r rq w) as [Ha|Hn].
  - exists (rq_body rq). split; [by apply Hd; left|]. apply txn_nonempty.
    destruct Ha as (_ & -> & ? & _). done.
  - destruct Hp as [(b & E & Hb)|[b Hb]]; [|by destruct (Hn b)].
    exists b. split; [|done]. apply Hd. right. by split.
Qed.

Lemma callbacks_payload txn sess rqs w :
  txn ≠ "" → route_of txn sess w → has_payload txn w ∨ (∃ q, q ∈ rqs ∧ answers txn sess q) →
  has_payload txn (callbacks_on http_do c rqs w).
Proof.
  intros Ht. revert w. induction rqs as [|[r rq] rqs IH]; intros w Hr Hp.
  { destruct Hp as [?|(? & []%elem_of_nil & _)]. done. }
  rewrite callbacks_cons. destruct (handle_effect http_do c r rq w) as [Hq _].
  apply IH; [unfold route_of; by rewrite (quiet_routed _ _ Hq)|].
  destruct Hp as [Hp|(q & [->|Hin]%elem_of_cons & Ha)].
  - left. apply handle_payload. by left.
  - left. apply handle_payload. right. exists (rq_body rq). exact (answers_accepted txn sess (r, rq) w Ht Hr Ha).
  - right. by exists q.
Qed.

Lemma catalog_state_other now id st on w k :
  k ≠ KCatalog id → w_state (catalog_state false now id st on w) k = w_state w k.
Proof.
  intros Hk. unfold catalog_state, state_call. cbn [st_call astore_store aexec]. unfold aput.
  destruct (marshal _); [|done]. by apply aset_ne.
Qed.

Definition in_time (deadline : Z) (tk : tick B) : Prop :=
  tk_done tk = false ∧ (tk_now tk ≤ deadline)%Z.

Lemma poll_live txn sess deadline tk pre : ∀ w,
  txn ≠ "" → route_of txn sess w → Forall (in_time deadline) (pre ++ [tk]) →
  has_payload txn w ∨ (∃ q, q ∈ tick_callbacks (pre ++ [tk]) ∧ answers txn sess q) →
  ∃ p t w', pollDiscoveryPayload http_do c false txn deadline (pre ++ [tk]) w = Some (Some p, false, t, w').
Proof.
  induction pre as [|t pre IH]; intros w Ht Hr Hin Hp.
  all: cbn [app] in *; apply Forall_cons in Hin as [[Hd Hn] Hin]; cbn [pollDiscoveryPayload].
  all: rewrite Hd, (proj2 (Z.ltb_ge _ _) Hn); cbn [orb].
  all: unfold state_call; cbn [st_call astore_store aexec].
  - destruct (callbacks_payload txn sess (tk_callbacks tk) w) as (b & E & Hb); [done..| |].
    { destruct Hp as [?|(q & Hq & ?)]; [by left|right]. exists q. split; [|done].
      unfold tick_callbacks in Hq. csimpl in Hq. by rewrite app_nil_r in Hq. }
    rewrite E. cbv beta iota. destruct (_ =? "") eqn:E2; [|eauto].
    by apply String.eqb_eq in E2.
  - destruct (callbacks_effect http_do c (tk_callbacks t) w) as [Hq _].
    assert (has_payload txn (callbacks_on http_do c (tk_callbacks t) w) ∨
      ∃ q, q ∈ tick_callbacks (pre ++ [tk]) ∧ answers txn sess q) as Hp1.
    { destruct Hp as [?|(q & Hin' & ?)]; [left; apply (callbacks_payload txn sess); auto|].
      unfold tick_callbacks in Hin'. csimpl in Hin'. apply elem_of_app in Hin' as [?|?]; [left|by right; exists q].
      apply (callbacks_payload txn sess); [done..|]. right. by exists q. }
    set (w1 := callbacks_on http_do c (tk_callbacks t) w) in *. clearbody w1.
    assert (route_of txn sess w1) as Hr1 by (unfold route_of; by rewrite (quiet_routed _ _ Hq)).
    destruct (w_state w1 (KDiscovery txn)) as [b|]; [destruct (_ =? "")|]; eauto.
Qed.

(** What comes after the end of the loop makes no difference. *)
Lemma poll_more ended txn deadline ticks post : ∀ w x,
  pollDiscoveryPayload http_do c ended txn deadline ticks w = Some x →
  pollDiscoveryPayload http_do c ended txn deadline (ticks ++ post) w = Some x.
Proof.
  induction ticks as [|t ticks IH]; intros w x; [done|]. cbn [app pollDiscoveryPayload].
  destruct (_ || _); [done|]. destruct (_ <? _)%Z; [done|].
  destruct (state_call _ _ _) as [[[p|]|e] w1]; [destruct (_ =? "")|..]; [apply IH|done|apply IH..].
Qed.

Lemma start_more search cfg readFile ctx now id txn msg req during ticks post w x :
  startDiscovery http_do c search cfg readFile ctx now id txn msg req during ticks w = Some x →
  startDiscovery http_do c search cfg readFile ctx now id txn msg req during (ticks ++ post) w = Some x.
Proof.
  unfold startDiscovery. destruct (lookup_session _ _ _ w) as [[sess|e] w1]; [|done].
  destruct (check_catalog _ _ _ w1) as [cs w2]. destruct (match cs with Ok _ => _ | Err _ => _ end); [done|].
  destruct (match req with Some _ => _ | None => _ end) as [[payload|e]|]; [|done..].
  destruct (patchSearchContext _ _ _ _ payload) as [[patched|]|]; [|done..].
  unfold await_catalog. destruct (if over ctx AtSearch then _ else _) as [b|e]; [|done].
  destruct (isNack b); [done|]. set (w4 := catalog_state _ _ _ _ _ _). clearbody w4.
  destruct (pollDiscoveryPayload _ _ _ _ _ ticks w4) as [y|] eqn:E; [|done].
  by rewrite (poll_more _ _ _ _ post _ _ E).
Qed.

(** The discovery ends and shows a payload. *)
Lemma start_live search cfg readFile now id txn msg payload patched resp during pre tk sess
    (w : world B (astore B) L) cs q :
  (run_on now (Manager_Get now id) w).1 = Ok sess →
  (st_call now (GetCatalogState (s_ID sess)) (w_state w)).1 = Ok cs → cs_Status cs ≠ CatalogPending →
  patchSearchContext (DiscoveryWaitTTLSeconds cfg) txn msg now payload = Done (Some patched) →
  search now (s_BPPURI sess) patched = Ok resp → isNack resp = false → txn ≠ "" →
  Forall (in_time (now + wrap64 (DiscoveryWaitTTLSeconds cfg * second))) (pre ++ [tk])%list →
  q ∈ (during ++ tick_callbacks (pre ++ [tk]))%list → answers txn sess q →
  ∃ b w', startDiscovery http_do c search cfg readFile None now id txn msg (Some payload) during
    (pre ++ [tk])%list w = Some (Done (Ok b), w').
Proof.
  intros Hg Hcs Hnp Hpatch Hsearch Hnack Ht Hin Hq Ha. unfold startDiscovery.
  destruct (lookup_session None now id w) as [x w1] eqn:Eg.
  destruct (lookup_session_spec None now id w _ _ Eg) as [-> _]. unfold lookup_session in Eg. cbn [over] in Eg.
  rewrite Eg in Hg. cbn [fst] in Hg. subst x.
  pose proof (check_catalog_same None now (s_ID sess) w) as Ec.
  unfold check_catalog, state_call in *. cbn [over] in *.
  destruct (st_call now (GetCatalogState (s_ID sess)) (w_state w)) as [x s2]. cbn [fst snd] in Hcs, Ec.
  subst x. rewrite Ec, bool_decide_false, Hpatch by done. unfold await_catalog. cbn [over]. rewrite Hsearch, Hnack.
  fold (linked now txn sess w). destruct (linked_get now txn sess w) as (Hr & _ & _).
  set (w3 := linked now txn sess w) in *. clearbody w3.
  destruct (callbacks_effect http_do c during w3) as [Hqt _].
  assert (route_of txn sess (callbacks_on http_do c during w3)) as Hr4.
  { unfold route_of. by rewrite (quiet_routed _ _ Hqt). }
  assert (has_payload txn (callbacks_on http_do c during w3) ∨
    ∃ q, q ∈ tick_callbacks (pre ++ [tk]) ∧ answers txn sess q) as Hp.
  { apply elem_of_app in Hq as [Hq|Hq]; [left|right; by exists q].
    apply (callbacks_payload txn sess); [done..|]. right. by exists q. }
  set (w4 := callbacks_on http_do c during w3) in *. clearbody w4.
  set (w5 := catalog_state false now (s_ID sess) CatalogPending "" w4).
  assert (∀ k, k ≠ KCatalog (s_ID sess) → w_state w5 k = w_state w4 k) as E5 by apply catalog_state_other.
  assert (route_of txn sess w5) as Hr5 by (unfold route_of; by rewrite E5).
  assert (has_payload txn w4 → has_payload txn w5) as Hp5.
  { intros (b' & E & ?). exists b'. split; [|done]. by rewrite E5. }
  clearbody w5. clear E5.
  destruct (poll_live txn sess (now + wrap64 (DiscoveryWaitTTLSeconds cfg * second)) tk pre w5)
    as (p & t & w6 & Ep); [done..|naive_solver|].
  rewrite Ep. by eauto.
Qed.
End Live.

(** C20: A discovery whose callback arrives in time completes with a ready
    catalog.  If the session is live, no other discovery is pending, the
    search is accepted by the seller, and an [on_search] of its transaction
    that needs no signature is handled before a tick of the polling loop that,
    with all the earlier ones, falls within the waiting time, and the
    request's context does not end, then the discovery ends and shows the body
    of an accepted [on_search] handled by then, this body is saved as the
    session's catalog, and the catalog's state is ready and names the
    transaction; whatever other callbacks are handled and whatever comes
    after. *)
Theorem discovery_completes {B L} `{Crypto, Bytes B, JsonCodec B, Sprint, MongoServer B, SessionWire B}
    `{RunLogStore B L} http_do (c : controller B) search cfg readFile now id txn msg payload patched resp
    during pre tk post sess (w : world B (astore B) L) cs q :
  (∀ b : B, b_string b = "" → json_unmarshal b = None) →
  (∀ cs : CatalogState, is_Some (marshal (B := B) cs)) → w_state w (KDiscovery txn) = None →
  (run_on now (Manager_Get now id) w).1 = Ok sess →
  (st_call now (GetCatalogState (s_ID sess)) (w_state w)).1 = Ok cs → cs_Status cs ≠ CatalogPending →
  patchSearchContext (DiscoveryWaitTTLSeconds cfg) txn msg now payload = Done (Some patched) →
  search now (s_BPPURI sess) patched = Ok resp → isNack resp = false → txn ≠ "" →
  Forall (in_time (now + wrap64 (DiscoveryWaitTTLSeconds cfg * second))) (pre ++ [tk])%list →
  q ∈ (during ++ tick_callbacks (pre ++ [tk]))%list → answers txn sess q →
  ∃ p t w', startDiscovery http_do c search cfg readFile None now id txn msg (Some payload) during
      (pre ++ tk :: post)%list w = Some (Done (Ok (BDiscovered (s_ID sess) (json_unmarshal p))), w') ∧
    received http_do c txn p (during ++ tick_callbacks (pre ++ [tk])) (linked now txn sess w) ∧
    Mongo_GetCatalog (s_ID sess) (w_mongo w') = Ok p ∧
    w_state w' (KCatalog (s_ID sess)) = Some (mkCatalogState CatalogReady txn t).
Proof.
  intros He Hwire Hnew Hg Hcs Hnp Hpatch Hsearch Hnack Ht Hin Hq Ha.
  destruct (start_live http_do c He search cfg readFile now id txn msg payload patched resp during pre tk sess
    w cs q) as (b & w' & E); [done..|].
  destruct (start_sound http_do c search cfg Hwire _ _ _ _ _ _ _ _ _ _ _ _ Hnew E)
    as [(? & ? & _)|(sess' & Hs & p & Hb & Hr & Hsave & t & Hst)]; [done|].
  assert (sess' = sess) as ->.
  { destruct (run_on now (Manager_Get now id) w) as [x w1] eqn:Eg. cbn [fst] in Hg. subst x.
    destruct (lookup_session_spec None now id w _ _ Eg) as [_ Hx]. specialize (Hx sess eq_refl). congruence. }
  subst b. exists p, t, w'. split_and!; [|done..].
  change (tk :: post) with ([tk] ++ post)%list. rewrite app_assoc. by apply start_more.
Qed.

(** ** Witnesses: the callback arrives with the second tick *)
Section Demo.
(** Bytes that are texts, JSON trees or encoded values. *)
Inductive wire :=
  | WText (s : string) | WJson (j : json) | WSession (s : Session) | WCatalog (c : CatalogState)
  | WPreorder (p : PreorderState) | WRun (r : Run).

#[local] Instance wire_text : Bytes wire.
Proof.
  refine {| b_of_string := WText; b_string b := match b with WText s => s | _ => "{}" end |}. done.
Defined.
#[local] Instance wire_json : JsonCodec wire.
Proof.
  refine {| json_unmarshal b := match b with WJson j => Some j | _ => None end;
            json_marshal j := Some (WJson (norm j)) |}. by intros ? ? [= <-].
Defined.
#[local] Instance wire_sessions : SessionWire wire.
Proof.
  split.
  - refine {| marshal s := Some (WSession s);
              unmarshal b := match b with WSession s => Some s | _ => None end |}. by intros ? ? [= <-].
  - refine {| marshal s := Some (WCatalog s);
              unmarshal b := match b with WCatalog s => Some s | _ => None end |}. by intros ? ? [= <-].
  - refine {| marshal s := Some (WPreorder s);
              unmarshal b := match b with WPreorder s => Some s | _ => None end |}. by intros ? ? [= <-].
  - refine {| marshal s := Some (WRun s);
              unmarshal b := match b with WRun s => Some s | _ => None end |}. by intros ? ? [= <-].
Defined.
#[local] Existing Instance toy_crypto.
#[local] Instance wire_sprint : Sprint := λ _, "?".

Definition demo_cfg : Config := Load (λ _, "").
Definition demo_controller : controller wire :=
  NewController true true true (Some NoopValidator) "" 60 "" "" "".
Definition demo_session : Session :=
  mkSession "s1" "bpp" "http://bpp" SessionActive 0 (3600 * second) "1.2.0" "ONDC:RET13" false true.
Definition demo_world : world wire (astore wire) (MemoryStore wire) :=
  mkWorld (aset (KSession "s1") (Some demo_session) astore_empty) NewMongoStore NewMemoryStore [] [] ∅ ∅.
Definition demo_registry (now : Z) (url : string) (b : wire) (auth : option string)
  : result error (Z * wire) := Err (EText "down").
Definition demo_seller (now : Z) (url : string) (b : wire) : result error wire := Ok (WJson (ack_body "ACK")).
Definition demo_search : wire := WJson (JObj {[ "message" := JNull ]}).
Definition demo_on_search : wire :=
  WJson (JObj {[ "context" := JObj {[ "transaction_id" := JStr "t1" ]}; "message" := JObj ∅ ]}).
Definition demo_callback : route * Callbacks.request wire :=
  (POST_on_search, mkRequest "" demo_on_search (2 * second) false).
Definition demo_ticks : list (tick wire) :=
  [mkTick [] false second; mkTick [demo_callback] false (2 * second)].
Definition demo_discover (ctx : request_context)
  : option (outcome discovery_answer * world wire (astore wire) (MemoryStore wire)) :=
  startDiscovery demo_registry demo_controller demo_seller demo_cfg (λ _, Err (EText "no file"))
    ctx 0 "s1" "t1" "m1" (Some demo_search) [] demo_ticks demo_world.
Abbreviation demo_discovery := (demo_discover None).

#[local] Transparent gmap_empty.
Definition answer_of {A W} (r : option (outcome A * W)) : option A :=
  match r with Some (Done a, _) => Some a | _ => None end.

Lemma discovery_sound_witness :
  answer_of demo_discovery = Some (Ok (BDiscovered "s1" (json_unmarshal demo_on_search))) ∧
  ∃ a w', demo_discovery = Some (Done a, w') ∧
    ((∃ e, a = Err e ∧ w' = demo_world) ∨
     ∃ sess, w_state demo_world (KSession "s1") = Some sess ∧
       discovered demo_registry demo_controller None "t1" sess a [] demo_ticks (linked 0 "t1" sess demo_world) w').
Proof.
  assert (answer_of demo_discovery = Some (Ok (BDiscovered "s1" (json_unmarshal demo_on_search)))) as Ha
    by (vm_compute; reflexivity).
  split; [exact Ha|]. unfold answer_of in Ha.
  destruct demo_discovery as [[[a|] w']|] eqn:E; [|discriminate Ha..].
  exists a, w'. split; [reflexivity|].
  refine (discovery_sound demo_registry demo_controller demo_seller demo_cfg
    (λ _, Err (EText "no file")) None 0 "s1" "t1" "m1" (Some demo_search) [] demo_ticks demo_world w' a _ _ E).
  - intros cs. by eexists.
  - vm_compute. reflexivity.
Defined.

(** When the context ends while the discovery waits, its last write fails: the
    client is told that the time is over, and the catalog stays pending, so
    that the next discovery of the session is refused. *)
Definition demo_interrupted (txn : string) (now : Z) (w : world wire (astore wire) (MemoryStore wire)) :=
  startDiscovery demo_registry demo_controller demo_seller demo_cfg (λ _, Err (EText "no file"))
    None now "s1" txn "m1" (Some demo_search) [] [mkTick [] true (now + second)] w.
Definition world_after (r : option (outcome discovery_answer * world wire (astore wire) (MemoryStore wire))) :=
  match r with Some (_, w) => w | None => demo_world end.

Theorem discovery_left_pending :
  let r := demo_interrupted "t1" 0 demo_world in
  answer_of r = Some (Err (ECustom ErrUpstreamTimeout)) ∧
  w_state (world_after r) (KCatalog "s1") = Some (mkCatalogState CatalogPending "" 0) ∧
  answer_of (demo_interrupted "t2" (60 * second) (world_after r)) = Some (Err (ECustom ErrCatalogPending)).
Proof. split_and!; vm_compute; reflexivity. Qed.

Lemma discovery_completes_witness :
  ∃ p t w', demo_discovery = Some (Done (Ok (BDiscovered "s1" (json_unmarshal p))), w') ∧
    received demo_registry demo_controller "t1" p [demo_callback] (linked 0 "t1" demo_session demo_world) ∧
    Mongo_GetCatalog "s1" (w_mongo w') = Ok p ∧
    w_state w' (KCatalog "s1") = Some (mkCatalogState CatalogReady "t1" t).
Proof.
  assert (∃ patched, patchSearchContext (DiscoveryWaitTTLSeconds demo_cfg) "t1" "m1" 0 demo_search
    = Done (Some patched)) as [patched Hp] by (vm_compute; eauto).
  refine (discovery_completes demo_registry demo_controller demo_seller demo_cfg
    (λ _, Err (EText "no file")) 0 "s1" "t1" "m1" demo_search patched (WJson (ack_body "ACK")) [] [mkTick [] false second]
    (mkTick [demo_callback] false (2 * second)) [] demo_session demo_world
    (mkCatalogState CatalogNone "" zero_time) demo_callback _ _ _ _ _ _ Hp _ _ _ _ _ _).
  - by intros [].
  - intros cs. by eexists.
  - vm_compute. reflexivity.
  - unfold run_on, Manager_Get. prog_simpl.
    change (w_state demo_world (KSession "s1")) with (Some demo_session). reflexivity.
  - reflexivity.
  - done.
  - done.
  - vm_compute. reflexivity.
  - done.
  - repeat constructor; vm_compute; congruence.
  - apply list_elem_of_singleton. reflexivity.
  - split; [done|]. split; [vm_compute; reflexivity|by left].
Defined.
End Demo.
