(* ===== verification/Preorder.v ===== *)
(** * A run from its start to its end: [startPreorder], [runPreorder] and
    [flushRun] of [internal/handlers/testing/routes.go]

    [startPreorder] checks the request, starts a run and generates the
    selects; a goroutine then executes the run.  The goroutine is a relation
    [own] between states: the phase it is in and the world.  Between any two
    of its steps the rest of the process may act ([env]): a callback is
    handled, or a latency worker writes a queued event.

    The effects of a stage's calls (the link of a transaction, the two calls
    of the run log, the request) are steps of their own, in the order of each
    call and interleaved at will; the calls are made by the dispatcher of
    [Dispatcher.v].  [WaitForCount] ([Notifier.v]) returns when the callbacks
    were counted or after its 30 seconds, so its step is always possible.
    The goroutine's context is [context.Background()]: it never ends.  A call
    of the run's throttle is taken to return here; [Throttle.v] has when it
    does. *)
From stdpp Require Import prelude gmap list strings.
From S2P Require Import Prelude GoStrings GoTime Json ApiError Latency Redis RunLog MemoryStore OndcAuth Registry SessionTypes StateStore Mongo Config Dispatcher Payloads SelectBatch Coordinator Finalize Manager SessionApi Callbacks Discovery.
Local Open Scope string_scope.

(** ** [startPreorder] *)

Record preorderRequest := mkPreorder { pr_RPS : Z; pr_DurationSec : Z; pr_TransactionID : string }.

(** What the goroutine is started with. *)
Record started (B : Type) := mkStarted {
  sd_session : Session;
  sd_run : Run;
  sd_rps : Z;
  sd_selects : list B;
  sd_txns : list string;
}.
Arguments mkStarted {B}.
Arguments sd_session {B}.
Arguments sd_run {B}.
Arguments sd_rps {B}.
Arguments sd_selects {B}.
Arguments sd_txns {B}.

Definition rps_exceeded (requested limit : Z) : CustomError :=
  NewCustomErrorD 422 "VALIDATION_4222" "Requested rps exceeds per-session limit"
    (Some (JObj {[ "requested_rps" := JInt requested; "per_session_rps_limit" := JInt limit ]})).

Section Start.
Context {B : Type} `{MongoServer B, JsonCodec B, Sprint, Env, Rand}.
Variable cfg : Config.

(** The rate and the duration: the request's, or the defaults. *)
Definition requested (req : preorderRequest) : Z * Z :=
  (if (pr_RPS req <=? 0)%Z then DefaultRPS cfg else pr_RPS req,
   if (pr_DurationSec req <=? 0)%Z then Seconds (DefaultDuration cfg) else pr_DurationSec req).

(** [OnSearchPayload(catalogPayload)]: an empty one is no payload. *)
Definition on_search_of `{Bytes B} (payload : B) : option B :=
  if b_string payload =? "" then None else Some payload.

(** The batch: under the transaction of the request, if it has one. *)
Definition select_batch (readFile : string → result error B) (payload : option B) (batchSize : Z)
  (txn : string) : outcome (result error (list B)) :=
  if txn =? "" then SelectBatchFromOnSearch readFile payload batchSize
  else SelectBatchFromOnSearchWithTxnID readFile payload batchSize txn.

(** What a start goes on with once its request has been checked. *)
Record admission := mkAdmission { ad_session : Session; ad_request : preorderRequest; ad_rps : Z; ad_dur : Z }.

(** Up to [StartRun]: the session, its catalog, the request and its rate. *)
Definition start_request (now : Z) (id : string) (req : option preorderRequest) : prog B (result error admission) :=
  let! r := Manager_Get now id in
  match r with
  | Err e => Ret (Err e)
  | Ok sess =>
      let! cs := st (GetCatalogState (s_ID sess)) in
      if negb (match cs with Ok cs => bool_decide (cs_Status cs = CatalogReady) | Err _ => false end)
      then Ret (Err (ECustom ErrCatalogNotReady))
      else match req with
      | None => Ret (Err (ECustom ErrInvalidRequestBody))
      | Some req =>
          let '(rps, dur) := requested req in
          Ret (if (PerSessionRPSLimit cfg <? rps)%Z
               then Err (ECustom (rps_exceeded rps (PerSessionRPSLimit cfg)))
               else Ok (mkAdmission sess req rps dur))
      end
  end.

(** After [StartRun]: the catalog and the batch. *)
Definition start_batch `{Bytes B} (readFile : string → result error B) (now : Z) (ad : admission) (run : Run)
  : prog B (outcome (result error (started B))) :=
  let sess := ad_session ad in
  let! catalog := load (Mongo_GetCatalog (s_ID sess)) in
  match catalog with
  | Err _ =>
      let! _ := Manager_FinishRun now (s_ID sess) (r_ID run) "failed" in
      Ret (Done (Err (ECustom ErrCatalogNotReady)))
  | Ok payload =>
      match select_batch readFile (on_search_of payload) (wrap64 (ad_rps ad * ad_dur ad))
              (pr_TransactionID (ad_request ad)) with
      | Panic => Ret Panic
      | Done (Err e) =>
          let! _ := Manager_FinishRun now (s_ID sess) (r_ID run) "failed" in
          Ret (Done (Err (ECustom (NewCustomError 500 "PIPELINE_5003" (error_text e)))))
      | Done (Ok selects) =>
          Ret (Done (Ok (mkStarted sess run (ad_rps ad) selects (ExtractTransactionIDs selects))))
      end
  end.

Definition startPreorder `{Bytes B} (readFile : string → result error B) (now : Z) (uuid id : string)
  (req : option preorderRequest) : prog B (outcome (result error (started B))) :=
  let! r := start_request now id req in
  match r with
  | Err e => Ret (Done (Err e))
  | Ok ad =>
      let sess := ad_session ad in
      let! r := Manager_StartRun now uuid (s_ID sess) (s_BPPID sess) (ad_rps ad) (ad_dur ad) in
      match r with
      | Err e => Ret (Done (Err e))
      | Ok run => start_batch readFile now ad run
      end
  end.

(** The same in two parts, between which other requests are served: up to the
    check of [StartRun], and from its writes on. *)
Definition start_checks (now : Z) (id : string) (req : option preorderRequest) : prog B (result error admission) :=
  let! r := start_request now id req in
  match r with
  | Err e => Ret (Err e)
  | Ok ad =>
      let! x := StartRun_check (s_ID (ad_session ad)) in
      match x with Err e => Ret (Err e) | Ok _ => Ret (Ok ad) end
  end.

Definition start_commit `{Bytes B} (readFile : string → result error B) (now : Z) (uuid : string) (ad : admission)
  : prog B (outcome (result error (started B))) :=
  let sess := ad_session ad in
  let! r := StartRun_write now uuid (s_ID sess) (s_BPPID sess) (ad_rps ad) (ad_dur ad) in
  match r with
  | Err e => Ret (Done (Err e))
  | Ok run => start_batch readFile now ad run
  end.

(** What it does to the shared coordinator. *)
Definition configure (sd : started B) (c : BCoordinator) : BCoordinator :=
  let s := sd_session sd in
  configure_run (s_ID s) (s_VerificationEnabled s) (s_CoreVersion s) (s_ErrorInjectionEnabled s)
    (sd_rps sd) c.
End Start.

(** ** The goroutine *)

Inductive stage := SSelect | SInit | SConfirm.
Definition action_of (st : stage) : string :=
  match st with SSelect => "select" | SInit => "init" | SConfirm => "confirm" end.
Definition rank (st : stage) : nat :=
  match st with SSelect => 0 | SInit => 1 | SConfirm => 2 end.
Definition countSuccess (rs : list DispatchResult) : nat :=
  countb (λ r, bool_decide (dr_Err r = None)) rs.
Definition countErrors (rs : list DispatchResult) : nat :=
  countb (λ r, negb (bool_decide (dr_Err r = None))) rs.

(** Where the goroutine is.  While it sends: the batch, the coordinator as
    each call reads it, the dispatcher's state and the effects the calls have
    still to make. *)
Inductive phase (B : Type) :=
  | Sending (st : stage) (batch : list B) (cs : nat → BCoordinator) (d : dstate)
      (pend : list (list (effect B)))
  | Waiting (st : stage) (sent : nat)
  | Building (st : stage)
  | Finalizing
  | Measuring
  | Finishing
  | Flushing
  | Stopped.
Arguments Sending {B}.
Arguments Waiting {B}.
Arguments Building {B}.
Arguments Finalizing {B}.
Arguments Measuring {B}.
Arguments Finishing {B}.
Arguments Flushing {B}.
Arguments Stopped {B}.

Section Run.
Context {B S L : Type}.
Context `{Crypto, Bytes B, JsonCodec B, Sprint, MongoServer B, StateStore B S, RunLogStore B L, Env}.
Variable http_do : Z → string → B → option string → result error (Z * B).   (* the registry's *)
Variable callbacks : controller B.
Variable seller : string → nat → B → option error.
Variable clock : nat → Z.                                      (* of each call of a stage *)
Variable order : gset string → list string.                    (* a map's iteration order *)
Variable readFile : string → result error B.                   (* os.ReadFile *)
Variable cfg : Config.
Variable sd : started B.
Implicit Types w : world B S L.

Abbreviation runID := (r_ID (sd_run sd)).
Abbreviation sessID := (s_ID (sd_session sd)).
Abbreviation baseURL := (s_BPPURI (sd_session sd)).

Definition stage_step (st : stage) (batch : list B) (cs : nat → BCoordinator)
  : choice → dstate → option dstate :=
  RunStage seller clock (action_of st) runID baseURL batch (MaxInFlight cfg) (cs 0) cs.

(** The effects of the calls between two states of the dispatcher. *)
Definition new_effects (st : stage) (batch : list B) (cs : nat → BCoordinator) (d d' : dstate)
  : list (list (effect B)) :=
  (λ i, match batch !! i with
        | Some b => (send_stage seller clock (action_of st) runID baseURL (cs i) i b).1
        | None => []
        end) <$> drop (length (d_calls d)) (d_calls d').

(** One effect.  The request itself leaves the process. *)
Definition do_effect (now : Z) (e : effect B) w : world B S L :=
  match e with
  | ELink (Some l) run txn =>
      (state_call now (LinkTxn txn run (lk_session l) (lk_verification l)) w).2
  | ELink None _ _ => w
  | ELog o => (runlog_call now o w).2
  | ESend _ _ _ => w
  end.

(** What [buildBatchFromCallbacks] reads of the run log. *)
Definition read_log (now : Z) w (action txn : string) : option B :=
  match (log_call now (Get runID "pipeline_b" action txn) (w_log w)).1 with
  | OData v => v
  | _ => None
  end.

(** The batch of a stage: from the callbacks, or else from the example. *)
Definition build_batch (now : Z) (st : stage) w : result error (list B) :=
  let from_callbacks :=
    match st with
    | SInit => BuildInitBatchFromOnSelect (read_log now w) runID (sd_txns sd)
    | _ => BuildConfirmBatchFromOnInit (read_log now w) runID (sd_txns sd)
    end in
  match from_callbacks with
  | Ok b => Ok b
  | Err _ =>
      match st with
      | SInit => BuildInitBatchFromExample readFile "examples/payloads/init/init.json" (sd_txns sd)
      | _ => BuildConfirmBatchFromExample readFile "examples/payloads/confirm/confirm.json" (sd_txns sd)
      end
  end.

Definition metrics_on (now : Z) (st : stage) (rs : list DispatchResult) w : world B S L :=
  set_state (updateMetrics (B := B) now runID (action_of st) rs (w_state w)) w.

Definition finalize_on (now : Z) w : world B S L :=
  let '(l, m) := finalizeRunLatencies order sessID runID now (w_log w, w_mongo w) in
  set_mongo m (set_log l w).

(** [notifier.Reset]: the calls counted for the run are forgotten. *)
Definition reset_on w : world B S L :=
  mkWorld (w_state w) (w_mongo w) (w_log w) (w_queue w)
    (filter (λ p, p.1 ≠ runID) (w_notified w)) (w_keys w) (w_files w).

(** The callback [flushRun] gives to [Export]: one document per visit. *)
Definition export_payload (now : Z) (uuids : nat → string) (r : Run)
  (pipeline action txn : string) (payload : B) (x : nat * MongoStore B)
  : option error * (nat * MongoStore B) :=
  let '(i, m) := x in
  let direction := if has_prefix "on_" action then "response" else "request" in
  let '(e, m) :=
    Mongo_SaveRunPayload (uuids i) now
      (Some (mkRunPayload "" (r_ID r) (r_SessionID r) action direction txn 0 now payload)) m in
  (e, (Datatypes.S i, m)).

(** [os.WriteFile] for each of the files. *)
Definition write_files (now : Z) (fs : list (string * B)) w : world B S L :=
  mkWorld (w_state w) (w_mongo w) (w_log w) (w_queue w) (w_notified w) (w_keys w)
    (foldl (λ F pb, <[pb.1 := (pb.2, now)]> F) (w_files w) fs).

Definition cleanup (now : Z) w : world B S L := (runlog_call now (Cleanup runID) w).2.

Definition flushRun (now : Z) (uuids : nat → string) w : world B S L :=
  if to_upper (RunPersistence cfg) =? "DB"
  then
    let '(r, w) := run_on now (Manager_GetRun runID) w in
    match r with
    | Err _ => cleanup now w
    | Ok r =>
        let '(_, (_, m)) := export_loop (export_payload now uuids r)
          (log_export now runID (w_log w)) (0%nat, w_mongo w) in
        cleanup now (set_mongo m w)
    end
  else if negb (RunsFSEnable cfg) then cleanup now w
  else cleanup now (write_files now (log_flush now runID (RunsFSRoot cfg) (w_log w)) w).

(** After a stage was sent. *)
Definition after_stage (st : stage) (rs : list DispatchResult) : phase B :=
  if (countSuccess rs =? 0)%nat then Finalizing else Waiting st (countSuccess rs).
Definition after_wait (st : stage) : phase B :=
  match st with SSelect => Building SInit | SInit => Building SConfirm | SConfirm => Finalizing end.

(** The steps of the goroutine; [tr] is the trace of the effects made. *)
Inductive own : phase B * world B S L → list (effect B) → phase B * world B S L → Prop :=
  | own_dispatch st batch cs d d' pend c w :
      (∀ e, c ≠ CCancel e) → stage_step st batch cs c d = Some d' →
      own (Sending st batch cs d pend, w) []
          (Sending st batch cs d' (pend ++ new_effects st batch cs d d')%list, w)
  | own_effect st batch cs d pend j e es now w :
      pend !! j = Some (e :: es) →
      own (Sending st batch cs d pend, w) [e]
          (Sending st batch cs d (<[j := es]> pend), do_effect now e w)
  | own_sent st batch cs d pend i now w :
      d_pc d = PReturned i → Forall (λ l, l = []) pend →
      own (Sending st batch cs d pend, w) []
          (after_stage st (d_results d), metrics_on now st (d_results d) w)
  | own_woken st n w : own (Waiting st n, w) [] (after_wait st, w)
  | own_built st batch cs now w :
      build_batch now st w = Ok batch →
      own (Building st, w) [] (Sending st batch cs (d_init batch) [], w)
  | own_build_failed st e now w :
      build_batch now st w = Err e → own (Building st, w) [] (Finalizing, w)
  | own_finalize now w : own (Finalizing, w) [] (Measuring, finalize_on now w)
  | own_measure now snapshot w :
      own (Measuring, w) [] (Finishing, (run_on now (Manager_SetRunSystemMetrics runID snapshot) w).2)
  | own_finish now w :
      own (Finishing, w) [] (Flushing, (run_on now (Manager_FinishRun now sessID runID "completed") w).2)
  | own_flush now uuids w :
      own (Flushing, w) [] (Stopped, flushRun now uuids (reset_on w)).

(** The rest of the process. *)
Inductive env : world B S L → world B S L → Prop :=
  | env_callback r rq w : env w (handle http_do callbacks r rq w).2
  | env_worker e q w :
      w_queue w = e :: q →
      env w (mkWorld (w_state w) (Mongo_UpsertRunLatencyEvent (Some e) (w_mongo w)) (w_log w) q
               (w_notified w) (w_keys w) (w_files w)).

(** An execution: the number of own steps and the trace of the effects. *)
Inductive exec_run : nat → list (effect B) → phase B * world B S L → phase B * world B S L → Prop :=
  | run_nil s : exec_run 0 [] s s
  | run_own n tr tr' s1 s2 s3 :
      exec_run n tr s1 s2 → own s2 tr' s3 → exec_run (Datatypes.S n) (tr ++ tr')%list s1 s3
  | run_env n tr s1 ph w w' :
      exec_run n tr s1 (ph, w) → env w w' → exec_run n tr s1 (ph, w').

Definition run_start (cs : nat → BCoordinator) w : phase B * world B S L :=
  (Sending SSelect (sd_selects sd) cs (d_init (sd_selects sd)) [], w).
End Run.

(** ** The goroutine ends *)
Section Termination.
Context {B S L : Type}.
Context `{Crypto, Bytes B, JsonCodec B, Sprint, MongoServer B, StateStore B S, RunLogStore B L, Env}.
Variable http_do : Z → string → B → option string → result error (Z * B).
Variable callbacks : controller B.
Variable seller : string → nat → B → option error.
Variable clock : nat → Z.
Variable order : gset string → list string.
Variable readFile : string → result error B.
Variable cfg : Config.
Variable sd : started B.

Abbreviation own := (own seller clock order readFile cfg sd (S := S)).
Abbreviation exec_run :=
  (exec_run http_do callbacks seller clock order readFile cfg sd (S := S)).

(** The size of the largest batch. *)
Definition batch_max : nat := Nat.max (length (sd_selects sd)) (length (sd_txns sd)).
Definition stage_cost : nat := 5 * (8 * batch_max + 3).

Definition pend_weight (pend : list (list (effect B))) : nat := length (concat pend).

Definition phase_weight (ph : phase B) : nat :=
  match ph with
  | Sending st batch _ d pend =>
      (2 - rank st) * (stage_cost + 3) + 5 * fuel batch d + pend_weight pend + 6
  | Waiting st _ => (2 - rank st) * (stage_cost + 3) + 5
  | Building st => (2 - rank st) * (stage_cost + 3) + stage_cost + 7
  | Finalizing => 4
  | Measuring => 3
  | Finishing => 2
  | Flushing => 1
  | Stopped => 0
  end.

Definition stage_fn (st : stage) (cs : nat → BCoordinator) : nat → B → DispatchResult :=
  λ i b, (send_stage seller clock (action_of st) (r_ID (sd_run sd)) (s_BPPURI (sd_session sd)) (cs i) i b).2.

Definition phase_ok (ph : phase B) : Prop :=
  match ph with
  | Sending st batch cs d _ =>
      (length batch ≤ batch_max)%nat ∧
      Dispatcher.Inv batch (MaxInFlight cfg) (bool_decide (bc_throttle (cs 0) ≠ None)) (stage_fn st cs) d
  | Building SSelect => False
  | _ => True
  end.

Lemma send_stage_effects st c i b :
  (length (send_stage seller clock (action_of st) (r_ID (sd_run sd)) (s_BPPURI (sd_session sd)) c i b).1
   ≤ 4)%nat.
Proof.
  destruct st; unfold send_stage, action_of; cbn [String.eqb]; simpl; unfold send_select, send_later, record_effects;
    destruct (preparePayload c _ i b) as [[?|?] t]; simpl; try lia; destruct (t =? ""); simpl; lia.
Qed.

(** A step of the dispatcher makes at most one call. *)
Lemma dispatch_calls batch mx thr (f : nat → B → DispatchResult) c d d' :
  Dispatcher.exec batch mx thr f c d = Some d' →
  d_calls d' = d_calls d ∨ ∃ i, d_calls d' = (d_calls d ++ [i])%list.
Proof.
  destruct d as [p rs sem wg sl cx calls], c as [allow done|i|e]; simpl.
  - intros E. left. destruct p; repeat case_match; simplify_eq; done.
  - destruct (sl !! i) as [[]|]; try done; [|intros [= <-]; by left..].
    destruct (batch !! i); [|done]. intros [= <-]. right. by exists i.
  - repeat case_match; intros; simplify_eq; by left.
Qed.

Lemma new_effects_weight st batch cs mx thr (f : nat → B → DispatchResult) c d d' :
  Dispatcher.exec batch mx thr f c d = Some d' →
  (pend_weight (new_effects seller clock sd st batch cs d d') ≤ 4)%nat.
Proof.
  intros [E|[i E]]%dispatch_calls; unfold new_effects; rewrite E.
  - rewrite drop_all. unfold pend_weight. simpl. lia.
  - rewrite drop_app_length. simpl. unfold pend_weight. simpl. rewrite app_nil_r.
    destruct (batch !! i); [apply send_stage_effects|simpl; lia].
Qed.

Lemma fuel_init (batch : list B) : fuel batch (d_init batch) = (8 * length batch + 3)%nat.
Proof.
  unfold fuel. simpl. assert (∀ k, sum_list_with slot_fuel (replicate k SPending) = 0%nat) as Hz.
  { intros k. induction k; simpl; lia. }
  rewrite Hz. lia.
Qed.

Lemma callback_batch_length get i src tgt txns :
  (length (callback_batch (B := B) get i src tgt txns) ≤ length txns)%nat.
Proof.
  revert i. induction txns as [|t txns IH]; intros i; simpl; [lia|].
  destruct (callback_payload get i src tgt t); simpl; specialize (IH (Datatypes.S i)); lia.
Qed.

Lemma example_batch_length i action m txns (b : list B) :
  example_batch i action m txns = Ok b → length b = length txns.
Proof.
  revert i b. induction txns as [|t txns IH]; intros i b; simpl; [by intros [= <-]|].
  destruct (example_payload i action t m) as [b'|]; [|done].
  destruct (example_batch _ action m txns) as [bs|e] eqn:E; [|done].
  intros [= <-]. simpl. f_equal. by eapply IH.
Qed.

Lemma build_batch_length now st w b :
  build_batch (S := S) (L := L) readFile sd now st w = Ok b → (length b ≤ batch_max)%nat.
Proof.
  unfold build_batch, BuildInitBatchFromOnSelect, BuildConfirmBatchFromOnInit, buildBatchFromCallbacks.
  assert (∀ path action (b : list B), buildBatchFromExample readFile path (sd_txns sd) action = Ok b →
    (length b ≤ batch_max)%nat) as Hex.
  { intros path action b' Er. unfold buildBatchFromExample in Er. unfold batch_max.
    destruct (sd_txns sd) as [|t txns] eqn:Et; [injection Er as <-; simpl; lia|].
    destruct (readFile path) as [raw|]; [|done]. destruct (decode_map raw); [|done].
    destruct (as_obj _); [|done]. apply example_batch_length in Er. rewrite Er. simpl. lia. }
  destruct st; destruct (_ =? ""); try (intros E; by eapply Hex);
    intros [= <-]; etrans; [apply callback_batch_length| |apply callback_batch_length| |apply callback_batch_length|];
    unfold batch_max; lia.
Qed.

Lemma own_decreases s tr s' :
  own s tr s' → phase_ok s.1 → phase_ok s'.1 ∧ (phase_weight s'.1 < phase_weight s.1)%nat.
Proof.
  destruct 1 as [st batch cs d d' pend c w Hc He|st batch cs d pend j e es now w Hj|
    st batch cs d pend i now w Hpc Hp|st n w|st batch cs now w Hb|st e now w Hb|
    now w|now snap w|now w|now uuids w]; intros Hok; cbn [fst phase_ok phase_weight] in *.
  - destruct Hok as [Hl HI]. unfold stage_step, RunStage in He.
    pose proof (Dispatcher.fuel_step _ _ _ _ _ _ _ He HI) as Hf.
    split; [split; [done|by eapply Dispatcher.Inv_step]|].
    pose proof (new_effects_weight st batch cs _ _ _ _ _ _ He) as Hn.
    unfold pend_weight in *. rewrite concat_app, length_app. lia.
  - split; [done|]. unfold pend_weight. rewrite (Permutation_length (concat_take_head _ _ _ _ Hj)).
    simpl. lia.
  - set (k := ((2 - rank st) * (stage_cost + 3))%nat). unfold after_stage.
    destruct (_ =? 0)%nat; cbn [phase_ok phase_weight]; fold k; split; try done; lia.
  - destruct st; cbn [after_wait phase_ok phase_weight rank Nat.sub]; split; try done; lia.
  - apply build_batch_length in Hb. rewrite fuel_init. split.
    + split; [done|apply Dispatcher.Inv_init].
    + set (k := ((2 - rank st) * (stage_cost + 3))%nat). unfold pend_weight. simpl.
      unfold stage_cost. lia.
  - set (k := ((2 - rank st) * (stage_cost + 3))%nat). split; [done|lia].
  - split; [done|lia].
  - split; [done|lia].
  - split; [done|lia].
  - split; [done|lia].
Qed.

Lemma pend_cases (pend : list (list (effect B))) :
  Forall (λ l, l = []) pend ∨ ∃ j e es, pend !! j = Some (e :: es).
Proof.
  induction pend as [|[|e es] pend [IH|(j & e' & es' & Hj)]]; [by left|left; by constructor|
    right; by exists (Datatypes.S j), e', es'|right; by exists 0%nat, e, es..].
Qed.

Lemma own_progress ph (w : world B S L) :
  phase_ok ph → ph = Stopped ∨ ∃ tr s', own (ph, w) tr s'.
Proof.
  destruct ph as [st batch cs d pend|st n|st| | | | |]; intros Hok; [|right..|by left].
  - right. destruct Hok as [_ HI].
    destruct (Dispatcher.Inv_progress _ _ _ _ _ HI) as [[i Hi]|[(a & b & d' & E)|(i & d' & E)]].
    + destruct (pend_cases pend) as [Hp|(j & e & es & Hj)].
      * exists [], (after_stage st (d_results d), metrics_on sd 0 st (d_results d) w).
        by eapply own_sent.
      * eexists [e], _. eapply own_effect with (now := 0%Z). exact Hj.
    + eexists [], _. by eapply own_dispatch with (c := CMain a b).
    + eexists [], _. by eapply own_dispatch with (c := CGoroutine i).
  - eexists [], _. constructor.
  - destruct (build_batch readFile sd 0 st w) as [batch|e] eqn:E.
    + eexists [], (Sending st batch (λ _, NewBCoordinator (mkBap "" "" "")) (d_init batch) [], w).
      by eapply own_built.
    + eexists [], _. by eapply own_build_failed.
  - eexists [], _. eapply own_finalize with (now := 0%Z).
  - eexists [], _. eapply own_measure with (now := 0%Z) (snapshot := throttle0).
  - eexists [], _. eapply own_finish with (now := 0%Z).
  - eexists [], _. eapply own_flush with (now := 0%Z) (uuids := λ _, "").
Qed.

Lemma run_weight n tr s1 s2 :
  exec_run n tr s1 s2 → phase_ok s1.1 →
  phase_ok s2.1 ∧ (n + phase_weight s2.1 ≤ phase_weight s1.1)%nat.
Proof.
  induction 1 as [s|n tr tr' s1 s2 s3 _ IH Hown|n tr s1 ph w w' _ IH Henv]; intros Hok; [by split| |].
  - destruct (IH Hok) as [Hok2 Hw2]. destruct (own_decreases _ _ _ Hown Hok2). split; [done|lia].
  - by apply IH.
Qed.

Lemma start_ok cs : phase_ok (Sending SSelect (sd_selects sd) cs (d_init (sd_selects sd)) []) ∧
  (phase_weight (Sending SSelect (sd_selects sd) cs (d_init (sd_selects sd)) [])
   ≤ 120 * batch_max + 57)%nat.
Proof.
  split; [split; [unfold batch_max; lia|apply Dispatcher.Inv_init]|].
  cbn [phase_weight rank]. rewrite fuel_init. unfold pend_weight, stage_cost, batch_max. simpl. lia.
Qed.
End Termination.

(** C17: The goroutine of a run ends.  Whatever the interleaving of the calls
    of its stages with each other, with callbacks and with latency workers,
    and whatever the seller answers, it makes at most a number of steps linear
    in the batch, and it is never stuck before it is over.  (A step whose
    duration is not bounded here is a request, which the HTTP client times
    out, and a wait, which [WaitForCount] ends after 30 seconds.) *)
Theorem run_terminates {B S L} `{Crypto, Bytes B, JsonCodec B, Sprint, MongoServer B,
    StateStore B S, RunLogStore B L, Env} http_do (callbacks : controller B) seller clock order
    readFile cfg sd n tr cs (w0 : world B S L) ph w :
  exec_run http_do callbacks seller clock order readFile cfg sd n tr (run_start sd cs w0) (ph, w) →
  (n ≤ 120 * batch_max sd + 57)%nat ∧
  (ph = Stopped ∨
   ∃ tr' s', own seller clock order readFile cfg sd (ph, w) tr' s').
Proof.
  intros Hx. destruct (start_ok seller clock cfg sd cs) as [Hok Hw].
  pose proof (run_weight _ _ _ _ _ _ _ _ _ _ _ _ Hx Hok) as [Hok' Hn]. split.
  - unfold run_start in Hn. cbn [fst] in Hn. lia.
  - by eapply own_progress.
Qed.

(** ** The stages follow each other *)

(** An effect of a call of the stage [st] of the run [runID]. *)
Definition effect_of {B} (runID : string) (st : stage) (e : effect B) : Prop :=
  match e with
  | ELink _ run _ => st = SSelect ∧ run = runID
  | ELog (RecordPayload run p a _ _) | ELog (RecordTimestamp run p a _ _) =>
      run = runID ∧ p = "pipeline_b" ∧ a = action_of st
  | ELog _ => False
  | ESend a _ _ => a = action_of st
  end.

Section Order.
Context {B S L : Type}.
Context `{Crypto, Bytes B, JsonCodec B, Sprint, MongoServer B, StateStore B S, RunLogStore B L, Env}.
Variable http_do : Z → string → B → option string → result error (Z * B).
Variable callbacks : controller B.
Variable seller : string → nat → B → option error.
Variable clock : nat → Z.
Variable order : gset string → list string.
Variable readFile : string → result error B.
Variable cfg : Config.
Variable sd : started B.

Lemma send_stage_of st c i (b : B) :
  Forall (effect_of (r_ID (sd_run sd)) st)
    (send_stage seller clock (action_of st) (r_ID (sd_run sd)) (s_BPPURI (sd_session sd)) c i b).1.
Proof.
  destruct st; unfold send_stage, action_of; cbn [String.eqb]; simpl;
    unfold send_select, send_later, record_effects;
    destruct (preparePayload c _ i b) as [[?|?] t]; simpl; try done; destruct (t =? "");
    simpl; repeat constructor.
Qed.

Lemma new_effects_of st batch cs d d' :
  Forall (Forall (effect_of (r_ID (sd_run sd)) st)) (new_effects (B := B) seller clock sd st batch cs d d').
Proof.
  unfold new_effects. apply Forall_fmap, Forall_true. intros i. simpl.
  destruct (batch !! i); [apply send_stage_of|done].
Qed.

(** The trace so far, and what the calls have still to do. *)
Definition staged (tr : list (effect B)) (ph : phase B) : Prop :=
  ∃ t : stage → list (effect B),
    tr = (t SSelect ++ t SInit ++ t SConfirm)%list ∧
    (∀ st, Forall (effect_of (r_ID (sd_run sd)) st) (t st)) ∧
    match ph with
    | Sending st _ _ _ pend =>
        (∀ st', rank st < rank st' → t st' = [])%nat ∧
        Forall (Forall (effect_of (r_ID (sd_run sd)) st)) pend
    | Waiting st _ => ∀ st', (rank st < rank st')%nat → t st' = []
    | Building st => ∀ st', (rank st ≤ rank st')%nat → t st' = []
    | _ => True
    end.

Lemma staged_snoc t st e :
  (∀ st', (rank st < rank st')%nat → t st' = []) →
  ((t SSelect ++ t SInit ++ t SConfirm) ++ [e : effect B])%list =
  let t' st' := if bool_decide (rank st' = rank st) then (t st' ++ [e])%list else t st' in
  (t' SSelect ++ t' SInit ++ t' SConfirm)%list.
Proof.
  intros Ht. destruct st; simpl in *; [rewrite (Ht SInit), (Ht SConfirm) by (simpl; lia)|
    rewrite (Ht SConfirm) by (simpl; lia)|]; rewrite ?app_nil_r, <- ?(assoc_L (++)%list); done.
Qed.

Lemma own_staged tr s tr' s' :
  own seller clock order readFile cfg sd (S := S) (L := L) s tr' s' →
  staged tr s.1 → staged (tr ++ tr')%list s'.1.
Proof.
  destruct 1 as [st batch cs d d' pend c w Hc He|st batch cs d pend j e es now w Hj|
    st batch cs d pend i now w Hpc Hp|st n w|st batch cs now w Hb|st e now w Hb|
    now w|now snap w|now w|now uuids w]; intros (t & -> & Ht & Hs); cbn [fst] in *;
    rewrite ?app_nil_r.
  - exists t. destruct Hs as [Hs1 Hs2]. split_and!; [done..|].
    apply Forall_app. split; [done|apply new_effects_of].
  - destruct Hs as [Hlt Hp].
    pose proof (Forall_lookup_1 _ _ _ _ Hp Hj) as [He Hes]%Forall_cons.
    rewrite (staged_snoc t st e Hlt). eexists. split; [reflexivity|]. split_and!.
    + intros st'. case_bool_decide as E; [|done]. apply Forall_app. split; [done|].
      assert (st' = st) as -> by (by destruct st', st). by apply Forall_singleton.
    + intros st' Hst. rewrite bool_decide_false by lia. by apply Hlt.
    + by apply Forall_insert.
  - exists t. split_and!; [done..|]. unfold after_stage. destruct (_ =? 0)%nat; [done|]. apply Hs.
  - exists t. split_and!; [done..|]. destruct st; simpl in *; try done;
      intros st' Hst; apply Hs; lia.
  - exists t. split_and!; [done..| |by constructor]. intros st' Hst. apply Hs. lia.
  - by exists t.
  - by exists t.
  - by exists t.
  - by exists t.
  - by exists t.
Qed.
End Order.

(** C23: The requests of a run leave in the order of its stages.  Whatever the
    calls of a stage do at the same time, everything the run does (linking a
    transaction, recording a payload and its time, sending a request) is done
    for its own run, and everything it does for the selects comes before
    everything it does for the inits, which comes before everything it does
    for the confirms. *)
Theorem run_stages_in_order {B S L} `{Crypto, Bytes B, JsonCodec B, Sprint, MongoServer B,
    StateStore B S, RunLogStore B L, Env} http_do (callbacks : controller B) seller clock order
    readFile cfg sd n tr cs (w0 : world B S L) s :
  exec_run http_do callbacks seller clock order readFile cfg sd n tr (run_start sd cs w0) s →
  ∃ t : stage → list (effect B),
    tr = (t SSelect ++ t SInit ++ t SConfirm)%list ∧
    ∀ st, Forall (effect_of (r_ID (sd_run sd)) st) (t st).
Proof.
  intros Hx. enough (staged sd tr s.1) as (t & -> & Ht & _) by (by exists t).
  remember (run_start sd cs w0) as s0 eqn:Hs0.
  induction Hx as [s|n tr tr' s1 s2 s3 _ IH Hown|n tr s1 ph w w' _ IH Henv].
  - subst s. exists (λ _, []). by split_and!.
  - eapply own_staged; [done|]. by apply IH.
  - by apply IH.
Qed.

(** ** The state a run is in, and leaves *)
Section EndState.
Context {B L : Type}.
Context `{Crypto, Bytes B, JsonCodec B, Sprint, MongoServer B, SessionWire B, RunLogStore B L, Env}.
Variable http_do : Z → string → B → option string → result error (Z * B).
Variable callbacks : controller B.
Variable seller : string → nat → B → option error.
Variable clock : nat → Z.
Variable order : gset string → list string.
Variable readFile : string → result error B.
Variable cfg : Config.
Variable sd : started B.
Hypothesis encodes : ∀ ps : PreorderState, marshal ps ≠ None.
Implicit Types w : world B (astore B) L.
Abbreviation runID := (r_ID (sd_run sd)).
Abbreviation sessID := (s_ID (sd_session sd)).

(** The session is busy with the run, whose record is kept. *)
Definition running w : Prop :=
  preorder_of sessID (w_state w) = mkPreorderState PreorderRunning runID ∧
  ∃ r, w_state w (KRun runID) = Some r ∧ r_ID r = runID.

(** The session is idle, and the run is saved as completed. *)
Definition completed w : Prop :=
  preorder_of sessID (w_state w) = mkPreorderState PreorderIdle "" ∧
  ∃ r, c_get (mg_runs (w_mongo w)) runID = Some r ∧ r_Status r = "completed".

Definition end_state (ph : phase B) w : Prop :=
  match ph with Flushing | Stopped => completed w | _ => running w end.

(** Neither the state of a session nor a run is written. *)
Definition same_runs w w' : Prop :=
  (∀ s, w_state w' (KPreorder s) = w_state w (KPreorder s)) ∧
  (∀ r, w_state w' (KRun r) = w_state w (KRun r)) ∧
  mg_runs (w_mongo w') = mg_runs (w_mongo w).

Lemma end_state_same ph w w' : same_runs w w' → end_state ph w → end_state ph w'.
Proof.
  intros (Hp & Hr & Hm) He. unfold end_state, running, completed, preorder_of in *.
  destruct ph; by rewrite ?Hp, ?Hr, ?Hm.
Qed.

Lemma same_runs_trans w1 w2 w3 : same_runs w1 w2 → same_runs w2 w3 → same_runs w1 w3.
Proof.
  intros (Hp & Hr & Hm) (Hp2 & Hr2 & Hm2). split_and!; intros; by rewrite ?Hp2, ?Hr2, ?Hm2.
Qed.

Lemma same_quiet w w' : quiet w w' → same_runs w w'.
Proof.
  intros [Hs Hd]. unfold docs in Hd. injection Hd as _ E _. split_and!; [intros; by apply Hs..|done].
Qed.

Lemma same_log now o w : same_runs w (runlog_call now o w).2.
Proof. unfold runlog_call. destruct (log_call now o (w_log w)). by split_and!. Qed.

Lemma same_effect now e w : same_runs w (do_effect now e w).
Proof.
  destruct e as [[l|] run txn|o|]; cbn [do_effect]; [|by split_and!|apply same_log|by split_and!].
  unfold state_call. prog_step. split_and!; intros; try done;
    cbn [w_state set_state snd]; by rewrite aset_ne.
Qed.

Lemma incr_same now run action field n (a : astore B) k :
  (∀ r x f, k ≠ KMetric r x f) → (aexec now (IncrMetric run action field n) a).2 k = a k.
Proof. intros Hk. cbn [aexec]. case_bool_decide; cbn [snd]; [|done]. apply aset_ne. intros <-. by eapply Hk. Qed.

Lemma same_metrics now st rs w : same_runs w (metrics_on sd now st rs w).
Proof.
  unfold metrics_on, updateMetrics, set_state. cbn [st_call astore_store].
  split_and!; intros; try done; cbn [w_state]; by rewrite !incr_same.
Qed.

Lemma finalize_stage_runs run cutoff pair (l : L) (m : MongoStore B) :
  mg_runs (finalize_stage order sessID run cutoff pair (l, m)).2 = mg_runs m.
Proof.
  destruct pair as [action stage]. unfold finalize_stage.
  destruct (log_call cutoff (ListTxnIDs run "pipeline_b" action) l) as [x l1]. destruct x; try done.
  destruct (classify _ _ _ _ _ _ _ _ _) as [t l2]. cbn [snd]. by destruct (ty_missing t).
Qed.

Lemma finalize_stages_runs run cutoff ps (x : L * MongoStore B) :
  mg_runs (foldl (λ x p, finalize_stage order sessID run cutoff p x) x ps).2 = mg_runs x.2.
Proof.
  revert x. induction ps as [|p ps IH]; intros [l m]; [done|].
  cbn [foldl]. by rewrite IH, finalize_stage_runs.
Qed.

Lemma same_finalize now w : same_runs w (finalize_on order sd now w).
Proof.
  unfold finalize_on. destruct (finalizeRunLatencies _ _ _ _ _) as [l m] eqn:E.
  split_and!; [done..|]. cbn. replace m with (l, m).2 by done. rewrite <- E.
  unfold finalizeRunLatencies. by rewrite finalize_stages_runs.
Qed.

Lemma same_get now id w : same_runs w (run_on now (Manager_GetRun id) w).2.
Proof.
  unfold run_on, Manager_GetRun, mergeRunLatencySummaries. prog_simpl.
  destruct (found _ (w_state w (KRun id))) as [r|e]; prog_simpl; [|by split_and!].
  destruct (negb (finished _)); prog_simpl; by split_and!.
Qed.

Lemma export_runs now (uuids : nat → string) r es : ∀ x : nat * MongoStore B,
  mg_runs (export_loop (export_payload now uuids r) es x).2.2 = mg_runs x.2.
Proof.
  induction es as [|[[[p a] t] b] es IH]; intros [i m]; [done|]. simpl.
  destruct (c_get (mg_payloads m) (uuids i)); [done|]. by rewrite IH.
Qed.

Lemma same_flush now uuids w : same_runs w (flushRun cfg sd now uuids w).
Proof.
  unfold flushRun, cleanup. destruct (_ =? "DB").
  - pose proof (same_get now runID w) as Hg. destruct (run_on _ _ w) as [[r|e] w1]; cbn [snd] in Hg;
      (eapply same_runs_trans; [exact Hg|]); [|apply same_log].
    pose proof (export_runs now uuids r (log_export now runID (w_log w1)) (0%nat, w_mongo w1)) as He.
    destruct (export_loop _ _ _) as [e [k m]]. cbn [snd] in He.
    eapply same_runs_trans; [|apply same_log]. by split_and!.
  - destruct (negb _); [apply same_log|]. eapply same_runs_trans; [|apply same_log]. by split_and!.
Qed.

Lemma same_env w w' : env http_do callbacks w w' → same_runs w w'.
Proof.
  destruct 1 as [r rq w|e q w Hq]; [|by split_and!].
  apply same_quiet, (handle_effect http_do callbacks r rq w).
Qed.

(** [SetRunSystemMetrics] rewrites the record of the run, or fails. *)
Lemma measured now snap w :
  running w → running (run_on now (Manager_SetRunSystemMetrics runID snap) w).2.
Proof.
  intros (Hp & r & Hr & Hid). unfold run_on, Manager_SetRunSystemMetrics. prog_simpl.
  rewrite Hr. cbn [found]. prog_simpl.
  destruct (aput (set_run_system snap r) _ _) as [[x|e] a1] eqn:E; prog_simpl.
  - apply aput_Ok in E as ->. unfold running, preorder_of. cbn [w_state set_state set_mongo].
    replace (r_ID (set_run_system snap r)) with runID by done. split; [by rewrite aset_ne|].
    exists (set_run_system snap r). by rewrite aset_eq.
  - unfold aput in E. destruct (marshal _); simplify_eq. split; [done|]. by exists r.
Qed.

Lemma finished_run now w :
  running w → completed (run_on now (Manager_FinishRun now sessID runID "completed") w).2.
Proof.
  intros (Hp & r & Hr & Hid). unfold run_on.
  destruct (finish_run_idle now sessID runID "completed" (w_state w) (w_mongo w) encodes)
    as (a' & m' & E & Ha). split; [by rewrite E|].
  destruct (update_run_kept now runID "completed" (w_state w) r Hr) as (r' & Hr' & Heq).
  unfold Manager_FinishRun.
  cbn [st bind run fst snd]. unfold st_call at 1. cbn [astore_store].
  destruct (aexec now (UpdateRunStatus runID "completed") (w_state w)) as [x a1]. cbn [snd] in Hr'.
  prog_step. rewrite (set_preorder_ok sessID _ a1 encodes). prog_step. rewrite aset_ne by done. rewrite Hr'.
  cbn [found]. prog_step. rewrite Heq. unfold mergeRunLatencySummaries.
  cbn [r_Status set_run_metrics set_run_completed set_run_status].
  change (finished "completed") with true. cbn [negb]. prog_step.
  cbn [w_mongo set_mongo set_state]. unfold Mongo_SaveRun. cbn [mg_runs with_runs].
  eexists. rewrite c_get_put, decide_True by (cbn; congruence). split; [done|].
  unfold merge_run. by repeat case_match.
Qed.

Lemma own_end_state ph w tr ph' w' :
  own seller clock order readFile cfg sd (ph, w) tr (ph', w') →
  end_state ph w → end_state ph' w'.
Proof.
  intros Ho He. inversion Ho; subst; try exact He.
  - eapply end_state_same; [apply same_effect|exact He].
  - unfold after_stage. eapply end_state_same; [apply same_metrics|]. by destruct (_ =? 0)%nat.
  - by destruct st.
  - eapply end_state_same; [apply same_finalize|exact He].
  - by apply measured.
  - by apply finished_run.
  - eapply end_state_same; [|exact He]. eapply same_runs_trans; [|apply same_flush]. by split_and!.
Qed.

Lemma exec_end_state n tr s1 s2 :
  exec_run http_do callbacks seller clock order readFile cfg sd n tr s1 s2 →
  end_state s1.1 s1.2 → end_state s2.1 s2.2.
Proof.
  induction 1 as [|n tr tr' s1 [ph2 w2] [ph3 w3] _ IH Ho|n tr s1 ph w w' _ IH Henv]; intros He; [done| |].
  - eapply own_end_state; [exact Ho|by apply IH].
  - eapply end_state_same; [by apply same_env|by apply IH].
Qed.
End EndState.

(** ** What [startPreorder] does *)
Section Starts.
Context {B : Type} `{MongoServer B, JsonCodec B, Sprint, Env, Rand, Bytes B, SessionWire B}.
Variable cfg : Config.
Hypothesis encodes : ∀ ps : PreorderState, marshal ps ≠ None.
Implicit Types (a : astore B) (m : MongoStore B).

(** A request that is served. *)
Definition served (readFile : string → result error B) (now : Z) (uuid id : string)
    (req : option preorderRequest) (sd : started B) a m a' : Prop :=
  let sess := sd_session sd in
  ∃ cs rq payload rps dur,
    a (KSession id) = Some sess ∧ s_Status sess = SessionActive ∧ (now ≤ s_ExpiresAt sess)%Z ∧
    a (KCatalog (s_ID sess)) = Some cs ∧ cs_Status cs = CatalogReady ∧
    req = Some rq ∧ requested cfg rq = (rps, dur) ∧ (rps ≤ PerSessionRPSLimit cfg)%Z ∧
    ps_Status (preorder_of (s_ID sess) a) ≠ PreorderRunning ∧
    Mongo_GetCatalog (s_ID sess) m = Ok payload ∧
    select_batch readFile (on_search_of payload) (wrap64 (rps * dur)) (pr_TransactionID rq)
      = Done (Ok (sd_selects sd)) ∧
    sd_txns sd = ExtractTransactionIDs (sd_selects sd) ∧ sd_rps sd = rps ∧
    sd_run sd = new_run now (s_ID sess) (s_BPPID sess) rps dur uuid ∧
    preorder_of (s_ID sess) a' = mkPreorderState PreorderRunning uuid ∧
    a' (KRun uuid) = Some (sd_run sd) ∧
    (∀ s, s ≠ s_ID sess → a' (KPreorder s) = a (KPreorder s)).

(** One that ends the process: the order of the example is null.  The session
    stays busy with a run no goroutine executes. *)
Definition crashed (readFile : string → result error B) (uuid id : string) a a' : Prop :=
  ∃ sess raw tmpl,
    a (KSession id) = Some sess ∧ readFile select_path = Ok raw ∧
    (j ← json_unmarshal raw; decode_envelope j) = Some tmpl ∧
    decode_order (env_Message tmpl) = Some None ∧
    preorder_of (s_ID sess) a' = mkPreorderState PreorderRunning uuid ∧
    (∀ s, s ≠ s_ID sess → a' (KPreorder s) = a (KPreorder s)).

(** One that is not leaves no session busy, and touches none that was. *)
Definition refused a a' : Prop :=
  ∀ s, preorder_of s a' = preorder_of s a ∨
       ps_Status (preorder_of s a) ≠ PreorderRunning ∧
       preorder_of s a' = mkPreorderState PreorderIdle "".

Lemma aput_other {T} `{Wire B T} (x : T) f a k :
  (f a) k = a k → (aput x f a).2 k = a k.
Proof. intros E. unfold aput. by destruct (marshal x). Qed.

(** [FinishRun] leaves the other sessions alone. *)
Lemma finish_run_other now sess id status a m s :
  s ≠ sess →
  (run now (Manager_FinishRun now sess id status) (a, m)).2.1 (KPreorder s) = a (KPreorder s).
Proof.
  intros Hs. unfold Manager_FinishRun.
  pose proof (metrics_kept now id status a (KPreorder s)) as Hk.
  cbn [st bind run fst snd]. unfold st_call at 1. cbn [astore_store].
  destruct (aexec now (UpdateRunStatus id status) a) as [x a1]. cbn [snd] in Hk.
  prog_step. rewrite (set_preorder_ok sess _ a1 encodes). prog_step.
  rewrite aset_ne by done.
  destruct (found _ (a1 (KRun id))) as [r|e]; prog_step; [|rewrite aset_ne by congruence; by apply Hk].
  unfold mergeRunLatencySummaries.
  destruct (negb _); prog_step; (rewrite aset_ne by congruence; by apply Hk).
Qed.

Lemma select_batch_panic readFile (os : option B) n txn :
  select_batch readFile os n txn = Panic →
  ∃ raw tmpl, readFile select_path = Ok raw ∧ (j ← json_unmarshal raw; decode_envelope j) = Some tmpl ∧
    decode_order (env_Message tmpl) = Some None.
Proof.
  intros E. assert (∃ t, generateFromOnSearch readFile os select_path n t = Panic) as [t Eg]
    by (unfold select_batch in E; destruct (txn =? ""); by eexists).
  clear E. unfold generateFromOnSearch in Eg. destruct os as [os|]; [|done].
  destruct (n <=? 0)%Z; [done|]. destruct (_ ≫= _) as [onEnv|]; [|done].
  destruct (readFile select_path) as [raw|]; [|done].
  destruct (json_unmarshal raw ≫= _) as [tmpl|] eqn:Et; [|done].
  destruct (decode_order (env_Message tmpl)) as [[base|]|] eqn:Ed; [|by exists raw, tmpl|done].
  unfold buildDistinctOrdersFromOnSearch in Eg. by repeat (case_match; try done).
Qed.

(** The two parts make up the whole. *)
Lemma start_split readFile now uuid id req a m :
  run now (startPreorder cfg readFile now uuid id req) (a, m) =
  run now (let! r := start_checks cfg now id req in
           match r with Err e => Ret (Done (Err e)) | Ok ad => start_commit readFile now uuid ad end) (a, m).
Proof.
  unfold startPreorder, start_checks. rewrite !run_bind.
  destruct (run now (start_request cfg now id req) (a, m)) as [[ad|e] [a1 m1]]; [|done].
  unfold Manager_StartRun, start_commit. rewrite !run_bind, start_check_run.
  case_bool_decide; [done|]. cbn [run]. by rewrite run_bind.
Qed.

(** What the check of a start is for: a live session with a catalog that is
    not busy, and a rate within the limit.  It changes nothing. *)
Definition admitted (now : Z) (id : string) (req : option preorderRequest) (ad : admission) a : Prop :=
  let sess := ad_session ad in
  a (KSession id) = Some sess ∧ s_Status sess = SessionActive ∧ (now ≤ s_ExpiresAt sess)%Z ∧
  (∃ cs, a (KCatalog (s_ID sess)) = Some cs ∧ cs_Status cs = CatalogReady) ∧
  req = Some (ad_request ad) ∧ requested cfg (ad_request ad) = (ad_rps ad, ad_dur ad) ∧
  (ad_rps ad ≤ PerSessionRPSLimit cfg)%Z ∧
  ps_Status (preorder_of (s_ID sess) a) ≠ PreorderRunning.

Lemma checks_outcome now id req a m :
  ∃ r, run now (start_checks cfg now id req) (a, m) = (r, (a, m)) ∧ ∀ ad, r = Ok ad → admitted now id req ad a.
Proof.
  unfold start_checks, start_request.
  pose proof (get_run now id a m) as Hg. rewrite !run_bind.
  assert ((run now (Manager_Get now id) (a, m)).2 = (a, m)) as Hw.
  { unfold Manager_Get. prog_step. destruct (a (KSession id)) as [s|]; cbn [found]; prog_step; [|done].
    destruct (s_Status s); try done; by destruct (past_expiry now s). }
  destruct (run now (Manager_Get now id) (a, m)) as [r w]. cbn [fst snd] in *. subst w.
  destruct r as [sess|e]; [|by eexists].
  destruct (a (KSession id)) as [s|] eqn:Es; [|done]. case_bool_decide as Hlive; [|done].
  simplify_eq. destruct Hlive as [Hact Hexp].
  prog_step. destruct (a (KCatalog (s_ID s))) as [cs|] eqn:Ec; cbn [default]; [|by eexists].
  case_bool_decide as Hready; cbn [negb]; [|by eexists].
  destruct req as [rq|]; [|by eexists]. destruct (requested cfg rq) as [rps dur] eqn:Er. cbn [run].
  destruct (Z.ltb_spec (PerSessionRPSLimit cfg) rps); [by eexists|].
  rewrite run_bind, start_check_run. cbn [ad_session].
  case_bool_decide as Hi; [by eexists|]. eexists. split; [done|]. intros ad [= <-].
  unfold admitted. cbn [ad_session ad_request ad_rps ad_dur]. split_and!; eauto.
Qed.

(** What the rest of it does, whatever the session's state is by then: the run
    is recorded and its session busy with it; or it is refused, and then the
    session is as it was or idle. *)
Definition committed (readFile : string → result error B) (now : Z) (uuid : string) (ad : admission)
    (sd : started B) a m a' : Prop :=
  let sess := ad_session ad in
  sd_session sd = sess ∧
  (∃ payload, Mongo_GetCatalog (s_ID sess) m = Ok payload ∧
     select_batch readFile (on_search_of payload) (wrap64 (ad_rps ad * ad_dur ad)) (pr_TransactionID (ad_request ad))
       = Done (Ok (sd_selects sd))) ∧
  sd_txns sd = ExtractTransactionIDs (sd_selects sd) ∧ sd_rps sd = ad_rps ad ∧
  sd_run sd = new_run now (s_ID sess) (s_BPPID sess) (ad_rps ad) (ad_dur ad) uuid ∧
  preorder_of (s_ID sess) a' = mkPreorderState PreorderRunning uuid ∧
  a' (KRun uuid) = Some (sd_run sd) ∧
  (∀ s, s ≠ s_ID sess → a' (KPreorder s) = a (KPreorder s)).

Definition withdrawn (ad : admission) a a' : Prop :=
  (∀ s, s ≠ s_ID (ad_session ad) → a' (KPreorder s) = a (KPreorder s)) ∧
  (preorder_of (s_ID (ad_session ad)) a' = preorder_of (s_ID (ad_session ad)) a ∨
   preorder_of (s_ID (ad_session ad)) a' = mkPreorderState PreorderIdle "").

Lemma batch_failed now ad u uuid r a m :
  let sess := ad_session ad in
  let a1 := aset (KPreorder (s_ID sess)) (Some (mkPreorderState PreorderRunning uuid)) (aset (KRun uuid) (Some r) a) in
  withdrawn ad a (run now (Manager_FinishRun now (s_ID sess) u "failed") (a1, m)).2.1.
Proof.
  intros sess a1. split.
  - intros s Hs. rewrite finish_run_other by done. unfold a1. by akey.
  - right. by destruct (finish_run_idle now (s_ID sess) u "failed" a1 m encodes) as (a' & m' & -> & E).
Qed.

Lemma commit_outcome readFile now uuid ad a m :
  let '(r, (a', m')) := run now (start_commit readFile now uuid ad) (a, m) in
  match r with
  | Done (Ok sd) => committed readFile now uuid ad sd a m a' ∧ m' = m
  | Done (Err _) => withdrawn ad a a'
  | Panic =>
      (∃ raw tmpl, readFile select_path = Ok raw ∧ (j ← json_unmarshal raw; decode_envelope j) = Some tmpl ∧
         decode_order (env_Message tmpl) = Some None) ∧
      preorder_of (s_ID (ad_session ad)) a' = mkPreorderState PreorderRunning uuid ∧
      (∀ s, s ≠ s_ID (ad_session ad) → a' (KPreorder s) = a (KPreorder s))
  end.
Proof.
  unfold start_commit. rewrite run_bind.
  pose proof (start_write_cases now (s_ID (ad_session ad)) (s_BPPID (ad_session ad)) (ad_rps ad) (ad_dur ad) uuid a m) as Hc.
  destruct (run now (StartRun_write _ _ _ _ _ _) (a, m)) as [[r|e] [a1 m1]].
  2: { destruct Hc as [Hk _]. split; [intros s _; apply Hk|left]. unfold preorder_of. by rewrite Hk. }
  destruct Hc as [-> [= -> ->]]. unfold start_batch. set (r := new_run _ _ _ _ _ _).
  pose proof (batch_failed now ad (r_ID r) uuid r a m) as Hf. cbv zeta in Hf.
  set (a1 := aset _ _ (aset _ _ a)) in *. prog_step.
  destruct (Mongo_GetCatalog (s_ID (ad_session ad)) m) as [payload|e] eqn:Em.
  2: { rewrite run_bind. by destruct (run now (Manager_FinishRun _ _ _ _) _) as [x [a2 m2]]. }
  destruct (select_batch _ _ _ _) as [[selects|e]|] eqn:Eg.
  - prog_step. split; [|done]. unfold committed. cbn [sd_session sd_run sd_rps sd_selects sd_txns].
    split_and!; try done; [by eexists|unfold preorder_of, a1; by akey|unfold a1; by akey|].
    intros s Hs. unfold a1. by akey.
  - rewrite run_bind. by destruct (run now (Manager_FinishRun _ _ _ _) _) as [x [a2 m2]].
  - prog_step. split; [by eapply select_batch_panic|]. split; [unfold preorder_of, a1; by akey|].
    intros s Hs. unfold a1. by akey.
Qed.

Lemma start_outcome readFile now uuid id req a m :
  let '(r, (a', m')) := run now (startPreorder cfg readFile now uuid id req) (a, m) in
  match r with
  | Done (Ok sd) => served readFile now uuid id req sd a m a' ∧ m' = m
  | Done (Err _) => refused a a'
  | Panic => crashed readFile uuid id a a'
  end.
Proof.
  rewrite start_split, run_bind. destruct (checks_outcome now id req a m) as (r & -> & Had).
  destruct r as [ad|e]; [|by left].
  destruct (Had ad eq_refl) as (Hs & Hact & Hexp & (cs & Hcs & Hready) & Hreq & Hrate & Hlim & Hidle).
  pose proof (commit_outcome readFile now uuid ad a m) as Hc.
  destruct (run now (start_commit _ _ _ _) (a, m)) as [[[sd|e]|] [a' m']].
  - destruct Hc as [(E & (payload & Hp & Hb) & Htx & Hrps & Hrun & Hbusy & Hk & Ho) ->]. split; [|done].
    exists cs, (ad_request ad), payload, (ad_rps ad), (ad_dur ad). rewrite E. by split_and!.
  - destruct Hc as [Ho Hx]. intros s. destruct (decide (s = s_ID (ad_session ad))) as [->|Hne].
    + destruct Hx as [->| ->]; [by left|by right].
    + left. unfold preorder_of. by rewrite Ho.
  - destruct Hc as ((raw & tmpl & ? & ? & ?) & Hbusy & Ho). by exists (ad_session ad), raw, tmpl.
Qed.
End Starts.

(** C22: A run is started only for a live session whose catalog is ready, that
    is not busy, at a rate within the limit, with selects made from its stored
    catalog; the session is then busy with that run, the run is recorded and
    no other session is touched.
    A start that is refused, for whichever reason and however late, leaves no
    session busy that was not and touches none that was.  There is one way to
    crash: with an example whose order is null, and then the session stays
    busy. *)
Theorem start_preorder_outcome {B} `{MongoServer B, JsonCodec B, Sprint, Env, Rand, Bytes B,
    SessionWire B} cfg readFile now uuid id req (a : astore B) m r a' m' :
  (∀ ps : PreorderState, marshal ps ≠ None) →
  run now (startPreorder cfg readFile now uuid id req) (a, m) = (r, (a', m')) →
  match r with
  | Done (Ok sd) => served cfg readFile now uuid id req sd a m a' ∧ m' = m
  | Done (Err _) => refused a a'
  | Panic => crashed readFile uuid id a a'
  end.
Proof. intros He E. pose proof (start_outcome cfg He readFile now uuid id req a m) as Ho. by rewrite E in Ho. Qed.

(** C18: From the moment a run is started until its goroutine ends, whatever is
    called back and written meanwhile, its session is busy with it; when the
    goroutine has finished the run, the session is idle and the run is saved
    as completed, and that stays so while the log is flushed and cleaned.
    (Other requests of the API on the session are not part of the run.) *)
Theorem run_end_state {B L} `{Crypto, Bytes B, JsonCodec B, Sprint, MongoServer B, SessionWire B,
    RunLogStore B L, Env, Rand} http_do (callbacks : controller B) seller clock order
    readFile cfg now uuid id req sd cs (w0 w1 : world B (astore B) L) n tr ph w :
  (∀ ps : PreorderState, marshal ps ≠ None) →
  run_on now (startPreorder cfg readFile now uuid id req) w0 = (Done (Ok sd), w1) →
  exec_run http_do callbacks seller clock order readFile cfg sd n tr
    (run_start sd cs w1) (ph, w) →
  end_state sd ph w.
Proof.
  intros He Hs Hx.
  apply (exec_end_state _ _ _ _ _ _ _ _ He _ _ _ _ Hx). unfold run_start, end_state. cbn [fst snd].
  pose proof (start_outcome cfg He readFile now uuid id req (w_state w0) (w_mongo w0)) as Ho.
  unfold run_on in Hs. destruct (run _ _ _) as [x [a' m']]. simplify_eq.
  destruct Ho as [(? & ? & ? & ? & ? & Ho) _]. destruct_and! Ho.
  match goal with E : sd_run sd = _ |- _ =>
    unfold running; split; [by rewrite E|]; exists (sd_run sd); rewrite E in *; by split end.
Qed.

(** ** Every run can be brought to its end *)
Section Reach.
Context {B S L : Type}.
Context `{Crypto, Bytes B, JsonCodec B, Sprint, MongoServer B, StateStore B S, RunLogStore B L, Env}.
Variable http_do : Z → string → B → option string → result error (Z * B).
Variable callbacks : controller B.
Variable seller : string → nat → B → option error.
Variable clock : nat → Z.
Variable order : gset string → list string.
Variable readFile : string → result error B.
Variable cfg : Config.
Variable sd : started B.

Lemma run_reaches_end k n tr s1 s2 :
  (phase_weight sd s2.1 ≤ k)%nat → phase_ok seller clock cfg sd s2.1 →
  exec_run http_do callbacks seller clock order readFile cfg sd (S := S) (L := L) n tr s1 s2 →
  ∃ n' tr' w, exec_run http_do callbacks seller clock order readFile cfg sd n' tr' s1 (Stopped, w).
Proof.
  revert n tr s2. induction k as [|k IH]; intros n tr [ph w] Hk Hok Hx; cbn [fst] in *;
    (destruct (own_progress seller clock order readFile cfg sd ph w Hok)
      as [->|(tr' & s3 & Ho)]; [by exists n, tr, w|]);
    destruct (own_decreases seller clock order readFile cfg sd _ _ _ Ho Hok); cbn [fst] in *; [lia|].
  apply (IH (Datatypes.S n) (tr ++ tr')%list s3); [lia|done|]. by eapply run_own.
Qed.

Lemma run_ends cs (w0 : world B S L) :
  ∃ n tr w, exec_run http_do callbacks seller clock order readFile cfg sd n tr
    (run_start sd cs w0) (Stopped, w).
Proof.
  destruct (start_ok seller clock cfg sd cs) as [Hok _].
  eapply (run_reaches_end _ 0 [] _ (run_start sd cs w0)); [reflexivity|exact Hok|constructor].
Qed.
End Reach.

(** ** Witnesses: two selects of the demo catalog *)
Section Demo.
#[local] Existing Instances wire_text wire_json wire_sessions toy_crypto wire_sprint demo_env demo_rand.
#[local] Transparent gmap_empty.

Definition ready_state : astore wire :=
  aset (KCatalog "s1") (Some (mkCatalogState CatalogReady "m1" 0))
    (aset (KSession "s1") (Some demo_session) astore_empty).
Definition ready_mongo : MongoStore wire := Mongo_SaveCatalog 0 "s1" (WJson demo_onsearch) NewMongoStore.
Definition ready_world : world wire (astore wire) (MemoryStore wire) :=
  mkWorld ready_state ready_mongo NewMemoryStore [] [] ∅ ∅.
Definition demo_files (path : string) : result error wire :=
  if path =? select_path then Ok (WJson demo_template) else Err (EText "no file").
Definition ready_start : prog wire (outcome (result error (started wire))) :=
  startPreorder demo_cfg demo_files 0 "r1" "s1" (Some (mkPreorder 1 2 "")).

Lemma ready_starts : ∃ sd w, run_on 0 ready_start ready_world = (Done (Ok sd), w).
Proof.
  unfold run_on, w_state, w_mongo, ready_world.
  assert (done_ok (run 0 ready_start (ready_state, ready_mongo)).1 = true) as [sd E]%done_ok_Done
    by (vm_compute; reflexivity).
  destruct (run 0 ready_start (ready_state, ready_mongo)) as [x [s m]]. cbn [fst] in E. subst x.
  by eexists _, _.
Qed.

Abbreviation demo_exec sd := (exec_run demo_registry demo_controller (λ _ _ _, None) Z.of_nat elements
  demo_files demo_cfg sd (S := astore wire)).
Definition demo_coordinator (i : nat) : BCoordinator := NewBCoordinator (mkBap "" "" "").

Lemma demo_marshal (ps : PreorderState) : marshal (B := wire) ps ≠ None.
Proof. discriminate. Qed.

Lemma run_terminates_witness :
  ∃ sd n tr w, demo_exec sd n tr (run_start sd demo_coordinator ready_world) (Stopped, w) ∧
    (n ≤ 120 * batch_max sd + 57)%nat.
Proof.
  destruct ready_starts as (sd & w1 & _).
  destruct (run_ends demo_registry demo_controller (λ _ _ _, None) Z.of_nat elements
    demo_files demo_cfg sd demo_coordinator ready_world)
    as (n & tr & w & Hx).
  exists sd, n, tr, w. split; [exact Hx|]. by destruct (run_terminates _ _ _ _ _ _ _ _ _ _ _ _ _ _ Hx).
Defined.

Lemma run_stages_in_order_witness :
  ∃ sd n w (t : stage → list (effect wire)),
    demo_exec sd n (t SSelect ++ t SInit ++ t SConfirm)%list
      (run_start sd demo_coordinator ready_world) (Stopped, w).
Proof.
  destruct ready_starts as (sd & w1 & _).
  destruct (run_ends demo_registry demo_controller (λ _ _ _, None) Z.of_nat elements
    demo_files demo_cfg sd demo_coordinator ready_world)
    as (n & tr & w & Hx).
  destruct (run_stages_in_order _ _ _ _ _ _ _ _ _ _ _ _ _ Hx) as (t & -> & _).
  by exists sd, n, w, t.
Defined.

Lemma start_preorder_outcome_witness :
  ∃ sd a', served demo_cfg demo_files 0 "r1" "s1" (Some (mkPreorder 1 2 "")) sd
    ready_state ready_mongo a'.
Proof.
  assert (done_ok (run 0 ready_start (ready_state, ready_mongo)).1 = true) as [sd E]%done_ok_Done
    by (vm_compute; reflexivity).
  destruct (run 0 ready_start (ready_state, ready_mongo)) as [x [s m]] eqn:Er. cbn [fst] in E. subst x.
  destruct (start_preorder_outcome demo_cfg demo_files 0 "r1" "s1" (Some (mkPreorder 1 2 ""))
    ready_state ready_mongo (Done (Ok sd)) s m demo_marshal Er) as [Hs _].
  by exists sd, s.
Defined.

Lemma run_end_state_witness :
  ∃ sd w1 n tr w, run_on 0 ready_start ready_world = (Done (Ok sd), w1) ∧
    demo_exec sd n tr (run_start sd demo_coordinator w1) (Stopped, w) ∧ completed sd w.
Proof.
  destruct ready_starts as (sd & w1 & Hs).
  destruct (run_ends demo_registry demo_controller (λ _ _ _, None) Z.of_nat elements
    demo_files demo_cfg sd demo_coordinator w1)
    as (n & tr & w & Hx).
  exists sd, w1, n, tr, w. split; [exact Hs|]. split; [exact Hx|].
  exact (run_end_state _ _ _ _ _ _ demo_cfg 0 "r1" "s1" (Some (mkPreorder 1 2 "")) sd _ ready_world w1 _ _ _ _ demo_marshal Hs Hx).
Defined.
End Demo.
