(* ===== verification/Report.v ===== *)
(** * The report of a run's files: [internal/domain/pipeline/report.go]

    The report is computed from the files a run log wrote: one directory per
    action, one file per transaction, whose modification time is the time it
    was recorded.  [os.ReadDir] is a parameter: the entries of a directory, or
    [None] when it cannot be read.  [Artefacts.v] writes the report to a file. *)
From stdpp Require Import prelude gmap list strings sorting.
From Stdlib Require Import Ascii SpecFloat.
From S2P Require Import Prelude GoStrings GoTime Float64 Json Latency.
Local Open Scope string_scope.

(** An entry of a directory; [Info] and the content may fail to be read. *)
Record DirEntry (B : Type) := mkEntry {
  de_Name : string;
  de_IsDir : bool;
  de_ModTime : option Z;
  de_Data : option B;
}.
Arguments mkEntry {B}.
Arguments de_Name {B}.
Arguments de_IsDir {B}.
Arguments de_ModTime {B}.
Arguments de_Data {B}.

Record StageReport := mkStage {
  sr_Stage : string;
  sr_Sent : Z;
  sr_AckCount : Z;
  sr_NackCount : Z;
  sr_NoCallback : Z;
  sr_P50MS : float64;
  sr_P95MS : float64;
  sr_P99MS : float64;
  sr_AvgMS : float64;
}.

Record RunReport := mkReport { rr_RunID : string; rr_Stages : list StageReport; rr_GeneratedAt : Z }.

Record stagePair := mkPair { sp_name : string; sp_sendDir : string; sp_recvDir : string }.

Definition report_pairs : list stagePair :=
  [mkPair "select" "select" "on_select"; mkPair "init" "init" "on_init";
   mkPair "confirm" "confirm" "on_confirm"].

(** [filepath.Ext]: from the last dot of a name without separators. *)
Fixpoint Ext (s : string) : string :=
  match s with
  | "" => ""
  | String c s' => if has_char "."%char s' then Ext s' else if Ascii.eqb c "."%char then s else ""
  end.

(** [Time.Sub]: the difference, clamped to the range of a [Duration]. *)
Definition time_Sub (t u : Z) : Z := Z.max (- 2 ^ 63) (Z.min (2 ^ 63 - 1) (t - u)).

(** [sort.Float64s] orders by [<], NaN first; the program sorts no NaN. *)
Definition f64_sorted (x y : float64) : Prop := f64_ltb y x = false.
#[export] Instance f64_sorted_dec : RelDecision f64_sorted.
Proof. intros x y. unfold f64_sorted. apply _. Defined.
#[export] Instance f64_sorted_total : Total f64_sorted.
Proof.
  intros x y. unfold f64_sorted. destruct (f64_ltb y x) eqn:E; [right|by left].
  by apply f64_ltb_asym.
Qed.
Definition Float64s : list float64 → list float64 := merge_sort f64_sorted.

(** [percentile]: the index is the one of [percentileMs], always in range. *)
Definition percentile (sorted : list float64) (p : float64) : float64 :=
  match sorted with
  | [] => f64_of_Z 0
  | _ => nth (Z.to_nat (percentile_index (Z.of_nat (length sorted)) p)) sorted (f64_of_Z 0)
  end.

Section Report.
Context {B : Type} `{JsonCodec B}.
Variable readDir : string → option (list (DirEntry B)).

(** The [os.FileInfo]s of the JSON files. *)
Definition listJSONFiles (dir : string) : list (DirEntry B * Z) :=
  match readDir dir with
  | None => []
  | Some entries =>
      omap (λ e, if de_IsDir e || negb (Ext (de_Name e) =? ".json") then None
                 else (λ t, (e, t)) <$> de_ModTime e) entries
  end.

Definition recv_set (l : list (DirEntry B * Z)) : gmap string (DirEntry B * Z) :=
  index_by (λ fi, de_Name fi.1) l.

(** [isNack] of the received file. *)
Definition file_isNack (e : DirEntry B) : bool :=
  match de_Data e with
  | None => false
  | Some data => let s := ack_status (json_unmarshal data) in negb (s =? "") && negb (s =? "ACK")
  end.

Record counts := mkCounts { ct_ack : Z; ct_nack : Z; ct_none : Z; ct_latencies : list float64 }.

(** The loop over the sent files. *)
Fixpoint count_files (recv : gmap string (DirEntry B * Z)) (sent : list (DirEntry B * Z)) (c : counts)
  : counts :=
  match sent with
  | [] => c
  | (e, at_) :: sent =>
      count_files recv sent
        match recv !! de_Name e with
        | None => mkCounts (ct_ack c) (ct_nack c) (ct_none c + 1) (ct_latencies c)
        | Some (r, received) =>
            if file_isNack r then mkCounts (ct_ack c) (ct_nack c + 1) (ct_none c) (ct_latencies c)
            else
              let lat := time_Sub received at_ in
              mkCounts (ct_ack c + 1) (ct_nack c) (ct_none c)
                (if (0 <=? lat)%Z then (ct_latencies c ++ [f64_of_Z (Milliseconds lat)])%list
                 else ct_latencies c)
        end
  end.

(** [math.Round(sum/n*100) / 100]. *)
Definition average (l : list float64) : float64 :=
  let sum := foldl f64_add (f64_of_Z 0) l in
  f64_div (f64_round (f64_mul (f64_div sum (f64_of_Z (Z.of_nat (length l)))) (f64_of_Z 100))) (f64_of_Z 100).

Definition buildStageReport (base : string) (p : stagePair) : StageReport :=
  let z := f64_of_Z 0 in
  let sent := listJSONFiles (base ++ "/" ++ sp_sendDir p) in
  if (length sent =? 0)%nat then mkStage (sp_name p) 0 0 0 0 z z z z
  else
    let recv := recv_set (listJSONFiles (base ++ "/" ++ sp_recvDir p)) in
    let c := count_files recv sent (mkCounts 0 0 0 []) in
    let mk := mkStage (sp_name p) (Z.of_nat (length sent)) (ct_ack c) (ct_nack c) (ct_none c) in
    if (length (ct_latencies c) =? 0)%nat then mk z z z z
    else
      let l := Float64s (ct_latencies c) in
      mk (percentile l p50c) (percentile l p95c) (percentile l p99c) (average l).

(** [stat] tells whether the run's directory exists. *)
Definition GenerateRunReport (stat : string → bool) (now : Z) (runsRoot runID : string)
  : option RunReport :=
  let base := runsRoot ++ "/" ++ runID ++ "/pipeline_b" in
  if stat base
  then Some (mkReport runID
    (filter (λ sr, (0 < sr_Sent sr)%Z) (buildStageReport base <$> report_pairs)) now)
  else None.
End Report.

(** ** Percentiles of floats and of integers *)

Definition exact_ms (l : list Z) : Prop := Forall (λ z, 0 ≤ z < 2 ^ 53)%Z l.

Lemma sorted_of_floats l :
  exact_ms l → Sorted f64_sorted (f64_of_Z <$> l) → Sorted Z.le l.
Proof.
  induction l as [|x l IH]; intros Hl Hs; [constructor|].
  apply Forall_cons in Hl as [Hx Hl]. inversion Hs as [|? ? Hs' Hd]; subst.
  constructor; [by apply IH|]. destruct l as [|y l]; [constructor|].
  apply Forall_cons in Hl as [Hy _]. inversion Hd as [|? ? E]; subst. constructor.
  unfold f64_sorted in E. rewrite f64_ltb_of_Z in E by done. by apply Z.ltb_ge.
Qed.

Lemma Float64s_ms l : exact_ms l → Float64s (f64_of_Z <$> l) = f64_of_Z <$> sort_ms l.
Proof.
  intros Hl.
  pose proof (merge_sort_Permutation f64_sorted (f64_of_Z <$> l)) as Hp.
  pose proof (Sorted_merge_sort f64_sorted (f64_of_Z <$> l)) as Hs.
  unfold Float64s. destruct (Permutation_map_inv _ _ Hp) as (l' & E & Hl'). rewrite E in *.
  change (map f64_of_Z l') with (f64_of_Z <$> l') in *. f_equal.
  assert (exact_ms l') as He by (unfold exact_ms; by rewrite <- Hl').
  apply (StronglySorted_unique Z.le).
  - apply Sorted_StronglySorted; [intros ???; lia|]. by apply sorted_of_floats.
  - apply sort_ms_sorted.
  - by rewrite sort_ms_perm.
Qed.

Lemma percentile_ms l p :
  f64_leb p (f64_of_Z 0) = false → f64_leb (f64_of_Z 1) p = false →
  percentile (f64_of_Z <$> l) p = f64_of_Z (percentileMs l p).
Proof.
  intros H0 H1. destruct l as [|x l]; [done|].
  change (percentile (f64_of_Z <$> x :: l) p) with
    (nth (Z.to_nat (percentile_index (Z.of_nat (length (f64_of_Z <$> x :: l))) p))
      (map f64_of_Z (x :: l)) (f64_of_Z 0)).
  rewrite map_nth, length_fmap. unfold percentileMs, nth_z. by rewrite H0, H1.
Qed.

(** ** What is counted *)
Section Exact.
Context {B : Type} `{JsonCodec B}.
Implicit Types (sent recv : list (DirEntry B * Z)) (s r : DirEntry B * Z).

(** The received file of a sent one, and what it says. *)
Definition answer recv s : option (DirEntry B * Z) :=
  snd <$> list_find (λ r, de_Name r.1 = de_Name s.1) recv.
Definition silent recv s : bool := bool_decide (answer recv s = None).
Definition nacked recv s : bool := match answer recv s with Some r => file_isNack r.1 | None => false end.
Definition acked recv s : bool :=
  match answer recv s with Some r => negb (file_isNack r.1) | None => false end.
Definition sample recv s : option Z :=
  r ← answer recv s;
  if file_isNack r.1 then None
  else if (s.2 <=? r.2)%Z then Some (Milliseconds (time_Sub r.2 s.2)) else None.

Lemma recv_set_lookup recv s :
  NoDup ((λ r, de_Name r.1) <$> recv) → recv_set recv !! de_Name s.1 = answer recv s.
Proof.
  intros Hn. unfold answer, recv_set.
  destruct (list_find (λ r, de_Name r.1 = de_Name s.1) recv) as [[i r]|] eqn:E; csimpl.
  - apply list_find_Some in E as (Hi & Hr & _).
    apply index_by_lookup; [by eapply list_elem_of_lookup_2|done|].
    intros x [j Hj]%list_elem_of_lookup_1 Hx.
    assert (j = i) as -> by (eapply NoDup_lookup; [exact Hn|by rewrite list_lookup_fmap, Hj|];
      rewrite list_lookup_fmap, Hi; csimpl; congruence).
    congruence.
  - apply list_find_None in E. rewrite Forall_forall in E. by apply index_by_none.
Qed.

(** The classes of a sent file, by its answer. *)
Lemma class_cases recv s :
  match answer recv s with
  | None => acked recv s = false ∧ nacked recv s = false ∧ silent recv s = true ∧ sample recv s = None
  | Some (r, u) =>
      acked recv s = negb (file_isNack r) ∧ nacked recv s = file_isNack r ∧ silent recv s = false ∧
      sample recv s = (if file_isNack r then None
                       else if (0 <=? time_Sub u s.2)%Z then Some (Milliseconds (time_Sub u s.2)) else None)
  end.
Proof.
  unfold acked, nacked, silent, sample. destruct (answer recv s) as [[r u]|]; [|done].
  split_and!; [done..|]. csimpl. destruct (file_isNack r); [done|].
  replace (s.2 <=? u)%Z with (0 <=? time_Sub u s.2)%Z; [done|].
  unfold time_Sub. destruct (Z.leb_spec s.2 u); [apply Z.leb_le|apply Z.leb_gt]; lia.
Qed.

(** The loop, from counts so far. *)
Lemma count_files_spec recv sent c :
  NoDup ((λ r, de_Name r.1) <$> recv) →
  count_files (recv_set recv) sent c =
    mkCounts (ct_ack c + Z.of_nat (countb (acked recv) sent))
      (ct_nack c + Z.of_nat (countb (nacked recv) sent))
      (ct_none c + Z.of_nat (countb (silent recv) sent))
      (ct_latencies c ++ (f64_of_Z <$> omap (sample recv) sent))%list.
Proof.
  intros Hn. revert c. induction sent as [|[e t] sent IH]; intros c.
  { destruct c; simpl. by rewrite !Z.add_0_r, app_nil_r. }
  cbn [count_files]. rewrite IH.
  pose proof (recv_set_lookup recv (e, t) Hn) as E. cbn [fst] in E. rewrite E.
  cbn [countb omap list_omap]. pose proof (class_cases recv (e, t)) as Hc. cbn [snd] in Hc.
  destruct (answer recv (e, t)) as [[r u]|]; destruct Hc as (-> & -> & -> & ->); [|f_equal; simpl; lia].
  destruct (file_isNack r); [f_equal; simpl; lia|].
  destruct (0 <=? time_Sub u t)%Z; f_equal; try (simpl; lia).
  cbn [ct_latencies]. by rewrite fmap_cons, <- (assoc_L (++)%list).
Qed.

Lemma samples_exact recv sent : exact_ms (omap (sample recv) sent).
Proof.
  apply Forall_forall. intros z (s & _ & E)%list_elem_of_omap. unfold sample in E.
  destruct (answer recv s) as [r|]; simplify_option_eq. destruct (file_isNack r.1); [done|].
  destruct (Z.leb_spec s.2 r.2); simplify_eq.
  assert (0 ≤ time_Sub r.2 s.2 ≤ 2 ^ 63 - 1)%Z by (unfold time_Sub; lia).
  unfold Milliseconds, millisecond. rewrite Z.quot_div_nonneg by lia.
  split; [apply Z.div_pos; lia|]. apply Z.div_lt_upper_bound; lia.
Qed.

Lemma classes_add recv sent :
  (countb (acked recv) sent + countb (nacked recv) sent + countb (silent recv) sent = length sent)%nat.
Proof.
  induction sent as [|s sent IH]; [done|]. cbn [countb length].
  pose proof (class_cases recv s) as Hc.
  destruct (answer recv s) as [[r u]|]; destruct Hc as (-> & -> & -> & _);
    [destruct (file_isNack r)|]; simpl; lia.
Qed.

Variable readDir : string → option (list (DirEntry B)).

Lemma stage_name base p : sr_Stage (buildStageReport readDir base p) = sp_name p.
Proof. unfold buildStageReport. repeat case_match; done. Qed.
Lemma stage_sent base p :
  sr_Sent (buildStageReport readDir base p)
  = Z.of_nat (length (listJSONFiles readDir (base ++ "/" ++ sp_sendDir p))).
Proof.
  unfold buildStageReport. set (sent := listJSONFiles _ _).
  destruct (Nat.eqb_spec (length sent) 0) as [->|]; [done|]. by case_match.
Qed.

Lemma stage_report_exact base p :
  NoDup ((λ r, de_Name r.1) <$> listJSONFiles readDir (base ++ "/" ++ sp_recvDir p)) →
  let sent := listJSONFiles readDir (base ++ "/" ++ sp_sendDir p) in
  let recv := listJSONFiles readDir (base ++ "/" ++ sp_recvDir p) in
  let sr := buildStageReport readDir base p in
  let ms := omap (sample recv) sent in
  sent ≠ [] →
  sr_Sent sr = Z.of_nat (length sent) ∧
  (sr_Sent sr = sr_AckCount sr + sr_NackCount sr + sr_NoCallback sr)%Z ∧
  sr_AckCount sr = Z.of_nat (countb (acked recv) sent) ∧
  sr_NackCount sr = Z.of_nat (countb (nacked recv) sent) ∧
  sr_NoCallback sr = Z.of_nat (countb (silent recv) sent) ∧
  sr_P50MS sr = f64_of_Z (percentileMs (sort_ms ms) p50c) ∧
  sr_P95MS sr = f64_of_Z (percentileMs (sort_ms ms) p95c) ∧
  sr_P99MS sr = f64_of_Z (percentileMs (sort_ms ms) p99c).
Proof.
  intros Hn sent recv sr ms Hne. subst sr. unfold buildStageReport. fold sent recv.
  destruct (Nat.eqb_spec (length sent) 0) as [E0|_]; [by apply nil_length_inv in E0|].
  rewrite count_files_spec by done. cbn [ct_ack ct_nack ct_none ct_latencies app]. fold ms.
  pose proof (classes_add recv sent). rewrite length_fmap.
  assert (exact_ms ms) as Hms by apply samples_exact.
  destruct (Nat.eqb_spec (length ms) 0) as [E|E]; cbn [sr_Sent sr_AckCount sr_NackCount sr_NoCallback
    sr_P50MS sr_P95MS sr_P99MS].
  - apply nil_length_inv in E. rewrite E. split_and!; try lia; reflexivity.
  - rewrite Float64s_ms by done. rewrite !percentile_ms by (vm_compute; reflexivity).
    split_and!; try lia; reflexivity.
Qed.
End Exact.

(** C39: The file-based report counts every sent request once and measures
    what the database does.  Given that a directory lists every name once: a
    report exists exactly when the run's directory does, and it has one entry
    for each stage with sent requests, in the order of the stages.  In each,
    the requests are the files of the stage's directory; acknowledged,
    refused and unanswered requests, as told by the received file of the same
    name, add up to them; and the percentiles are exactly those that package
    [latency] computes, in integers, from the same latencies in milliseconds,
    although they are sorted and picked as floats here. *)
Theorem run_report_exact {B} `{JsonCodec B} (readDir : string → option (list (DirEntry B))) stat now
    root runID :
  (∀ dir, NoDup ((λ r, de_Name r.1) <$> listJSONFiles readDir dir)) →
  let base := root ++ "/" ++ runID ++ "/pipeline_b" in
  let sent p := listJSONFiles readDir (base ++ "/" ++ sp_sendDir p) in
  match GenerateRunReport readDir stat now root runID with
  | None => stat base = false
  | Some rr =>
      stat base = true ∧
      sr_Stage <$> rr_Stages rr = sp_name <$> filter (λ p, sent p ≠ []) report_pairs ∧
      ∀ sr, sr ∈ rr_Stages rr → ∃ p, p ∈ report_pairs ∧ sr_Stage sr = sp_name p ∧
        let recv := listJSONFiles readDir (base ++ "/" ++ sp_recvDir p) in
        let ms := omap (sample recv) (sent p) in
        sr_Sent sr = Z.of_nat (length (sent p)) ∧
        (sr_Sent sr = sr_AckCount sr + sr_NackCount sr + sr_NoCallback sr)%Z ∧
        sr_AckCount sr = Z.of_nat (countb (acked recv) (sent p)) ∧
        sr_NackCount sr = Z.of_nat (countb (nacked recv) (sent p)) ∧
        sr_NoCallback sr = Z.of_nat (countb (silent recv) (sent p)) ∧
        sr_P50MS sr = f64_of_Z (percentileMs (sort_ms ms) p50c) ∧
        sr_P95MS sr = f64_of_Z (percentileMs (sort_ms ms) p95c) ∧
        sr_P99MS sr = f64_of_Z (percentileMs (sort_ms ms) p99c)
  end.
Proof.
  intros Hnd base sent. unfold GenerateRunReport. fold base.
  destruct (stat base); [|done]. cbn [rr_Stages]. split; [done|]. split.
  - induction report_pairs as [|p ps IH]; [done|]. rewrite fmap_cons, !filter_cons.
    pose proof (stage_sent readDir base p) as Hs. fold (sent p) in Hs.
    destruct (sent p) as [|s l] eqn:E.
    + rewrite decide_False by (rewrite Hs; simpl; lia). rewrite decide_False by tauto. exact IH.
    + rewrite decide_True by (rewrite Hs; simpl; lia). rewrite decide_True by done.
      rewrite !fmap_cons, stage_name. f_equal. exact IH.
  - intros sr [Hpos (p & -> & Hp)%list_elem_of_fmap]%list_elem_of_filter.
    exists p. split; [done|]. split; [apply stage_name|].
    rewrite stage_sent in Hpos. apply stage_report_exact; [done|]. unfold sent. intros E.
    rewrite E in Hpos. simpl in Hpos. lia.
Qed.

(** ** Witness: one request of three is acknowledged *)
Definition demo_file (name : string) (t : Z) (b : json) : DirEntry json :=
  mkEntry name false (Some t) (Some b).
Definition demo_ack (status : string) : json :=
  JObj {[ "message" := JObj {[ "ack" := JObj {[ "status" := JStr status ]} ]} ]}.
Definition demo_dir (dir : string) : option (list (DirEntry json)) :=
  if dir =? "runs/r1/pipeline_b/select"
  then Some [demo_file "a.json" 0 JNull; demo_file "b.json" 0 JNull; demo_file "c.json" 0 JNull;
             demo_file "notes.txt" 0 JNull]
  else if dir =? "runs/r1/pipeline_b/on_select"
  then Some [demo_file "a.json" (250 * millisecond) (demo_ack "ACK");
             demo_file "b.json" (90 * millisecond) (demo_ack "NACK")]
  else None.

#[local] Transparent gmap_empty.

Lemma run_report_exact_witness :
  ∃ sr, rr_Stages <$> GenerateRunReport demo_dir (λ _, true) 7 "runs" "r1" = Some [sr] ∧
    (sr_Sent sr, sr_AckCount sr, sr_NackCount sr, sr_NoCallback sr) = (3, 1, 1, 1)%Z ∧
    (sr_Sent sr = sr_AckCount sr + sr_NackCount sr + sr_NoCallback sr)%Z ∧
    sr_P95MS sr = f64_of_Z 250.
Proof.
  assert (∀ dir, NoDup ((λ r, de_Name r.1) <$> listJSONFiles demo_dir dir)) as Hn.
  { intros dir. unfold listJSONFiles, demo_dir.
    destruct (dir =? "runs/r1/pipeline_b/select");
      [|destruct (dir =? "runs/r1/pipeline_b/on_select")];
      [apply (bool_decide_unpack _); vm_compute; exact I..|constructor]. }
  pose proof (run_report_exact demo_dir (λ _, true) 7 "runs" "r1" Hn) as H.
  cbv zeta in H. destruct (GenerateRunReport demo_dir (λ _, true) 7 "runs" "r1") as [rr|] eqn:E;
    [|discriminate H].
  destruct H as (_ & _ & Hs).
  assert (∃ sr, rr_Stages rr = [sr] ∧
    (sr_Sent sr, sr_AckCount sr, sr_NackCount sr, sr_NoCallback sr) = (3, 1, 1, 1)%Z ∧
    sr_P95MS sr = f64_of_Z 250) as (sr & Hr & Hc & Hp).
  { vm_compute in E. injection E as <-. eexists. split; [reflexivity|]. split; vm_compute; reflexivity. }
  exists sr. split; [simpl; by rewrite Hr|]. split; [exact Hc|]. split; [|exact Hp].
  destruct (Hs sr) as (p & _ & _ & _ & Hsum & _); [rewrite Hr; by left|]. exact Hsum.
Defined.
