(* ===== verification/ExportMetrics.v ===== *)
(** * The export command: [cmd/export_run_metrics/main.go]

    The command reads a list of runs, fetches each from the API and makes
    three tables of them, which [Workbook.v] writes into a workbook.  The HTTP
    client is a parameter, and so are [json.Decode] of an answer and
    [sort.Slice] (which is not stable). *)
From stdpp Require Import prelude orders list strings sorting lexico.
From Stdlib Require Import Ascii SpecFloat.
From S2P Require Import Prelude GoStrings Float64 ApiError Latency SessionTypes.
Local Open Scope string_scope.

Record runInput := mkInput {
  ri_ScenarioID : string; ri_ScenarioName : string;
  ri_Verification : bool; ri_ErrorInject : bool;
  ri_RunID : string; ri_RPS : Z;
}.
Record exportInput := mkExport { ei_BaseURL : string; ei_SessionID : string; ei_Runs : list runInput }.

(** What the command reads of an answer; [journeyMetrics] has the fields of
    the server's [JourneyActionMetrics]. *)
Record runResponse := mkRunResponse {
  rp_ID : string; rp_Status : string;
  rp_Select : JourneyActionMetrics; rp_Init : JourneyActionMetrics; rp_Confirm : JourneyActionMetrics;
}.

Record summaryRow := mkSummaryRow {
  su_ScenarioName : string; su_Verification : bool; su_ErrorInjection : bool;
  su_RunID : string; su_RPS : Z; su_Status : string;
  su_JourneySuccessPct : float64;
  su_SelectSuccessPct : float64; su_InitSuccessPct : float64; su_ConfirmSuccessPct : float64;
  su_SelectP95MS : float64; su_InitP95MS : float64; su_ConfirmP95MS : float64;
  su_SelectP99MS : float64; su_InitP99MS : float64; su_ConfirmP99MS : float64;
}.
Record stageTrendRow := mkTrend {
  st_ScenarioName : string; st_RPS : Z; st_Stage : string;
  st_SuccessPct : float64; st_P95MS : float64; st_P99MS : float64; st_Timeout : Z;
}.
Record behaviorRow := mkBehavior {
  be_ScenarioName : string; be_RPS : Z; be_ErrorInjection : bool;
  be_ExpectedDropPct : float64;
  be_SelectDropPct : float64; be_InitDropPct : float64; be_ConfirmDropPct : float64;
  be_SelectCheck : string; be_InitCheck : string; be_ConfirmCheck : string;
  be_Observation : string;
}.

(** ** The input *)

Fixpoint replace_all (c d : ascii) (s : string) : string :=
  match s with
  | "" => ""
  | String a s' => String (if Ascii.eqb a c then d else a) (replace_all c d s')
  end.

(** [strings.ToLower], on ASCII letters; other letters only matter for the
    scenario's id, which no table shows. *)
Fixpoint to_lower (s : string) : string :=
  match s with
  | "" => ""
  | String c s' =>
      let n := nat_of_ascii c in
      String (if (65 <=? n) && (n <=? 90) then ascii_of_nat (n + 32) else c)%nat (to_lower s')
  end.

Definition normalize_run (r : runInput) : runInput :=
  let id := trim_space (ri_ScenarioID r) in
  let name := trim_space (ri_ScenarioName r) in
  let name := if name =? "" then id else name in
  let id := if id =? "" then to_lower (replace_all " " "_" name) else id in
  mkInput id name (ri_Verification r) (ri_ErrorInject r) (trim_space (ri_RunID r)) (ri_RPS r).

Definition run_invalid (r : runInput) : bool :=
  (ri_ScenarioName r =? "") || (ri_RunID r =? "") || (ri_RPS r <=? 0)%Z.

Fixpoint validate_runs (i : Z) (l : list runInput) : result error (list runInput) :=
  match l with
  | [] => Ok []
  | r :: l' =>
      let r := normalize_run r in
      if run_invalid r
      then Err (EText ("invalid runs[" ++ FormatInt i ++ "]: scenario_name, run_id, rps are required"))
      else match validate_runs (i + 1) l' with Ok rs => Ok (r :: rs) | Err e => Err e end
  end.

Definition validateInput (cfg : option exportInput) : result error exportInput :=
  match cfg with
  | None => Err (EText "input is nil")
  | Some cfg =>
      let url := trim_right (Ascii.eqb "/") (trim_space (ei_BaseURL cfg)) in
      let id := trim_space (ei_SessionID cfg) in
      if (url =? "") || (id =? "") then Err (EText "base_url and session_id are required")
      else match ei_Runs cfg with
      | [] => Err (EText "runs must not be empty")
      | runs => match validate_runs 0 runs with
                | Ok runs => Ok (mkExport url id runs)
                | Err e => Err e
                end
      end
  end.

(** ** The rows *)

Definition toStageTrendRows (r : runInput) (run : runResponse) : list stageTrendRow :=
  let row stage j := mkTrend (ri_ScenarioName r) (ri_RPS r) stage
                       (ja_SuccessPct j) (ja_P95MS j) (ja_P99MS j) (ja_Timeout j) in
  [row "select" (rp_Select run); row "init" (rp_Init run); row "confirm" (rp_Confirm run)].

Definition toSummaryRow (r : runInput) (run : runResponse) : summaryRow :=
  let s := rp_Select run in
  let i := rp_Init run in
  let c := rp_Confirm run in
  let totalSent := wrap64 (wrap64 (ja_Sent s + ja_Sent i) + ja_Sent c) in
  let totalSuccess := wrap64 (wrap64 (ja_Success s + ja_Success i) + ja_Success c) in
  let pct := if (0 <? totalSent)%Z
             then f64_div (f64_mul (f64_of_Z totalSuccess) (f64_of_Z 100)) (f64_of_Z totalSent)
             else f64_of_Z 0 in
  mkSummaryRow (ri_ScenarioName r) (ri_Verification r) (ri_ErrorInject r) (rp_ID run) (ri_RPS r)
    (rp_Status run) pct (ja_SuccessPct s) (ja_SuccessPct i) (ja_SuccessPct c)
    (ja_P95MS s) (ja_P95MS i) (ja_P95MS c) (ja_P99MS s) (ja_P99MS i) (ja_P99MS c).

Definition dropCheck (observed expected : float64) : string :=
  if f64_eqb expected (f64_of_Z 0)
  then if f64_eqb observed (f64_of_Z 0) then "OK" else "Unexpected drop"
  else
    let lo := f64_sub expected (f64_of_Z 2) in
    let hi := f64_add expected (f64_of_Z 2) in
    if f64_leb lo observed && f64_leb observed hi then "OK"
    else if f64_ltb observed lo then "Lower than expected" else "Higher than expected".

Definition buildObservation (errorInject : bool) (selectDrop initDrop confirmDrop : float64) : string :=
  let zero x := f64_eqb x (f64_of_Z 0) in
  let high x := f64_leb (f64_of_Z 8) x in
  let low x := f64_ltb x (f64_of_Z 2) in
  if negb errorInject
  then if zero selectDrop && zero initDrop && zero confirmDrop
       then "Baseline clean" else "Baseline has drops"
  else if high selectDrop && (low initDrop || low confirmDrop)
       then "Select drop visible, init/confirm drop missing (anomaly)"
  else if high selectDrop && high initDrop && high confirmDrop
       then "Drop propagated across stages"
  else "Injection behavior inconsistent".

Definition toBehaviorRow (r : runInput) (run : runResponse) : behaviorRow :=
  let expected := f64_of_Z (if ri_ErrorInject r then 10 else 0) in
  let drop j := f64_sub (f64_of_Z 100) (ja_SuccessPct j) in
  let s := drop (rp_Select run) in
  let i := drop (rp_Init run) in
  let c := drop (rp_Confirm run) in
  mkBehavior (ri_ScenarioName r) (ri_RPS r) (ri_ErrorInject r) expected s i c
    (dropCheck s expected) (dropCheck i expected) (dropCheck c expected)
    (buildObservation (ri_ErrorInject r) s i c).

(** ** Sorting *)

(** A comparison [sort.Slice] accepts. *)
Record weak_order {A} (less : A → A → bool) : Prop := {
  wo_asym x y : less x y = true → less y x = false;
  wo_trans x y z : less y x = false → less z y = false → less z x = false;
}.
Definition in_order {A} (less : A → A → bool) (x y : A) : Prop := less y x = false.

Class SortSlice := sort_slice : ∀ {A}, (A → A → bool) → list A → list A.
Class SortSliceSpec `{SortSlice} : Prop := sort_slice_spec :
  ∀ {A} (less : A → A → bool) l, weak_order less →
  sort_slice less l ≡ₚ l ∧ StronglySorted (in_order less) (sort_slice less l).

(** Go compares strings byte by byte. *)
Definition name_bytes (s : string) : list N := N_of_ascii <$> String.list_ascii_of_string s.

(** The [less] of two keys, as written in the source: the names, then the
    rest if they are equal. *)
Definition less_by {A K} `{Lexico K, !TrichotomyT (lexico (A := K)), !StrictOrder (lexico (A := K))} (key : A → K) (x y : A) : bool :=
  bool_decide (lexico (key x) (key y)).

Definition summary_key (r : summaryRow) : list N * Z := (name_bytes (su_ScenarioName r), su_RPS r).
Definition stage_key (r : stageTrendRow) : list N * (Z * list N) :=
  (name_bytes (st_ScenarioName r), (st_RPS r, name_bytes (st_Stage r))).
Definition behavior_key (r : behaviorRow) : list N * Z := (name_bytes (be_ScenarioName r), be_RPS r).

Lemma less_by_weak {A K} `{Lexico K, !TrichotomyT (lexico (A := K)), !StrictOrder (lexico (A := K))}
  (key : A → K) : weak_order (less_by key).
Proof.
  unfold less_by. split.
  - intros x y Hxy%bool_decide_eq_true. apply bool_decide_eq_false. intros Hyx.
    apply (irreflexivity lexico (key x)). by trans (key y).
  - intros x y z Hxy%bool_decide_eq_false Hyz%bool_decide_eq_false.
    apply bool_decide_eq_false. intros Hzx.
    destruct (trichotomyT lexico (key x) (key y)) as [[Hl|He]|Hl]; [|congruence|done].
    destruct (trichotomyT lexico (key y) (key z)) as [[Hl'|He']|Hl']; [|congruence|done].
    apply (irreflexivity lexico (key x)). trans (key y); [done|]. by trans (key z).
Qed.

(** ** The command *)
Section Command.
Context {B : Type} `{SortSlice}.
Variable http_get : string → result error (Z * B).       (* status and body *)
Variable decode : B → result error runResponse.

Definition fetchRun (baseURL sessionID runID : string) : result error runResponse :=
  match http_get (baseURL ++ "/sessions/" ++ sessionID ++ "/runs/" ++ runID) with
  | Err e => Err e
  | Ok (status, b) =>
      if (status =? 200)%Z then decode b else Err (EText ("unexpected status " ++ FormatInt status))
  end.

(** The loop of [main]; the command exits at the first error. *)
Fixpoint fetch_rows (url session : string) (runs : list runInput)
  : result error (list summaryRow * list stageTrendRow * list behaviorRow) :=
  match runs with
  | [] => Ok ([], [], [])
  | r :: runs =>
      match fetchRun url session (ri_RunID r) with
      | Err e => Err (EWrap ("fetch run " ++ ri_RunID r ++ " failed") e)
      | Ok run =>
          match fetch_rows url session runs with
          | Err e => Err e
          | Ok (su, st, be) =>
              Ok (toSummaryRow r run :: su, (toStageTrendRows r run ++ st)%list, toBehaviorRow r run :: be)
          end
      end
  end.

(** The tables [writeWorkbook] is called with. *)
Definition export_tables (cfg : option exportInput)
  : result error (list summaryRow * list stageTrendRow * list behaviorRow) :=
  match validateInput cfg with
  | Err e => Err e
  | Ok cfg =>
      match fetch_rows (ei_BaseURL cfg) (ei_SessionID cfg) (ei_Runs cfg) with
      | Err e => Err e
      | Ok (su, st, be) =>
          Ok (sort_slice (less_by summary_key) su, sort_slice (less_by stage_key) st,
              sort_slice (less_by behavior_key) be)
      end
  end.

(** ** What the tables hold *)

Lemma validate_runs_spec l i rs :
  validate_runs i l = Ok rs → rs = normalize_run <$> l ∧ Forall (λ r, run_invalid r = false) rs.
Proof.
  revert i rs. induction l as [|r l IH]; intros i rs; simpl; [by intros [= <-]|].
  destruct (run_invalid (normalize_run r)) eqn:E; [done|].
  destruct (validate_runs (i + 1) l) as [rs'|e] eqn:Ev; [|done]. intros [= <-].
  apply IH in Ev as [-> Hf]. split; [done|]. by constructor.
Qed.

Lemma validate_runs_error l i e :
  validate_runs i l = Err e → ∃ k r, l !! k = Some r ∧ run_invalid (normalize_run r) = true ∧
    e = EText ("invalid runs[" ++ FormatInt (i + Z.of_nat k) ++ "]: scenario_name, run_id, rps are required") ∧
    ∀ j r', (j < k)%nat → l !! j = Some r' → run_invalid (normalize_run r') = false.
Proof.
  revert i. induction l as [|r l IH]; intros i; simpl; [done|].
  destruct (run_invalid (normalize_run r)) eqn:E.
  - intros [= <-]. exists 0%nat, r. rewrite Z.add_0_r. split_and!; try done. intros; lia.
  - destruct (validate_runs (i + 1) l) as [rs'|e'] eqn:Ev; [done|]. intros [= <-].
    apply IH in Ev as (k & r' & Hk & Hr & He & Hlt). exists (S k), r'. split_and!; [done|done| |].
    + rewrite He. do 3 f_equal. f_equal. lia.
    + intros [|j] r0 Hj Hl; [by injection Hl as <-|]. apply (Hlt j); [lia|done].
Qed.

Lemma fetch_rows_spec url session runs su st be :
  fetch_rows url session runs = Ok (su, st, be) →
  ∃ resp, Forall2 (λ r run, fetchRun url session (ri_RunID r) = Ok run) runs resp ∧
    su = zip_with toSummaryRow runs resp ∧ st = concat (zip_with toStageTrendRows runs resp) ∧
    be = zip_with toBehaviorRow runs resp.
Proof.
  revert su st be. induction runs as [|r runs IH]; intros su st be; simpl.
  { intros [= <- <- <-]. by exists []. }
  destruct (fetchRun _ _ _) as [run|e] eqn:E; [|done].
  destruct (fetch_rows _ _ runs) as [[[su' st'] be']|e']; [|done]. intros [= <- <- <-].
  destruct (IH _ _ _ eq_refl) as (resp & Hf & -> & -> & ->). exists (run :: resp).
  split_and!; try done. by constructor.
Qed.
End Command.

(** The tables of the export hold every run that was asked for, once.
    When tables are written, the address, the session and every run were
    given, each run was answered with status 200 by the API, and each table
    is, up to order, one row (three in the table of stages) per run, made of
    that run's input and that run's answer; tables are sorted by scenario,
    rate and stage.  If any run is incomplete or not answered, none is
    written. *)
Theorem export_tables_exact {B} `{SortSliceSpec} (http_get : string → result error (Z * B)) decode cfg
    su st be :
  export_tables http_get decode cfg = Ok (su, st, be) →
  ∃ input valid resp,
    cfg = Some input ∧ validateInput cfg = Ok valid ∧
    ei_BaseURL valid ≠ "" ∧ ei_SessionID valid ≠ "" ∧ ei_Runs valid ≠ [] ∧
    ei_Runs valid = normalize_run <$> ei_Runs input ∧
    Forall (λ r, ri_ScenarioName r ≠ "" ∧ ri_RunID r ≠ "" ∧ 0 < ri_RPS r)%Z (ei_Runs valid) ∧
    Forall2 (λ r run, ∃ b, http_get (ei_BaseURL valid ++ "/sessions/" ++ ei_SessionID valid ++ "/runs/"
                                     ++ ri_RunID r) = Ok (200%Z, b) ∧ decode b = Ok run)
      (ei_Runs valid) resp ∧
    su ≡ₚ zip_with toSummaryRow (ei_Runs valid) resp ∧
    st ≡ₚ concat (zip_with toStageTrendRows (ei_Runs valid) resp) ∧
    be ≡ₚ zip_with toBehaviorRow (ei_Runs valid) resp ∧
    StronglySorted (in_order (less_by summary_key)) su ∧
    StronglySorted (in_order (less_by stage_key)) st ∧
    StronglySorted (in_order (less_by behavior_key)) be.
Proof.
  unfold export_tables. destruct (validateInput cfg) as [valid|e] eqn:Ev; [|done].
  destruct (fetch_rows _ _ _ _ _) as [[[su' st'] be']|e] eqn:Ef; [|done]. intros [= <- <- <-].
  apply fetch_rows_spec in Ef as (resp & Hf & -> & -> & ->).
  destruct cfg as [input|]; [|done]. exists input, valid, resp.
  pose proof Ev as Hvi. cbn [validateInput] in Ev.
  destruct ((_ =? "") || (_ =? "")) eqn:Eu; [done|].
  apply orb_false_iff in Eu as [Hu%String.eqb_neq Hi%String.eqb_neq].
  destruct (ei_Runs input) as [|r0 l0] eqn:Er; [done|].
  destruct (validate_runs 0 (r0 :: l0)) as [rs|e] eqn:Erun; [|done]. injection Ev as <-.
  apply validate_runs_spec in Erun as [-> Hv]. cbn [ei_BaseURL ei_SessionID ei_Runs] in *.
  split_and!; try done; try (by apply sort_slice_spec, less_by_weak).
  - eapply Forall_impl; [exact Hv|]. intros r. unfold run_invalid. rewrite !orb_false_iff.
    intros [[?%String.eqb_neq ?%String.eqb_neq] ?%Z.leb_gt]. done.
  - eapply Forall2_impl; [exact Hf|]. intros r run. unfold fetchRun.
    destruct (http_get _) as [[status b]|e]; [|done].
    destruct (Z.eqb_spec status 200) as [->|]; [|done]. intros E. by exists b.
Qed.

(** ** Witness: two runs, given in the wrong order *)
Section Demo.
#[local] Instance in_order_dec {A} (less : A → A → bool) : RelDecision (in_order less).
Proof. intros x y. unfold in_order. apply _. Defined.
#[local] Instance merge_slice : SortSlice := λ A less l, merge_sort (in_order less) l.
#[local] Instance merge_slice_spec : SortSliceSpec.
Proof.
  intros A less l [Ha Ht]. split; [apply merge_sort_Permutation|].
  assert (Total (in_order less)).
  { intros x y. unfold in_order. destruct (less y x) eqn:E; [right|by left]. by apply Ha. }
  assert (Transitive (in_order less)) by (intros x y z Hxy Hyz; by eapply Ht).
  apply (StronglySorted_merge_sort _).
Qed.

Definition demo_journey (pct : Z) : JourneyActionMetrics :=
  let z := f64_of_Z 0 in mkJourney 10 10 (pct / 10) 0 0 z z z z (f64_of_Z pct).
Definition demo_runs : option exportInput :=
  Some (mkExport " http://api/ " "s1"
    [mkInput "" " Peak" false true "r2" 50; mkInput "base" "" false false "r1 " 10]).
Definition demo_api (url : string) : result error (Z * Z) :=
  if url =? "http://api/sessions/s1/runs/r1" then Ok (200%Z, 100%Z)
  else if url =? "http://api/sessions/s1/runs/r2" then Ok (200%Z, 90%Z) else Ok (404%Z, 0%Z).
Definition demo_decode (pct : Z) : result error runResponse :=
  let j := demo_journey pct in Ok (mkRunResponse "r" "completed" j j j).

Lemma export_tables_exact_witness :
  ∃ su st be, export_tables demo_api demo_decode demo_runs = Ok (su, st, be) ∧
    (su_ScenarioName <$> su, length st, be_Observation <$> be) =
      (["Peak"; "base"], 6%nat, ["Drop propagated across stages"; "Baseline clean"]) ∧
    StronglySorted (in_order (less_by stage_key)) st.
Proof.
  assert (is_ok (export_tables demo_api demo_decode demo_runs) = true) as Hok by (vm_compute; reflexivity).
  destruct (export_tables demo_api demo_decode demo_runs) as [[[su st] be]|e] eqn:E; [|discriminate Hok].
  exists su, st, be. split; [reflexivity|].
  destruct (export_tables_exact demo_api demo_decode demo_runs su st be E)
    as (? & ? & ? & _ & _ & _ & _ & _ & _ & _ & _ & _ & _ & _ & _ & Hs & _).
  split; [|exact Hs]. clear Hs. vm_compute in E. injection E as <- <- <-. vm_compute. reflexivity.
Defined.
End Demo.
