(* ===== verification/Workbook.v ===== *)
(** * The workbook of the export command: [writeWorkbook] of
    [cmd/export_run_metrics/main.go]

    The spreadsheet library is a parameter: a workbook is any type with the
    documented behaviour of [NewFile], [SetSheetName], [NewSheet] and
    [SetCellValue] within the limits of the file format, 1048576 rows and
    32767 characters in a cell: beyond them the library returns an error or
    cuts the text, and the command ignores the errors, so the theorem is about
    tables within them.  Panes and column widths carry no data; the outcome
    of saving the file is an argument of [export_main]. *)
From stdpp Require Import prelude gmap list strings sorting lexico.
From Stdlib Require Import Ascii SpecFloat.
From S2P Require Import Prelude GoStrings Float64 ApiError Latency SessionTypes ExportMetrics.
Local Open Scope string_scope.

Inductive cell := CString (s : string) | CBool (b : bool) | CInt (z : Z) | CFloat (f : float64).

(** Rows and columns count from 1. *)
Class Excel (W : Type) := {
  xl_NewFile : W;                                        (* one sheet, "Sheet1" *)
  xl_SetSheetName : string → string → W → W;
  xl_NewSheet : string → W → W;
  xl_SetCellValue : string → nat → nat → cell → W → W;
  xl_has : W → string → bool;
  xl_get : W → string → nat → nat → option cell;
  xl_has_new s : xl_has xl_NewFile s = bool_decide (s = "Sheet1");
  xl_get_new s r c : xl_get xl_NewFile s r c = None;
  xl_has_rename s t w u : xl_has w s = true → xl_has w t = false →
    xl_has (xl_SetSheetName s t w) u = bool_decide (u = t) || (xl_has w u && negb (bool_decide (u = s)));
  xl_get_rename s t w u r c : xl_has w s = true → xl_has w t = false →
    xl_get (xl_SetSheetName s t w) u r c =
      if decide (u = t) then xl_get w s r c else if decide (u = s) then None else xl_get w u r c;
  xl_has_sheet s w u : xl_has (xl_NewSheet s w) u = bool_decide (u = s) || xl_has w u;
  xl_get_sheet s w u r c : xl_has w s = false →
    xl_get (xl_NewSheet s w) u r c = if decide (u = s) then None else xl_get w u r c;
  xl_has_set s r c v w u : xl_has (xl_SetCellValue s r c v w) u = xl_has w u;
  xl_get_set s r c v w u r' c' : xl_has w s = true →
    xl_get (xl_SetCellValue s r c v w) u r' c' =
      if decide (u = s ∧ r' = r ∧ c' = c) then Some v else xl_get w u r' c';
}.

Definition summarySheet : string := "Executive Summary".
Definition stageSheet : string := "Stage Trends".
Definition behaviorSheet : string := "Expected vs Observed".

Definition summaryHeader : list string :=
  ["Scenario"; "Verification"; "Error Injection"; "Run ID"; "RPS"; "Status";
   "Journey Success %";
   "Select Success %"; "Init Success %"; "Confirm Success %";
   "Select P95 (ms)"; "Init P95 (ms)"; "Confirm P95 (ms)";
   "Select P99 (ms)"; "Init P99 (ms)"; "Confirm P99 (ms)"].
Definition stageHeader : list string :=
  ["Scenario"; "RPS"; "Stage"; "Success %"; "P95 (ms)"; "P99 (ms)"; "Timeout Count"].
Definition behaviorHeader : list string :=
  ["Scenario"; "RPS"; "Error Injection"; "Expected Drop %"; "Select Drop %"; "Init Drop %";
   "Confirm Drop %"; "Select Check"; "Init Check"; "Confirm Check"; "Observation"].

Definition summary_values (row : summaryRow) : list cell :=
  [CString (su_ScenarioName row); CBool (su_Verification row); CBool (su_ErrorInjection row);
   CString (su_RunID row); CInt (su_RPS row); CString (su_Status row); CFloat (su_JourneySuccessPct row);
   CFloat (su_SelectSuccessPct row); CFloat (su_InitSuccessPct row); CFloat (su_ConfirmSuccessPct row);
   CFloat (su_SelectP95MS row); CFloat (su_InitP95MS row); CFloat (su_ConfirmP95MS row);
   CFloat (su_SelectP99MS row); CFloat (su_InitP99MS row); CFloat (su_ConfirmP99MS row)].
Definition stage_values (row : stageTrendRow) : list cell :=
  [CString (st_ScenarioName row); CInt (st_RPS row); CString (st_Stage row);
   CFloat (st_SuccessPct row); CFloat (st_P95MS row); CFloat (st_P99MS row); CInt (st_Timeout row)].
Definition behavior_values (row : behaviorRow) : list cell :=
  [CString (be_ScenarioName row); CInt (be_RPS row); CBool (be_ErrorInjection row);
   CFloat (be_ExpectedDropPct row); CFloat (be_SelectDropPct row); CFloat (be_InitDropPct row);
   CFloat (be_ConfirmDropPct row); CString (be_SelectCheck row); CString (be_InitCheck row);
   CString (be_ConfirmCheck row); CString (be_Observation row)].

Section Write.
Context {W : Type} `{Excel W}.

(** The loop over the values of a row, from column [i + 1]. *)
Fixpoint write_cells (sheet : string) (row i : nat) (vs : list cell) (f : W) : W :=
  match vs with
  | [] => f
  | v :: vs => write_cells sheet row (S i) vs (xl_SetCellValue sheet row (i + 1) v f)
  end.

Definition writeHeader (sheet : string) (headers : list string) (f : W) : W :=
  write_cells sheet 1 0 (CString <$> headers) f.
Definition writeRow (sheet : string) (row : nat) (values : list cell) (f : W) : W :=
  write_cells sheet row 0 values f.

(** [for i, row := range rows], the row with index [i] on line [i + 2]. *)
Fixpoint write_rows (sheet : string) (i : nat) (rows : list (list cell)) (f : W) : W :=
  match rows with
  | [] => f
  | r :: rows => write_rows sheet (S i) rows (writeRow sheet (i + 2) r f)
  end.

Definition writeWorkbook (summary : list summaryRow) (stages : list stageTrendRow)
  (behavior : list behaviorRow) : W :=
  let f := xl_NewFile in
  let f := xl_SetSheetName "Sheet1" summarySheet f in
  let f := xl_NewSheet stageSheet f in
  let f := xl_NewSheet behaviorSheet f in
  let f := writeHeader summarySheet summaryHeader f in
  let f := writeHeader stageSheet stageHeader f in
  let f := writeHeader behaviorSheet behaviorHeader f in
  let f := write_rows summarySheet 0 (summary_values <$> summary) f in
  let f := write_rows stageSheet 0 (stage_values <$> stages) f in
  write_rows behaviorSheet 0 (behavior_values <$> behavior) f.

(** [main]: the workbook that is written, or the error it exits with. *)
Definition export_workbook {B} `{SortSlice} (http_get : string → result error (Z * B))
  (decode : B → result error runResponse) (cfg : option exportInput) : result error W :=
  match export_tables http_get decode cfg with
  | Ok (su, st, be) => Ok (writeWorkbook su st be)
  | Err e => Err e
  end.

(** ** The command *)

(** What the command does: what it prints, and its exit status. *)
Record ending := mkEnding { en_stdout : string; en_stderr : string; en_status : Z }.

Definition exitErr (text : error → string) (err : error) : ending :=
  mkEnding "" ("error: " ++ text err ++ String "010" "") 1.

(** [json.NewDecoder(f).Decode] on the file's content. *)
Definition loadInput {B} (Open : string → result error B) (decode_input : B → result error exportInput)
  (path : string) : result error exportInput :=
  match Open path with
  | Err e => Err e
  | Ok f => decode_input f
  end.

(** [main] with its flags; [SaveAs] is the outcome of saving, and the workbook
    is returned when it was saved.  [Error()] of an error is a parameter. *)
Definition export_main {B} `{SortSlice} (text : error → string)
  (Open : string → result error B) (decode_input : B → result error exportInput)
  (http_get : string → result error (Z * B)) (decode : B → result error runResponse)
  (SaveAs : string → W → option error) (input output : string) : ending * option (string * W) :=
  match loadInput Open decode_input input with
  | Err e => (exitErr text e, None)
  | Ok cfg =>
      match export_workbook http_get decode (Some cfg) with
      | Err e => (exitErr text e, None)
      | Ok f =>
          match SaveAs output f with
          | Some e => (exitErr text e, None)
          | None => (mkEnding ("Excel report written: " ++ output ++ String "010" "") "" 0, Some (output, f))
          end
      end
  end.

(** The command ends with status 0 exactly when it saved a workbook, which is
    then the one made of the input file; otherwise it writes nothing to its
    output, ends with status 1 and prints the error. *)
Theorem export_main_status {B} `{SortSlice} text (Open : string → result error B) decode_input http_get
    decode SaveAs input output :
  let '(e, saved) := export_main text Open decode_input http_get decode SaveAs input output in
  (en_status e = 0%Z ↔ ∃ f cfg, saved = Some (output, f) ∧ SaveAs output f = None ∧
     loadInput Open decode_input input = Ok cfg ∧
     export_workbook http_get decode (Some cfg) = Ok f) ∧
  (en_status e ≠ 0%Z → en_status e = 1%Z ∧ en_stdout e = "" ∧ saved = None).
Proof.
  unfold export_main. destruct (loadInput _ _ _) as [cfg|e]; [|by split; [split; [|intros (?&?&?&_)]|]].
  destruct (export_workbook _ _ _) as [f|e] eqn:E; [|by split; [split; [|intros (?&?&?&_)]|]].
  destruct (SaveAs _ _) eqn:Es; [by split; [split; [|intros (?&?&?&_)]|]|].
  split; [|done]. split; [|done]. intros _. by exists f, cfg.
Qed.

(** ** What is written where *)

Ltac in_range := split_and?; done || lia.
Ltac out_of_range := intros ?; destruct_and?; lia || congruence.

Lemma has_cells sheet row vs : ∀ i f s, xl_has (write_cells sheet row i vs f) s = xl_has f s.
Proof. induction vs as [|v vs IH]; intros i f s; [done|]. cbn [write_cells]. by rewrite IH, xl_has_set. Qed.

Lemma has_rows sheet rows : ∀ i f s, xl_has (write_rows sheet i rows f) s = xl_has f s.
Proof.
  induction rows as [|r rows IH]; intros i f s; [done|]. cbn [write_rows]. rewrite IH. apply has_cells.
Qed.

Lemma get_cells sheet row vs s r c : ∀ i f,
  xl_has f sheet = true →
  xl_get (write_cells sheet row i vs f) s r c =
    match (if decide (s = sheet ∧ r = row ∧ i < c)%nat then vs !! (c - i - 1)%nat else None) with
    | Some v => Some v
    | None => xl_get f s r c
    end.
Proof.
  induction vs as [|v vs IH]; intros i f Hs; cbn [write_cells].
  { case_decide; [by rewrite lookup_nil|done]. }
  rewrite IH by (by rewrite xl_has_set). rewrite xl_get_set by done.
  destruct (decide (s = sheet ∧ r = row)) as [[-> ->]|Hn].
  2: { rewrite !decide_False by tauto. done. }
  destruct (decide (c = i + 1)%nat) as [->|Hc].
  - rewrite decide_False by out_of_range. rewrite decide_True by in_range. rewrite decide_True by in_range.
    by replace (i + 1 - i - 1)%nat with 0%nat by lia.
  - rewrite (decide_False (P := _ ∧ _ ∧ c = _)) by out_of_range.
    destruct (decide (i < c)%nat).
    + rewrite !decide_True by in_range. by replace (c - i - 1)%nat with (S (c - S i - 1)) by lia.
    + by rewrite !decide_False by out_of_range.
Qed.

(** A sheet: its header on line 1, its rows from line 2 on. *)
Definition sheet_cell (header : list string) (rows : list (list cell)) (r c : nat) : option cell :=
  row ← ((CString <$> header) :: rows) !! r; row !! c.

Lemma get_rows sheet rows s r c : ∀ i f,
  xl_has f sheet = true →
  xl_get (write_rows sheet i rows f) s r (c + 1) =
    match (if decide (s = sheet ∧ i + 2 ≤ r)%nat then row ← rows !! (r - (i + 2))%nat; row !! c else None) with
    | Some v => Some v
    | None => xl_get f s r (c + 1)
    end.
Proof.
  induction rows as [|row rows IH]; intros i f Hs; cbn [write_rows].
  { by case_decide. }
  rewrite IH by (unfold writeRow; by rewrite has_cells). unfold writeRow. rewrite get_cells by done.
  replace (c + 1 - 0 - 1)%nat with c by lia.
  destruct (decide (s = sheet)) as [->|Hn]; [|by rewrite !decide_False by tauto].
  destruct (decide (r = i + 2)%nat) as [->|Hr].
  - rewrite decide_False by out_of_range. rewrite !decide_True by in_range.
    by replace (i + 2 - (i + 2))%nat with 0%nat by lia.
  - rewrite (decide_False (P := _ ∧ r = _ ∧ _)) by out_of_range.
    destruct (decide (i + 2 ≤ r)%nat).
    + rewrite !decide_True by in_range. by replace (r - (i + 2))%nat with (S (r - (S i + 2))) by lia.
    + by rewrite !decide_False by out_of_range.
Qed.

(** The three sheets, empty. *)
Definition sheets : W :=
  xl_NewSheet behaviorSheet (xl_NewSheet stageSheet (xl_SetSheetName "Sheet1" summarySheet xl_NewFile)).

Lemma sheets_has s : s ∈ [summarySheet; stageSheet; behaviorSheet] → xl_has sheets s = true.
Proof.
  intros Hs. unfold sheets. rewrite !xl_has_sheet, xl_has_rename by (by rewrite xl_has_new).
  repeat (apply elem_of_cons in Hs as [->|Hs]; [reflexivity|]). by apply elem_of_nil in Hs.
Qed.

Lemma sheets_get s r c : xl_get sheets s r c = None.
Proof.
  assert (∀ t, t ≠ "Sheet1" → xl_has xl_NewFile t = false) as Hn
    by (intros t Ht; rewrite xl_has_new; by apply bool_decide_eq_false).
  assert (xl_has xl_NewFile "Sheet1" = true) as H1 by (by rewrite xl_has_new).
  unfold sheets. rewrite xl_get_sheet by (by rewrite xl_has_sheet, xl_has_rename, xl_has_new by auto).
  case_decide; [done|]. rewrite xl_get_sheet by (by rewrite xl_has_rename, xl_has_new by auto).
  case_decide; [done|]. rewrite xl_get_rename by auto. rewrite !xl_get_new. by repeat case_decide.
Qed.

(** A sheet is not disturbed by what is written to another. *)
Lemma get_cells_other sheet row vs s r c i f :
  xl_has f sheet = true → s ≠ sheet → xl_get (write_cells sheet row i vs f) s r c = xl_get f s r c.
Proof. intros Hf Hs. rewrite get_cells by done. by rewrite decide_False by tauto. Qed.
Lemma get_rows_other sheet rows s r c i f :
  xl_has f sheet = true → s ≠ sheet → xl_get (write_rows sheet i rows f) s r (c + 1) = xl_get f s r (c + 1).
Proof. intros Hf Hs. rewrite get_rows by done. by rewrite decide_False by tauto. Qed.

(** The header and the rows of one sheet, whatever else is written. *)
Lemma get_sheet sheet header rows f f' r c :
  xl_has f sheet = true → xl_has f' sheet = true →
  (∀ r c, xl_get f sheet r c = None) →
  (∀ r c, xl_get f' sheet r (c + 1) = xl_get (writeHeader sheet header f) sheet r (c + 1)) →
  xl_get (write_rows sheet 0 rows f') sheet (r + 1) (c + 1) = sheet_cell header rows r c.
Proof.
  intros Hf Hf' Hn He. rewrite get_rows by done. rewrite He. unfold writeHeader. rewrite get_cells, Hn by done.
  replace (c + 1 - 0 - 1)%nat with c by lia. unfold sheet_cell. destruct r as [|r].
  - rewrite decide_False by out_of_range. rewrite decide_True by in_range. simpl.
    by destruct ((CString <$> header) !! c).
  - rewrite decide_True by in_range. rewrite decide_False by out_of_range.
    replace (S r + 1 - (0 + 2))%nat with r by lia. simpl. by destruct (rows !! r ≫= _).
Qed.

Lemma workbook_cells su st be r c :
  let f := writeWorkbook su st be in
  xl_get f summarySheet (r + 1) (c + 1) = sheet_cell summaryHeader (summary_values <$> su) r c ∧
  xl_get f stageSheet (r + 1) (c + 1) = sheet_cell stageHeader (stage_values <$> st) r c ∧
  xl_get f behaviorSheet (r + 1) (c + 1) = sheet_cell behaviorHeader (behavior_values <$> be) r c.
Proof.
  unfold writeWorkbook. fold sheets. cbv zeta.
  pose proof (sheets_has summarySheet ltac:(set_solver)) as H1.
  pose proof (sheets_has stageSheet ltac:(set_solver)) as H2.
  pose proof (sheets_has behaviorSheet ltac:(set_solver)) as H3.
  assert (∀ s, xl_has sheets s = true → ∀ f, (∀ t, xl_has f t = xl_has sheets t) → xl_has f s = true) as Hh
    by (intros s Hs f Hf; by rewrite Hf).
  split_and!.
  - rewrite !get_rows_other by (try done; unfold writeHeader; by rewrite ?has_rows, ?has_cells).
    apply (get_sheet _ _ _ sheets); [done|unfold writeHeader; by rewrite ?has_cells|intros; apply sheets_get|].
    intros r' c'. unfold writeHeader. by rewrite !(get_cells_other _ _ _ summarySheet) by (rewrite ?has_cells; done).
  - rewrite get_rows_other by (try done; unfold writeHeader; by rewrite ?has_rows, ?has_cells).
    apply (get_sheet _ _ _ sheets);
      [done|unfold writeHeader; by rewrite ?has_rows, ?has_cells|intros; apply sheets_get|].
    intros r' c'. rewrite get_rows_other by (try done; unfold writeHeader; by rewrite ?has_cells).
    unfold writeHeader. rewrite get_cells_other by (rewrite ?has_cells; done).
    rewrite !(get_cells stageSheet) by (rewrite ?has_cells; done).
    case_match; [done|]. by rewrite !get_cells_other by (rewrite ?has_cells; done).
  - apply (get_sheet _ _ _ sheets);
      [done|unfold writeHeader; by rewrite ?has_rows, ?has_cells|intros; apply sheets_get|].
    intros r' c'. rewrite !get_rows_other by (try done; unfold writeHeader; by rewrite ?has_rows, ?has_cells).
    unfold writeHeader. rewrite !(get_cells behaviorSheet) by (rewrite ?has_cells; done).
    case_match; [done|]. by rewrite !get_cells_other by (rewrite ?has_cells; done).
Qed.
End Write.

(** C40: The workbook holds every run that was asked for, once, and nothing
    else.  With any spreadsheet library that behaves as documented: when a
    workbook is written, the address, the session and every run were given
    and each run was answered with status 200 by the API.  Each of the three
    sheets then has its header on the first line and below it, up to order,
    one line (three in the sheet of stages) per run, made of that run's input
    and that run's answer and sorted by scenario, rate and stage; no other
    cell is filled.  If any run is incomplete or not answered, no workbook is
    written. *)
Theorem exported_workbook_exact {W} `{Excel W} {B} `{SortSliceSpec} (http_get : string → result error (Z * B))
    decode cfg (f : W) :
  export_workbook http_get decode cfg = Ok f →
  ∃ input valid resp su st be,
    cfg = Some input ∧ validateInput cfg = Ok valid ∧
    ei_BaseURL valid ≠ "" ∧ ei_SessionID valid ≠ "" ∧ ei_Runs valid ≠ [] ∧
    ei_Runs valid = normalize_run <$> ei_Runs input ∧
    Forall (λ r, ri_ScenarioName r ≠ "" ∧ ri_RunID r ≠ "" ∧ 0 < ri_RPS r)%Z (ei_Runs valid) ∧
    Forall2 (λ r run, ∃ b, http_get (ei_BaseURL valid ++ "/sessions/" ++ ei_SessionID valid ++ "/runs/"
                                     ++ ri_RunID r) = Ok (200%Z, b) ∧ decode b = Ok run)
      (ei_Runs valid) resp ∧
    su ≡ₚ zip_with toSummaryRow (ei_Runs valid) resp ∧
    st ≡ₚ concat (zip_with toStageTrendRows (ei_Runs valid) resp) ∧
    be ≡ₚ zip_with toBehaviorRow (ei_Runs valid) resp ∧
    StronglySorted (in_order (less_by summary_key)) su ∧
    StronglySorted (in_order (less_by stage_key)) st ∧
    StronglySorted (in_order (less_by behavior_key)) be ∧
    ∀ r c,
      xl_get f summarySheet (r + 1) (c + 1) = sheet_cell summaryHeader (summary_values <$> su) r c ∧
      xl_get f stageSheet (r + 1) (c + 1) = sheet_cell stageHeader (stage_values <$> st) r c ∧
      xl_get f behaviorSheet (r + 1) (c + 1) = sheet_cell behaviorHeader (behavior_values <$> be) r c.
Proof.
  unfold export_workbook. destruct (export_tables http_get decode cfg) as [[[su st] be]|e] eqn:E; [|done].
  intros [= <-]. apply export_tables_exact in E as (input & valid & resp & Ht). destruct_and! Ht.
  exists input, valid, resp, su, st, be. split_and!; try done; apply workbook_cells.
Qed.

(** ** Witness: a workbook of maps *)
Section Demo.
Abbreviation book := (gmap string (gmap (nat * nat) cell)).

#[local] Program Instance map_excel : Excel book := {|
  xl_NewFile := {["Sheet1" := ∅]};
  xl_SetSheetName s t w := <[t := default ∅ (w !! s)]> (delete s w);
  xl_NewSheet s w := <[s := ∅]> w;
  xl_SetCellValue s r c v w := match w !! s with Some m => <[s := <[(r, c) := v]> m]> w | None => w end;
  xl_has w s := bool_decide (is_Some (w !! s));
  xl_get w s r c := m ← w !! s; m !! (r, c);
|}.
Next Obligation. intros s. cbn. apply bool_decide_ext. rewrite lookup_singleton. case_decide; naive_solver. Qed.
Next Obligation.
  intros s r c. cbn. rewrite lookup_singleton. case_decide; [|done]. cbn. apply lookup_empty.
Qed.
Next Obligation.
  intros s t w u Hs Ht. cbn. destruct (decide (u = t)) as [->|].
  - rewrite lookup_insert_eq. by rewrite (bool_decide_true (t = t)).
  - rewrite lookup_insert_ne, (bool_decide_false (u = t)) by done. cbn. destruct (decide (u = s)) as [->|].
    + by rewrite lookup_delete_eq, (bool_decide_true (s = s)), andb_false_r.
    + by rewrite lookup_delete_ne, (bool_decide_false (u = s)), andb_true_r.
Qed.
Next Obligation.
  intros s t w u r c Hs Ht. cbn. destruct (decide (u = t)) as [->|].
  - rewrite lookup_insert_eq. apply bool_decide_eq_true in Hs as [m Hm]. by rewrite Hm.
  - rewrite lookup_insert_ne by done. case_decide; subst; [by rewrite lookup_delete_eq|by rewrite lookup_delete_ne].
Qed.
Next Obligation.
  intros s w u. cbn. destruct (decide (u = s)) as [->|].
  - rewrite lookup_insert_eq. by rewrite (bool_decide_true (s = s)).
  - by rewrite lookup_insert_ne, (bool_decide_false (u = s)).
Qed.
Next Obligation.
  intros s w u r c _. cbn. case_decide; subst; [rewrite lookup_insert_eq; apply lookup_empty|by rewrite lookup_insert_ne].
Qed.
Next Obligation.
  intros s r c v w u. cbn. destruct (w !! s) as [m|] eqn:E; [|done]. destruct (decide (u = s)) as [->|].
  - by rewrite lookup_insert_eq, E.
  - by rewrite lookup_insert_ne.
Qed.
Next Obligation.
  intros s r c v w u r' c' [m Hm]%bool_decide_eq_true. cbn. rewrite Hm. destruct (decide (u = s)) as [->|].
  - rewrite lookup_insert_eq, Hm. cbn. case_decide as E; [destruct E as (_ & -> & ->); apply lookup_insert_eq|].
    apply lookup_insert_ne. intros [= -> ->]. tauto.
  - rewrite lookup_insert_ne by done. by rewrite decide_False by tauto.
Qed.

#[local] Existing Instances merge_slice merge_slice_spec.
#[local] Transparent gmap_empty.

Lemma exported_workbook_exact_witness :
  ∃ f : book, export_workbook demo_api demo_decode demo_runs = Ok f ∧
    xl_get f behaviorSheet 1 1 = Some (CString "Scenario") ∧
    xl_get f behaviorSheet 2 1 = Some (CString "Peak") ∧
    xl_get f behaviorSheet 3 11 = Some (CString "Baseline clean") ∧
    ∃ be, xl_get f behaviorSheet 4 1 = sheet_cell behaviorHeader (behavior_values <$> be) 3 0 ∧
      StronglySorted (in_order (less_by behavior_key)) be.
Proof.
  assert (is_ok (export_workbook (W := book) demo_api demo_decode demo_runs) = true) as [f Hf]%is_ok_Ok
    by (vm_compute; reflexivity).
  destruct (exported_workbook_exact demo_api demo_decode demo_runs f Hf)
    as (? & ? & ? & su & st & be & _ & _ & _ & _ & _ & _ & _ & _ & _ & _ & _ & _ & _ & Hs & Hc).
  assert (match export_workbook (W := book) demo_api demo_decode demo_runs with
          | Ok f => [xl_get f behaviorSheet 1 1; xl_get f behaviorSheet 2 1; xl_get f behaviorSheet 3 11]
          | Err _ => []
          end = [Some (CString "Scenario"); Some (CString "Peak"); Some (CString "Baseline clean")]) as E
    by (vm_compute; reflexivity).
  rewrite Hf in E. injection E as E1 E2 E3.
  exists f. do 4 (split; [assumption|]). exists be. split; [exact (proj2 (proj2 (Hc 3%nat 0%nat)))|exact Hs].
Defined.
End Demo.
