(* ===== verification/Flush.v ===== *)
(** * What a run leaves behind: [flushRun] on any run log, and the report of
    its files

    [Preorder.v] has [flushRun] as a step of the run's goroutine.  Here it is
    followed to where the data ends up: in the database, a document for every
    recorded payload, whichever run log is used; in the file system, the files
    from which [Report.v] counts the stages. *)
From stdpp Require Import prelude gmap list strings sorting pretty.
From S2P Require Import Prelude GoStrings GoTime Float64 Json ApiError Latency Redis RunLog MemoryStore OndcAuth SessionTypes StateStore Mongo Config Payloads SelectBatch Coordinator Manager Callbacks Discovery Preorder Report.
Local Open Scope string_scope.

(** ** In the database *)

(** The document [flushRun] saves for a visit of the log. *)
Definition saved_doc {B} (now : Z) (r : Run) (id : string) (v : visit B) : RunPayload B :=
  let '(_, action, txn, b) := v in
  mkRunPayload id (r_ID r) (r_SessionID r) action
    (if has_prefix "on_" action then "response" else "request") txn 0 now b.

Section Database.
Context {B : Type} `{MongoServer B}.

Lemma export_payload_fresh now uuids r v k (m : MongoStore B) :
  c_get (mg_payloads m) (uuids k) = None →
  let '(p, a, t, b) := v in
  export_payload now uuids r p a t b (k, m) =
    (None, (Datatypes.S k, with_payloads (c_put (uuids k) (saved_doc now r (uuids k) v) (mg_payloads m)) m)).
Proof.
  intros Hf. destruct v as [[[p a] t] b]. unfold export_payload, Mongo_SaveRunPayload.
  cbn [rp_ID rp_Timestamp rp_RunID rp_SessionID rp_Stage rp_Direction rp_TxnID rp_Status rp_Body].
  destruct (String.eqb_spec "" ""); [|done]. rewrite Hf. by destruct (now =? zero_time)%Z.
Qed.

(** With fresh ids, the visits become one document each, under the ids in
    their order, and no other document changes. *)
Lemma export_saves now uuids r vs : ∀ k (m : MongoStore B),
  (∀ i j, uuids i = uuids j → i = j) →
  (∀ i, k ≤ i → c_get (mg_payloads m) (uuids i) = None)%nat →
  ∃ m', export_loop (export_payload now uuids r) vs (k, m) = (None, ((k + length vs)%nat, m')) ∧
    (∀ i, c_get (mg_payloads m') (uuids (k + i)%nat) = saved_doc now r (uuids (k + i)%nat) <$> vs !! i) ∧
    (∀ u, (∀ i, u ≠ uuids (k + i)%nat) → c_get (mg_payloads m') u = c_get (mg_payloads m) u).
Proof.
  induction vs as [|v vs IH]; intros k m Hinj Hf.
  { exists m. split; [simpl; by rewrite Nat.add_0_r|]. split; [|done]. intros i. rewrite lookup_nil. apply Hf. lia. }
  pose proof (export_payload_fresh now uuids r v k m (Hf k (le_n k))) as E.
  set (m1 := with_payloads _ m) in E.
  assert (∀ id, c_get (mg_payloads m1) id =
    if decide (id = uuids k) then Some (saved_doc now r (uuids k) v) else c_get (mg_payloads m) id) as Hm1
    by (intros id; apply c_get_put).
  destruct (IH (Datatypes.S k) m1 Hinj) as (m' & El & Hm' & Ho).
  { intros i Hi. rewrite Hm1, decide_False; [apply Hf; lia|]. intros ->%Hinj. lia. }
  exists m'. destruct v as [[[p a] t] b]. cbn [export_loop length]. rewrite E. split.
  { rewrite El. do 2 f_equal. lia. }
  split.
  - intros [|i]; [|rewrite Nat.add_succ_r; apply Hm'].
    rewrite Nat.add_0_r, Ho; [by rewrite Hm1, decide_True|]. intros i Hi%Hinj. lia.
  - intros u Hu. rewrite Ho.
    + rewrite Hm1, decide_False; [done|]. intros ->. apply (Hu 0%nat). by rewrite Nat.add_0_r.
    + intros i ->. apply (Hu (Datatypes.S i)). by rewrite Nat.add_succ_r.
Qed.

(** [GetRun] writes no document. *)
Lemma get_run_mongo {S} `{StateStore B S} now id (s : S) (m : MongoStore B) :
  (run now (Manager_GetRun id) (s, m)).2.2 = m.
Proof.
  unfold Manager_GetRun, mergeRunLatencySummaries.
  repeat (cbn [bind st load run fst snd]; case_match; simplify_eq; try done).
Qed.
End Database.

Lemma db_flush_world {B S L} `{Bytes B, JsonCodec B, Sprint, MongoServer B, StateStore B S, RunLogStore B L}
    cfg (sd : started B) now uuids (w : world B S L) r :
  let id := r_ID (sd_run sd) in
  to_upper (RunPersistence cfg) = "DB" → (run_on now (Manager_GetRun id) w).1 = Ok r →
  (∀ i j, uuids i = uuids j → i = j) → (∀ i, c_get (mg_payloads (w_mongo w)) (uuids i) = None) →
  ∃ s m', flushRun cfg sd now uuids w = cleanup sd now (set_mongo m' (set_state s w)) ∧
    (∀ i, c_get (mg_payloads m') (uuids i) = saved_doc now r (uuids i) <$> log_export now id (w_log w) !! i) ∧
    (∀ u, (∀ i, u ≠ uuids i) → c_get (mg_payloads m') u = c_get (mg_payloads (w_mongo w)) u).
Proof.
  intros id Hdb Hget Hinj Hf. unfold flushRun. rewrite Hdb. fold id.
  pose proof (get_run_mongo now id (w_state w) (w_mongo w)) as Em. unfold run_on in *.
  destruct (run now (Manager_GetRun id) (w_state w, w_mongo w)) as [x [s m]]. cbn [fst snd] in *. subst.
  destruct (export_saves now uuids r (log_export now id (w_log w)) 0 (w_mongo w) Hinj)
    as (m' & El & Hm'); [intros; apply Hf|].
  exists s, m'. split; [|exact Hm'].
  change (to_upper "DB" =? "DB") with true. cbn [w_log w_mongo set_mongo set_state]. by rewrite El.
Qed.

(** C32: The database holds what the run recorded, once.  Flushing to the
    database, on any run log that keeps the promise of the interface (within
    the lifetime of its entries) and with fresh ids: the export visits exactly
    the payloads recorded for the run; the visits become one document each, the
    first under the first id and so on, and the other ids stay unused; a
    document has the action as its stage, the transaction, the body, the
    direction the action has and the run's session; no other document of the
    collection changes; and the log forgets this run and nothing else.  When no
    visit is repeated, as in the in-memory log ([memory_entries_nodup]), there
    are as many new documents as recorded payloads. *)
Theorem db_flush_exact {B S L} `{Bytes B, JsonCodec B, Sprint, MongoServer B, StateStore B S, RunLogStore B L}
    {t0 t1} `{!RunLogRefines B L t0 t1} cfg (sd : started B) now uuids n (w : world B S L) A r :
  let id := r_ID (sd_run sd) in
  to_upper (RunPersistence cfg) = "DB" → (t0 ≤ now < t1)%Z → (Z.of_nat (Datatypes.S n) < 2 ^ 63)%Z →
  name_ok id = true → log_repr n (w_log w) A →
  (∀ p a t b, al_data A id p a t = Some b → p ≠ "" ∧ a ≠ "" ∧ name_ok p = true ∧ name_ok a = true) →
  (run_on now (Manager_GetRun id) w).1 = Ok r →
  (∀ i j, uuids i = uuids j → i = j) →
  (∀ i, c_get (mg_payloads (w_mongo w)) (uuids i) = None) →
  let w' := flushRun cfg sd now uuids w in
  let visits := log_export now id (w_log w) in
  log_repr (Datatypes.S n) (w_log w') (alog_cleanup id A) ∧
  (∀ p a t b, (p, a, t, b) ∈ visits ↔ al_data A id p a t = Some b) ∧
  (∀ i, c_get (mg_payloads (w_mongo w')) (uuids i) = saved_doc now r (uuids i) <$> visits !! i) ∧
  (∀ u, (∀ i, u ≠ uuids i) → c_get (mg_payloads (w_mongo w')) u = c_get (mg_payloads (w_mongo w)) u) ∧
  (NoDup visits → ∀ D : gmap (string * string * string) B,
     (∀ p a t, D !! (p, a, t) = al_data A id p a t) → length visits = size D).
Proof.
  intros id Hdb Hnow Hn Hid HR Hnames Hget Hinj Hfresh w' visits.
  destruct (db_flush_world cfg sd now uuids w r Hdb Hget Hinj Hfresh) as (s & m' & Ew & Hm' & Ho).
  fold id visits w' in Ew, Hm'. rewrite Ew. unfold cleanup, runlog_call. fold id.
  cbn [w_log set_mongo set_log set_state].
  destruct (log_repr_call n now (Cleanup id) (w_log w) A) as [_ HR']; [done..|].
  destruct (log_call now (Cleanup id) (w_log w)) as [x l]. cbn [snd w_log w_mongo set_log set_mongo set_state] in *.
  assert (∀ p a t b, (p, a, t, b) ∈ visits ↔ al_data A id p a t = Some b) as Hv.
  { intros p a t b. destruct (log_repr_export n now id (w_log w) A p a t b Hnow Hid HR) as [Hin Hout].
    split; [intros Hx; by destruct (Hin Hx) as (_ & _ & ?)|]. intros Hb. destruct (Hnames _ _ _ _ Hb) as (? & ? & ? & ?). by apply Hout. }
  split; [exact HR'|]. split; [exact Hv|]. split; [exact Hm'|]. split; [exact Ho|].
  intros Hnd D HD.
  assert (visits ≡ₚ map_to_list D) as E; [|by rewrite E, length_map_to_list].
  apply NoDup_Permutation; [done|apply NoDup_map_to_list|]. intros [[[p a] t] b].
  by rewrite Hv, elem_of_map_to_list, HD.
Qed.

(** ** Witness: a log with one payload *)
Section Demo.
#[local] Existing Instances wire_text wire_json wire_sessions wire_sprint.
#[local] Transparent gmap_empty.

Definition demo_run : Run := new_run 0 "s1" "bpp" 1 2 "r1".
Definition demo_started : started wire := mkStarted demo_session demo_run 1 [] [].
Definition demo_body : wire := WJson (ack_body "ACK").
Definition demo_record : op wire := RecordPayload "r1" "pipeline_b" "on_select" "t1" demo_body.
Definition demo_flush_world : world wire (astore wire) (MemoryStore wire) :=
  mkWorld (aset (KRun "r1") (Some demo_run) astore_empty) NewMongoStore
    (log_call 0 demo_record NewMemoryStore).2 [] [] ∅ ∅.
Definition db_cfg : Config := Load (λ k, if k =? "RUN_PERSISTENCE" then "db" else "").
Definition demo_uuids (i : nat) : string := "u" ++ pretty i.

Lemma demo_uuids_inj i j : demo_uuids i = demo_uuids j → i = j.
Proof. unfold demo_uuids. intros E%app_inv_head_str. by apply (inj pretty). Qed.

Lemma demo_repr :
  memory_repr 1 (w_log demo_flush_world) (alog_next demo_record alog_empty).
Proof.
  apply (log_repr_call (t0:=0) (t1:=1) (RunLogRefines:=memory_refines 0 1) 0 0 demo_record);
    [lia|lia|by split_and!|apply (log_repr_new (RunLogRefines:=memory_refines 0 1))].
Qed.

Lemma demo_recorded p a t b :
  al_data (alog_next demo_record alog_empty) "r1" p a t = Some b →
  p = "pipeline_b" ∧ a = "on_select" ∧ t = "t1" ∧ b = demo_body.
Proof.
  unfold demo_record, alog_next. change (some_empty _ _ _ _) with false. cbn [alog_record al_data].
  destruct (eqb3 _ _ _ _ _ _) eqn:E; [|done]. apply eqb3_true in E as (_ & -> & ->).
  destruct (String.eqb_spec t "t1") as [->|]; [|done]. cbn. by intros [= <-].
Qed.

(** What the log of the demo has recorded. *)
Definition demo_recordings : gmap (string * string * string) wire :=
  {[ ("pipeline_b", "on_select", "t1") := demo_body ]}.
Lemma demo_recordings_spec p a t :
  demo_recordings !! (p, a, t) = al_data (alog_next demo_record alog_empty) "r1" p a t.
Proof.
  unfold demo_recordings. destruct (al_data _ "r1" p a t) as [b|] eqn:E.
  - apply demo_recorded in E as (-> & -> & -> & ->). apply lookup_singleton_eq.
  - apply lookup_singleton_ne. intros [= <- <- <-]. discriminate E.
Qed.

Lemma db_flush_exact_witness :
  let w' := flushRun db_cfg demo_started 0 demo_uuids demo_flush_world in
  ∃ r, c_get (mg_payloads (w_mongo w')) "u0" = Some (saved_doc 0 r "u0" ("pipeline_b", "on_select", "t1", demo_body)) ∧
    c_get (mg_payloads (w_mongo w')) "u1" = None ∧ length (log_export 0 "r1" (w_log demo_flush_world)) = 1%nat.
Proof.
  assert (is_ok (run_on 0 (Manager_GetRun "r1") demo_flush_world).1 = true) as [r Hr]%is_ok_Ok
    by (vm_compute; reflexivity).
  assert (NoDup (log_export 0 "r1" (w_log demo_flush_world))) as Hnd
    by (eapply memory_entries_nodup; [by apply (name_ok_colon "r1")|exact demo_repr]).
  destruct (db_flush_exact (t0:=0) (t1:=1) (RunLogRefines0:=memory_refines 0 1) db_cfg demo_started 0 demo_uuids 1
    demo_flush_world (alog_next demo_record alog_empty) r) as (_ & Hv & Hdoc & _ & Hlen).
  - reflexivity.
  - lia.
  - lia.
  - reflexivity.
  - exact demo_repr.
  - intros p a t b (-> & -> & _)%demo_recorded. by split_and!.
  - exact Hr.
  - exact demo_uuids_inj.
  - intros i. reflexivity.
  - specialize (Hlen Hnd demo_recordings demo_recordings_spec).
    change (size demo_recordings) with 1%nat in Hlen. change (r_ID (sd_run demo_started)) with "r1" in *.
    destruct (log_export 0 "r1" (w_log demo_flush_world)) as [|[[[p a] t] b] [|v vs]]; [discriminate Hlen| |discriminate Hlen].
    destruct (demo_recorded p a t b) as (-> & -> & -> & ->); [apply Hv; by left|].
    exists r. split; [exact (Hdoc 0%nat)|]. split; [exact (Hdoc 1%nat)|reflexivity].
Defined.
End Demo.
