(* ===== verification/RunFiles.v ===== *)
(** * The files of a run: flushed by [runlog/memory_store.go], read by
    [domain/pipeline/report.go]

    The files are those of the world of [Callbacks.v]: contents and
    modification time by path.  [ReadDir] and [Stat] are what [os.ReadDir] and
    [os.Stat] see of them (directories are the prefixes of paths; names hold
    no separator).  The report of a run whose in-memory log was flushed then
    counts what the log had recorded. *)
From stdpp Require Import prelude gmap list strings sorting.
From Stdlib Require Import Ascii String.
From S2P Require Import Prelude GoStrings GoTime Float64 Json ApiError Latency Redis RunLog MemoryStore OndcAuth SessionTypes StateStore Mongo Config Payloads SelectBatch Coordinator Manager Callbacks Discovery Preorder Report Flush.
Local Open Scope string_scope.

Definition slash : Ascii.ascii := "/"%char.

(** ** The file system *)
Section Files.
Context {B : Type}.
Implicit Types files : gmap string (B * Z).

(** A file below a directory, by the rest of its path. *)
Definition under (dir : string) (f : string * (B * Z)) : option (string * (B * Z)) :=
  if has_prefix (dir ++ "/") f.1 then Some (trim_prefix (dir ++ "/") f.1, f.2) else None.
Definition file_entry (f : string * (B * Z)) : option (DirEntry B) :=
  if has_char slash f.1 then None else Some (mkEntry f.1 false (Some f.2.2) (Some f.2.1)).
Definition subdir (f : string * (B * Z)) : option string := fst <$> cut slash f.1.

Definition name_le (a b : DirEntry B) : Prop := String.leb (de_Name a) (de_Name b) = true.
#[export] Instance name_le_dec : RelDecision name_le.
Proof. intros a b. unfold name_le. apply _. Defined.

(** [os.ReadDir]: sorted by name; an error when there is no such directory. *)
Definition ReadDir files (dir : string) : option (list (DirEntry B)) :=
  match omap (under dir) (map_to_list files) with
  | [] => None
  | l => Some (merge_sort name_le
      (omap file_entry l ++ ((λ d, mkEntry d true None None) <$> remove_dups (omap subdir l)))%list)
  end.

Definition Stat files (path : string) : bool :=
  bool_decide (is_Some (files !! path)) || bool_decide (is_Some (ReadDir files path)).

Lemma under_Some dir f rest x :
  under dir f = Some (rest, x) ↔ f = (dir ++ "/" ++ rest, x).
Proof.
  unfold under. destruct f as [path y]. cbn [fst snd]. split.
  - destruct (has_prefix _ path) eqn:E; [|done]. apply has_prefix_true in E as [u ->].
    rewrite trim_prefix_app. intros [= -> ->]. by rewrite app_assoc_str.
  - intros [= -> ->]. replace (dir ++ "/" ++ rest) with ((dir ++ "/") ++ rest) by (by rewrite app_assoc_str).
    by rewrite has_prefix_app, trim_prefix_app.
Qed.

Lemma elem_of_under files dir rest x :
  (rest, x) ∈ omap (under dir) (map_to_list files) ↔ files !! (dir ++ "/" ++ rest) = Some x.
Proof.
  rewrite list_elem_of_omap. setoid_rewrite under_Some. split.
  - by intros (f & Hf%elem_of_map_to_list' & ->).
  - intros Hf. eexists. split; [|done]. by apply elem_of_map_to_list.
Qed.

Lemma ReadDir_None files dir : ReadDir files dir = None ↔ ∀ rest, files !! (dir ++ "/" ++ rest) = None.
Proof.
  unfold ReadDir. destruct (omap (under dir) (map_to_list files)) as [|[rest x] l] eqn:E.
  - split; [|done]. intros _ rest. destruct (files !! _) as [x|] eqn:Ex; [|done].
    apply elem_of_under in Ex. rewrite E in Ex. by apply elem_of_nil in Ex.
  - split; [done|]. intros Hn. assert (files !! (dir ++ "/" ++ rest) = Some x) as Hx.
    { apply elem_of_under. rewrite E. by left. }
    by rewrite Hn in Hx.
Qed.

(** The JSON files a directory lists: those directly in it. *)
Definition json_file (f : string * (B * Z)) : option (DirEntry B * Z) :=
  e ← file_entry f; if Ext (de_Name e) =? ".json" then Some (e, f.2.2) else None.

Lemma omap_dirs_nil (g : DirEntry B → option (DirEntry B * Z)) (l : list string) :
  (∀ d, g (mkEntry d true None None) = None) → omap g ((λ d, mkEntry d true None None) <$> l) = [].
Proof. intros Hg. induction l as [|d l IH]; [done|]. csimpl. by rewrite Hg. Qed.

Lemma listing files dir :
  listJSONFiles (ReadDir files) dir ≡ₚ omap json_file (omap (under dir) (map_to_list files)).
Proof.
  unfold listJSONFiles, ReadDir. destruct (omap (under dir) (map_to_list files)) as [|f l] eqn:E; [done|].
  rewrite <- E. clear E. set (l' := omap (under dir) _).
  rewrite merge_sort_Permutation, omap_app, omap_dirs_nil, app_nil_r by done.
  induction l' as [|[rest [b z]] l' IH]; [done|]. unfold json_file at 1, file_entry at 1 2. csimpl.
  destruct (has_char slash rest); csimpl; [exact IH|].
  destruct (Ext rest =? ".json"); csimpl; [by rewrite IH|exact IH].
Qed.

Lemma json_file_Some rest x e z :
  json_file (rest, x) = Some (e, z) ↔
  has_char slash rest = false ∧ Ext rest = ".json" ∧ x.2 = z ∧ e = mkEntry rest false (Some z) (Some x.1).
Proof.
  unfold json_file, file_entry. cbn [fst snd]. destruct (has_char slash rest); csimpl; [naive_solver|].
  destruct (String.eqb_spec (Ext rest) ".json"); naive_solver.
Qed.

Lemma elem_of_listing files dir e z :
  (e, z) ∈ listJSONFiles (ReadDir files) dir ↔
  ∃ name b, files !! (dir ++ "/" ++ name) = Some (b, z) ∧ has_char slash name = false ∧
    Ext name = ".json" ∧ e = mkEntry name false (Some z) (Some b).
Proof.
  rewrite listing, list_elem_of_omap. split.
  - intros ([rest [b z']] & Hin%elem_of_under & (Hs & He & Hz & ->)%json_file_Some). cbn in Hz; subst.
    by exists rest, b.
  - intros (name & b & Hf & Hs & He & ->). exists (name, (b, z)). split; [by apply elem_of_under|].
    by apply json_file_Some.
Qed.

(** A directory lists a name once. *)
Lemma listing_names files dir : NoDup ((λ r, de_Name r.1) <$> listJSONFiles (ReadDir files) dir).
Proof.
  rewrite listing. set (path := λ f : string * (B * Z), f.1).
  assert (NoDup (path <$> omap (under dir) (map_to_list files))) as Hn.
  { pose proof (NoDup_fst_map_to_list files) as Hn. revert Hn.
    induction (map_to_list files) as [|f l IH]; [done|]. csimpl. intros [Hf Hn]%NoDup_cons.
    destruct (under dir f) as [[rest x]|] eqn:E; csimpl; [|by apply IH].
    apply under_Some in E as ->. apply NoDup_cons. split; [|by apply IH].
    intros ([rest' y] & Hr & (g & Hg & E)%list_elem_of_omap)%list_elem_of_fmap. unfold path in Hr. cbn in Hr.
    subst rest'. apply under_Some in E as ->. apply Hf. by apply (list_elem_of_fmap_2 fst) in Hg. }
  revert Hn. induction (omap (under dir) _) as [|[rest x] l IH]; [done|]. csimpl.
  intros [Hr Hn]%NoDup_cons. destruct (json_file (rest, x)) as [[e z]|] eqn:E; csimpl; [|by apply IH].
  apply json_file_Some in E as (_ & _ & _ & ->). apply NoDup_cons. split; [|by apply IH].
  intros ([e' z'] & Hn' & ([rest' x'] & Hin & E)%list_elem_of_omap)%list_elem_of_fmap.
  apply json_file_Some in E as (_ & _ & _ & ->). cbn in Hn'. subst rest'.
  apply Hr. by apply (list_elem_of_fmap_2 path) in Hin.
Qed.

(** Files written one after the other, when no two of them differ in the
    contents of one path. *)
Lemma write_lookup now (fs : list (string * B)) : ∀ files path,
  (∀ p b b', (p, b) ∈ fs → (p, b') ∈ fs → b = b') →
  foldl (λ F pb, <[pb.1 := (pb.2, now)]> F) files fs !! path =
    match list_find (λ pb, pb.1 = path) fs with
    | Some (_, (_, b)) => Some (b, now)
    | None => files !! path
    end.
Proof.
  induction fs as [|[p b] fs IH]; intros files path Hfun; [done|]. csimpl.
  rewrite IH by (intros; eapply Hfun; right; eassumption).
  destruct (list_find (λ pb, pb.1 = path) fs) as [[i [p' b']]|] eqn:E; csimpl.
  - pose proof E as (Hi & Hp & _)%list_find_Some. cbn in Hp. subst p'. case_decide; [|done].
    subst p. do 2 f_equal. eapply Hfun; [right; by eapply list_elem_of_lookup_2|by left].
  - case_decide; [subst; by rewrite lookup_insert_eq|by rewrite lookup_insert_ne].
Qed.

Lemma write_elem now (fs : list (string * B)) files path b z :
  (∀ p b b', (p, b) ∈ fs → (p, b') ∈ fs → b = b') → files !! path = None →
  foldl (λ F pb, <[pb.1 := (pb.2, now)]> F) files fs !! path = Some (b, z) ↔ (path, b) ∈ fs ∧ z = now.
Proof.
  intros Hfun Hn. rewrite write_lookup by done.
  destruct (list_find (λ pb, pb.1 = path) fs) as [[i [p' b']]|] eqn:E.
  - apply list_find_Some in E as (Hi & Hp & _). cbn in Hp. subst p'. split.
    + intros [= <- <-]. split; [|done]. by eapply list_elem_of_lookup_2.
    + intros [Hin ->]. do 2 f_equal. eapply Hfun; [|exact Hin]. by eapply list_elem_of_lookup_2.
  - rewrite Hn. split; [done|]. intros [Hin _]. apply list_find_None in E. rewrite Forall_forall in E.
    by destruct (E _ Hin).
Qed.
End Files.

(** ** Paths *)

Abbreviation no_slash s := (has_char slash s = false).

Lemma Ext_json t : Ext (t ++ ".json") = ".json".
Proof.
  induction t as [|c t IH]; [reflexivity|].
  change (String c t ++ ".json") with (String c (t ++ ".json")). cbn [Ext].
  rewrite has_char_app. by rewrite orb_true_r, IH.
Qed.

Lemma run_file_under root r p a t :
  run_file root r p a t = (root ++ "/" ++ r) ++ "/" ++ p ++ "/" ++ a ++ "/" ++ t ++ ".json".
Proof. unfold run_file. by rewrite !app_assoc_str. Qed.

Lemma run_file_inj root r p a t p' a' t' :
  no_slash p → no_slash a → no_slash p' → no_slash a' →
  run_file root r p a t = run_file root r p' a' t' → p = p' ∧ a = a' ∧ t ++ ".json" = t' ++ ".json".
Proof.
  intros Hp Ha Hp' Ha'. rewrite !run_file_under. intros E%app_inv_head_str.
  apply (app_inv_head_str "/") in E. apply (sep_inj slash) in E as [-> E]; [|done..].
  by apply (sep_inj slash) in E as [-> E].
Qed.

Lemma json_inj t t' : t ++ ".json" = t' ++ ".json" → t = t'.
Proof.
  assert (∀ c t, "" ++ ".json" ≠ String c t ++ ".json") as Hne.
  { intros c u E. apply (f_equal String.length) in E. rewrite !length_app_str in E. cbn in E. lia. }
  revert t'. induction t as [|c t IH]; intros [|c' t'] E; [done| | |].
  - by apply Hne in E.
  - symmetry in E. by apply Hne in E.
  - change (String c (t ++ ".json") = String c' (t' ++ ".json")) in E. injection E as -> E.
    f_equal. by apply IH.
Qed.

(** ** The files of a flushed run *)
Section Flushed.
Context {B : Type} `{JsonCodec B}.
Variables (n : nat) (s : MemoryStore B) (A : alog B) (root r : string) (now : Z).
Variable files : gmap string (B * Z).
Hypothesis Hrepr : memory_repr n s A.
Hypothesis Hrun : no_colon r.
Hypothesis Hnames : ∀ p a t b, al_data A r p a t = Some b → no_slash p ∧ no_slash a ∧ no_slash t.
Hypothesis Hnew : ∀ path, has_prefix (root ++ "/" ++ r ++ "/") path = true → files !! path = None.

Abbreviation base := (root ++ "/" ++ r ++ "/pipeline_b").
Definition flushed : gmap string (B * Z) :=
  foldl (λ F pb, <[pb.1 := (pb.2, now)]> F) files (MemoryStore_FlushToFilesystem r root s).

Lemma elem_of_flush path b :
  (path, b) ∈ MemoryStore_FlushToFilesystem r root s ↔
  ∃ p a t, no_colon p ∧ no_colon a ∧ al_data A r p a t = Some b ∧ path = run_file root r p a t.
Proof.
  unfold MemoryStore_FlushToFilesystem. rewrite list_elem_of_In, in_map_iff. split.
  - intros ([[[p a] t] b'] & [= <- <-] & Hin%list_elem_of_In).
    apply (memory_entries_spec n r s A) in Hin as (? & ? & Hb); [|done..]. by exists p, a, t.
  - intros (p & a & t & Hp & Ha & Hb & ->). exists (p, a, t, b). split; [done|].
    by apply list_elem_of_In, (memory_entries_spec n r s A).
Qed.

Lemma flushed_lookup rest b z :
  flushed !! (root ++ "/" ++ r ++ "/" ++ rest) = Some (b, z) ↔
  (∃ p a t, no_colon p ∧ no_colon a ∧ al_data A r p a t = Some b ∧
     root ++ "/" ++ r ++ "/" ++ rest = run_file root r p a t) ∧ z = now.
Proof.
  unfold flushed. rewrite write_elem, elem_of_flush; [done| |].
  - intros path b1 b2 (p & a & t & _ & _ & H1 & ->)%elem_of_flush (p' & a' & t' & _ & _ & H2 & E)%elem_of_flush.
    destruct (Hnames _ _ _ _ H1) as (? & ? & ?), (Hnames _ _ _ _ H2) as (? & ? & ?).
    apply run_file_inj in E as (<- & <- & <-%json_inj); [|done..]. congruence.
  - apply Hnew. replace (root ++ "/" ++ r ++ "/" ++ rest) with ((root ++ "/" ++ r ++ "/") ++ rest)
      by (by rewrite !app_assoc_str). apply has_prefix_app.
Qed.

(** The payloads recorded for an action. *)
Definition recorded (a : string) : gmap string B := default ∅ (ms_data s !! bucketKey r "pipeline_b" a).

Lemma recorded_lookup a t : no_colon a → recorded a !! t = al_data A r "pipeline_b" a t.
Proof. intros Ha. unfold recorded. by apply (mr_data _ _ _ Hrepr). Qed.

Definition file_of (tb : string * B) : DirEntry B * Z :=
  (mkEntry (tb.1 ++ ".json") false (Some now) (Some tb.2), now).

Lemma base_path a rest :
  (base ++ "/" ++ a) ++ "/" ++ rest = root ++ "/" ++ r ++ "/" ++ "pipeline_b/" ++ a ++ "/" ++ rest.
Proof. by rewrite !app_assoc_str. Qed.

Lemma flushed_listing a :
  no_slash a → no_colon a →
  listJSONFiles (ReadDir flushed) (base ++ "/" ++ a) ≡ₚ file_of <$> map_to_list (recorded a).
Proof.
  intros Hs Hc. apply NoDup_Permutation.
  - eapply NoDup_fmap_1, listing_names.
  - apply NoDup_fmap_2_strong; [|apply NoDup_map_to_list].
    intros [t b] [t' b'] H1 H2 [= E E2]. apply json_inj in E as ->. by subst.
  - intros [e z]. rewrite elem_of_listing. split.
    + intros (name & b & Hf & Hn & He & ->). rewrite base_path in Hf.
      apply flushed_lookup in Hf as ((p & a' & t & Hp & Ha & Hb & E) & ->).
      destruct (Hnames _ _ _ _ Hb) as (Sp & Sa & St).
      rewrite run_file_under, <- (base_path a), !app_assoc_str in E.
      do 3 apply app_inv_head_str in E.
      change ("/" ++ "pipeline_b" ++ "/" ++ a ++ "/" ++ name = "/" ++ p ++ "/" ++ a' ++ "/" ++ t ++ ".json") in E.
      apply app_inv_head_str in E.
      apply (sep_inj slash "pipeline_b") in E as [<- E]; [|done..].
      apply (sep_inj slash) in E as [<- ->]; [|done..].
      apply list_elem_of_fmap. exists (t, b). split; [done|]. apply elem_of_map_to_list.
      by rewrite recorded_lookup.
    + intros ([t b] & [= -> ->] & Hb%elem_of_map_to_list)%list_elem_of_fmap.
      rewrite recorded_lookup in Hb by done. exists (t ++ ".json"), b.
      destruct (Hnames _ _ _ _ Hb) as (_ & _ & St). split_and!; [|by rewrite has_char_app, St|apply Ext_json|done].
      rewrite base_path. apply flushed_lookup. split; [|done]. exists "pipeline_b", a, t.
      by split_and!.
Qed.

(** What the callbacks of a transaction say: nothing, or whether it is
    refused. *)
Definition nack_body (b : B) : bool :=
  let s := ack_status (json_unmarshal b) in negb (s =? "") && negb (s =? "ACK").
Definition verdict (recvDir t : string) : option bool := nack_body <$> al_data A r "pipeline_b" recvDir t.

(** The transactions of an action. *)
Definition txns_of (a : string) : gset string := dom (recorded a).

Lemma elem_of_txns a t : no_colon a → t ∈ txns_of a ↔ is_Some (al_data A r "pipeline_b" a t).
Proof. intros Ha. unfold txns_of. by rewrite elem_of_dom, recorded_lookup. Qed.

Lemma txns_perm a : (map_to_list (recorded a)).*1 ≡ₚ elements (txns_of a).
Proof.
  apply NoDup_Permutation; [apply NoDup_fst_map_to_list|apply NoDup_elements|]. intros t.
  rewrite elem_of_elements. unfold txns_of. rewrite elem_of_dom, list_elem_of_fmap. split.
  - intros ([t' b] & -> & Hb%elem_of_map_to_list). by eexists.
  - intros [b Hb]. exists (t, b). split; [done|]. by apply elem_of_map_to_list.
Qed.

Lemma answer_flushed a tb :
  no_slash a → no_colon a →
  answer (listJSONFiles (ReadDir flushed) (base ++ "/" ++ a)) (file_of tb) =
    (λ b, file_of (tb.1, b)) <$> al_data A r "pipeline_b" a tb.1.
Proof.
  intros Hs Hc. set (l := listJSONFiles _ _). rewrite <- recorded_lookup by done.
  assert (∀ e, e ∈ l ↔ e ∈ file_of <$> map_to_list (recorded a)) as Hl
    by (intros e; unfold l; by rewrite flushed_listing).
  unfold answer. destruct (list_find _ l) as [[i [e z]]|] eqn:E.
  - apply list_find_Some in E as (Hi%list_elem_of_lookup_2 & Hn & _). apply Hl in Hi.
    apply list_elem_of_fmap in Hi as ([t b] & [= -> ->] & Hb%elem_of_map_to_list).
    cbn in Hn. apply json_inj in Hn as ->. by rewrite Hb.
  - apply list_find_None in E. rewrite Forall_forall in E.
    destruct (recorded a !! tb.1) as [b|] eqn:Hb; [|done].
    destruct (E (file_of (tb.1, b))); [|done]. apply Hl, list_elem_of_fmap_2, elem_of_map_to_list, Hb.
Qed.

Lemma counted (f : DirEntry B * Z → bool) (g : string → bool) a :
  no_slash a → no_colon a → (∀ tb, f (file_of tb) = g tb.1) →
  countb f (listJSONFiles (ReadDir flushed) (base ++ "/" ++ a)) = countb g (elements (txns_of a)).
Proof.
  intros Hs Hc Hfg. rewrite (countb_perm _ _ _ (flushed_listing a Hs Hc)), countb_fmap.
  rewrite <- (countb_perm _ _ _ (txns_perm a)), countb_fmap. apply countb_ext. intros tb _. apply Hfg.
Qed.

(** One stage of the report. *)
Lemma flushed_stage p :
  no_slash (sp_sendDir p) → no_colon (sp_sendDir p) → no_slash (sp_recvDir p) → no_colon (sp_recvDir p) →
  let sr := buildStageReport (ReadDir flushed) base p in
  let ts := elements (txns_of (sp_sendDir p)) in
  let count v := Z.of_nat (countb (λ t, bool_decide (verdict (sp_recvDir p) t = v)) ts) in
  sr_Stage sr = sp_name p ∧ sr_Sent sr = Z.of_nat (length ts) ∧
  sr_AckCount sr = count (Some false) ∧ sr_NackCount sr = count (Some true) ∧ sr_NoCallback sr = count None.
Proof.
  intros Hs Hc Hs' Hc' sr ts count. split; [apply stage_name|]. split.
  { unfold sr. rewrite stage_sent, flushed_listing by done. unfold ts.
    by rewrite <- txns_perm, !length_fmap. }
  set (sent := listJSONFiles (ReadDir flushed) (base ++ "/" ++ sp_sendDir p)).
  set (recv := listJSONFiles (ReadDir flushed) (base ++ "/" ++ sp_recvDir p)).
  assert (∀ f v, (∀ s, f s = bool_decide ((λ r, file_isNack r.1) <$> answer recv s = v)) →
    count v = Z.of_nat (countb f sent)) as Hcount.
  { intros f v Hf. unfold count. f_equal. symmetry. apply counted; [done..|]. intros tb. rewrite Hf. unfold recv, verdict.
    rewrite answer_flushed by done. by destruct (al_data A r "pipeline_b" (sp_recvDir p) tb.1). }
  rewrite (Hcount (acked recv)), (Hcount (nacked recv)), (Hcount (silent recv)); unfold acked, nacked, silent;
    try (intros s0; destruct (answer recv s0) as [x|]; [|done]; cbn; by destruct (file_isNack x.1)).
  destruct (decide (sent = [])) as [E|Hne].
  - unfold sr, buildStageReport. fold sent. by rewrite E.
  - destruct (stage_report_exact (ReadDir flushed) base p (listing_names _ _) Hne)
      as (_ & _ & E1 & E2 & E3 & _). by split_and!.
Qed.

(** Without a directory for the run nothing was recorded. *)
Lemma flushed_stat a t : no_colon a → Stat flushed base = false → al_data A r "pipeline_b" a t = None.
Proof.
  intros Ha [_ Hst]%orb_false_iff. apply bool_decide_eq_false in Hst.
  destruct (al_data A r "pipeline_b" a t) as [b|] eqn:Hb; [|done].
  assert (ReadDir flushed base = None) as Hd by (by apply eq_None_not_Some).
  rewrite ReadDir_None in Hd. specialize (Hd (a ++ "/" ++ t ++ ".json")).
  assert (flushed !! (root ++ "/" ++ r ++ "/" ++ "pipeline_b/" ++ a ++ "/" ++ t ++ ".json") = Some (b, now)) as Hf.
  { apply flushed_lookup. split; [|done]. by exists "pipeline_b", a, t. }
  rewrite !app_assoc_str in Hd. discriminate (eq_trans (eq_sym Hf) Hd).
Qed.
End Flushed.

(** C26: The report of a run counts what its log had recorded.  Let a run's
    in-memory log be flushed to the file system at the end of the run, under a
    directory that is new, with names that hold no separator, and
    [GenerateRunReport] read the files.  Then it has a row for exactly the
    stages in which something was sent; the row counts the transactions the
    log had a request of, and among them those whose recorded callback
    accepts, refuses, or is missing. *)
Theorem flushed_report_counts {B S} `{Bytes B, JsonCodec B, Sprint, MongoServer B, StateStore B S}
    cfg (sd : started B) now later uuids n (w : world B S (MemoryStore B)) A :
  let r := r_ID (sd_run sd) in
  let root := RunsFSRoot cfg in
  to_upper (RunPersistence cfg) ≠ "DB" → RunsFSEnable cfg = true →
  memory_repr n (w_log w) A → no_colon r →
  (∀ p a t b, al_data A r p a t = Some b → no_slash p ∧ no_slash a ∧ no_slash t) →
  (∀ path, has_prefix (root ++ "/" ++ r ++ "/") path = true → w_files w !! path = None) →
  let files := w_files (flushRun cfg sd now uuids w) in
  let sent p t := is_Some (al_data A r "pipeline_b" (sp_sendDir p) t) in
  match GenerateRunReport (ReadDir files) (Stat files) later root r with
  | None => ∀ p t, p ∈ report_pairs → ¬ sent p t
  | Some rr =>
      (∀ p t, p ∈ report_pairs → sent p t → ∃ sr, sr ∈ rr_Stages rr ∧ sr_Stage sr = sp_name p) ∧
      ∀ sr, sr ∈ rr_Stages rr → ∃ p (T : gset string),
        p ∈ report_pairs ∧ (∀ t, t ∈ T ↔ sent p t) ∧ T ≠ ∅ ∧
        let reply t := verdict A r (sp_recvDir p) t in
        let count v := Z.of_nat (countb (λ t, bool_decide (reply t = v)) (elements T)) in
        sr_Stage sr = sp_name p ∧ sr_Sent sr = Z.of_nat (size T) ∧
        sr_AckCount sr = count (Some false) ∧ sr_NackCount sr = count (Some true) ∧
        sr_NoCallback sr = count None
  end.
Proof.
  intros r root Hdb Hfs HR Hr Hnames Hnew files sent.
  assert (files = flushed (w_log w) root r now (w_files w)) as ->.
  { unfold files, flushRun. rewrite (proj2 (String.eqb_neq _ _) Hdb), Hfs. reflexivity. }
  set (F := flushed _ _ _ _ _).
  assert (∀ p, p ∈ report_pairs → no_slash (sp_sendDir p) ∧ no_colon (sp_sendDir p) ∧
    no_slash (sp_recvDir p) ∧ no_colon (sp_recvDir p)) as Hpairs.
  { intros p Hp. unfold report_pairs in Hp. repeat (apply elem_of_cons in Hp as [->|Hp]; [by split_and!|]).
    by apply elem_of_nil in Hp. }
  unfold GenerateRunReport. destruct (Stat F _) eqn:Est.
  - cbn [rr_Stages].
    assert (Hstage := λ p Hp, let '(conj H1 (conj H2 (conj H3 H4))) := Hpairs p Hp in
      flushed_stage n (w_log w) A root r now (w_files w) HR Hr Hnames Hnew p H1 H2 H3 H4).
    fold F in Hstage. cbv zeta in Hstage. split.
    + intros p t Hp Ht. destruct (Hstage p Hp) as (En & Es & _). eexists. split; [|exact En].
      apply list_elem_of_filter. split; [|by apply list_elem_of_fmap_2]. rewrite Es.
      apply (elem_of_txns n (w_log w) A r HR Hr), elem_of_elements in Ht; [|by apply Hpairs].
      destruct (elements _); [by apply elem_of_nil in Ht|simpl; lia].
    + intros sr [Hpos (p & -> & Hp)%list_elem_of_fmap]%list_elem_of_filter.
      destruct (Hstage p Hp) as (En & Es & Ea & Ek & Ec).
      exists p, (txns_of (w_log w) r (sp_sendDir p)). split; [done|]. split_and!; try done.
      * intros t. apply (elem_of_txns n); [done|done|by apply Hpairs].
      * intros E. rewrite Es, E, elements_empty in Hpos. simpl in Hpos. lia.
  - intros p t Hp [b Hb].
    by rewrite (flushed_stat n (w_log w) A root r now (w_files w) HR Hr Hnames Hnew) in Hb by (done || by apply Hpairs).
Qed.

(** ** Witness: two selects, one of them answered *)
Section Demo.
#[local] Existing Instances wire_text wire_json wire_sessions wire_sprint.
#[local] Transparent gmap_empty.

Definition demo_select (t : string) : op wire := RecordPayload "r1" "pipeline_b" "select" t demo_body.
Definition file_ops : list (Z * op wire) := [(0, demo_select "t1"); (0, demo_select "t2"); (0, demo_record)]%Z.
Definition file_log : alog wire := alog_run file_ops alog_empty.
Definition file_world : world wire (astore wire) (MemoryStore wire) :=
  mkWorld astore_empty NewMongoStore (log_calls file_ops NewMemoryStore).2 [] [] ∅ ∅.
Definition fs_cfg : Config := Load (λ k, if k =? "RUN_PERSISTENCE" then "fs" else "").
Definition demo_files_of : gmap string (wire * Z) :=
  w_files (flushRun fs_cfg demo_started 0 demo_uuids file_world).

Lemma file_repr : memory_repr 3 (w_log file_world) file_log.
Proof.
  apply (log_calls_repr (t0:=0) (t1:=1) (RunLogRefines0:=memory_refines 0 1) file_ops 0);
    [done|by repeat constructor|apply (log_repr_new (RunLogRefines:=memory_refines 0 1))].
Qed.

Lemma file_names p a t b :
  al_data file_log "r1" p a t = Some b → no_slash p ∧ no_slash a ∧ no_slash t.
Proof.
  change (al_data file_log "r1" p a t) with
    (if eqb3 "r1" "pipeline_b" "on_select" "r1" p a && (t =? "t1") then Some demo_body
     else if eqb3 "r1" "pipeline_b" "select" "r1" p a && (t =? "t2") then Some demo_body
     else if eqb3 "r1" "pipeline_b" "select" "r1" p a && (t =? "t1") then Some demo_body else None).
  assert (∀ a' t', eqb3 "r1" "pipeline_b" a' "r1" p a && (t =? t') = true → p = "pipeline_b" ∧ a = a' ∧ t = t') as He.
  { intros a' t' E. apply andb_true_iff in E as [(_ & -> & ->)%eqb3_true ->%String.eqb_eq]. done. }
  destruct (eqb3 _ _ "on_select" _ _ _ && (t =? "t1")) eqn:E1; [apply He in E1 as (-> & -> & ->); intros _; by split_and!|].
  destruct (eqb3 _ _ "select" _ _ _ && (t =? "t2")) eqn:E2; [apply He in E2 as (-> & -> & ->); intros _; by split_and!|].
  destruct (eqb3 _ _ "select" _ _ _ && (t =? "t1")) eqn:E3; [apply He in E3 as (-> & -> & ->); intros _; by split_and!|done].
Qed.

Lemma flushed_report_counts_witness :
  ∃ rr sr (T : gset string),
    GenerateRunReport (ReadDir demo_files_of) (Stat demo_files_of) 7 "./runs" "r1" = Some rr ∧
    (λ sr, (sr_Stage sr, sr_Sent sr, sr_AckCount sr, sr_NackCount sr, sr_NoCallback sr)) <$> rr_Stages rr
      = [("select", 2, 1, 0, 1)]%Z ∧
    sr ∈ rr_Stages rr ∧ "t2" ∈ T ∧ sr_Sent sr = Z.of_nat (size T).
Proof.
  pose proof (flushed_report_counts fs_cfg demo_started 0 7 demo_uuids 3 file_world file_log
    ltac:(vm_compute; discriminate) eq_refl file_repr eq_refl file_names (λ _ _, eq_refl)) as H.
  cbv zeta in H. fold demo_files_of in H. change (RunsFSRoot fs_cfg) with "./runs" in H.
  change (r_ID (sd_run demo_started)) with "r1" in H.
  assert (((λ sr, (sr_Stage sr, sr_Sent sr, sr_AckCount sr, sr_NackCount sr, sr_NoCallback sr)) <$>
    default [] (rr_Stages <$> GenerateRunReport (ReadDir demo_files_of) (Stat demo_files_of) 7 "./runs" "r1"))
      = [("select", 2, 1, 0, 1)]%Z) as Hr by (vm_compute; reflexivity).
  destruct (GenerateRunReport _ _ 7 "./runs" "r1") as [rr|]; [|discriminate Hr].
  destruct H as [Hex Hall]. cbn [default fmap option_fmap option_map] in Hr.
  destruct (Hex (mkPair "select" "select" "on_select") "t2") as (sr & Hin & Hst);
    [left|by eexists|].
  destruct (Hall sr Hin) as (p & T & Hp & HT & _ & Hs & Hsent & _).
  exists rr, sr, T. split; [reflexivity|]. split; [exact Hr|]. split; [exact Hin|]. split; [|exact Hsent].
  apply HT. unfold report_pairs in Hp. rewrite Hst in Hs.
  repeat (apply elem_of_cons in Hp as [->|Hp]; [try discriminate Hs; by eexists|]). by apply elem_of_nil in Hp.
Defined.
End Demo.
