(* ===== verification/Artefacts.v ===== *)
(** * Files the program only writes: [domain/pipeline/report.go],
    [domain/pipeline/select_batch.go]

    [WriteRunReport] stores the report of a run, [saveSelectPool] the orders
    made from a catalog.  Nothing of the program reads either again.  Files
    are those of [RunFiles.v]; [json.MarshalIndent] is the codec, of which the
    white space it adds is no part; the results of the calls that may fail
    are arguments. *)
From stdpp Require Import prelude gmap list strings.
From Stdlib Require Import Ascii String.
From S2P Require Import Prelude GoStrings GoTime Float64 Json ApiError Report RunFiles.
Local Open Scope string_scope.

(** [time.Time.MarshalJSON] of a UTC time of a four-digit year: RFC 3339 with
    the fraction's trailing zeros removed. *)
Definition format_nano (t : Z) : string :=
  let ns := padded 9 (t mod second) "" in
  let frac := trim_right (Ascii.eqb "0"%char) ns in
  String.substring 0 19 (format_ms t) ++ (if frac =? "" then "" else "." ++ frac) ++ "Z".

(** ** [json.Marshal] of a [RunReport], by its tags *)
Definition stage_json (s : StageReport) : json :=
  JObj (list_to_map [("stage", JStr (sr_Stage s)); ("sent", JInt (sr_Sent s));
    ("ack_count", JInt (sr_AckCount s)); ("nack_count", JInt (sr_NackCount s));
    ("no_callback", JInt (sr_NoCallback s)); ("p50_ms", JNum (sr_P50MS s)); ("p95_ms", JNum (sr_P95MS s));
    ("p99_ms", JNum (sr_P99MS s)); ("avg_ms", JNum (sr_AvgMS s))]).

(** The slice of the stages is nil when there is none. *)
Definition report_json (r : RunReport) : json :=
  JObj (list_to_map [("run_id", JStr (rr_RunID r));
    ("stages", match rr_Stages r with [] => JNull | l => JArr (stage_json <$> l) end);
    ("generated_at", JStr (format_nano (rr_GeneratedAt r)))]).

Section Write.
Context {B : Type} `{JsonCodec B}.
Implicit Types files : gmap string (B * Z).

(** The results of [os.MkdirAll] and [os.WriteFile]. *)
Variables (mkdir write : option error).

(** The path, and the files after the call. *)
Definition WriteRunReport (now : Z) (runsRoot : string) (report : RunReport) files
  : result error string * gmap string (B * Z) :=
  let dir := runsRoot ++ "/" ++ rr_RunID report in
  match mkdir with
  | Some e => (Err (EWrap "create report dir" e), files)
  | None =>
      let path := dir ++ "/report.json" in
      match json_marshal (report_json report) with
      | None => (Err (EText "marshal report"), files)
      | Some data =>
          match write with
          | Some e => (Err (EWrap "write report" e), files)
          | None => (Ok path, <[path := (data, now)]> files)
          end
      end
  end.

(** [crypto/sha256.Sum256]: its 32 bytes. *)
Variable sha256_Sum256 : B → string.

Definition hex_digit (n : nat) : ascii :=
  default "0"%char (String.get n "0123456789abcdef").
Fixpoint hex_EncodeToString (s : string) : string :=
  match s with
  | EmptyString => ""
  | String c s' =>
      String (hex_digit (Ascii.nat_of_ascii c / 16)) (String (hex_digit (Ascii.nat_of_ascii c mod 16))
        (hex_EncodeToString s'))
  end.

Definition saveSelectPool (now : Z) (onSearch : B) (orders : list obj) files : gmap string (B * Z) :=
  match orders with
  | [] => files
  | _ =>
      let id := hex_EncodeToString (String.substring 0 8 (sha256_Sum256 onSearch)) in
      match mkdir with
      | Some _ => files
      | None =>
          let wrapped := (λ o, JObj {["order" := JObj o]}) <$> orders in
          match json_marshal (JArr wrapped) with
          | None => files
          | Some data =>
              match write with
              | Some _ => files
              | None => <["fixtures/select_pools" ++ "/" ++ id ++ ".json" := (data, now)]> files
              end
          end
      end
  end.

(** ** They touch no payload of a run *)

Fixpoint count_slashes (s : string) : nat :=
  match s with EmptyString => 0 | String c s' => (if Ascii.eqb c slash then 1 else 0) + count_slashes s' end.

Lemma count_slashes_app s t : count_slashes (s ++ t) = (count_slashes s + count_slashes t)%nat.
Proof. induction s as [|c s IH]; simpl; [done|]. rewrite IH. lia. Qed.

Lemma count_no_slash s : has_char slash s = false → count_slashes s = 0%nat.
Proof.
  induction s as [|c s IH]; simpl; [done|]. intros [Hc Hs]%orb_false_iff. by rewrite Hc, IH.
Qed.

Lemma hex_no_slash s : has_char slash (hex_EncodeToString s) = false.
Proof.
  assert (∀ n, (n < 16)%nat → Ascii.eqb (hex_digit n) slash = false) as Hd
    by (intros n Hn; do 16 (destruct n as [|n]; [done|]); lia).
  induction s as [|c s IH]; [done|]. cbn [hex_EncodeToString has_char]. rewrite IH, !Hd; [done|..].
  - by apply Nat.mod_upper_bound.
  - apply Nat.Div0.div_lt_upper_bound. pose proof (Ascii.nat_ascii_bounded c). lia.
Qed.

(** The payload files of a run are below [<root>/<run>/pipeline_b]; the ones
    written here are not, for any run and root, so every report reads the same
    payloads before and after. *)
Theorem artefacts_frame now root report orders onSearch files run rest :
  no_slash (rr_RunID report) → no_slash run →
  let payload := root ++ "/" ++ run ++ "/pipeline_b/" ++ rest in
  (WriteRunReport now root report files).2 !! payload = files !! payload ∧
  saveSelectPool now onSearch orders files !! payload = files !! payload.
Proof.
  intros Hr Hrun payload. split.
  - unfold WriteRunReport. destruct mkdir; [done|]. destruct (json_marshal _); [|done].
    destruct write; [done|]. simpl. apply lookup_insert_ne. unfold payload. intros E.
    rewrite app_assoc_str in E. apply (inj (String.append root)) in E. simpl in E. injection E as E.
    apply (sep_inj slash (rr_RunID report) "report.json" run ("pipeline_b/" ++ rest)) in E; [|done..].
    by destruct E.
  - unfold saveSelectPool. destruct orders; [done|]. destruct mkdir; [done|].
    destruct (json_marshal _); [|done]. destruct write; [done|].
    apply lookup_insert_ne. unfold payload. intros E. apply (f_equal count_slashes) in E.
    rewrite !count_slashes_app in E. rewrite (count_no_slash _ (hex_no_slash _)) in E. simpl in E. lia.
Qed.
End Write.

Example format_nano_ex :
  format_nano 1700000000120000000 = "2023-11-14T22:13:20.12Z" ∧ format_nano 1700000000000000000 = "2023-11-14T22:13:20Z".
Proof. vm_compute. done. Qed.
