(* ===== verification/Server.v ===== *)
(** * The server: [config/di/container.go], and everything at once

    [BuildContainer] and [RegisterRoutes] construct the components from the
    configuration.  The server is the world of [Callbacks.v] together with the
    goroutines of the runs that were started and the starts that are under way;
    a step is a request, a callback, a latency event that is written, or one
    step of one of the goroutines, in any order.  The start of a run is two
    steps, its checks and the rest of it, and anything may come between them:
    [StartRun] reads the state of the session and writes it later, with no
    lock.  A discovery is one step that takes the callbacks it waits for with
    it; all other requests are atomic.  A panic ends the process, and with it
    the sequence of steps. *)
From stdpp Require Import prelude gmap list strings.
From S2P Require Import Prelude GoStrings GoTime Json ApiError Latency Redis RunLog MemoryStore OndcAuth Registry SessionTypes StateStore Mongo RateLimiter Config Dispatcher Payloads SelectBatch Coordinator Finalize Manager Callbacks SessionApi RunReports Seller Discovery Preorder.
Local Open Scope string_scope.

(** ** The wiring *)

Inductive log_backend := RedisBackend (ttlSeconds : Z) | MemoryBackend.

Definition run_log_backend (cfg : Config) : log_backend :=
  if RunStoreBackend cfg =? "redis" then RedisBackend (RunPayloadTTLSeconds cfg) else MemoryBackend.

Definition signing_config (cfg : Config) : SigningConfig :=
  mkSigning (BAPPrivateKey cfg) (BAPID cfg) (BAPUniqueKeyID cfg) (negb (BAPPrivateKey cfg =? "")).

Definition callback_controller {B} (cfg : Config) : controller B :=
  NewController true true true (Some NoopValidator) (RegistryBaseURL cfg) (RegistryCacheTTLSeconds cfg)
    (BAPPrivateKey cfg) (BAPID cfg) (BAPUniqueKeyID cfg).

Definition api_settings (cfg : Config) : settings :=
  mkSettings (CoreVersion cfg) (Config.Domain cfg) (manager_ttl (SessionTTLSeconds cfg)).

Definition coordinator (cfg : Config) : BCoordinator :=
  NewBCoordinator (mkBap (BAPURI cfg) (BAPID cfg) (CoreVersion cfg)).

Definition rate_limiter (cfg : Config) : RateLimiter :=
  NewRateLimiter (GlobalRPSLimit cfg) (PerSessionRPSLimit cfg).

(** ** Programs that start no run, and programs that touch no session's run *)
Section Calls.
Context {B : Type} `{MongoServer B}.

(** Every call of a program satisfies [P], whatever is answered. *)
Fixpoint only_calls (P : ∀ T, call B T → Prop) {A} (p : prog B A) : Prop :=
  match p with
  | Ret _ => True
  | State _ c k => P _ c ∧ ∀ x, only_calls P (k x)
  | Persist _ f k => ∀ x, only_calls P (k x)
  end.

Lemma only_bind P {A C} (p : prog B A) (k : A → prog B C) :
  only_calls P p → (∀ x, only_calls P (k x)) → only_calls P (bind p k).
Proof.
  intros Hp Hk. induction p as [a|T c k' IH|T f k' IH]; cbn [only_calls bind] in *; [done| |].
  - destruct Hp as [Hc Hp]. split; [done|]. intros x. by apply IH.
  - intros x. by apply IH.
Qed.

Lemma only_mono (P Q : ∀ T, call B T → Prop) {A} (p : prog B A) :
  (∀ T c, P T c → Q T c) → only_calls P p → only_calls Q p.
Proof.
  intros HPQ. induction p as [a|T c k IH|T f k IH]; cbn [only_calls]; [done| |].
  - intros [Hc Hp]. split; [by apply HPQ|]. intros x. by apply IH.
  - intros Hp x. by apply IH.
Qed.

(** The call makes no session busy. *)
Definition starts_none (T : Type) (c : call B T) : Prop :=
  match c with SetPreorderState _ ps => ps_Status ps ≠ PreorderRunning | _ => True end.
(** The call leaves alone which session is busy. *)
Definition touches_none (T : Type) (c : call B T) : Prop :=
  match c with SetPreorderState _ _ | DeleteSession _ => False | _ => True end.

Lemma touches_starts {A} (p : prog B A) : only_calls touches_none p → only_calls starts_none p.
Proof. apply only_mono. by intros T []. Qed.

Lemma only_st P {T} (c : call B T) : P T c → only_calls P (st c).
Proof. by split. Qed.
Lemma only_load P {T} (f : MongoStore B → T) : only_calls P (load f).
Proof. done. Qed.
Lemma only_save P (f : MongoStore B → MongoStore B) : only_calls P (save f).
Proof. done. Qed.
End Calls.
Abbreviation idle := (only_calls starts_none).
Abbreviation still := (only_calls touches_none).

Create HintDb idle discriminated.
#[export] Hint Resolve only_load only_save : idle.
Ltac idle_step :=
  lazymatch goal with
  | |- only_calls _ (Ret _) => exact I
  | |- only_calls _ (bind _ _) => apply only_bind; [|intros ?]
  | |- only_calls _ (st _) => apply only_st; (exact I || (cbn; discriminate))
  | |- only_calls _ (Persist _ _ _) => intros ?
  | |- only_calls _ (match ?x with _ => _ end) => destruct x
  | |- only_calls _ (if ?x then _ else _) => destruct x
  | |- only_calls _ _ => solve [eauto with idle]
  end.
Ltac idle_auto := repeat idle_step.

(** ** What each request does to busy sessions *)

(** No session is stopped, deleted or replaced. *)
Definition gentle {B} (rq : SessionApi.request B) : Prop :=
  match rq with
  | PostSession _ | ClearSessions _ | DeleteSessionById _ | StopRunOf _ _ => False
  | _ => True
  end.

Section Handlers.
Context {B : Type} `{MongoServer B, JsonCodec B}.

Lemma still_get_any now id : still (Manager_GetAny (B := B) now id).
Proof. unfold Manager_GetAny. idle_auto. Qed.
Lemma still_get now id : still (Manager_Get (B := B) now id).
Proof. unfold Manager_Get. idle_auto. Qed.
Lemma still_get_run id : still (Manager_GetRun (B := B) id).
Proof. unfold Manager_GetRun, mergeRunLatencySummaries. idle_auto. Qed.
Lemma still_mark now active l : still (mark_expired (B := B) now active l).
Proof. induction l; cbn [mark_expired]; idle_auto; done. Qed.
Lemma still_update f now id : still (update_session (B := B) f now id).
Proof. unfold update_session. apply only_bind; [apply still_get_any|intros ?]. idle_auto. Qed.
Lemma still_metrics id snap : still (Manager_SetRunSystemMetrics (B := B) id snap).
Proof. unfold Manager_SetRunSystemMetrics. idle_auto. Qed.

#[local] Hint Resolve touches_starts still_get_any still_get still_get_run still_mark still_update : idle.

(** No request of the session API makes a session busy; most touch no
    session's run at all. *)
Lemma idle_api cfg now uuid (rq : SessionApi.request B) : idle (SessionApi.handle cfg now uuid rq).
Proof.
  destruct rq; cbn [SessionApi.handle];
    unfold searchLatestRuns, Manager_SearchLatestRuns, listSessions, Manager_GetSessionsByBPP,
      createSession, Manager_Create, store_new_session, clearSessions, Manager_DeleteAllByBPP,
      getSession, deleteSession, Manager_Delete, setSessionVerification, setSessionErrorInjection,
      set_flag, Manager_SetVerificationEnabled, Manager_SetErrorInjectionEnabled, uploadCatalog,
      listRuns, getRun, stopRun, Manager_StopRun, sessionReport;
    repeat first [idle_step | solve [eauto with idle]].
Qed.

Lemma still_api cfg now uuid (rq : SessionApi.request B) :
  gentle rq → still (SessionApi.handle cfg now uuid rq).
Proof.
  destruct rq; intros []; cbn [SessionApi.handle];
    unfold searchLatestRuns, Manager_SearchLatestRuns, listSessions, Manager_GetSessionsByBPP,
      getSession, setSessionVerification, setSessionErrorInjection,
      set_flag, Manager_SetVerificationEnabled, Manager_SetErrorInjectionEnabled, uploadCatalog,
      listRuns, getRun, sessionReport;
    repeat first [idle_step | solve [eauto with idle]].
Qed.

Lemma still_report now sess id : still (getRunReport (B := B) now sess id).
Proof.
  unfold getRunReport. apply only_bind; [apply still_get_any|intros [s|]; [|done]].
  apply only_bind; [apply still_get_run|intros [r|]; [|done]]. idle_auto.
Qed.
Lemma still_report_by_id now id : still (getRunReportByID (B := B) now id).
Proof.
  unfold getRunReportByID. apply only_bind; [apply still_get_run|intros [s|]; [|done]].
  apply only_bind; [apply still_get_any|intros [r|]; [|done]]. idle_auto.
Qed.
End Handlers.

(** ** Busy sessions *)
Section Busy.
Context {B : Type} `{MongoServer B, SessionWire B}.
Implicit Types (a : astore B) (m : MongoStore B).

Definition busy a (sess run : string) : Prop :=
  preorder_of sess a = mkPreorderState PreorderRunning run.

(** [a'] has no busy session [a] has not. *)
Definition no_busier a a' : Prop := ∀ s u, busy a' s u → busy a s u.
#[export] Instance no_busier_preorder : PreOrder no_busier.
Proof. split; [by intros a s u|intros a1 a2 a3 H1 H2 s u Hb; by apply H1, H2]. Qed.

(** [a'] has the same busy sessions. *)
Definition steady a a' : Prop := ∀ s, a' (KPreorder s) = a (KPreorder s).
#[export] Instance steady_preorder : PreOrder steady.
Proof. split; [by intros a s|intros a1 a2 a3 H1 H2 s; by rewrite H2]. Qed.

Lemma steady_busy a a' s u : steady a a' → busy a' s u ↔ busy a s u.
Proof. intros E. unfold busy, preorder_of. by rewrite E. Qed.

Lemma no_busier_same a a' : steady a a' → no_busier a a'.
Proof. intros E s u. by rewrite (steady_busy a a' s u E). Qed.

Lemma no_busier_set a id ps :
  ps_Status ps ≠ PreorderRunning → no_busier a (aset (KPreorder id) (Some ps) a).
Proof.
  intros Hps s u. unfold busy, preorder_of. destruct (decide (s = id)) as [->|].
  - rewrite aset_eq. simpl. by intros ->.
  - by rewrite aset_ne by congruence.
Qed.

Lemma no_busier_del a id : no_busier a (aset (KPreorder id) None a).
Proof.
  intros s u. unfold busy, preorder_of. destruct (decide (s = id)) as [->|].
  - by rewrite aset_eq.
  - by rewrite aset_ne by congruence.
Qed.

Lemma still_call {T} now (c : call B T) a : touches_none T c → steady a (aexec now c a).2.
Proof.
  destruct c; intros []; cbn [aexec]; try reflexivity;
    unfold aput; repeat case_match; cbn [snd]; try reflexivity; intros s'; by akey.
Qed.

Lemma idle_call {T} now (c : call B T) a : starts_none T c → no_busier a (aexec now c a).2.
Proof.
  destruct c; intros Hc; try (apply no_busier_same, still_call; exact I); cbn [aexec].
  - destruct (a (KSession id)); [|reflexivity]. cbn [snd].
    etrans; [|apply no_busier_del]. apply no_busier_same. intros s'. by akey.
  - unfold aput. destruct (marshal _); [|reflexivity]. by apply no_busier_set.
Qed.

Lemma idle_run {A} now (p : prog B A) : ∀ a m, idle p → no_busier a (run now p (a, m)).2.1.
Proof.
  induction p as [x|T c k IH|T f k IH]; intros a m Hp; cbn [run fst snd only_calls] in *; [reflexivity| |].
  - destruct Hp as [Hc Hk]. change (st_call now c a) with (aexec now c a).
    pose proof (idle_call now c a Hc) as Ha. destruct (aexec now c a) as [x a1]. cbn [snd] in Ha.
    etrans; [exact Ha|]. by apply IH.
  - destruct (f m) as [x m1]. by apply IH.
Qed.

Lemma still_run {A} now (p : prog B A) : ∀ a m, still p → steady a (run now p (a, m)).2.1.
Proof.
  induction p as [x|T c k IH|T f k IH]; intros a m Hp; cbn [run fst snd only_calls] in *; [reflexivity| |].
  - destruct Hp as [Hc Hk]. change (st_call now c a) with (aexec now c a).
    pose proof (still_call now c a Hc) as Ha. destruct (aexec now c a) as [x a1]. cbn [snd] in Ha.
    etrans; [exact Ha|]. by apply IH.
  - destruct (f m) as [x m1]. by apply IH.
Qed.
End Busy.

(** ** The server *)
Section Server.
Context {B S L : Type}.
Context `{Crypto, Bytes B, JsonCodec B, Sprint, MongoServer B, StateStore B S, RunLogStore B L, Env, Rand}.
Variable http_do : Z → string → B → option string → result error (Z * B).   (* any HTTP server *)
Variable bad_url : string → option error.
Variable clock : nat → Z.
Variable order : gset string → list string.
Variable sort_slice : list (string * Z) → list (string * Z).
Variable readFile : string → result error B.
Variable cfg : Config.
Variable allowed : SessionApi.request B → Prop.   (* the requests considered *)
Implicit Types w : world B S L.

(** The seller's client, as the coordinator and the discovery use it. *)
Definition seller_search (now : Z) (url : string) (b : B) : result error B :=
  Seller.Search bad_url http_do (signing_config cfg) now url b.
Definition seller_post (sd : started B) (action : string) (i : nat) (b : B) : option error :=
  Seller.post bad_url http_do (signing_config cfg) (clock i) (s_BPPURI (sd_session sd)) action b.

(** A goroutine: what it was started with, and where it is. *)
Definition goroutine : Type := started B * phase B.

(** [sv_starts]: the starts that have been checked and not yet written. *)
Record server := mkServer {
  sv_world : world B S L;
  sv_runs : list goroutine;
  sv_starts : list admission;
}.

Definition run_step (i : nat) (x y : server) : Prop :=
  ∃ sd ph tr ph' w',
    sv_runs x !! i = Some (sd, ph) ∧
    own (seller_post sd) clock order readFile cfg sd (ph, sv_world x) tr (ph', w') ∧
    y = mkServer w' (<[i := (sd, ph')]> (sv_runs x)) (sv_starts x).

Inductive server_step : server → server → Prop :=
  | step_api now uuid rq w gs ads :
      allowed rq →
      server_step (mkServer w gs ads)
        (mkServer (run_on now (SessionApi.handle (api_settings cfg) now uuid rq) w).2 gs ads)
  | step_report now sess id w gs ads :
      server_step (mkServer w gs ads) (mkServer (run_on now (getRunReport now sess id) w).2 gs ads)
  | step_report_by_id now id w gs ads :
      server_step (mkServer w gs ads) (mkServer (run_on now (getRunReportByID now id) w).2 gs ads)
  | step_page now sess id st n w gs ads x s m l :
      getRunPayloads order sort_slice now sess id st n (w_state w, w_mongo w) (w_log w) = (x, ((s, m), l)) →
      server_step (mkServer w gs ads) (mkServer (set_log l (set_mongo m (set_state s w))) gs ads)
  | step_page_by_id now id st n w gs ads x s m l :
      getRunPayloadsByID order sort_slice now id st n (w_state w, w_mongo w) (w_log w) = (x, ((s, m), l)) →
      server_step (mkServer w gs ads) (mkServer (set_log l (set_mongo m (set_state s w))) gs ads)
  | step_preview rf now id txn msg w gs ads :
      server_step (mkServer w gs ads) (mkServer (generateSearchPayload cfg rf now id txn msg w).2 gs ads)
  | step_discovery rf ctx now id txn msg req during ticks w gs ads x w' :
      startDiscovery http_do (callback_controller cfg) seller_search cfg rf ctx now id txn msg req during ticks w
        = Some (Done x, w') →
      server_step (mkServer w gs ads) (mkServer w' gs ads)
  | step_check now id req w gs ads ad w' :
      run_on now (start_checks cfg now id req) w = (Ok ad, w') →
      server_step (mkServer w gs ads) (mkServer w' gs (ads ++ [ad]))
  | step_check_refused now id req w gs ads e w' :
      run_on now (start_checks cfg now id req) w = (Err e, w') →
      server_step (mkServer w gs ads) (mkServer w' gs ads)
  | step_start rf now uuid ad cs w gs ads1 ads2 sd w' :
      run_on now (start_commit rf now uuid ad) w = (Done (Ok sd), w') →
      server_step (mkServer w gs (ads1 ++ ad :: ads2))
        (mkServer w' (gs ++ [(sd, (run_start (L := L) (S := S) sd cs w').1)]) (ads1 ++ ads2))
  | step_start_refused rf now uuid ad w gs ads1 ads2 e w' :
      run_on now (start_commit rf now uuid ad) w = (Done (Err e), w') →
      server_step (mkServer w gs (ads1 ++ ad :: ads2)) (mkServer w' gs (ads1 ++ ads2))
  | step_env w w' gs ads :
      env http_do (callback_controller cfg) w w' → server_step (mkServer w gs ads) (mkServer w' gs ads)
  | step_run i x y : run_step i x y → server_step x y.

Definition server_reachable (w0 : world B S L) : server → Prop := rtc server_step (mkServer w0 [] []).

(** No two starts of one session are under way together, and no step makes
    them. *)
Definition serial (x : server) : Prop := NoDup ((λ ad, s_ID (ad_session ad)) <$> sv_starts x).
Definition serial_reachable (w0 : world B S L) : server → Prop :=
  rtc (λ x y, server_step x y ∧ serial y) (mkServer w0 [] []).

Lemma serial_reachable_reachable w0 x : serial_reachable w0 x → server_reachable w0 x.
Proof. apply rtc_subrel. by intros x' y' []. Qed.
End Server.
Arguments mkServer {B S L _}.
Arguments sv_world {B S L _}.
Arguments sv_runs {B S L _}.
Arguments sv_starts {B S L _}.

(** ** Every busy session has a goroutine that will free it *)
Section Accounted.
Context {B L : Type}.
Context `{Crypto, Bytes B, JsonCodec B, Sprint, MongoServer B, SessionWire B, RunLogStore B L, Env, Rand}.
Variable http_do : Z → string → B → option string → result error (Z * B).
Variable bad_url : string → option error.
Variable clock : nat → Z.
Variable order : gset string → list string.
Variable sort_slice : list (string * Z) → list (string * Z).
Variable readFile : string → result error B.
Variable cfg : Config.
Hypothesis encodes : ∀ ps : PreorderState, marshal ps ≠ None.
Implicit Types w : world B (astore B) L.

Abbreviation calm_world w w' := (no_busier (w_state w) (w_state w')).
Abbreviation steady_world w w' := (steady (w_state w) (w_state w')).

Lemma steady_quiet w w' : quiet w w' → steady_world w w'.
Proof. intros [Hq _] s. by apply Hq. Qed.

Lemma steady_run_on {A} now (p : prog B A) w : still p → steady_world w (run_on now p w).2.
Proof.
  intros Hp. pose proof (still_run now p (w_state w) (w_mongo w) Hp) as Hr. unfold run_on.
  by destruct (run now p (w_state w, w_mongo w)) as [x [s m]].
Qed.

Lemma calm_run_on {A} now (p : prog B A) w : idle p → calm_world w (run_on now p w).2.
Proof.
  intros Hp. pose proof (idle_run now p (w_state w) (w_mongo w) Hp) as Hr. unfold run_on.
  by destruct (run now p (w_state w, w_mongo w)) as [x [s m]].
Qed.

Lemma steady_callbacks rqs w : steady_world w (callbacks_on http_do (callback_controller cfg) rqs w).
Proof. apply steady_quiet, callbacks_effect. Qed.

Lemma steady_call {T} now (c : call B T) w : touches_none T c → steady_world w (state_call now c w).2.
Proof.
  intros Hc. pose proof (still_call now c (w_state w) Hc) as Ha. unfold state_call.
  change (st_call now c (w_state w)) with (aexec now c (w_state w)).
  by destruct (aexec now c (w_state w)).
Qed.

Lemma steady_catalog ended now id cst on w : steady_world w (catalog_state ended now id cst on w).
Proof. unfold catalog_state. destruct ended; [reflexivity|by apply steady_call]. Qed.

Lemma steady_saved (ended : bool) now id p w :
  steady_world w (if ended then w else set_mongo (Mongo_SaveCatalog now id p (w_mongo w)) w).
Proof. by destruct ended. Qed.

Lemma steady_await search ctx now txn sess payload during ticks w x w' :
  await_catalog http_do (callback_controller cfg) search cfg ctx now txn sess payload during ticks w
    = Some (x, w') → steady_world w w'.
Proof.
  unfold await_catalog. set (w1 := (state_call _ _ w).2).
  assert (steady_world w w1) as Hw1 by (by apply steady_call). clearbody w1.
  pose proof (steady_callbacks during w1) as Hw2. set (w2 := callbacks_on _ _ during w1) in *. clearbody w2.
  assert (steady_world w w2) as Hw by (by etrans). clear Hw1 Hw2.
  destruct (if over ctx AtSearch then _ else _) as [b|e];
    [|intros [= <- <-]; etrans; [exact Hw|apply steady_catalog]].
  destruct (isNack b); [intros [= <- <-]; etrans; [exact Hw|apply steady_catalog]|].
  pose proof (steady_catalog (over ctx AtAnswer) now (s_ID sess) CatalogPending "" w2) as Hp3.
  set (w3 := catalog_state _ _ _ _ _ w2) in *.
  assert (steady_world w w3) as Hw3 by (by etrans). clearbody w3.
  destruct (pollDiscoveryPayload _ _ _ _ _ _ w3) as [[[[[p|] ended] t] w4]|] eqn:Ep; [|intros [= <- <-]|done].
  - intros [= <- <-]. etrans; [exact Hw3|].
    etrans; [eapply steady_quiet; by eapply poll_spec|]. etrans; [apply steady_saved|apply steady_catalog].
  - etrans; [exact Hw3|]. etrans; [eapply steady_quiet; by eapply poll_spec|]. apply steady_catalog.
Qed.

Lemma steady_start_discovery search rf ctx now id txn msg req during ticks w x w' :
  startDiscovery http_do (callback_controller cfg) search cfg rf ctx now id txn msg req during ticks w
    = Some (x, w') → steady_world w w'.
Proof.
  unfold startDiscovery. assert (steady_world w (lookup_session ctx now id w).2) as Hw1
    by (unfold lookup_session; destruct (over ctx AtLookup); [reflexivity|apply steady_run_on, still_get]).
  destruct (lookup_session ctx now id w) as [[sess|e] w1]; cbn [snd] in Hw1; [|by intros [= <- <-]].
  assert (steady_world w1 (check_catalog ctx now (s_ID sess) w1).2) as Hw2
    by (unfold check_catalog; destruct (over ctx AtCheck); [reflexivity|by apply steady_call]).
  destruct (check_catalog ctx now (s_ID sess) w1) as [cs w2]. cbn [snd] in Hw2.
  assert (steady_world w w2) as Hw by (by etrans). clear Hw1 Hw2.
  destruct (match cs with Ok _ => _ | Err _ => _ end); [by intros [= <- <-]|].
  destruct (match req with Some _ => _ | None => _ end) as [[p|e]|]; [|by intros [= <- <-]..].
  destruct (patchSearchContext _ _ _ _ p) as [[payload|]|]; [|by intros [= <- <-]..].
  destruct (await_catalog _ _ _ _ _ _ _ _ _ _ _ _) as [[y w3]|] eqn:Ea; [|done].
  intros [= <- <-]. etrans; [exact Hw|by eapply steady_await].
Qed.

Lemma steady_preview rf now id txn msg w :
  steady_world w (generateSearchPayload cfg rf now id txn msg w).2.
Proof.
  unfold generateSearchPayload.
  pose proof (steady_run_on now (Manager_Get now id) w (still_get now id)) as Hg.
  destruct (run_on now (Manager_Get now id) w) as [r w1]. cbn [snd] in Hg.
  repeat case_match; cbn [snd]; exact Hg.
Qed.

Lemma steady_page now sess id st n (a : astore B) m l x a' m' l' :
  getRunPayloads order sort_slice now sess id st n (a, m) (l : L) = (x, ((a', m'), l')) → steady a a'.
Proof.
  unfold getRunPayloads. set (guard := bind (Manager_GetAny now sess) _).
  assert (still guard) as Hi.
  { apply only_bind; [apply still_get_any|intros [s|]; [|done]].
    apply only_bind; [apply still_get_run|intros [r|]; done]. }
  pose proof (still_run now guard a m Hi) as Hr. clearbody guard.
  destruct (run now guard (a, m)) as [[g|e] [a1 m1]]; cbn [fst snd] in Hr;
    [destruct (writeRunPayloadPage _ _ _ _ _ _ _)|]; by intros [= <- <- <- <-].
Qed.

Lemma steady_page_by_id now id st n (a : astore B) m l x a' m' l' :
  getRunPayloadsByID order sort_slice now id st n (a, m) (l : L) = (x, ((a', m'), l')) → steady a a'.
Proof.
  unfold getRunPayloadsByID. pose proof (still_run now (Manager_GetRun id) a m (still_get_run id)) as Hr.
  destruct (run now (Manager_GetRun id) (a, m)) as [[g|e] [a1 m1]]; cbn [fst snd] in Hr;
    [destruct (writeRunPayloadPage _ _ _ _ _ _ _)|]; by intros [= <- <- <- <-].
Qed.

Lemma steady_same w w' : same_runs w w' → steady_world w w'.
Proof. by intros [Hs _]. Qed.
Lemma calm_same w w' : same_runs w w' → calm_world w w'.
Proof. intros Hs. by apply no_busier_same, steady_same. Qed.

Definition alive (ph : phase B) : Prop := ph ≠ Flushing ∧ ph ≠ Stopped.

Abbreviation post := (seller_post http_do bad_url clock cfg).
Abbreviation own_of sd := (own (post sd) clock order readFile cfg sd (S := astore B) (L := L)).
Abbreviation step := (server_step http_do bad_url clock order sort_slice readFile cfg
  (S := astore B) (L := L)).

(** A step of a goroutine makes no session busy, and the one that ends it
    frees its session. *)
Lemma own_busy sd ph w tr ph' w' s u :
  own_of sd (ph, w) tr (ph', w') → busy (w_state w') s u →
  busy (w_state w) s u ∧ (s = s_ID (sd_session sd) → alive ph → alive ph').
Proof.
  intros Ho Hb. inversion Ho; subst; try (split; [exact Hb|by intros _ _]).
  - split; [|by intros _ _]. revert Hb. apply calm_same, same_effect.
  - split; [|unfold after_stage; by destruct (_ =? 0)%nat]. revert Hb. apply calm_same, same_metrics.
  - split; [exact Hb|by destruct st].
  - split; [|by intros _ _]. revert Hb. apply calm_same, same_finalize.
  - split; [|by intros _ _]. revert Hb. apply calm_run_on, touches_starts, still_metrics.
  - unfold run_on in Hb.
    pose proof (finish_run_other encodes now (s_ID (sd_session sd)) (r_ID (sd_run sd)) "completed"
      (w_state w) (w_mongo w) s) as Hoth.
    destruct (finish_run_idle now (s_ID (sd_session sd)) (r_ID (sd_run sd)) "completed"
      (w_state w) (w_mongo w) encodes) as (a' & m' & E & Hi).
    rewrite E in Hb, Hoth. cbn [fst snd w_state set_mongo set_state] in *.
    destruct (decide (s = s_ID (sd_session sd))) as [->|Hne].
    + unfold busy in Hb. rewrite Hi in Hb. discriminate Hb.
    + split; [|done]. unfold busy, preorder_of in *. by rewrite <- Hoth.
  - split; [|by intros _ []]. revert Hb. apply calm_same.
    eapply same_runs_trans; [|apply same_flush]. by split_and!.
Qed.

(** A session that is busy is busy with the run of a live goroutine, and the
    goroutines are in good order. *)
Definition goroutine_for (s u : string) (g : goroutine (B := B)) : Prop :=
  s_ID (sd_session g.1) = s ∧ r_ID (sd_run g.1) = u ∧ alive g.2.

Record accounted (x : server (B := B) (S := astore B) (L := L)) : Prop := {
  acc_busy s u : busy (w_state (sv_world x)) s u → ∃ i g, sv_runs x !! i = Some g ∧ goroutine_for s u g;
  acc_phase i g : sv_runs x !! i = Some g →
    phase_ok (post g.1) clock cfg g.1 g.2 ∧ (phase_weight g.1 g.2 ≤ 120 * batch_max g.1 + 57)%nat;
}.

Lemma accounted_calm w w' gs ads ads' :
  calm_world w w' → accounted (mkServer w gs ads) → accounted (mkServer w' gs ads').
Proof. intros Hc [Hb Hp]. split; [|exact Hp]. intros s u Hs. apply Hb. by apply Hc. Qed.

(** [w'] is [w] with the run of [sd] recorded. *)
Definition starts_run (ad : admission) (sd : started B) w w' : Prop :=
  sd_session sd = ad_session ad ∧
  busy (w_state w') (s_ID (sd_session sd)) (r_ID (sd_run sd)) ∧
  ∀ s, s ≠ s_ID (sd_session sd) → w_state w' (KPreorder s) = w_state w (KPreorder s).

Lemma commit_starts rf now uuid ad w sd w' :
  run_on now (start_commit rf now uuid ad) w = (Done (Ok sd), w') → starts_run ad sd w w'.
Proof.
  pose proof (commit_outcome encodes rf now uuid ad (w_state w) (w_mongo w)) as Ho.
  unfold run_on. destruct (run _ _ _) as [x [a' m']]. intros [= -> <-].
  destruct Ho as [(E & _ & _ & _ & Er & Hb & _ & Hs) _].
  split; [exact E|]. rewrite E, Er. by split.
Qed.

Lemma commit_withdraws rf now uuid ad w e w' :
  run_on now (start_commit rf now uuid ad) w = (Done (Err e), w') → withdrawn ad (w_state w) (w_state w').
Proof.
  pose proof (commit_outcome encodes rf now uuid ad (w_state w) (w_mongo w)) as Ho.
  unfold run_on. destruct (run _ _ _) as [x [a' m']]. by intros [= -> <-].
Qed.

Lemma accounted_start ad cs w gs ads ads' sd w' :
  starts_run ad sd w w' → accounted (mkServer w gs ads) →
  accounted (mkServer w' (gs ++ [(sd, (run_start (L := L) (S := astore B) sd cs w').1)]) ads').
Proof.
  intros (_ & Hbusy & Hs) [Hb Hp]. split; cbn [sv_world sv_runs] in *.
  - intros s u Hu. destruct (decide (s = s_ID (sd_session sd))) as [->|Hne].
    + exists (length gs). eexists. split; [by apply list_lookup_middle|].
      split; [done|]. split; [|done]. cbn [fst]. unfold busy in Hu, Hbusy. rewrite Hbusy in Hu. by injection Hu.
    + destruct (Hb s u) as (i & g & Hi & Hg).
      { unfold busy, preorder_of in *. by rewrite <- Hs. }
      exists i, g. split; [|done]. by apply lookup_app_l_Some.
  - intros i g [Hi|[_ Hi]]%lookup_app_Some; [by apply (Hp i)|].
    apply list_lookup_singleton_Some in Hi as [_ <-]. apply start_ok.
Qed.

Lemma accounted_run i x y :
  run_step http_do bad_url clock order readFile cfg i x y → accounted x → accounted y.
Proof.
  destruct x as [w gs ads]. intros (sd & ph & tr & ph' & w' & Hi & Ho & ->) [Hb Hp]. cbn [sv_world sv_runs] in *.
  destruct (Hp i (sd, ph) Hi) as [Hok Hw]. cbn [fst snd] in *.
  destruct (own_decreases _ _ _ _ _ _ _ _ _ Ho Hok) as [Hok' Hlt]. cbn [fst] in *.
  split; cbn [sv_world sv_runs].
  - intros s u [Hbusy Hal]%(own_busy _ _ _ _ _ _ _ _ Ho).
    destruct (Hb s u Hbusy) as (j & g & Hj & Hg). destruct (decide (j = i)) as [->|Hne].
    + assert (g = (sd, ph)) as -> by (apply (inj Some); etrans; [symmetry; exact Hj|exact Hi]).
      destruct Hg as (Hs & Hu & Ha). cbn [fst snd] in *.
      exists i, (sd, ph').
      split; [by apply list_lookup_insert_eq, lookup_lt_Some with (sd, ph)|].
      split_and!; [done..|]. by apply Hal.
    + exists j, g. by rewrite list_lookup_insert_ne by congruence.
  - intros j g Hj. destruct (decide (j = i)) as [->|Hne].
    + rewrite list_lookup_insert_eq in Hj by (by eapply lookup_lt_Some). simplify_eq. cbn [fst snd].
      split; [done|lia].
    + rewrite list_lookup_insert_ne in Hj by congruence. by apply (Hp j).
Qed.

(** What a step does to busy sessions and starts: an API request; a step that
    leaves them alone; a start is checked, goes through, or is refused; a
    goroutine's own step. *)
Inductive step_kind allowed : server (B := B) (S := astore B) (L := L) → server (B := B) (S := astore B) (L := L) → Prop :=
  | kind_api now uuid rq w gs ads : allowed rq →
      step_kind allowed (mkServer w gs ads)
        (mkServer (run_on now (SessionApi.handle (api_settings cfg) now uuid rq) w).2 gs ads)
  | kind_steady w w' gs ads : steady_world w w' → step_kind allowed (mkServer w gs ads) (mkServer w' gs ads)
  | kind_check ad w w' gs ads :
      steady_world w w' → ps_Status (preorder_of (s_ID (ad_session ad)) (w_state w)) ≠ PreorderRunning →
      step_kind allowed (mkServer w gs ads) (mkServer w' gs (ads ++ [ad]))
  | kind_start ad cs sd w w' gs ads1 ads2 :
      starts_run ad sd w w' →
      step_kind allowed (mkServer w gs (ads1 ++ ad :: ads2))
        (mkServer w' (gs ++ [(sd, (run_start (L := L) (S := astore B) sd cs w').1)]) (ads1 ++ ads2))
  | kind_refused ad w w' gs ads1 ads2 :
      withdrawn ad (w_state w) (w_state w') →
      step_kind allowed (mkServer w gs (ads1 ++ ad :: ads2)) (mkServer w' gs (ads1 ++ ads2))
  | kind_run i x y : run_step http_do bad_url clock order readFile cfg i x y → step_kind allowed x y.

Lemma step_cases allowed x y : step allowed x y → step_kind allowed x y.
Proof.
  destruct 1 as [now uuid rq w gs ads Ha|now sess id w gs ads|now id w gs ads|now sess id st n w gs ads x s m l E|
    now id st n w gs ads x s m l E|rf now id txn msg w gs ads|rf ctx now id txn msg req during ticks w gs ads x w' E|
    now id req w gs ads ad w' E|now id req w gs ads e w' E|
    rf now uuid ad cs w gs ads1 ads2 sd w' E|rf now uuid ad w gs ads1 ads2 e w' E|w w' gs ads E|i x y E].
  - by apply kind_api.
  - apply kind_steady, steady_run_on, still_report.
  - apply kind_steady, steady_run_on, still_report_by_id.
  - apply kind_steady. by eapply steady_page.
  - apply kind_steady. by eapply steady_page_by_id.
  - apply kind_steady, steady_preview.
  - apply kind_steady. by eapply steady_start_discovery.
  - destruct (checks_outcome cfg now id req (w_state w) (w_mongo w)) as (r & Er & Had).
    unfold run_on in E. rewrite Er in E. injection E as -> <-. apply kind_check; [done|by eapply Had].
  - destruct (checks_outcome cfg now id req (w_state w) (w_mongo w)) as (r & Er & _).
    unfold run_on in E. rewrite Er in E. injection E as -> <-. by apply kind_steady.
  - apply kind_start. by eapply commit_starts.
  - apply kind_refused. by eapply commit_withdraws.
  - apply kind_steady, steady_same. by eapply same_env.
  - by apply kind_run with i.
Qed.

Lemma calm_withdrawn ad w w' : withdrawn ad (w_state w) (w_state w') → calm_world w w'.
Proof.
  intros [Ho Hx] s u Hb. unfold busy in *. destruct (decide (s = s_ID (ad_session ad))) as [->|Hne].
  - destruct Hx as [E|E]; rewrite E in Hb; [exact Hb|discriminate Hb].
  - unfold preorder_of in *. by rewrite <- Ho.
Qed.

Lemma accounted_step allowed x y : step allowed x y → accounted x → accounted y.
Proof.
  intros [now uuid rq w gs ads _|w w' gs ads Hs|ad w w' gs ads Hs _|ad cs sd w w' gs ads1 ads2 Hs|
    ad w w' gs ads1 ads2 Hs|i x0 y0 Hs]%step_cases.
  - apply accounted_calm, calm_run_on, idle_api.
  - by apply accounted_calm, no_busier_same.
  - by apply accounted_calm, no_busier_same.
  - by eapply accounted_start.
  - eapply accounted_calm, calm_withdrawn, Hs.
  - by eapply accounted_run.
Qed.

Lemma accounted_reachable allowed w0 x :
  (∀ s u, ¬ busy (w_state w0) s u) →
  server_reachable http_do bad_url clock order sort_slice readFile cfg allowed w0 x → accounted x.
Proof.
  intros Hw Hx. unfold server_reachable in Hx. remember (mkServer w0 [] []) as x0 eqn:E.
  assert (accounted x0) as H0'.
  { subst x0. split; [intros s u Hb; by destruct (Hw s u)|done]. }
  clear E. induction Hx as [|x1 x2 x3 Hs _ IH]; [done|]. apply IH. by eapply accounted_step.
Qed.

(** The last step but two frees the session. *)
Lemma own_frees sd w tr ph' w' :
  own_of sd (Finishing, w) tr (ph', w') →
  preorder_of (s_ID (sd_session sd)) (w_state w') = mkPreorderState PreorderIdle "".
Proof.
  intros Ho. inversion Ho; subst. unfold run_on.
  by destruct (finish_run_idle now (s_ID (sd_session sd)) (r_ID (sd_run sd)) "completed"
    (w_state w) (w_mongo w) encodes) as (a' & m' & -> & Hi).
Qed.

Lemma own_alive sd ph w tr ph' w' :
  own_of sd (ph, w) tr (ph', w') → alive ph → ph ≠ Finishing → alive ph'.
Proof.
  intros Ho Ha Hf. inversion Ho; subst; try done.
  - unfold after_stage. by destruct (_ =? 0)%nat.
  - by destruct st.
  - by destruct Ha.
Qed.

Lemma goroutine_frees k : ∀ i sd ph w gs ads,
  gs !! i = Some (sd, ph) → phase_ok (post sd) clock cfg sd ph → alive ph → (phase_weight sd ph ≤ k)%nat →
  ∃ n y, (n ≤ k)%nat ∧
    nsteps (run_step http_do bad_url clock order readFile cfg i) n (mkServer w gs ads) y ∧
    preorder_of (s_ID (sd_session sd)) (w_state (sv_world y)) = mkPreorderState PreorderIdle "".
Proof.
  induction k as [|k IH]; intros i sd ph w gs ads Hi Hok Ha Hk;
    (destruct (own_progress (post sd) clock order readFile cfg sd ph w Hok)
      as [->|(tr & [ph' w'] & Ho)]; [by destruct Ha|]);
    destruct (own_decreases _ _ _ _ _ _ _ _ _ Ho Hok) as [Hok' Hlt]; cbn [fst] in *; [lia|].
  assert (run_step http_do bad_url clock order readFile cfg i (mkServer w gs ads) (mkServer w' (<[i:=(sd, ph')]> gs) ads))
    as Hstep by (by exists sd, ph, tr, ph', w').
  assert (alive ph' ∨ preorder_of (s_ID (sd_session sd)) (w_state w') = mkPreorderState PreorderIdle "")
    as [Ha'|Hf].
  { destruct ph; try (left; eapply own_alive; [exact Ho|exact Ha|done]).
    right. by eapply own_frees. }
  - destruct (IH i sd ph' w' (<[i:=(sd, ph')]> gs) ads) as (n & y & Hn & Hs & Hp); [|done|done|lia|].
    { apply list_lookup_insert_eq. by eapply lookup_lt_Some. }
    exists (Datatypes.S n), y. split; [lia|]. split; [|done]. by eapply nsteps_l.
  - exists 1%nat, (mkServer w' (<[i:=(sd, ph')]> gs) ads). split; [lia|]. split; [by apply nsteps_once|done].
Qed.

(** *** One run at a time *)

(** The step before the last leaves its session idle; every other step of a
    goroutine leaves all sessions as they are. *)
Lemma own_steady sd ph w tr ph' w' :
  own_of sd (ph, w) tr (ph', w') → steady_world w w' ∨
  ph = Finishing ∧ ¬ alive ph' ∧
  ∀ s, s ≠ s_ID (sd_session sd) → w_state w' (KPreorder s) = w_state w (KPreorder s).
Proof.
  intros Ho. inversion Ho; subst; try (left; reflexivity).
  - left. apply steady_same, same_effect.
  - left. apply steady_same, same_metrics.
  - left. apply steady_same, same_finalize.
  - left. apply steady_run_on, still_metrics.
  - right. split; [done|]. split; [by intros []|]. intros s Hs. unfold run_on.
    pose proof (finish_run_other encodes now (s_ID (sd_session sd)) (r_ID (sd_run sd)) "completed"
      (w_state w) (w_mongo w) s Hs) as E.
    by destruct (run now (Manager_FinishRun _ _ _ _) _) as [x [a' m']].
  - left. apply steady_same. eapply same_runs_trans; [|apply same_flush]. by split_and!.
Qed.

Record exclusive (x : server (B := B) (S := astore B) (L := L)) : Prop := {
  ex_busy i g : sv_runs x !! i = Some g → alive g.2 →
    busy (w_state (sv_world x)) (s_ID (sd_session g.1)) (r_ID (sd_run g.1));
  ex_one i j g h : sv_runs x !! i = Some g → sv_runs x !! j = Some h → alive g.2 → alive h.2 →
    s_ID (sd_session g.1) = s_ID (sd_session h.1) → i = j;
  ex_free ad : ad ∈ sv_starts x →
    ps_Status (preorder_of (s_ID (ad_session ad)) (w_state (sv_world x))) ≠ PreorderRunning;
}.

Lemma exclusive_steady w w' gs ads : steady_world w w' → exclusive (mkServer w gs ads) → exclusive (mkServer w' gs ads).
Proof.
  intros Hs [Hb Ho Hf]. split; [|exact Ho|].
  - intros i g Hi Ha. apply (steady_busy _ _ _ _ Hs). by eapply Hb.
  - intros ad Had. unfold preorder_of. rewrite Hs. by apply Hf.
Qed.

Lemma exclusive_check ad w gs ads :
  ps_Status (preorder_of (s_ID (ad_session ad)) (w_state w)) ≠ PreorderRunning →
  exclusive (mkServer w gs ads) → exclusive (mkServer w gs (ads ++ [ad])).
Proof.
  intros Hi [Hb Ho Hf]. split; [exact Hb|exact Ho|].
  intros ad' [Had|Had]%elem_of_app; [by apply Hf|]. by apply list_elem_of_singleton in Had as ->.
Qed.

(** The other starts are of other sessions. *)
Lemma serial_others w gs ads1 ad ads2 ad' :
  serial (B := B) (S := astore B) (L := L) (mkServer w gs (ads1 ++ ad :: ads2)) → ad' ∈ (ads1 ++ ads2)%list →
  s_ID (ad_session ad') ≠ s_ID (ad_session ad).
Proof.
  unfold serial. cbn [sv_starts]. rewrite fmap_app, fmap_cons. intros Hn Hin E.
  apply NoDup_app in Hn as (_ & Hd & [Hn _]%NoDup_cons).
  apply elem_of_app in Hin as [Hin|Hin].
  - apply (Hd (s_ID (ad_session ad'))); [by apply (list_elem_of_fmap_2 (λ ad, s_ID (ad_session ad)))|].
    rewrite E. by left.
  - apply Hn. rewrite <- E. by apply (list_elem_of_fmap_2 (λ ad, s_ID (ad_session ad))).
Qed.

(** No goroutine works for the session of a start under way. *)
Lemma exclusive_free w gs ads ad i g :
  exclusive (mkServer w gs ads) → ad ∈ ads → gs !! i = Some g → alive g.2 →
  s_ID (sd_session g.1) ≠ s_ID (ad_session ad).
Proof.
  intros [Hb _ Hf] Had Hi Ha E. apply (Hf ad Had). cbn [sv_world]. rewrite <- E.
  specialize (Hb i g Hi Ha). unfold busy in Hb. cbn [sv_world] in Hb. by rewrite Hb.
Qed.

Lemma exclusive_start ad cs sd w w' gs ads1 ads2 :
  starts_run ad sd w w' → serial (mkServer w gs (ads1 ++ ad :: ads2)) →
  exclusive (mkServer w gs (ads1 ++ ad :: ads2)) →
  exclusive (mkServer w' (gs ++ [(sd, (run_start (L := L) (S := astore B) sd cs w').1)]) (ads1 ++ ads2)).
Proof.
  intros (Ead & Hbusy & Hs) Hser Hex.
  assert (∀ i g, gs !! i = Some g → alive g.2 → s_ID (sd_session g.1) ≠ s_ID (sd_session sd)) as Hne.
  { intros i g Hi Ha. rewrite Ead. apply (exclusive_free w gs (ads1 ++ ad :: ads2) ad i g); [done| |done..].
    apply elem_of_app. right. by left. }
  destruct Hex as [Hb Ho Hf]. split; cbn [sv_world sv_runs sv_starts] in *.
  - intros i g [Hi|[_ Hi]]%lookup_app_Some Ha.
    + unfold busy, preorder_of. rewrite Hs by (by eapply Hne). by eapply (Hb i).
    + by apply list_lookup_singleton_Some in Hi as [_ <-].
  - intros i j g h [Hi|[Hi Hi']]%lookup_app_Some [Hj|[Hj Hj']]%lookup_app_Some Hg Hh E.
    + by eapply Ho.
    + apply list_lookup_singleton_Some in Hj' as [_ <-]. by destruct (Hne i g Hi Hg).
    + apply list_lookup_singleton_Some in Hi' as [_ <-]. symmetry in E. by destruct (Hne j h Hj Hh).
    + apply list_lookup_singleton_Some in Hi' as [? _], Hj' as [? _]. lia.
  - intros ad' Had. unfold preorder_of.
    rewrite Hs by (rewrite Ead; by eapply serial_others). apply Hf.
    apply elem_of_app in Had as [?|?]; apply elem_of_app; [by left|right; by right].
Qed.

Lemma exclusive_refused ad w w' gs ads1 ads2 :
  withdrawn ad (w_state w) (w_state w') → serial (mkServer w gs (ads1 ++ ad :: ads2)) →
  exclusive (mkServer w gs (ads1 ++ ad :: ads2)) → exclusive (mkServer w' gs (ads1 ++ ads2)).
Proof.
  intros [Hs _] Hser Hex. split; cbn [sv_world sv_runs sv_starts].
  - intros i g Hi Ha. unfold busy, preorder_of. rewrite Hs; [by eapply (ex_busy _ Hex i)|].
    apply (exclusive_free w gs (ads1 ++ ad :: ads2) ad i g); [done| |done..]. apply elem_of_app. right. by left.
  - apply (ex_one _ Hex).
  - intros ad' Had. unfold preorder_of. rewrite Hs by (by eapply serial_others). apply (ex_free _ Hex).
    cbn [sv_starts]. apply elem_of_app in Had as [?|?]; apply elem_of_app; [by left|right; by right].
Qed.

Lemma exclusive_run i x y :
  run_step http_do bad_url clock order readFile cfg i x y → exclusive x → exclusive y.
Proof.
  destruct x as [w gs ads]. intros (sd & ph & tr & ph' & w' & Hi & Hown & ->) [Hb Ho Hf].
  cbn [sv_world sv_runs sv_starts] in *.
  assert (alive ph' → alive ph) as Hback
    by (intros Ha'; split; intros ->; inversion Hown; subst; by destruct Ha').
  assert (∀ j g, <[i:=(sd, ph')]> gs !! j = Some g → alive g.2 →
    ∃ g0, gs !! j = Some g0 ∧ alive g0.2 ∧ g0.1 = g.1) as Hold.
  { intros j g [(<- & <- & _)|[_ Hj]]%list_lookup_insert_Some Ha; [|by exists g].
    exists (sd, ph). cbn in *. auto. }
  split; cbn [sv_world sv_runs sv_starts].
  - intros j g Hj Ha. destruct (Hold j g Hj Ha) as (g0 & Hj0 & Ha0 & <-).
    destruct (own_steady _ _ _ _ _ _ Hown) as [Hs|(-> & Hdead & Hs)].
    { apply (steady_busy _ _ _ _ Hs). by eapply Hb. }
    assert (s_ID (sd_session g0.1) ≠ s_ID (sd_session sd)) as Hne.
    { intros E. assert (j = i) as -> by (eapply (Ho j i g0 (sd, Finishing)); done).
      rewrite list_lookup_insert_eq in Hj by (by eapply lookup_lt_Some). by injection Hj as <-. }
    unfold busy, preorder_of. rewrite Hs by done. by apply (Hb j).
  - intros j k g h Hj Hk Hg Hh E. destruct (Hold j g Hj Hg) as (g0 & Hj0 & Hg0 & E1).
    destruct (Hold k h Hk Hh) as (h0 & Hk0 & Hh0 & E2). rewrite <- E1, <- E2 in E. by eapply Ho.
  - intros ad Had Hrun. destruct (preorder_of _ (w_state w')) as [st u] eqn:E. cbn [ps_Status] in Hrun. subst st.
    destruct (own_busy _ _ _ _ _ _ _ _ Hown E) as [Hbusy _]. apply (Hf ad Had). unfold busy in Hbusy. by rewrite Hbusy.
Qed.

Lemma exclusive_step x y : step gentle x y → serial x → exclusive x → exclusive y.
Proof.
  intros [now uuid rq w gs ads Hg|w w' gs ads Hs|ad w w' gs ads Hs Hi|ad cs sd w w' gs ads1 ads2 Hs|
    ad w w' gs ads1 ads2 Hs|i x0 y0 Hs]%step_cases Hser Hex.
  - by eapply exclusive_steady; [apply steady_run_on, still_api|].
  - by eapply exclusive_steady.
  - eapply exclusive_steady; [exact Hs|]. by apply exclusive_check.
  - by eapply exclusive_start.
  - by eapply exclusive_refused.
  - by eapply exclusive_run.
Qed.

Lemma exclusive_reachable w0 x :
  serial_reachable http_do bad_url clock order sort_slice readFile cfg gentle w0 x → exclusive x.
Proof.
  intros Hx. unfold serial_reachable in Hx. remember (mkServer w0 [] []) as x0 eqn:E.
  assert (exclusive x0 ∧ serial x0) as [Hex Hser].
  { subst x0. split; [split; try done; intros ad Had; inversion Had|constructor]. }
  clear E. induction Hx as [|x1 x2 x3 [Hs Hser2] _ IH]; [done|]. apply IH; [by eapply exclusive_step|done].
Qed.
End Accounted.

(** C16: No session stays busy.  Start the server with no session busy and let
    anything happen, in any order: requests of the API, discoveries, callbacks,
    latency events, runs that start, are refused, stopped or whose session is
    deleted and created again, starts of one session that come between each
    other, and the steps of all their goroutines.  Then a session that is busy
    is busy with a run whose goroutine is there, and a number of steps of that
    goroutine alone, linear in its batch, makes the session idle again. *)
Theorem busy_session_freed {B L} `{Crypto, Bytes B, JsonCodec B, Sprint, MongoServer B, SessionWire B,
    RunLogStore B L, Env, Rand} http_do bad_url clock order sort_slice readFile cfg
    (w0 : world B (astore B) L) x s u :
  (∀ ps : PreorderState, marshal ps ≠ None) → (∀ s u, ¬ busy (w_state w0) s u) →
  server_reachable http_do bad_url clock order sort_slice readFile cfg (λ _, True) w0 x →
  busy (w_state (sv_world x)) s u →
  ∃ i g n y,
    sv_runs x !! i = Some g ∧ goroutine_for s u g ∧ (n ≤ 120 * batch_max g.1 + 57)%nat ∧
    nsteps (run_step http_do bad_url clock order readFile cfg i) n x y ∧
    preorder_of s (w_state (sv_world y)) = mkPreorderState PreorderIdle "".
Proof.
  intros He Hw Hx Hb.
  destruct (accounted_reachable http_do bad_url clock order sort_slice readFile cfg He _ w0 x Hw Hx)
    as [Hbusy Hphase].
  destruct (Hbusy s u Hb) as (i & [sd ph] & Hi & Hs & Hu & Ha). destruct (Hphase i _ Hi) as [Hok Hk].
  destruct x as [w gs ads]. cbn [sv_world sv_runs fst snd] in *. subst s.
  destruct (goroutine_frees http_do bad_url clock order readFile cfg He _ i sd ph w gs ads Hi Hok Ha Hk)
    as (n & y & Hn & Hstep & Hp).
  by exists i, (sd, ph), n, y.
Qed.

(** C37: A session has at most one run at a time, as long as no two starts of
    it come between each other.  Start the server with no session busy and let
    anything happen in any order but the stopping, deletion and replacement of
    sessions: requests, discoveries, callbacks, latency events, starts of runs
    on any sessions (two starts of one session one after the other), and the
    steps of all goroutines.  Then a session is busy with a run exactly when a
    goroutine is executing that run, no session has two goroutines, and no
    start that has been checked is of a busy session.
    (Without that proviso there can be two: [overlapping_starts_both_run].) *)
Theorem one_run_per_session {B L} `{Crypto, Bytes B, JsonCodec B, Sprint, MongoServer B, SessionWire B,
    RunLogStore B L, Env, Rand} http_do bad_url clock order sort_slice readFile cfg
    (w0 : world B (astore B) L) x :
  (∀ ps : PreorderState, marshal ps ≠ None) → (∀ s u, ¬ busy (w_state w0) s u) →
  serial_reachable http_do bad_url clock order sort_slice readFile cfg gentle w0 x →
  (∀ s u, busy (w_state (sv_world x)) s u ↔ ∃ i g, sv_runs x !! i = Some g ∧ goroutine_for s u g) ∧
  (∀ s u v i j g h, sv_runs x !! i = Some g → sv_runs x !! j = Some h →
     goroutine_for s u g → goroutine_for s v h → i = j) ∧
  (∀ ad u, ad ∈ sv_starts x → ¬ busy (w_state (sv_world x)) (s_ID (ad_session ad)) u).
Proof.
  intros He Hw Hx. pose proof (serial_reachable_reachable _ _ _ _ _ _ _ _ _ _ Hx) as Hx'.
  destruct (accounted_reachable http_do bad_url clock order sort_slice readFile cfg He _ w0 x Hw Hx') as [Hacc _].
  destruct (exclusive_reachable http_do bad_url clock order sort_slice readFile cfg He w0 x Hx) as [Hb Ho Hf].
  split_and!.
  - intros s u. split; [apply Hacc|]. intros (i & g & Hi & <- & <- & Ha). by eapply Hb.
  - intros s u v i j g h Hi Hj (Hs & _ & Ha) (Hs' & _ & Ha'). eapply Ho; [exact Hi|exact Hj|done..|congruence].
  - intros ad u Had Hbusy. apply (Hf ad Had). unfold busy in Hbusy. by rewrite Hbusy.
Qed.

(** ** Witness: a run is started and brought to its end *)
Section Demo.
#[local] Existing Instances wire_text wire_json wire_sessions toy_crypto wire_sprint demo_env demo_rand.
#[local] Transparent gmap_empty.

Abbreviation demo_step := (server_step demo_registry (λ _, None) Z.of_nat elements (λ l, l)
  demo_files demo_cfg (S := astore wire)).
Abbreviation demo_run_step := (run_step demo_registry (λ _, None) Z.of_nat elements
  demo_files demo_cfg (S := astore wire)).
Abbreviation demo_world_t := (world wire (astore wire) (MemoryStore wire)).

Lemma ready_idle s u : ¬ busy (w_state ready_world) s u.
Proof.
  unfold busy, preorder_of. change (w_state ready_world) with ready_state. unfold ready_state. by akey.
Qed.

Lemma ready_session : ready_state (KSession "s1") = Some demo_session.
Proof. reflexivity. Qed.

(** The server after the start of the demo run. *)
Definition demo_goroutine (sd : started wire) (w : demo_world_t) : goroutine :=
  (sd, (run_start (S := astore wire) sd demo_coordinator w).1).
Definition demo_server (sd : started wire) (w : demo_world_t) : server (S := astore wire) :=
  mkServer w [demo_goroutine sd w] [].

(** The start is checked, and the rest of it follows. *)
Definition demo_admission : admission := mkAdmission demo_session (mkPreorder 1 2 "") 1 2.
Definition demo_commit (uuid : string) : prog wire (outcome (result error (started wire))) :=
  start_commit demo_files 0 uuid demo_admission.

Lemma demo_check :
  run_on 0 (start_checks demo_cfg 0 "s1" (Some (mkPreorder 1 2 ""))) ready_world = (Ok demo_admission, ready_world).
Proof.
  destruct (checks_outcome demo_cfg 0 "s1" (Some (mkPreorder 1 2 "")) (w_state ready_world) (w_mongo ready_world))
    as (r & Er & Had).
  pose proof (start_split demo_cfg demo_files 0 "r1" "s1" (Some (mkPreorder 1 2 ""))
    (w_state ready_world) (w_mongo ready_world)) as Hsp.
  destruct ready_starts as (sd & w1 & Hs). unfold run_on, ready_start in *.
  rewrite run_bind, Er in Hsp. rewrite Hsp in Hs. rewrite Er. destruct r as [[sess rq rps dur]|e]; [|discriminate Hs].
  destruct (Had _ eq_refl) as (E & _ & _ & _ & Erq & Erate & _). cbn [ad_session ad_request ad_rps ad_dur] in *.
  assert (demo_session = sess) as <- by (apply (inj Some); etransitivity; [symmetry; exact ready_session|exact E]).
  injection Erq as <-. vm_compute in Erate. injection Erate as <- <-. reflexivity.
Qed.

Lemma demo_start : run_on 0 ready_start ready_world = run_on 0 (demo_commit "r1") ready_world.
Proof.
  pose proof (start_split demo_cfg demo_files 0 "r1" "s1" (Some (mkPreorder 1 2 ""))
    (w_state ready_world) (w_mongo ready_world)) as Hsp. pose proof demo_check as Hc.
  unfold run_on, ready_start in *. rewrite Hsp, run_bind.
  destruct (run 0 (start_checks _ _ _ _) _) as [r [a m]] eqn:E. injection Hc as ->.
  destruct (checks_outcome demo_cfg 0 "s1" (Some (mkPreorder 1 2 "")) (w_state ready_world) (w_mongo ready_world))
    as (r & Er & _). rewrite Er in E. by injection E as _ <- <-.
Qed.

(** A commit of it on any world. *)
Lemma demo_committed uuid (w : demo_world_t) sd w' :
  run_on 0 (demo_commit uuid) w = (Done (Ok sd), w') →
  s_ID (sd_session sd) = "s1" ∧ r_ID (sd_run sd) = uuid ∧ busy (w_state w') "s1" uuid.
Proof.
  pose proof (commit_outcome demo_marshal demo_files 0 uuid demo_admission (w_state w) (w_mongo w)) as Ho.
  unfold run_on, demo_commit. destruct (run _ _ _) as [x [a' m']]. intros [= -> <-].
  destruct Ho as [(E & _ & _ & _ & Er & Hb & _) _]. by rewrite E, Er.
Qed.

Lemma demo_busy : ∃ sd w1,
  run_on 0 ready_start ready_world = (Done (Ok sd), w1) ∧ busy (w_state w1) "s1" "r1" ∧
  ∀ allowed, rtc (λ x y, demo_step allowed x y ∧ serial y) (mkServer ready_world [] []) (demo_server sd w1).
Proof.
  destruct ready_starts as (sd & w1 & Hs). assert (Hst := Hs). rewrite demo_start in Hst.
  destruct (demo_committed _ _ _ _ Hst) as (_ & _ & Hb).
  exists sd, w1. split; [exact Hs|]. split; [exact Hb|].
  intros allowed. eapply rtc_l; [split|apply rtc_once; split].
  - exact (step_check _ _ _ _ _ _ demo_cfg allowed 0 "s1" _ ready_world [] [] _ ready_world demo_check).
  - apply NoDup_singleton.
  - exact (step_start _ _ _ _ _ _ demo_cfg allowed demo_files 0 "r1" _ demo_coordinator ready_world [] [] [] sd w1 Hst).
  - constructor.
Qed.

Lemma demo_reachable sd w1 :
  (∀ allowed, rtc (λ x y, demo_step allowed x y ∧ serial y) (mkServer ready_world [] []) (demo_server sd w1)) →
  rtc (demo_step (λ _, True)) (mkServer ready_world [] []) (demo_server sd w1).
Proof. intros Hx. eapply rtc_subrel; [|exact (Hx (λ _, True))]. by intros x y []. Qed.

Lemma busy_session_freed_witness :
  ∃ sd w1 n y, run_on 0 ready_start ready_world = (Done (Ok sd), w1) ∧ busy (w_state w1) "s1" "r1" ∧
    nsteps (demo_run_step 0) n (demo_server sd w1) y ∧
    preorder_of "s1" (w_state (sv_world y)) = mkPreorderState PreorderIdle "".
Proof.
  destruct demo_busy as (sd & w1 & Hs & Hb & Hx).
  destruct (busy_session_freed demo_registry (λ _, None) Z.of_nat elements (λ l, l)
    demo_files demo_cfg ready_world (demo_server sd w1)
    "s1" "r1" demo_marshal ready_idle (demo_reachable sd w1 Hx) Hb) as (i & g & n & y & Hi & Hg & _ & Hsteps & Hp).
  assert (i = 0%nat) as ->.
  { apply lookup_lt_Some in Hi. cbn [demo_server sv_runs length] in Hi. lia. }
  exists sd, w1, n, y. split; [exact Hs|]. split; [exact Hb|]. split; [exact Hsteps|exact Hp].
Defined.

Lemma one_run_per_session_witness :
  ∃ sd w1 i g, busy (w_state w1) "s1" "r1" ∧
    sv_runs (demo_server sd w1) !! i = Some g ∧ goroutine_for "s1" "r1" g.
Proof.
  destruct demo_busy as (sd & w1 & _ & Hb & Hx).
  destruct (one_run_per_session demo_registry (λ _, None) Z.of_nat elements (λ l, l)
    demo_files demo_cfg ready_world (demo_server sd w1) demo_marshal ready_idle (Hx _)) as [Hiff _].
  destruct (proj1 (Hiff "s1" "r1") Hb) as (i & g & Hg). exists sd, w1, i, g. exact (conj Hb Hg).
Defined.

Lemma run_on_run {A} now (p : prog wire A) (w : demo_world_t) x :
  (run now p (w_state w, w_mongo w)).1 = x →
  ∃ w', run_on now p w = (x, w') ∧ (w_state w', w_mongo w') = (run now p (w_state w, w_mongo w)).2.
Proof. unfold run_on. destruct (run _ _ _) as [y [a m]]. cbn [fst snd]. intros <-. by eexists. Qed.

Lemma demo_second : ∃ sd1 w1 sd2 w2,
  run_on 0 (demo_commit "r1") ready_world = (Done (Ok sd1), w1) ∧ run_on 0 (demo_commit "r2") w1 = (Done (Ok sd2), w2).
Proof.
  assert (done_ok (run 0 (demo_commit "r1") (ready_state, ready_mongo)).1 = true) as [sd1 E1]%done_ok_Done
    by (vm_compute; reflexivity).
  assert (done_ok (run 0 (demo_commit "r2") (run 0 (demo_commit "r1") (ready_state, ready_mongo)).2).1 = true)
    as [sd2 E2]%done_ok_Done by (vm_compute; reflexivity).
  destruct (run_on_run 0 (demo_commit "r1") ready_world _ E1) as (w1 & H1 & Hw1).
  destruct (run_on_run 0 (demo_commit "r2") w1 (Done (Ok sd2))) as (w2 & H2 & _); [rewrite Hw1; exact E2|].
  exists sd1, w1, sd2, w2. exact (conj H1 H2).
Qed.

Lemma demo_alive sd w : alive (demo_goroutine sd w).2.
Proof. by split. Qed.

(** Two starts of one session that are both checked before either is written
    both go through: the session has two goroutines, and is busy with the
    second run only. *)
Theorem overlapping_starts_both_run :
  ∃ x g h, rtc (demo_step gentle) (mkServer ready_world [] []) x ∧ sv_runs x = [g; h] ∧
    goroutine_for "s1" "r1" g ∧ goroutine_for "s1" "r2" h ∧ busy (w_state (sv_world x)) "s1" "r2".
Proof.
  destruct demo_second as (sd1 & w1 & sd2 & w2 & H1 & H2).
  destruct (demo_committed _ _ _ _ H1) as (Hs1 & Hr1 & _), (demo_committed _ _ _ _ H2) as (Hs2 & Hr2 & Hb).
  exists (mkServer w2 [demo_goroutine sd1 w1; demo_goroutine sd2 w2] []), (demo_goroutine sd1 w1), (demo_goroutine sd2 w2).
  split; [|exact (conj eq_refl (conj (conj Hs1 (conj Hr1 (demo_alive sd1 w1)))
    (conj (conj Hs2 (conj Hr2 (demo_alive sd2 w2))) Hb)))].
  eapply rtc_l; [exact (step_check _ _ _ _ _ _ demo_cfg gentle 0 "s1" _ ready_world [] [] _ ready_world demo_check)|].
  eapply rtc_l; [exact (step_check _ _ _ _ _ _ demo_cfg gentle 0 "s1" _ ready_world [] _ _ ready_world demo_check)|].
  eapply rtc_l; [exact (step_start _ _ _ _ _ _ demo_cfg gentle demo_files 0 "r1" _ demo_coordinator ready_world [] [] _ sd1 w1 H1)|].
  apply rtc_once.
  exact (step_start _ _ _ _ _ _ demo_cfg gentle demo_files 0 "r2" _ demo_coordinator w1 _ [] [] sd2 w2 H2).
Qed.
End Demo.
