(* ===== verification/Lifecycle.v ===== *)
(** * The process: start-up and shutdown ([cmd/server/main.go],
    [config/di/container.go], [shared/redis], [shared/mongo])

    What the process does to the outside world is a trace of events; each is
    answered by the outside: [None] when it succeeds.  [main] has two ways to
    end: a signal, after which it shuts down in order, or the server's
    listener failing, which exits at once. *)
From stdpp Require Import prelude list strings.
From S2P Require Import Prelude GoStrings GoTime Json ApiError RateLimiter SessionTypes Config Routes Coordinator Manager Seller Callbacks SessionApi Server.
Local Open Scope string_scope.

(** ** Events *)

Inductive event :=
  | RedisOpen (url password : string) (db : Z)
  | RedisPing
  | RedisClose
  | MongoConnect (uri : string)
  | MongoPing
  | MongoDisconnect
  | CreateUniqueIndex (collection : string) (keys : list string)
  | ScriptLoad
  | Listen (addr : string)
  | AppShutdown.
#[export] Instance event_eq_dec : EqDecision event.
Proof. solve_decision. Defined.

(** A computation that performs events. *)
Definition io (A : Type) : Type := list event * A.
Definition ret {A} (a : A) : io A := ([], a).
Definition and_then {A B} (p : io A) (k : A → io B) : io B :=
  (p.1 ++ (k p.2).1, (k p.2).2)%list.
Notation "'do!' x <- p 'in' k" := (and_then p (λ x, k)) (at level 200, x binder, p at level 100, k at level 200).

Section Process.
Variable answer : event → option error.
Variable parse_url : string → option error.     (* redis.ParseURL *)
Variable script_sha : result error string.      (* the answer to SCRIPT LOAD *)

Definition perform (e : event) : io (option error) := ([e], answer e).

(** ** [shared/redis], [shared/mongo] *)

(** [NewClient] of [shared/redis/redis.go]. *)
Definition redis_url (cfg : Config) : string := "redis://" ++ trim_prefix "redis://" (RedisURL cfg).
Definition Redis_NewClient (cfg : Config) : io (option error) :=
  let url := redis_url cfg in
  match parse_url url with
  | Some e => ret (Some (EWrap "parse redis url" e))
  | None =>
      do! _ <- perform (RedisOpen url (RedisPassword cfg) (RedisDB cfg)) in
      do! e <- perform RedisPing in
      ret (EWrap "ping redis" <$> e)
  end.
Definition Redis_Ping : io (option error) := perform RedisPing.
Definition Redis_Close : io (option error) := perform RedisClose.

(** [NewClient] of [shared/mongo/mongo.go]. *)
Definition Mongo_NewClient (uri : string) : io (option error) :=
  do! e <- perform (MongoConnect uri) in
  match e with
  | Some e => ret (Some (EWrap "mongo connect" e))
  | None => do! e <- perform MongoPing in ret (EWrap "mongo ping" <$> e)
  end.
Definition Mongo_Close : io (option error) := perform MongoDisconnect.

(** [ensureLatencyIndexes]: a failure is logged. *)
Definition ensureLatencyIndexes : io () :=
  do! _ <- perform (CreateUniqueIndex "run_latency_events" ["run_id"; "stage"; "txn_id"]) in
  do! _ <- perform (CreateUniqueIndex "run_latency_summary" ["run_id"; "stage"]) in
  ret ().

(** ** [config/di/container.go] *)

Record Container := mkContainer {
  ct_cfg : Config;
  ct_store : log_backend;
  ct_sessionTTL : Z;
  ct_rateLimiter : RateLimiter;
}.

(** [cfg] is what [Load] returned; it has no errors. *)
Definition BuildContainer (cfg : Config) : io (result error Container) :=
  do! e <- Redis_NewClient cfg in
  match e with
  | Some e => ret (Err (EWrap "init redis" e))
  | None =>
      do! e <- Mongo_NewClient (MongoURI cfg) in
      match e with
      | Some e => ret (Err (EWrap "init mongo" e))
      | None =>
          do! _ <- ensureLatencyIndexes in
          do! _ <- perform ScriptLoad in
          let rl := match RateLimiter_Init script_sha (rate_limiter cfg) with
                    | Ok rl => rl
                    | Err _ => rate_limiter cfg
                    end in
          ret (Ok (mkContainer cfg (run_log_backend cfg) (manager_ttl (SessionTTLSeconds cfg)) rl))
      end
  end.

(** [GET /health]: the status and the body. *)
Definition health (redis : option error) : Z * json :=
  match redis with
  | Some e => (503%Z, JObj {["status" := JStr "degraded"; "error" := JStr (error_text e)]})
  | None => (200%Z, JObj {["status" := JStr "ok"]})
  end.

Definition Container_Close : io (option error) :=
  do! e <- Redis_Close in
  match e with
  | Some e => ret (Some e)
  | None => Mongo_Close
  end.

(** ** [main] *)

(** What ends it: a signal, or the listener, which fails at once or later. *)
Inductive ending := Signal | ListenFails (e : error).

(** The exit status: [log.Fatalf] exits with 1, without deferred calls. *)
Definition main (env : string → string) (e : ending) : io Z :=
  do! c <- BuildContainer (Load env) in
  match c with
  | Err _ => ret 1%Z
  | Ok c =>
      do! _ <- perform (Listen (":" ++ HTTPPort (ct_cfg c))) in
      match e with
      | ListenFails _ => ret 1%Z
      | Signal =>
          do! _ <- perform AppShutdown in
          do! _ <- Container_Close in
          ret 0%Z
      end
  end.

(** ** Connections *)

(** Opened and not closed: the calls that opened and closed it succeeded. *)
Definition redis_opened (tr : list event) : Prop := ∃ url pw db, RedisOpen url pw db ∈ tr.
Definition redis_open (tr : list event) : Prop :=
  redis_opened tr ∧ (RedisClose ∈ tr → answer RedisClose ≠ None).
Definition mongo_open (tr : list event) : Prop :=
  (∃ uri, MongoConnect uri ∈ tr ∧ answer (MongoConnect uri) = None) ∧
  (MongoDisconnect ∈ tr → answer MongoDisconnect ≠ None).

(** Everything the server needs is there. *)
Definition ready (cfg : Config) : Prop :=
  parse_url (redis_url cfg) = None ∧ answer RedisPing = None ∧ answer (MongoConnect (MongoURI cfg)) = None ∧ answer MongoPing = None.
End Process.

(** *** The trace of each ending *)

(** What a complete start does before it listens. *)
Definition opening (cfg : Config) : list event :=
  [RedisOpen (redis_url cfg) (RedisPassword cfg) (RedisDB cfg); RedisPing; MongoConnect (MongoURI cfg); MongoPing;
   CreateUniqueIndex "run_latency_events" ["run_id"; "stage"; "txn_id"];
   CreateUniqueIndex "run_latency_summary" ["run_id"; "stage"]; ScriptLoad].
Definition closing (answer : event → option error) : list event :=
  [AppShutdown; RedisClose] ++ match answer RedisClose with Some _ => [] | None => [MongoDisconnect] end.

Section Traces.
Variable answer : event → option error.
Variable parse_url : string → option error.
Variable script_sha : result error string.
Implicit Types cfg : Config.

Lemma ready_cases cfg : ready answer parse_url cfg ∨ ¬ ready answer parse_url cfg.
Proof.
  unfold ready. destruct (parse_url _), (answer RedisPing), (answer (MongoConnect _)), (answer MongoPing);
    first [by left|right; by intros (?&?&?&?)].
Qed.

Lemma build_ready cfg :
  ready answer parse_url cfg →
  BuildContainer answer parse_url script_sha cfg =
    (opening cfg, Ok (mkContainer cfg (run_log_backend cfg) (manager_ttl (SessionTTLSeconds cfg))
       match RateLimiter_Init script_sha (rate_limiter cfg) with Ok rl => rl | Err _ => rate_limiter cfg end)).
Proof.
  intros (Hp & Hr & Hc & Hm). unfold BuildContainer, Redis_NewClient. rewrite Hp.
  unfold and_then, perform, Mongo_NewClient, ret, and_then, perform. cbn [fst snd fmap option_fmap option_map].
  rewrite Hr. cbn [fst snd fmap option_fmap option_map]. rewrite Hc. cbn [fst snd fmap option_fmap option_map].
  by rewrite Hm.
Qed.

(** Without one of them the process stops before it listens. *)
Lemma build_failed cfg :
  ¬ ready answer parse_url cfg →
  ∃ e tr, BuildContainer answer parse_url script_sha cfg = (tr, Err e) ∧
    tr `prefix_of` take 4 (opening cfg).
Proof.
  intros Hn. unfold BuildContainer, Redis_NewClient, and_then, perform, Mongo_NewClient, ret, and_then, perform.
  unfold ready in Hn. destruct (parse_url (redis_url cfg)) as [e|] eqn:Hp.
  { cbn. eexists _, []. split; [reflexivity|]. apply prefix_nil. }
  cbn. destruct (answer RedisPing) as [e|] eqn:Hr;
    [|cbn; destruct (answer (MongoConnect _)) as [e|] eqn:Hc;
      [|cbn; destruct (answer MongoPing) as [e|] eqn:Hm; [|by destruct Hn]]].
  all: cbn; eexists _, _; split; [reflexivity|]; by eexists.
Qed.

(** The whole trace of [main]. *)
Lemma main_trace env e :
  let cfg := Load env in
  let '(tr, code) := main answer parse_url script_sha env e in
  ready answer parse_url cfg ∧
    (let up := (opening cfg ++ [Listen (":" ++ HTTPPort cfg)])%list in
     (∃ err, e = ListenFails err) ∧ tr = up ∧ code = 1%Z ∨
     e = Signal ∧ code = 0%Z ∧ tr = (up ++ closing answer)%list) ∨
  ¬ ready answer parse_url cfg ∧ tr `prefix_of` take 4 (opening cfg) ∧ code = 1%Z.
Proof.
  unfold main. generalize (Load env). clear env. intros cfg. cbv zeta.
  destruct (ready_cases cfg) as [Hr|Hr].
  - rewrite (build_ready cfg Hr). unfold and_then, perform, ret, Container_Close, Redis_Close,
      Mongo_Close, closing, and_then, perform. cbn [fst snd ct_cfg]. left. split; [done|].
    destruct e as [|err]; [right|left].
    + split; [done|]. cbn [fst snd]. destruct (answer RedisClose); by split.
    + split; [by exists err|done].
  - destruct (build_failed cfg Hr) as (err & tr & -> & Hp). right. split; [done|].
    unfold and_then, ret. cbn [fst snd]. by rewrite app_nil_r.
Qed.
End Traces.

Lemma elem_of_closing answer x :
  x ∈ closing answer ↔ x = AppShutdown ∨ x = RedisClose ∨ x = MongoDisconnect ∧ answer RedisClose = None.
Proof. unfold closing. destruct (answer RedisClose); set_unfold; naive_solver. Qed.

#[export] Instance set_unfold_closing answer x :
  SetUnfoldElemOf x (closing answer)
    (x = AppShutdown ∨ x = RedisClose ∨ x = MongoDisconnect ∧ answer RedisClose = None).
Proof. constructor. apply elem_of_closing. Qed.

Ltac in_trace := unfold opening in *; set_unfold; naive_solver.

(** C34: The life of the process.  It listens exactly when the address of Redis
    could be read and Redis and MongoDB were opened and answered a ping, and
    everything that opens comes before; it exits with 0 exactly when it
    listened and was told to stop.  Then it first stops serving, closes Redis
    and, only if that succeeded, MongoDB: a connection that is left open is
    one whose closing failed, or MongoDB's after Redis could not be closed.
    However it exits otherwise, nothing is closed. *)
Theorem process_lifecycle answer parse_url script_sha env e :
  let cfg := Load env in
  let '(tr, code) := main answer parse_url script_sha env e in
  (∀ a, Listen a ∈ tr ↔ ready answer parse_url cfg ∧ a = ":" ++ HTTPPort cfg) ∧
  (∀ a, Listen a ∈ tr → ∃ rest, tr = (opening cfg ++ Listen a :: rest)%list) ∧
  (code = 0%Z ↔ ready answer parse_url cfg ∧ e = Signal) ∧ (code = 0%Z ∨ code = 1%Z) ∧
  (code = 0%Z →
     (redis_open answer tr ↔ answer RedisClose ≠ None) ∧
     (mongo_open answer tr ↔ answer RedisClose ≠ None ∨ answer MongoDisconnect ≠ None) ∧
     ∃ up down, tr = (up ++ AppShutdown :: down)%list ∧ RedisClose ∉ up ∧ MongoDisconnect ∉ up) ∧
  (code = 1%Z → AppShutdown ∉ tr ∧ RedisClose ∉ tr ∧ MongoDisconnect ∉ tr).
Proof.
  intros cfg. pose proof (main_trace answer parse_url script_sha env e) as Ht. fold cfg in Ht. cbv zeta in Ht.
  destruct (main answer parse_url script_sha env e) as [tr code]. clearbody cfg.
  destruct Ht as [[Hr [((err & ->) & -> & ->)|(-> & -> & ->)]]|(Hn & Hp & ->)].
  - split_and!; try done; in_trace.
  - assert (answer (MongoConnect (MongoURI cfg)) = None) as Hc by apply Hr.
    split_and!; try done.
    + in_trace.
    + intros a Ha. exists (closing answer). rewrite <- app_assoc.
      assert (a = ":" ++ HTTPPort cfg) as -> by in_trace. done.
    + by left.
    + intros _. unfold redis_open, redis_opened, mongo_open. split_and!; [in_trace| |].
      * destruct (answer RedisClose) eqn:E; in_trace.
      * exists (opening cfg ++ [Listen (":" ++ HTTPPort cfg)])%list. eexists.
        split_and!; [reflexivity|in_trace..].
  - assert (∀ x, x ∈ tr → x ∈ take 4 (opening cfg)) as Hin by (destruct Hp as [k Hk]; rewrite Hk; set_solver).
    in_trace.
Qed.

(** A server whose script could not be loaded starts all the same, and its
    limiter grants every request: neither ceiling is enforced. *)
Theorem unlimited_without_script {N} `{LuaNum N} answer parse_url e cfg :
  ready answer parse_url cfg →
  ∃ tr c, BuildContainer answer parse_url (Err e) cfg = (tr, Ok c) ∧
    ∀ es (db : redis_db N), (acquire_all es (ct_rateLimiter c) db).1.1 =
      replicate (length es) (true, "script_not_loaded").
Proof.
  intros Hr. do 2 eexists. split; [exact (build_ready answer parse_url (Err e) cfg Hr)|].
  cbn [ct_rateLimiter RateLimiter_Init]. assert (rl_scriptSHA (rate_limiter cfg) = "") as Hs by done.
  generalize (rate_limiter cfg), Hs. clear. intros rl Hs es. revert rl Hs.
  induction es as [|x es IH]; intros rl Hs db; [done|]. cbn [acquire_all length replicate].
  unfold AcquireWithReason. rewrite Hs. change ("" =? "") with true. cbn match.
  specialize (IH (count_allowed rl) Hs db).
  destruct (acquire_all es (count_allowed rl) db) as [[rs rl2] db2]. cbn [fst] in *. by rewrite IH.
Qed.

(** ** Witness: Redis cannot be closed, and MongoDB stays open *)
Definition redis_stuck (e : event) : option error :=
  if decide (e = RedisClose) then Some (EText "close") else None.

Lemma process_lifecycle_witness :
  let '(tr, code) := main redis_stuck (λ _, None) (Ok "sha") (λ _, "") Signal in
  code = 0%Z ∧ Listen ":8080" ∈ tr ∧ mongo_open redis_stuck tr.
Proof.
  pose proof (process_lifecycle redis_stuck (λ _, None) (Ok "sha") (λ _, "") Signal) as H.
  cbv zeta in H. destruct (main _ _ _ _ _) as [tr code] eqn:E.
  assert (ready redis_stuck (λ _, None) (Load (λ _, ""))) as Hr by (by split_and!).
  destruct H as (Hl & _ & Hc & _ & Hz & _). assert (code = 0%Z) as Hc0 by (by apply Hc).
  split; [exact Hc0|]. split; [apply Hl; by split|].
  apply (Hz Hc0). left. discriminate.
Defined.
