(* ===== verification/Restart.v ===== *)
(** * The process is stopped and started again

    What a run keeps in memory (its goroutine, the queued latency events, the
    callbacks counted, the cache of keys, an in-memory run log) is gone when
    the process ends; the session state in Redis, the documents in MongoDB and
    the files stay.  [main] waits for the requests it is serving, not for the
    goroutines of runs.  The session store is the abstract one, whose entries
    do not expire: the theorem holds until [SESSION_TTL_SECONDS] after the
    last write of the session's state. *)
From stdpp Require Import prelude gmap list strings.
From S2P Require Import Prelude GoStrings GoTime Json ApiError Latency Redis RunLog MemoryStore OndcAuth Registry SessionTypes StateStore Mongo RateLimiter Config Dispatcher Payloads SelectBatch Coordinator Finalize Manager Callbacks SessionApi RunReports Seller Discovery Preorder Server.
Local Open Scope string_scope.

(** The server after a restart; [l] is the run log the new process has: a new
    one in memory, or the one in Redis. *)
Definition restarted {B S L} `{MongoServer B} (w : world B S L) (l : L) : server (B := B) (S := S) (L := L) :=
  mkServer (mkWorld (w_state w) (w_mongo w) l [] [] ∅ (w_files w)) [] [].

Section Restart.
Context {B L : Type}.
Context `{Crypto, Bytes B, JsonCodec B, Sprint, MongoServer B, SessionWire B, RunLogStore B L, Env, Rand}.
Variable http_do : Z → string → B → option string → result error (Z * B).
Variable bad_url : string → option error.
Variable clock : nat → Z.
Variable order : gset string → list string.
Variable sort_slice : list (string * Z) → list (string * Z).
Variable readFile : string → result error B.
Variable cfg : Config.
Hypothesis encodes : ∀ ps : PreorderState, marshal ps ≠ None.
Implicit Types w : world B (astore B) L.

Abbreviation step := (server_step http_do bad_url clock order sort_slice readFile cfg
  (S := astore B) (L := L)).

(** A session is busy with a run nothing executes. *)
Record stranded (s u : string) (x : server (B := B) (S := astore B) (L := L)) : Prop := {
  sn_busy : busy (w_state (sv_world x)) s u;
  sn_gone : ∀ i g, sv_runs x !! i = Some g → s_ID (sd_session g.1) ≠ s;
  sn_starts ad : ad ∈ sv_starts x → s_ID (ad_session ad) ≠ s;
}.

Lemma restarted_stranded w l s u : busy (w_state w) s u → stranded s u (restarted w l).
Proof. intros Hb. split; [done|done|]. intros ad Had. inversion Had. Qed.

(** No run is started on such a session. *)
Lemma stranded_refuses rf now uuid id req s u w sd w' :
  busy (w_state w) s u →
  run_on now (startPreorder cfg rf now uuid id req) w = (Done (Ok sd), w') →
  s_ID (sd_session sd) ≠ s.
Proof.
  intros Hb Hs.
  pose proof (start_outcome cfg encodes rf now uuid id req (w_state w) (w_mongo w)) as Hst.
  unfold run_on in Hs. destruct (run _ _ _) as [x [a' m']]. simplify_eq.
  destruct Hst as [(? & ? & ? & ? & ? & Hst) _]. destruct_and! Hst. intros E. unfold busy in Hb.
  match goal with F : ps_Status (preorder_of _ (w_state w)) ≠ _ |- _ => apply F; by rewrite E, Hb end.
Qed.

Lemma elem_of_middle {A} (x y : A) l1 l2 : x ∈ (l1 ++ l2)%list → x ∈ (l1 ++ y :: l2)%list.
Proof. rewrite !elem_of_app, elem_of_cons. tauto. Qed.

Lemma stranded_step s u x y : step gentle x y → stranded s u x → stranded s u y.
Proof.
  intros Hstep%(step_cases http_do bad_url clock order sort_slice readFile cfg encodes).
  destruct Hstep as [now uuid rq w gs ads Hrq|w w' gs ads Hs|ad w w' gs ads Hs Hi|ad cs sd w w' gs ads1 ads2 (E & _ & Hs)|
    ad w w' gs ads1 ads2 [Hs _]|i [w gs ads] y (sd & ph & tr & ph' & w' & Hi & Hown & ->)];
    intros [Hb Hg Ha]; cbn [sv_world sv_runs sv_starts] in *.
  - split; [|exact Hg|exact Ha]. by apply (steady_busy (w_state w)); [apply steady_run_on, still_api|].
  - split; [|exact Hg|exact Ha]. by apply (steady_busy (w_state w)).
  - split; [by apply (steady_busy (w_state w))|exact Hg|].
    intros ad' [Had|Had]%elem_of_app; [by apply Ha|]. apply list_elem_of_singleton in Had as ->.
    intros Ead. unfold busy in Hb. rewrite Ead, Hb in Hi. by apply Hi.
  - assert (s_ID (ad_session ad) ≠ s) as Hne by (apply Ha, elem_of_app; right; by left). split.
    + unfold busy, preorder_of in *. cbn [sv_world]. rewrite Hs; [done|]. rewrite E. congruence.
    + intros i g [Hi|[_ Hi]]%lookup_app_Some; [by eapply Hg|].
      apply list_lookup_singleton_Some in Hi as [_ <-]. cbn [fst]. by rewrite E.
    + intros ad' Had. by apply Ha, elem_of_middle.
  - assert (s_ID (ad_session ad) ≠ s) as Hne by (apply Ha, elem_of_app; right; by left). split.
    + unfold busy, preorder_of in *. cbn [sv_world]. rewrite Hs; [done|congruence].
    + exact Hg.
    + intros ad' Had. by apply Ha, elem_of_middle.
  - pose proof (Hg i _ Hi) as Hne. cbn [fst] in Hne. split; cbn [sv_world sv_runs sv_starts]; [| |exact Ha].
    + destruct (own_steady http_do bad_url clock order readFile cfg encodes _ _ _ _ _ _ Hown) as [Hst|(_ & _ & Hst)];
        [by apply (steady_busy (w_state w))|]. unfold busy, preorder_of. by rewrite Hst.
    + intros j g [(<- & <- & _)|[_ Hj]]%list_lookup_insert_Some; [exact Hne|by eapply Hg].
Qed.

Lemma stranded_forever s u x y : rtc (step gentle) x y → stranded s u x → stranded s u y.
Proof. induction 1 as [|x1 x2 x3 Hs _ IH]; [done|]. intros Hx. apply IH. by eapply stranded_step. Qed.

(** A stop request takes the session out of the running state. *)
Lemma stop_request now s u (a : astore B) (m : MongoStore B) :
  busy a s u → u ≠ "" →
  preorder_of s (run now (Manager_StopRun s) (a, m)).2.1 = mkPreorderState PreorderStopping u.
Proof.
  intros Hb Hu. unfold busy, preorder_of in Hb. unfold Manager_StopRun. prog_step. rewrite Hb. cbn [ps_Status ps_ActiveRunID].
  rewrite bool_decide_true by done. rewrite (proj2 (String.eqb_neq _ _)) by done. cbn [negb orb]. prog_step.
  assert (preorder_of s (aset (KPreorder s) (Some (mkPreorderState PreorderStopping u)) a)
    = mkPreorderState PreorderStopping u) as E by (unfold preorder_of; by akey).
  set (ps := mkPreorderState PreorderStopping u) in *. unfold aput at 1.
  destruct (marshal ps) eqn:Em; [|by apply encodes in Em]. cbn [fst snd].
  set (a1 := aset _ _ a) in *. clearbody a1. destruct (a1 (KRun u)) as [r|]; [|exact E].
  clear Em. unfold aput. destruct (marshal _); cbn [fst snd]; [|exact E].
  unfold preorder_of in *. by akey.
Qed.
End Restart.

(** C36: A run that is under way when the process stops leaves its session busy
    for as long as the entry of its state lives.  Stop the server at any
    moment, in any state, and start it again: whatever is then asked of it, in
    any order (the stopping, deletion and replacement of sessions apart) and
    however its goroutines go, the session stays busy with the lost run, which
    nothing executes, no start of it is under way and none can be.  A stop
    request frees it. *)
Theorem interrupted_run_strands {B L} `{Crypto, Bytes B, JsonCodec B, Sprint, MongoServer B, SessionWire B,
    RunLogStore B L, Env, Rand} http_do bad_url clock order sort_slice readFile cfg
    (w : world B (astore B) L) l s u y :
  (∀ ps : PreorderState, marshal ps ≠ None) → busy (w_state w) s u →
  rtc (server_step http_do bad_url clock order sort_slice readFile cfg gentle) (restarted w l) y →
  busy (w_state (sv_world y)) s u ∧
  (∀ i g, sv_runs y !! i = Some g → s_ID (sd_session g.1) ≠ s) ∧
  (∀ ad, ad ∈ sv_starts y → s_ID (ad_session ad) ≠ s) ∧
  (∀ rf now uuid id req sd w', run_on now (startPreorder cfg rf now uuid id req) (sv_world y) = (Done (Ok sd), w') →
     s_ID (sd_session sd) ≠ s) ∧
  (∀ now uuid run, u ≠ "" →
     preorder_of s (w_state (run_on now (SessionApi.handle (api_settings cfg) now uuid (StopRunOf s run)) (sv_world y)).2)
       = mkPreorderState PreorderStopping u).
Proof.
  intros He Hb Hy.
  destruct (stranded_forever http_do bad_url clock order sort_slice readFile cfg He s u _ y Hy
    (restarted_stranded w l s u Hb)) as [Hbusy Hgone Hads].
  split_and!; [exact Hbusy|exact Hgone|exact Hads| |].
  - intros rf now uuid id req sd w' Hs. by eapply (stranded_refuses cfg He).
  - intros now uuid run0 Hu. unfold run_on. cbn [SessionApi.handle]. unfold stopRun. rewrite run_bind.
    pose proof (stop_request He now s u (w_state (sv_world y)) (w_mongo (sv_world y)) Hbusy Hu) as Hs.
    destruct (run now (Manager_StopRun s) _) as [x [a m]]. exact Hs.
Qed.

(** ** Witness: the process stops right after a run was started *)
Section Demo.
#[local] Existing Instances wire_text wire_json wire_sessions toy_crypto wire_sprint demo_env demo_rand.
#[local] Transparent gmap_empty.

Lemma interrupted_run_strands_witness :
  ∃ (sd : started wire) (w1 : world wire (astore wire) (MemoryStore wire)),
    run_on 0 ready_start ready_world = (Done (Ok sd), w1) ∧
    busy (w_state (sv_world (restarted w1 NewMemoryStore))) "s1" "r1" ∧
    ∀ now uuid req sd2 w2,
      run_on now (startPreorder demo_cfg demo_files now uuid "s1" req) (sv_world (restarted w1 NewMemoryStore))
        = (Done (Ok sd2), w2) → s_ID (sd_session sd2) ≠ "s1".
Proof.
  destruct demo_busy as (sd & w1 & Hs & Hb & _).
  destruct (interrupted_run_strands demo_registry (λ _, None) Z.of_nat elements (λ l, l)
    demo_files demo_cfg w1 NewMemoryStore "s1" "r1" (restarted w1 NewMemoryStore) demo_marshal Hb (rtc_refl _ _))
    as (Hb' & _ & _ & Hr & _).
  exists sd, w1. split; [exact Hs|]. split; [exact Hb'|]. intros now uuid req sd2 w2. apply Hr.
Defined.
End Demo.
